(* ===== verification/_CoqProject ===== *)
-Q . S2P
Prelude.v
GoStd.v
Types.v
Annotations.v
Nodes.v
Api.v
Rules.v
Requests.v
LoadBalancers.v
LBFacts.v
LBProps.v
ApiLaws.v
Memory.v
LBSpec.v
LBLifecycle.v
LBCluster.v
LBOverlap.v
LBWorkers.v
Termination.v
NoPanic.v
Instances.v
Resources.v
Region.v
Admission.v
FwRules.v
FwController.v
Metrics.v
Cloud.v
Startup.v
Agreement.v
Syncer.v
WorkQueue.v
FwSystem.v
Reach.v
Witnesses.v
FwWitnesses.v
OpsWitnesses.v
SysWitnesses.v
CloudWitnesses.v
ClusterWitnesses.v
WorkerWitnesses.v
