(* ===== verification/Prelude.v ===== *)
(** * The DigitalOcean cloud controller manager: a verification development

    The program connects Kubernetes to DigitalOcean.  Its parts, all in
    [src/cloud-controller-manager/do/], and the files that model them:

    - Service annotations ([annotations.go], [lb_annotations.go] and the getters
      of [loadbalancers.go]) hold a load balancer's settings: [Annotations.v],
      with the objects and annotation names in [Types.v].
    - Nodes as backends ([loadbalancers.go], [common.go], [droplets.go]):
      classification by IP stack, readiness gate, pending nodes, choice of the
      network stack, provider IDs: [Nodes.v].
    - Requests ([loadbalancers.go]): forwarding rules, health checks, sticky
      sessions, load-balancer firewall in [Rules.v]; the whole request, for the
      controller and for the admission server, in [Requests.v].
    - The load-balancer interface ([loadbalancers.go], [patch.go]):
      [GetLoadBalancer], [EnsureLoadBalancer], [UpdateLoadBalancer],
      [EnsureLoadBalancerDeleted], look-up, certificate tracking and the
      deferred patch of the Service: [LoadBalancers.v].
    - Instances ([droplets.go]): [InstanceExists], [InstanceShutdown],
      [InstanceMetadata]: [Instances.v].
    - Resource tagging ([resources.go]): [syncTags] in [Resources.v], the ticker
      that calls it ([tickerSyncer], [ResourcesController.Run]) in [Syncer.v].
    - The admission webhook ([lb_service_admission_handler.go]): [Admission.v];
      the region of the cluster ([metadata.go]): [Region.v].
    - The firewall controller ([firewall_controller.go], [_print.go],
      [_diff.go], [_cache.go]): rules, rendering and comparison in [FwRules.v];
      cache, API manager, reconciliation, resource sync and worker items as
      whole calls in [FwController.v]; event handlers, worker and sync as
      concurrent activities ([NewFirewallController], [Run], [runWorker]) in
      [FwSystem.v], around the work queue of client-go in [WorkQueue.v]; the
      metric vectors ([metrics.go]) in [Metrics.v].
    - Set-up ([cloud.go], [health.go]): [newCloud], [Initialize],
      [startAdmissionServer] and the health check in [Cloud.v]; the processes
      (both [main.go], the registry of providers), the shared Kubernetes client
      ([NewResourcesController]) and the debug and metrics servers in
      [Startup.v].

    How they interact: the service and node controllers of Kubernetes call the
    load-balancer and instance methods; these read annotations and nodes, build
    requests and send them through the [godo] client.  The admission webhook
    builds the same request and sends it for validation only ([Agreement.v]
    composes the two programs).  The firewall
    controller reads the types and health-check ports of the same Services, and
    the load-balancer ID that the load-balancer methods wrote on them ([Reach.v]
    composes the two).

    ** Conventions

    This file holds Go errors ([error], with what [errors.Is] and [errors.As]
    see), the outcome of a call ([result]: value, error, panic, or fuel used
    up), state-passing code ([M S A]: an error or panic keeps the effects before
    it), machine integers, the hint databases [go] and [ends], and the tactics
    that follow code through a relation on states ([solve_within]) or through
    its outcomes ([solve_ends]).  [GoStd.v] models the parts of Go's library in
    use.  An [int] is a [Z]; conversions to [int32] and [uint32] wrap; parsers
    report what is out of the range of 64 bits.  A nil pointer is [None] and its
    dereference [Panic].

    Everything outside the repository is an interface: a type class of calls
    over an abstract remote state ([Api.v] and the head of each component), in
    which a call may answer anything and change the remote state in any way.
    The state [net R] also keeps the calls made, in order.  [ApiLaws],
    [AtomicWrites], [ErrorResponses], [FirewallLaws], [DropletLaws] and [TagLaws]
    state the documented behaviour that some properties rely on (under [ApiLaws]
    any call, a listing too, may still fail at any time); [Memory.v], [FwWitnesses.v],
    [OpsWitnesses.v] and [SysWitnesses.v] hold executable services that keep these laws, and the
    files named [Witnesses] apply the properties to runs against them.  Go's map
    order is a function that permutes the keys, and properties hold for every
    one.

    Concurrency is a step relation.  In [FwSystem.v] a step of a goroutine makes
    at most one access to the shared cache or to the queue, and anything may
    happen between two steps; in [Syncer.v] a [select] may take any ready branch; in
    [LBLifecycle.v] and [LBCluster.v] a step is a whole call of a method, after
    which the patch of the Service is stored or lost; in [LBOverlap.v] a call is
    two steps, its look-up and its write with the patch, and calls overlap; in
    [LBWorkers.v] calls of all four methods for all Services do.

    Loops over pages are the only unbounded ones; their fuel bounds the number
    of pages asked for, and as many as the service has pages is enough
    ([all_pages_complete], [Termination.v], [firewall_search_complete]).  The
    transition systems need none.

    ** What is shown

    - [LBSpec.v]: against an API that keeps [ApiLaws], a successful ensure or
      update, for a Service that is not disowned and nodes with provider IDs,
      leaves the Service with a load balancer backed by exactly its acceptable
      nodes; a successful deletion leaves none; and whatever fails on the way,
      load balancers that are not the Service's are untouched.
      [LBFacts.v] is the program logic for these methods.
    - [LBLifecycle.v]: over any sequence of calls, failures and lost patches a
      Service that starts with at most one load balancer never has two, and keeps
      the one it has, as long as others leave it and its names alone.
      [LBOverlap.v]: nor do calls that overlap.  [LBCluster.v]: as Services come,
      are synced, fail and go, no load balancer has two Services and none is
      leaked.  [LBWorkers.v]: nor with overlapping calls for all of them.
    - [Reach.v]: once the firewall controller has come to rest, the firewall
      admits the traffic and health checks of the network load balancers.
    - [LBProps.v]: against any API, which calls a method can make, what decides
      between creation and update, what the deferred patch does to the outcome,
      when nodes are retried for, and that disowned Services are inert.
    - [Termination.v], [NoPanic.v], [Api.v]: the methods end, and do not panic with
      a valid default type; listings are complete or fail.
    - [Nodes.v], [Rules.v], [Requests.v]: which nodes become backends, the
      network stack, one rule per port, TLS safety, health-check targets, the
      validity of requests and the errors of those that cannot be built.
    - [FwRules.v], [FwController.v]: the firewall opens exactly what the Services
      call for; comparison is sound and blind to map order, so that a
      reconciliation settles; updates, re-creations, the search by name, the
      cache and the retries of worker items.
    - [WorkQueue.v], [FwSystem.v]: the queue implements, action by action, a set of
      pending and a set of busy items, with bounded retry delays; under every interleaving no change of the
      Services is lost, and while the API answers the controller comes to rest
      with the right firewall; the steps are the calls of [FwController.v].
    - [Cloud.v], [Startup.v], [Agreement.v], [Metrics.v], [Syncer.v]: controllers
      run only with a cloud that set-up made, and every other way the process
      ends has its status; set-up yields parts that
      agree, a valid default type (so that no annotation makes the controllers
      panic) and metrics that accept their labels; what the controller sends is
      what the admission server validated; the ticker keeps its pace.
    - [Instances.v], [Resources.v], [Admission.v], [Region.v]: a node is gone
      exactly on 404; metadata survives the provider ID; tagging reaches every
      known load balancer; admission only validates; the region is checked.

    ** Not modelled

    Log output, contexts and their cancellation (only its visible outcomes),
    observed durations, the lengths of periods and delays other than the retry
    delays, HTTP itself (listening and serving are parameters), the informer that
    feeds the event handlers, API clients and their tokens, the capacity of
    the queue's channel (a send that would block waits, which is a step taken
    later), [strconv.ParseFloat] (a parameter), and the framework of the
    controller manager (option defaults, flags, leader election and the service
    and node controllers, which are parameters of [Startup.v] and the callers of
    the methods elsewhere).  Where calls overlap, a look-up, which may ask for
    several pages, sees one state; a Service that is synced again under a name it
    had before, while a call of its earlier life is still on its way, is left out
    ([LBWorkers.v]); and the load balancer of a live Service is not
    deleted by others: where it is, a lost patch can leave a second one
    ([dangling_identifier_duplicates] in [CloudWitnesses.v]). *)

From stdpp Require Import base gmap strings list fin_maps sorting pretty.
From Stdlib Require Import ZArith Lia.

(** Go identifiers carry no scope, so string literals are written with
    stdpp's [stdpp_scope]; integers of the Go program are [Z]. *)
#[local] Open Scope Z_scope.

(* ------------------------------------------------------------------ *)
(** ** Go error values *)

(** The package-level [errors.New] values the program compares against.
    They are pointers in Go; here each one is a constructor. *)
Inductive sentinel :=
| ErrNetworkStackConfig
| ErrNoEligibleBackends
| errLBNotFound
| InstanceNotFound
| errNoNetworks
| ErrSyntax
| ErrRange.

#[export] Instance sentinel_eq_dec : EqDecision sentinel.
Proof. solve_decision. Defined.

(** An error value.  [Errorf] is [fmt.Errorf]: the format and its
    arguments are kept, so that [errors.Is] and [errors.As] can walk the
    arguments a [%w] verb wraps.  [NumError] is [*strconv.NumError],
    [ErrorResponse] is [*godo.ErrorResponse] (with the status code of its
    [Response], [None] for a nil [Response]), [ErrOther] is any other error
    a remote call returns, [Aggregate] is [utilerrors.Aggregate]. *)
Inductive error :=
| ErrSentinel (s : sentinel)
| ErrNew (msg : string)
| Errorf (format : string) (args : list earg)
| NumError (fn num : string) (why : sentinel)
| RetryError (format : string) (args : list earg) (retryAfter : Z)
| ErrorResponse (code : option Z) (msg : string)
| ErrOther (msg : string)
| Aggregate (errs : list error)
with earg :=
| AStr (s : string)
| AInt (z : Z)
| AInts (zs : list Z)
| AStrs (ss : list string)
| AErr (e : error)
| AWrap (e : error).

(** [errors.Is(err, target)] for a sentinel target: the error itself, what
    a [%w] verb wraps, and the members of an aggregate. *)
Fixpoint errors_Is (e : error) (target : sentinel) : bool :=
  match e with
  | ErrSentinel s => bool_decide (s = target)
  | Errorf _ args =>
      (fix go (l : list earg) : bool :=
         match l with
         | [] => false
         | AWrap e' :: l' => errors_Is e' target || go l'
         | _ :: l' => go l'
         end) args
  | NumError _ _ why => bool_decide (why = target)
  | Aggregate es =>
      (fix go (l : list error) : bool :=
         match l with
         | [] => false
         | e' :: l' => errors_Is e' target || go l'
         end) es
  | _ => false
  end.

(** [errors.As(err, **api.RetryError)]: the delay of the retry error found,
    if any.  An aggregate hides it. *)
Fixpoint errors_As_RetryError (e : error) : option Z :=
  match e with
  | RetryError _ _ after => Some after
  | Errorf _ args =>
      (fix go (l : list earg) : option Z :=
         match l with
         | [] => None
         | AWrap e' :: l' =>
             match errors_As_RetryError e' with
             | Some d => Some d
             | None => go l'
             end
         | _ :: l' => go l'
         end) args
  | _ => None
  end.

(* ------------------------------------------------------------------ *)
(** ** Results and effects *)

(** How a Go call ends: it returns a value with a nil error, it returns a
    non-nil error (its other results are then zero values nobody reads), it
    panics, or the model's fuel for an unbounded loop ran out. *)
Inductive result (A : Type) :=
| Ok (a : A)
| Err (e : error)
| Panic
| NoFuel.
Arguments Ok {A} a.
Arguments Err {A} e.
Arguments Panic {A}.
Arguments NoFuel {A}.

#[export] Instance result_ret : MRet result := @Ok.
#[export] Instance result_bind : MBind result := λ A B f r,
  match r with
  | Ok a => f a
  | Err e => Err e
  | Panic => Panic
  | NoFuel => NoFuel
  end.
#[export] Instance result_fmap : FMap result := λ A B f r,
  match r with
  | Ok a => Ok (f a)
  | Err e => Err e
  | Panic => Panic
  | NoFuel => NoFuel
  end.

(** Replace the error of a call, as [return fmt.Errorf("...", err)] does. *)
Definition map_err {A} (f : error → error) (r : result A) : result A :=
  match r with
  | Err e => Err (f e)
  | r => r
  end.

(** The result of code outside the program: a value or an error. *)
Definition of_sum {A} (r : A + error) : result A :=
  match r with inl a => Ok a | inr e => Err e end.

Lemma of_sum_Ok {A} (r : A + error) a : of_sum r = Ok a ↔ r = inl a.
Proof. destruct r; naive_solver. Qed.

Definition is_ok {A} (r : result A) : bool :=
  match r with Ok _ => true | _ => false end.

(** Code that reads and writes a state [S]: Go's mutable world, passed
    explicitly.  An error or a panic keeps the effects that precede it. *)
Definition M (S A : Type) : Type := S → result A * S.

#[export] Instance M_ret S : MRet (M S) := λ A a s, (Ok a, s).
#[export] Instance M_bind S : MBind (M S) := λ A B f m s,
  match m s with
  | (Ok a, s') => f a s'
  | (Err e, s') => (Err e, s')
  | (Panic, s') => (Panic, s')
  | (NoFuel, s') => (NoFuel, s')
  end.

Section Ops.
Context {S A : Type}.

Definition throw (e : error) : M S A := λ s, (Err e, s).
Definition panic : M S A := λ s, (Panic, s).
Definition nofuel : M S A := λ s, (NoFuel, s).
Definition get : M S S := λ s, (Ok s, s).
Definition put (s' : S) : M S unit := λ _, (Ok tt, s').
(** A pure Go function called from effectful code. *)
Definition pure (r : result A) : M S A := λ s, (r, s).
(** [v, err := m()]: hand the error to the caller instead of returning. *)
Definition attempt (m : M S A) : M S (A + error) := λ s,
  match m s with
  | (Ok a, s') => (Ok (inl a), s')
  | (Err e, s') => (Ok (inr e), s')
  | (Panic, s') => (Panic, s')
  | (NoFuel, s') => (NoFuel, s')
  end.
(** [if err != nil { return fmt.Errorf("...", err) }]. *)
Definition on_err (f : error → error) (m : M S A) : M S A := λ s,
  let '(r, s') := m s in (map_err f r, s').
(** A pointer dereference: a nil pointer panics. *)
Definition deref (p : option A) : M S A :=
  match p with Some a => mret a | None => panic end.
End Ops.

(** Run code of a smaller world inside a larger one. *)
Definition zoom {S T A} (getS : T → S) (setS : S → T → T) (m : M S A) : M T A :=
  λ t, let '(r, s') := m (getS t) in (r, setS s' t).

(* ------------------------------------------------------------------ *)
(** ** Machine integers *)

Definition min_int64 : Z := - 2 ^ 63.
Definition max_int64 : Z := 2 ^ 63 - 1.
Definition max_uint64 : Z := 2 ^ 64 - 1.
(** [int32(x)] and [uint32(x)] of a Go [int]. *)
Definition int32 (z : Z) : Z := (z + 2 ^ 31) mod 2 ^ 32 - 2 ^ 31.
Definition uint32 (z : Z) : Z := z mod 2 ^ 32.
Definition is_int64 (z : Z) : Prop := min_int64 ≤ z ≤ max_int64.
Definition is_int32 (z : Z) : Prop := - 2 ^ 31 ≤ z < 2 ^ 31.

(* ------------------------------------------------------------------ *)
(** ** Tactics and hint databases *)

Create HintDb go discriminated.

(** Case analysis on the scrutinee of a [match] or [if] in the context. *)
Ltac case_step :=
  match goal with
  | H : context [match ?x with _ => _ end] |- _ =>
      lazymatch x with context [match _ with _ => _ end] => fail | _ => idtac end;
      let E := fresh "E" in destruct x eqn:E; simplify_eq/=
  | |- context [match ?x with _ => _ end] =>
      lazymatch x with context [match _ with _ => _ end] => fail | _ => idtac end;
      let E := fresh "E" in destruct x eqn:E; simplify_eq/=
  end.

(** Case analysis until nothing is left to split, closing what [done] can. *)
Ltac go_cases := repeat (case_step; try done).

(** Unfold the monad. *)
Ltac munfold :=
  unfold mbind, M_bind, result_bind, mret, M_ret, result_ret, fmap, result_fmap,
    throw, panic, nofuel, get, put, pure, attempt, on_err, deref, map_err, zoom in *.

(* ------------------------------------------------------------------ *)
(** ** Machine-integer lemmas *)

Lemma int32_range z : is_int32 (int32 z).
Proof. unfold is_int32, int32. pose proof (Z.mod_pos_bound (z + 2 ^ 31) (2 ^ 32)). lia. Qed.

Lemma int32_id z : is_int32 z → int32 z = z.
Proof. unfold is_int32, int32. intros H. rewrite Z.mod_small; lia. Qed.

Lemma uint32_range z : 0 ≤ uint32 z < 2 ^ 32.
Proof. apply Z.mod_pos_bound. lia. Qed.

Lemma uint32_id z : 0 ≤ z < 2 ^ 32 → uint32 z = z.
Proof. intros H. by apply Z.mod_small. Qed.

#[export] Hint Resolve int32_range uint32_range : go.
#[export] Hint Rewrite int32_id uint32_id using (unfold is_int32; lia) : go.

(* ------------------------------------------------------------------ *)
(** ** Code that stays within a relation on states *)

(** Whatever its outcome, [m] takes a state to a related one. *)
Definition within {S A} (Rl : relation S) (m : M S A) : Prop := ∀ s, Rl s (m s).2.

(** The relation of keeping [f] as it is. *)
Definition same {S X} (f : S → X) : relation S := λ s s', f s' = f s.

#[export] Instance same_preorder {S X} (f : S → X) : PreOrder (same f).
Proof. split; [by intros s|]. intros s1 s2 s3 H1 H2. unfold same in *. congruence. Qed.

Section Within.
Context {S : Type} (Rl : relation S) `{!PreOrder Rl}.

Lemma within_ret {A} (a : A) : within Rl (mret a).
Proof. intros s. reflexivity. Qed.
Lemma within_throw {A} e : within Rl (throw (A := A) e).
Proof. intros s. reflexivity. Qed.
Lemma within_panic {A} : within Rl (panic (A := A)).
Proof. intros s. reflexivity. Qed.
Lemma within_nofuel {A} : within Rl (nofuel (A := A)).
Proof. intros s. reflexivity. Qed.
Lemma within_pure {A} (r : result A) : within Rl (pure r).
Proof. intros s. reflexivity. Qed.
Lemma within_deref {A} (p : option A) : within Rl (deref p).
Proof. destruct p; intros s; reflexivity. Qed.

Lemma within_bind {A B} (m : M S A) (f : A → M S B) :
  within Rl m → (∀ a, within Rl (f a)) → within Rl (m ≫= f).
Proof.
  intros Hm Hf s. specialize (Hm s). unfold mbind, M_bind.
  destruct (m s) as [[a|e| |] s']; simpl in *; [|done..]. etrans; [done|]. apply Hf.
Qed.

(** As above, knowing which values and states the continuation starts from. *)
Lemma within_bind_strong {A B} (m : M S A) (f : A → M S B) :
  within Rl m → (∀ a s s', m s = (Ok a, s') → Rl s' (f a s').2) → within Rl (m ≫= f).
Proof.
  intros Hm Hf s. specialize (Hm s). unfold mbind, M_bind.
  destruct (m s) as [[a|e| |] s'] eqn:E; simpl in *; [|done..]. etrans; [done|]. by eapply Hf.
Qed.

Lemma within_attempt {A} (m : M S A) : within Rl m → within Rl (attempt m).
Proof. intros Hm s. specialize (Hm s). unfold attempt. by destruct (m s) as [[]]. Qed.

Lemma within_on_err {A} f (m : M S A) : within Rl m → within Rl (on_err f m).
Proof. intros Hm s. specialize (Hm s). unfold on_err. by destruct (m s). Qed.
End Within.

Lemma within_mono {S A} (R1 R2 : relation S) (m : M S A) :
  (∀ s s', R1 s s' → R2 s s') → within R1 m → within R2 m.
Proof. intros HR Hm s. by apply HR. Qed.

Lemma within_run {S A} (Rl : relation S) (m : M S A) s r s' : within Rl m → m s = (r, s') → Rl s s'.
Proof. intros Hm E. specialize (Hm s). by rewrite E in Hm. Qed.

(* ------------------------------------------------------------------ *)
(** ** Code that does not run out of fuel *)

Definition ends {A} (r : result A) : Prop := r ≠ NoFuel.

Section Ends.
Context {A B : Type}.
Lemma ends_Ok (a : A) : ends (Ok a). Proof. done. Qed.
Lemma ends_Err e : ends (A := A) (Err e). Proof. done. Qed.
Lemma ends_Panic : ends (A := A) Panic. Proof. done. Qed.
Lemma ends_of_sum (r : A + error) : ends (of_sum r). Proof. by destruct r. Qed.
Lemma ends_map_err f (r : result A) : ends r → ends (map_err f r). Proof. by destruct r. Qed.
Lemma ends_fmap (f : A → B) (r : result A) : ends r → ends (f <$> r). Proof. by destruct r. Qed.
Lemma ends_absurd (r : result A) : r = NoFuel → ends r → ends (A := B) NoFuel.
Proof. by intros ->. Qed.
Lemma ends_bind (r : result A) (f : A → result B) : ends r → (∀ a, ends (f a)) → ends (r ≫= f).
Proof. intros Hr Hf. by destruct r; [apply Hf|..]. Qed.
End Ends.

Create HintDb ends discriminated.
#[export] Hint Resolve ends_Ok ends_Err ends_Panic ends_of_sum ends_map_err ends_fmap : ends.

Ltac solve_ends :=
  repeat first
    [ solve [auto with ends]
    | apply ends_bind; [|intros ?]
    | apply ends_map_err
    | apply ends_fmap
    | match goal with H : _ = NoFuel |- ends NoFuel => apply (ends_absurd _ H) end
    | case_match ].

#[export] Hint Resolve within_ret within_throw within_panic within_nofuel within_pure within_deref
  within_attempt within_on_err : go.

Ltac solve_within :=
  repeat first
    [ solve [auto with go typeclass_instances]
    | apply within_bind; [apply _| |intros ?]
    | apply within_on_err
    | apply within_attempt
    | case_match ].
