(* ===== verification/GoStd.v ===== *)
(** * Go standard library

    The functions of [strconv], [strings], [sort] and [net/netip] that the
    program calls, as executable definitions on byte strings (a Go string is
    a byte sequence, and so is Rocq's [string]).  Errors are those of the
    library: a [NumError] with [ErrSyntax] or [ErrRange]. *)

From S2P Require Import Prelude.
From stdpp Require Import base gmap strings list sorting.
From Stdlib Require Import ZArith Lia Ascii.
#[local] Open Scope Z_scope.

(* ------------------------------------------------------------------ *)
(** ** Strings as byte lists *)

Abbreviation bytes := String.list_ascii_of_string.
Abbreviation of_bytes := String.string_of_list_ascii.

Definition byte_of (c : ascii) : Z := Z.of_N (N_of_ascii c).

(** A double quote, as Go string literals escape it. *)
Definition dq : string := String (ascii_of_nat 34) EmptyString.

(** [len(s)] *)
Definition len (s : string) : Z := Z.of_nat (String.length s).

(* ------------------------------------------------------------------ *)
(** ** strconv *)
Module strconv.

(** The value of a decimal digit. *)
Definition digit (c : ascii) : option Z :=
  let b := byte_of c in
  if (48 <=? b) && (b <=? 57) then Some (b - 48) else None.

(** All bytes are digits; the number they write, without a bound. *)
Fixpoint digits (acc : Z) (l : list ascii) : option Z :=
  match l with
  | [] => Some acc
  | c :: l' => match digit c with Some d => digits (10 * acc + d) l' | None => None end
  end.

(** One digit at least. *)
Definition unsigned (l : list ascii) : option Z :=
  match l with [] => None | _ => digits 0 l end.

(** [strconv.ParseUint(s, 10, 64)] *)
Definition ParseUint (s : string) : result Z :=
  match unsigned (bytes s) with
  | None => Err (NumError "ParseUint" s ErrSyntax)
  | Some n => if n <=? max_uint64 then Ok n else Err (NumError "ParseUint" s ErrRange)
  end.

(** The sign and the digits that follow it. *)
Definition sign (l : list ascii) : bool * list ascii :=
  match l with
  | [] => (false, [])
  | c :: l' =>
      if bool_decide (c = "-"%char) then (true, l')
      else if bool_decide (c = "+"%char) then (false, l')
      else (false, l)
  end.

(** [strconv.Atoi(s)] on a 64-bit platform. *)
Definition Atoi (s : string) : result Z :=
  let '(neg, ds) := sign (bytes s) in
  match unsigned ds with
  | None => Err (NumError "Atoi" s ErrSyntax)
  | Some n =>
      let z := if neg then - n else n in
      if (min_int64 <=? z) && (z <=? max_int64) then Ok z
      else Err (NumError "Atoi" s ErrRange)
  end.

(** The decimal digits of a natural number, least significant first. *)
Fixpoint rev_digits (fuel : nat) (n : N) : list ascii :=
  match fuel with
  | O => []
  | S fuel' =>
      ascii_of_N (48 + n mod 10)
        :: (if (n <? 10)%N then [] else rev_digits fuel' (n / 10))
  end.

Definition digits_of (n : N) : list ascii := rev (rev_digits (S (N.to_nat (N.size n))) n).

(** [strconv.Itoa(z)] *)
Definition Itoa (z : Z) : string :=
  of_bytes (if z <? 0 then "-"%char :: digits_of (Z.abs_N z) else digits_of (Z.abs_N z)).

(** [strconv.ParseBool(s)] *)
Definition ParseBool (s : string) : result bool :=
  if bool_decide (s ∈ ["1"; "t"; "T"; "true"; "TRUE"; "True"]) then Ok true
  else if bool_decide (s ∈ ["0"; "f"; "F"; "false"; "FALSE"; "False"]) then Ok false
  else Err (NumError "ParseBool" s ErrSyntax).

End strconv.

(* ------------------------------------------------------------------ *)
(** ** strings *)
Module strings.

(** [strings.Split(s, sep)] for a one-byte separator. *)
Fixpoint split_bytes (sep : ascii) (l : list ascii) : list (list ascii) :=
  match l with
  | [] => [[]]
  | c :: l' =>
      if bool_decide (c = sep) then [] :: split_bytes sep l'
      else match split_bytes sep l' with
           | [] => [[c]]
           | w :: ws => (c :: w) :: ws
           end
  end.

Definition Split (s : string) (sep : ascii) : list string :=
  of_bytes <$> split_bytes sep (bytes s).

(** [strings.Join(elems, sep)] *)
Fixpoint Join (elems : list string) (sep : string) : string :=
  match elems with
  | [] => ""
  | [s] => s
  | s :: rest => s +:+ sep +:+ Join rest sep
  end.

(** The UTF-8 encodings of the code points with [unicode.IsSpace]. *)
Definition space_encodings : list (list ascii) :=
  (λ l : list N, ascii_of_N <$> l) <$>
    [ [9]; [10]; [11]; [12]; [13]; [32]; [194; 133]; [194; 160]; [225; 154; 128];
      [226; 128; 128]; [226; 128; 129]; [226; 128; 130]; [226; 128; 131];
      [226; 128; 132]; [226; 128; 133]; [226; 128; 134]; [226; 128; 135];
      [226; 128; 136]; [226; 128; 137]; [226; 128; 138]; [226; 128; 168];
      [226; 128; 169]; [226; 128; 175]; [226; 129; 159]; [227; 128; 128] ]%N.

Fixpoint strip_prefix (p l : list ascii) : option (list ascii) :=
  match p, l with
  | [], _ => Some l
  | a :: p', b :: l' => if bool_decide (a = b) then strip_prefix p' l' else None
  | _ :: _, [] => None
  end.

(** Remove one of the encodings from the front. *)
Fixpoint strip_one (encs : list (list ascii)) (l : list ascii) : option (list ascii) :=
  match encs with
  | [] => None
  | p :: encs' => match strip_prefix p l with Some l' => Some l' | None => strip_one encs' l end
  end.

Fixpoint trim_front (fuel : nat) (encs : list (list ascii)) (l : list ascii) : list ascii :=
  match fuel with
  | O => l
  | S fuel' =>
      match strip_one encs l with Some l' => trim_front fuel' encs l' | None => l end
  end.

(** [strings.TrimSpace(s)] *)
Definition TrimSpace (s : string) : string :=
  let l := trim_front (String.length s) space_encodings (bytes s) in
  of_bytes (rev (trim_front (length l) (@rev ascii <$> space_encodings) (rev l))).

Definition is_ascii (s : string) : bool := forallb (λ c, byte_of c <? 128) (bytes s).

(** ASCII lower case of one byte. *)
Definition lower (c : ascii) : ascii :=
  let b := byte_of c in
  if (65 <=? b) && (b <=? 90) then ascii_of_N (Z.to_N (b + 32)) else c.

(** [strings.ToLower(s)]: the ASCII path is the library's; a string with a
    non-ASCII byte goes through the Unicode tables, a parameter. *)
Definition ToLower (unicode_ToLower : string → string) (s : string) : string :=
  if is_ascii s then of_bytes (lower <$> bytes s) else unicode_ToLower s.

(** [strings.EqualFold(s, t)] where [t] is ASCII and has no letter that
    folds to a non-ASCII one ([k] and [s] do): simple folding is then ASCII
    case folding. *)
Definition EqualFold (s t : string) : bool :=
  bool_decide (lower <$> bytes s = lower <$> bytes t).

Definition HasPrefix (s p : string) : bool :=
  match strip_prefix (bytes p) (bytes s) with Some _ => true | None => false end.

Definition TrimPrefix (s p : string) : string :=
  match strip_prefix (bytes p) (bytes s) with Some l => of_bytes l | None => s end.

End strings.

(* ------------------------------------------------------------------ *)
(** ** sort *)
Module sort.

(** [sort.Strings]: byte-wise lexicographic order. *)
Definition Strings (l : list string) : list string := merge_sort String.le l.

End sort.

(* ------------------------------------------------------------------ *)
(** ** net/netip *)
Module netip.

Definition hex (c : ascii) : bool :=
  let b := byte_of c in
  ((48 <=? b) && (b <=? 57)) || ((97 <=? b) && (b <=? 102)) || ((65 <=? b) && (b <=? 70)).

(** The leading hexadecimal digits and the rest. *)
Fixpoint span_hex (l : list ascii) : nat * list ascii :=
  match l with
  | c :: l' => if hex c then let '(n, r) := span_hex l' in (S n, r) else (O, l)
  | [] => (O, [])
  end.

(** [parseIPv4Fields]: four decimal fields of at most 255 without leading
    zeros, separated by dots.  [n] is the number of complete fields, [v] the
    value and [k] the digits of the current one. *)
Fixpoint parseIPv4Fields (n : nat) (v : Z) (k : nat) (l : list ascii) : bool :=
  match l with
  | [] => bool_decide (n = 3%nat) && negb (bool_decide (k = 0%nat))
  | c :: l' =>
      match strconv.digit c with
      | Some d =>
          if bool_decide (k = 1%nat) && (v =? 0) then false
          else let v' := 10 * v + d in
               if 255 <? v' then false else parseIPv4Fields n v' (S k) l'
      | None =>
          if bool_decide (c = "."%char) then
            if bool_decide (k = 0%nat) then false
            else if bool_decide (n = 3%nat) then false
            else parseIPv4Fields (S n) 0 0 l'
          else false
      end
  end.

(** The loop of [parseIPv6] after a leading [::]: [i] bytes are parsed,
    [ellipsis] says whether a [::] was seen.  It accepts or rejects; every
    turn parses two bytes, so eight turns are enough. *)
Fixpoint parseIPv6_loop (fuel : nat) (i : Z) (ellipsis : bool) (s : list ascii) : bool :=
  let finish (i : Z) (ellipsis : bool) (s : list ascii) : bool :=
    match s with
    | _ :: _ => false
    | [] => if i <? 16 then ellipsis else negb ellipsis
    end in
  match fuel with
  | O => finish i ellipsis s
  | S fuel' =>
      let '(off, rest) := span_hex s in
      if bool_decide (4 < off)%nat then false
      else if bool_decide (off = 0%nat) then false
      else match rest with
           | "."%char :: _ =>
               if negb ellipsis && negb (i =? 12) then false
               else if 16 <? i + 4 then false
               else parseIPv4Fields 0 0 0 s && finish (i + 4) ellipsis []
           | [] => finish (i + 2) ellipsis []
           | c :: s' =>
               if negb (bool_decide (c = ":"%char)) then false
               else match s' with
                    | [] => false
                    | ":"%char :: s'' =>
                        if ellipsis then false
                        else match s'' with
                             | [] => finish (i + 2) true []
                             | _ => parseIPv6_loop fuel' (i + 2) true s''
                             end
                    | _ => parseIPv6_loop fuel' (i + 2) ellipsis s'
                    end
           end
  end.

(** The part before the zone, and whether the zone is acceptable. *)
Fixpoint split_zone (l : list ascii) : list ascii * bool :=
  match l with
  | [] => ([], true)
  | "%"%char :: z => ([], negb (bool_decide (z = [])))
  | c :: l' => let '(s, ok) := split_zone l' in (c :: s, ok)
  end.

Definition parseIPv6 (l : list ascii) : bool :=
  let '(s, zone_ok) := split_zone l in
  zone_ok &&
  match s with
  | ":"%char :: ":"%char :: [] => true
  | ":"%char :: ":"%char :: s' => parseIPv6_loop 8 0 true s'
  | _ => parseIPv6_loop 8 0 false s
  end.

(** [ip, err := netip.ParseAddr(s)], [err == nil && ip.Is6()]: the first of
    the bytes [.], [:] and [%] decides which parser runs. *)
Fixpoint first_mark (l : list ascii) : option ascii :=
  match l with
  | [] => None
  | c :: l' => if bool_decide (c ∈ ["."; ":"; "%"]%char) then Some c else first_mark l'
  end.

Definition ParseAddr_Is6 (s : string) : bool :=
  bool_decide (first_mark (bytes s) = Some ":"%char) && parseIPv6 (bytes s).

End netip.

(* ================================================================== *)
(** * Facts *)

(** ** strconv *)

Lemma digit_ascii d : (d < 10)%N → strconv.digit (ascii_of_N (48 + d)) = Some (Z.of_N d).
Proof.
  intros Hd. unfold strconv.digit, byte_of. rewrite N_ascii_embedding by lia.
  rewrite !(proj2 (Z.leb_le _ _)) by lia. simpl. f_equal. lia.
Qed.

Lemma digits_app acc l1 l2 :
  strconv.digits acc (l1 ++ l2)
  = match strconv.digits acc l1 with Some a => strconv.digits a l2 | None => None end.
Proof.
  revert acc. induction l1 as [|c l1 IH]; intros acc; simpl; [done|].
  destruct (strconv.digit c); simpl; [apply IH | done].
Qed.

Lemma rev_digits_value fuel n :
  (n < 2 ^ N.of_nat fuel)%N →
  ∃ k : Z, ∀ acc, strconv.digits acc (rev (strconv.rev_digits fuel n)) = Some (acc * k + Z.of_N n).
Proof.
  revert n. induction fuel as [|fuel IH]; intros n Hn.
  { exists 1. intros acc. simpl in *. f_equal. lia. }
  assert (Hmod : (n mod 10 < 10)%N) by (apply N.mod_lt; lia).
  simpl. destruct (n <? 10)%N eqn:E.
  - apply N.ltb_lt in E. exists 10. intros acc. simpl.
    rewrite digit_ascii, N.mod_small by done. f_equal. lia.
  - destruct (IH (n / 10)%N) as [k IHk].
    { rewrite Nat2N.inj_succ, N.pow_succ_r' in Hn.
      apply N.Div0.div_lt_upper_bound. lia. }
    exists (10 * k). intros acc. rewrite digits_app, IHk. simpl.
    rewrite digit_ascii by done. f_equal. pose proof (N.div_mod' n 10). lia.
Qed.

Lemma digits_of_value n acc :
  ∃ k : Z, strconv.digits acc (strconv.digits_of n) = Some (acc * k + Z.of_N n).
Proof.
  unfold strconv.digits_of. destruct (rev_digits_value (S (N.to_nat (N.size n))) n) as [k Hk]; [|eauto].
  eapply N.lt_le_trans; [apply N.size_gt|]. apply N.pow_le_mono_r; [done|].
  lia.
Qed.

Lemma rev_digits_nil fuel n : strconv.rev_digits (S fuel) n ≠ [].
Proof. done. Qed.

Lemma digits_of_unsigned n : strconv.unsigned (strconv.digits_of n) = Some (Z.of_N n).
Proof.
  destruct (digits_of_value n 0) as [k Hk]. unfold strconv.unsigned.
  destruct (strconv.digits_of n) eqn:E; [|by rewrite Hk].
  unfold strconv.digits_of in E. apply (f_equal (@rev ascii)) in E.
  by rewrite rev_involutive in E.
Qed.

Lemma bytes_of_bytes l : bytes (of_bytes l) = l.
Proof. apply String.list_ascii_of_string_of_list_ascii. Qed.

Lemma of_bytes_bytes s : of_bytes (bytes s) = s.
Proof. apply String.string_of_list_ascii_of_string. Qed.

#[export] Instance of_bytes_inj : base.Inj (=) (=) (String.string_of_list_ascii).
Proof. intros l1 l2 E. by rewrite <- (bytes_of_bytes l1), E, bytes_of_bytes. Qed.

(** A digit is not a sign. *)
Lemma sign_unsigned l n : strconv.unsigned l = Some n → strconv.sign l = (false, l).
Proof.
  destruct l as [|c l]; simpl; [done|].
  destruct (strconv.digit c) eqn:E; [|done]. intros _.
  repeat case_bool_decide; subst; [by vm_compute in E..|done].
Qed.

Lemma Atoi_unsigned l n :
  strconv.unsigned l = Some n → n ≤ max_int64 → 0 ≤ n → strconv.Atoi (of_bytes l) = Ok n.
Proof.
  intros Hu Hmax H0. unfold strconv.Atoi.
  rewrite bytes_of_bytes, (sign_unsigned _ _ Hu), Hu. unfold min_int64.
  by rewrite !(proj2 (Z.leb_le _ _)) by lia.
Qed.

(** [Atoi] reads back what [Itoa] writes, for every [int]. *)
Lemma Atoi_Itoa z : is_int64 z → strconv.Atoi (strconv.Itoa z) = Ok z.
Proof.
  intros [Hmin Hmax]. unfold strconv.Itoa. destruct (Z.ltb_spec z 0).
  - unfold strconv.Atoi. rewrite bytes_of_bytes. cbn [strconv.sign].
    rewrite bool_decide_true, digits_of_unsigned by done.
    replace (- Z.of_N (Z.abs_N z)) with z by lia.
    by rewrite !(proj2 (Z.leb_le _ _)) by done.
  - apply Atoi_unsigned; [rewrite digits_of_unsigned; f_equal|..]; lia.
Qed.

Lemma Itoa_inj z1 z2 : is_int64 z1 → is_int64 z2 → strconv.Itoa z1 = strconv.Itoa z2 → z1 = z2.
Proof. intros H1 H2 E. apply Atoi_Itoa in H1, H2. rewrite E in H1. congruence. Qed.

Lemma Atoi_range s z : strconv.Atoi s = Ok z → is_int64 z.
Proof.
  unfold strconv.Atoi, is_int64. repeat case_match; intros; simplify_eq;
    match goal with H : (_ && _) = true |- _ => apply andb_true_iff in H as [?%Z.leb_le ?%Z.leb_le] end;
    done.
Qed.

Lemma Atoi_no_panic s : strconv.Atoi s ≠ Panic ∧ strconv.Atoi s ≠ NoFuel.
Proof. unfold strconv.Atoi. repeat case_match; done. Qed.

(** ** strings *)

Lemma split_bytes_nonempty sep l : strings.split_bytes sep l ≠ [].
Proof. destruct l; simpl; repeat case_match; done. Qed.

(** Splitting a word without the separator, then a separator, then a rest. *)
Lemma split_bytes_app sep w l :
  sep ∉ w → strings.split_bytes sep (w ++ sep :: l) = w :: strings.split_bytes sep l.
Proof.
  induction w as [|c w IH]; intros Hw; simpl.
  { by rewrite bool_decide_true. }
  apply not_elem_of_cons in Hw as [Hc Hw].
  rewrite bool_decide_false by done. by rewrite IH.
Qed.

Lemma split_bytes_word sep w : sep ∉ w → strings.split_bytes sep w = [w].
Proof.
  induction w as [|c w IH]; intros Hw; simpl; [done|].
  apply not_elem_of_cons in Hw as [Hc Hw].
  rewrite bool_decide_false by done. by rewrite IH.
Qed.

Lemma bytes_app s1 s2 : bytes (s1 +:+ s2) = bytes s1 ++ bytes s2.
Proof. induction s1; simpl; [done|]. change (String ?a ?b +:+ ?c) with (String a (b +:+ c)). simpl. by f_equal. Qed.

(** [Split] undoes [Join] on a non-empty list of words without separator. *)
Lemma Split_Join sep (ws : list string) :
  ws ≠ [] → Forall (λ w, sep ∉ bytes w) ws →
  strings.Split (strings.Join ws (String sep "")) sep = ws.
Proof.
  intros Hne Hws. unfold strings.Split. destruct ws as [|w ws]; [done|]. clear Hne.
  revert w Hws. induction ws as [|w' ws IH]; intros w [Hw Hws]%Forall_cons.
  - simpl. rewrite split_bytes_word by done. simpl. by rewrite of_bytes_bytes.
  - change (strings.Join (w :: w' :: ws) (String sep ""))
      with (w +:+ String sep (strings.Join (w' :: ws) (String sep ""))).
    rewrite bytes_app. simpl bytes. rewrite split_bytes_app by done.
    rewrite fmap_cons, of_bytes_bytes. f_equal. by apply IH.
Qed.

Lemma Split_nonempty s sep : strings.Split s sep ≠ [].
Proof.
  unfold strings.Split. destruct (strings.split_bytes sep (bytes s)) eqn:E; [|done].
  by apply split_bytes_nonempty in E.
Qed.

Lemma strip_prefix_app p l : strings.strip_prefix p (p ++ l) = Some l.
Proof. induction p as [|c p IH]; simpl; [done|]. by rewrite bool_decide_true. Qed.

Lemma strip_prefix_Some p l l' : strings.strip_prefix p l = Some l' → l = p ++ l'.
Proof.
  revert l. induction p as [|c p IH]; intros [|d l]; simpl; intros E; simplify_eq; [done..|].
  case_bool_decide; simplify_eq. f_equal. auto.
Qed.

Lemma HasPrefix_app p s : strings.HasPrefix (p +:+ s) p = true.
Proof. unfold strings.HasPrefix. by rewrite bytes_app, strip_prefix_app. Qed.

Lemma TrimPrefix_app p s : strings.TrimPrefix (p +:+ s) p = s.
Proof. unfold strings.TrimPrefix. by rewrite bytes_app, strip_prefix_app, of_bytes_bytes. Qed.

Lemma HasPrefix_inv s p : strings.HasPrefix s p = true → s = p +:+ strings.TrimPrefix s p.
Proof.
  unfold strings.HasPrefix, strings.TrimPrefix. case_match eqn:E; [|done]. intros _.
  apply strip_prefix_Some in E.
  by rewrite <- (of_bytes_bytes s), E, <- (of_bytes_bytes (p +:+ _)), bytes_app, bytes_of_bytes.
Qed.

(** ** sort *)

Lemma Strings_perm l : sort.Strings l ≡ₚ l.
Proof. apply merge_sort_Permutation. Qed.

Lemma Strings_sorted l : Sorted String.le (sort.Strings l).
Proof. apply Sorted_merge_sort. apply _. Qed.

Lemma Strings_canonical l1 l2 : l1 ≡ₚ l2 → sort.Strings l1 = sort.Strings l2.
Proof.
  intros HP. apply (StronglySorted_unique String.le);
    [apply StronglySorted_merge_sort; apply _..|]. by rewrite !Strings_perm.
Qed.

#[export] Instance Strings_proper : Proper ((≡ₚ) ==> (=)) sort.Strings.
Proof. intros l1 l2. apply Strings_canonical. Qed.

#[export] Hint Resolve Split_nonempty Atoi_range : go.
