(* ===== verification/Types.v ===== *)
(** * Kubernetes and DigitalOcean objects

    The fields of the Kubernetes API objects ([k8s.io/api/core/v1]) and of
    the DigitalOcean API structs ([godo]) that the program reads or writes,
    and the annotation names of [lb_annotations.go] and
    [firewall_controller.go].  A Go [map[string]string] that may be nil is
    [option (gmap string string)]: [None] is the nil map, which
    [reflect.DeepEqual] tells from an empty one.  A pointer that may be nil
    is an [option].  Enumerations that are strings in Go stay strings. *)

From S2P Require Import Prelude GoStd.
From stdpp Require Import base gmap strings list.
From Stdlib Require Import ZArith.
#[local] Open Scope Z_scope.

Abbreviation annotations := (option (gmap string string)).

(** [val, ok := m[key]] on a possibly nil map. *)
Definition ann_get (a : annotations) (key : string) : option string :=
  match a with Some m => m !! key | None => None end.

(** [m[key]]: the empty string when the key is absent. *)
Definition ann_val (a : annotations) (key : string) : string :=
  default "" (ann_get a key).

(* ------------------------------------------------------------------ *)
(** ** k8s.io/api/core/v1 *)

Module ServicePort.
Record t := mk {
  Name : string;
  Protocol : string;
  Port : Z;      (** int32 *)
  NodePort : Z;  (** int32 *)
}.
End ServicePort.

(** One entry of a [LoadBalancerStatus]. *)
Module Ingress.
Record t := mk { IP : string; Hostname : string }.
End Ingress.

Module Service.
Record t := mk {
  Name : string;
  Namespace : string;
  UID : string;
  Annotations : annotations;
  DeletionTimestamp : option Z;
  Type_ : string;
  Ports : list ServicePort.t;
  LoadBalancerSourceRanges : list string;
  ExternalTrafficPolicy : string;
  HealthCheckNodePort : Z;  (** int32 *)
  Status : list Ingress.t;
}.

Definition set_Annotations (a : annotations) (s : t) : t :=
  mk s.(Name) s.(Namespace) s.(UID) a s.(DeletionTimestamp) s.(Type_) s.(Ports)
     s.(LoadBalancerSourceRanges) s.(ExternalTrafficPolicy) s.(HealthCheckNodePort) s.(Status).
End Service.

Definition ServiceTypeNodePort : string := "NodePort".
Definition ServiceTypeLoadBalancer : string := "LoadBalancer".
Definition ServiceExternalTrafficPolicyLocal : string := "Local".
Definition ProtocolTCP : string := "TCP".
Definition ProtocolUDP : string := "UDP".

Module NodeAddress.
Record t := mk { Type_ : string; Address : string }.
End NodeAddress.

Module NodeCondition.
Record t := mk { Type_ : string; Status : string }.
End NodeCondition.

Module Node.
Record t := mk {
  Name : string;
  Labels : gmap string string;
  ProviderID : string;
  Taints : list string;  (** the taints' keys *)
  Conditions : list NodeCondition.t;
  Addresses : list NodeAddress.t;
}.
End Node.

Definition NodeReady : string := "Ready".
Definition ConditionTrue : string := "True".
Definition NodeHostName : string := "Hostname".
Definition NodeInternalIP : string := "InternalIP".
Definition NodeExternalIP : string := "ExternalIP".

(* ------------------------------------------------------------------ *)
(** ** godo *)

Module ForwardingRule.
Record t := mk {
  EntryProtocol : string;
  EntryPort : Z;
  TargetProtocol : string;
  TargetPort : Z;
  CertificateID : string;
  TlsPassthrough : bool;
}.
End ForwardingRule.

Module HealthCheck.
Record t := mk {
  Protocol : string;
  Port : Z;
  Path : string;
  CheckIntervalSeconds : Z;
  ResponseTimeoutSeconds : Z;
  UnhealthyThreshold : Z;
  HealthyThreshold : Z;
  ProxyProtocol : option bool;
}.
End HealthCheck.

Module StickySessions.
Record t := mk { Type_ : string; CookieName : string; CookieTtlSeconds : Z }.
End StickySessions.

Module LBFirewall.
Record t := mk { Allow : list string; Deny : list string }.
End LBFirewall.

(** [godo.LoadBalancer]: the fields the program reads. *)
Module LoadBalancer.
Record t := mk {
  ID : string;
  Name : string;
  IP : string;
  IPv6 : string;
  Type_ : string;
  Status : string;
  ForwardingRules : list ForwardingRule.t;
  DropletIDs : list Z;
}.
End LoadBalancer.

(** [godo.LoadBalancerRequest]: the fields the program sets. *)
Module LoadBalancerRequest.
Record t := mk {
  Name : string;
  Algorithm : string;
  Region : string;
  SizeSlug : string;
  SizeUnit : Z;  (** uint32 *)
  Type_ : string;
  ForwardingRules : list ForwardingRule.t;
  HealthCheck : HealthCheck.t;
  StickySessions : StickySessions.t;
  DropletIDs : list Z;
  Tags : list string;
  RedirectHttpToHttps : bool;
  EnableProxyProtocol : bool;
  EnableBackendKeepalive : bool;
  VPCUUID : string;
  VPCSubnetUUID : string;
  DisableLetsEncryptDNSRecords : bool;
  ValidateOnly : bool;
  HTTPIdleTimeoutSeconds : option Z;  (** *uint64 *)
  Firewall : LBFirewall.t;
  Network : string;
  NetworkStack : string;
  IP : string;
}.

Definition set_backends (ids : list Z) (tags : list string) (region vpc : string) (r : t) : t :=
  mk r.(Name) r.(Algorithm) region r.(SizeSlug) r.(SizeUnit) r.(Type_) r.(ForwardingRules)
     r.(HealthCheck) r.(StickySessions) ids tags r.(RedirectHttpToHttps) r.(EnableProxyProtocol)
     r.(EnableBackendKeepalive) vpc r.(VPCSubnetUUID) r.(DisableLetsEncryptDNSRecords)
     r.(ValidateOnly) r.(HTTPIdleTimeoutSeconds) r.(Firewall) r.(Network) r.(NetworkStack) r.(IP).

Definition set_IP (ip : string) (r : t) : t :=
  mk r.(Name) r.(Algorithm) r.(Region) r.(SizeSlug) r.(SizeUnit) r.(Type_) r.(ForwardingRules)
     r.(HealthCheck) r.(StickySessions) r.(DropletIDs) r.(Tags) r.(RedirectHttpToHttps)
     r.(EnableProxyProtocol) r.(EnableBackendKeepalive) r.(VPCUUID) r.(VPCSubnetUUID)
     r.(DisableLetsEncryptDNSRecords) r.(ValidateOnly) r.(HTTPIdleTimeoutSeconds) r.(Firewall)
     r.(Network) r.(NetworkStack) ip.
End LoadBalancerRequest.

Module Certificate.
Record t := mk { ID : string; Name : string; Type_ : string }.
End Certificate.

Module NetworkAddr.
Record t := mk { IPAddress : string; Type_ : string }.
End NetworkAddr.

Module Networks.
Record t := mk { V4 : list NetworkAddr.t; V6 : list NetworkAddr.t }.
End Networks.

(** [godo.Droplet]: the fields the program reads. *)
Module Droplet.
Record t := mk {
  ID : Z;
  Name : string;
  Status : string;
  SizeSlug : string;
  RegionSlug : option string;  (** [Region.Slug] of a [*Region] *)
  Nets : option Networks.t;
}.
End Droplet.

(** The paging links and status code of a [*godo.Response]. *)
Module Pages.
Record t := mk { Prev : string; Next : string }.
End Pages.

Module Links.
Record t := mk { Pages : option Pages.t }.
End Links.

Module Response.
Record t := mk { StatusCode : Z; Links : option Links.t }.
End Response.

Definition StatusNotFound : Z := 404.

Definition LoadBalancerTypeRegional : string := "REGIONAL".
Definition LoadBalancerTypeRegionalNetwork : string := "REGIONAL_NETWORK".
Definition LoadBalancerNetworkTypeExternal : string := "EXTERNAL".
Definition LoadBalancerNetworkTypeInternal : string := "INTERNAL".
Definition LoadBalancerNetworkStackIPv4 : string := "IPV4".
Definition LoadBalancerNetworkStackDualstack : string := "DUALSTACK".
Definition certTypeLetsEncrypt : string := "lets_encrypt".

(** [func (d *Droplet) PrivateIPv4()] and its two siblings. *)
Definition first_of_type (ty : string) (l : list NetworkAddr.t) : string :=
  match list_find (λ a, NetworkAddr.Type_ a = ty) l with
  | Some (_, a) => a.(NetworkAddr.IPAddress)
  | None => ""
  end.

Definition droplet_addr (sel : Networks.t → list NetworkAddr.t) (ty : string) (d : Droplet.t)
    : result string :=
  match d.(Droplet.Nets) with
  | None => Err (ErrSentinel errNoNetworks)
  | Some n => Ok (first_of_type ty (sel n))
  end.

Definition PublicIPv4 : Droplet.t → result string := droplet_addr Networks.V4 "public".
Definition PrivateIPv4 : Droplet.t → result string := droplet_addr Networks.V4 "private".
Definition PublicIPv6 : Droplet.t → result string := droplet_addr Networks.V6 "public".

(* ------------------------------------------------------------------ *)
(** ** Annotation names *)

Definition annDOLoadBalancerID : string := "kubernetes.digitalocean.com/load-balancer-id".
Definition annDOLoadBalancerBase : string := "service.beta.kubernetes.io/do-loadbalancer-".
Definition annDOLoadBalancerName := annDOLoadBalancerBase +:+ "name".
Definition annDOProtocol := annDOLoadBalancerBase +:+ "protocol".
Definition annDOHealthCheckPath := annDOLoadBalancerBase +:+ "healthcheck-path".
Definition annDOHealthCheckPort := annDOLoadBalancerBase +:+ "healthcheck-port".
Definition annDOHealthCheckProtocol := annDOLoadBalancerBase +:+ "healthcheck-protocol".
Definition annDOOverrideHealthCheck := annDOLoadBalancerBase +:+ "override-health-check".
Definition annDOHealthCheckIntervalSeconds :=
  annDOLoadBalancerBase +:+ "healthcheck-check-interval-seconds".
Definition annDOHealthCheckResponseTimeoutSeconds :=
  annDOLoadBalancerBase +:+ "healthcheck-response-timeout-seconds".
Definition annDOHealthCheckUnhealthyThreshold :=
  annDOLoadBalancerBase +:+ "healthcheck-unhealthy-threshold".
Definition annDOHealthCheckHealthyThreshold :=
  annDOLoadBalancerBase +:+ "healthcheck-healthy-threshold".
Definition annDOHTTPPorts := annDOLoadBalancerBase +:+ "http-ports".
Definition annDOTLSPorts := annDOLoadBalancerBase +:+ "tls-ports".
Definition annDOHTTP2Ports := annDOLoadBalancerBase +:+ "http2-ports".
Definition annDOHTTP3Port := annDOLoadBalancerBase +:+ "http3-port".
Definition annDOTLSPassThrough := annDOLoadBalancerBase +:+ "tls-passthrough".
Definition annDOCertificateID := annDOLoadBalancerBase +:+ "certificate-id".
Definition annDOCertificateName := annDOLoadBalancerBase +:+ "certificate-name".
Definition annDOHostname := annDOLoadBalancerBase +:+ "hostname".
Definition annDOAlgorithm := annDOLoadBalancerBase +:+ "algorithm".
Definition annDOSizeSlug := annDOLoadBalancerBase +:+ "size-slug".
Definition annDOSizeUnit := annDOLoadBalancerBase +:+ "size-unit".
Definition annDOStickySessionsType := annDOLoadBalancerBase +:+ "sticky-sessions-type".
Definition annDOStickySessionsCookieName :=
  annDOLoadBalancerBase +:+ "sticky-sessions-cookie-name".
Definition annDOStickySessionsCookieTTL :=
  annDOLoadBalancerBase +:+ "sticky-sessions-cookie-ttl".
Definition annDORedirectHTTPToHTTPS := annDOLoadBalancerBase +:+ "redirect-http-to-https".
Definition annDODisableLetsEncryptDNSRecords :=
  annDOLoadBalancerBase +:+ "disable-lets-encrypt-dns-records".
Definition annDOEnableProxyProtocol := annDOLoadBalancerBase +:+ "enable-proxy-protocol".
Definition annDOEnableBackendKeepalive := annDOLoadBalancerBase +:+ "enable-backend-keepalive".
Definition annDODisownLB : string := "service.kubernetes.io/do-loadbalancer-disown".
Definition annDOHttpIdleTimeoutSeconds := annDOLoadBalancerBase +:+ "http-idle-timeout-seconds".
Definition annDODenyRules := annDOLoadBalancerBase +:+ "deny-rules".
Definition annDOAllowRules := annDOLoadBalancerBase +:+ "allow-rules".
Definition annDOType := annDOLoadBalancerBase +:+ "type".
Definition annDONetwork := annDOLoadBalancerBase +:+ "network".
Definition annDONetworkStack := annDOLoadBalancerBase +:+ "network-stack".
Definition annDOLoadBalancerIP := annDOLoadBalancerBase +:+ "ip".
Definition annDOSubnetUUID := annDOLoadBalancerBase +:+ "subnet-uuid".

(** Decidable equality on the objects. *)
#[export] Instance ServicePort_eq_dec : EqDecision ServicePort.t.
Proof. solve_decision. Defined.
#[export] Instance Ingress_eq_dec : EqDecision Ingress.t.
Proof. solve_decision. Defined.
#[export] Instance ForwardingRule_eq_dec : EqDecision ForwardingRule.t.
Proof. solve_decision. Defined.
#[export] Instance HealthCheck_eq_dec : EqDecision HealthCheck.t.
Proof. solve_decision. Defined.
#[export] Instance StickySessions_eq_dec : EqDecision StickySessions.t.
Proof. solve_decision. Defined.
#[export] Instance LBFirewall_eq_dec : EqDecision LBFirewall.t.
Proof. solve_decision. Defined.
#[export] Instance LoadBalancerRequest_eq_dec : EqDecision LoadBalancerRequest.t.
Proof. solve_decision. Defined.
