(* ===== verification/Annotations.v ===== *)
(** * Service annotations

    The functions of [annotations.go] and [loadbalancers.go] that read a
    load-balancer setting from a Service: one definition per Go function,
    with its default, its accepted values and its errors.  Error texts keep
    the Go format string (double quotes inside it are written as single
    ones) and the arguments. *)

From S2P Require Import Prelude GoStd Types.
From stdpp Require Import base gmap strings list sorting.
From Stdlib Require Import ZArith Lia Ascii.
#[local] Open Scope Z_scope.

Abbreviation svc_get s key := (ann_get (Service.Annotations s) key).
Abbreviation svc_val s key := (ann_val (Service.Annotations s) key).

(** [a == b] on strings. *)
Definition str_eqb (a b : string) : bool := bool_decide (a = b).

(** [value, found, err := getBool(annotations, key)] *)
Definition getBool (a : annotations) (key : string) : result (bool * bool) :=
  match ann_get a key with
  | None => Ok (false, false)
  | Some value =>
      match strconv.ParseBool value with
      | Err e =>
          Err (Errorf "cannot convert value %q for annotation %q to bool: %s"
                 [AStr value; AStr key; AErr e])
      | r => (λ parsed, (parsed, true)) <$> r
      end
  end.

(** ** Names and identifiers *)

Definition DefaultLoadBalancerName (uid : string) : string :=
  of_bytes (take 32 (filter (λ c, c ≠ "-"%char) (bytes ("a" +:+ uid)))).

Definition getLoadBalancerLegacyName (s : Service.t) : string :=
  DefaultLoadBalancerName s.(Service.UID).

Definition getLoadBalancerName (s : Service.t) : string :=
  let name := svc_val s annDOLoadBalancerName in
  if 0 <? len name then name else getLoadBalancerLegacyName s.

Definition getLoadBalancerID (s : Service.t) : string := svc_val s annDOLoadBalancerID.

Definition getHostname (unicode_ToLower : string → string) (s : Service.t) : string :=
  strings.ToLower unicode_ToLower (svc_val s annDOHostname).

Definition getLoadBalancerIP (s : Service.t) : string :=
  strings.TrimSpace (svc_val s annDOLoadBalancerIP).

Definition getSubnetUUID (s : Service.t) : string :=
  strings.TrimSpace (svc_val s annDOSubnetUUID).

Definition getCertificateID (s : Service.t) : string := svc_val s annDOCertificateID.

Definition getCertificateName (s : Service.t) : string := svc_val s annDOCertificateName.

(** ** Protocols and ports *)

Definition protocolTCP : string := "tcp".
Definition protocolUDP : string := "udp".
Definition protocolHTTP : string := "http".
Definition protocolHTTPS : string := "https".
Definition protocolHTTP2 : string := "http2".
Definition protocolHTTP3 : string := "http3".

Definition getProtocol (s : Service.t) : result string :=
  match svc_get s annDOProtocol with
  | None => Ok protocolTCP
  | Some protocol =>
      if bool_decide (protocol ∈ [protocolTCP; protocolHTTP; protocolHTTPS; protocolHTTP2; protocolHTTP3])
      then Ok protocol
      else Err (Errorf "invalid protocol %q specified in annotation %q"
                  [AStr protocol; AStr annDOProtocol])
  end.

(** [for ... { port, err := strconv.Atoi(port) ... }] *)
Fixpoint atoi_all (l : list string) : result (list Z) :=
  match l with
  | [] => Ok []
  | p :: l' => z ← strconv.Atoi p; zs ← atoi_all l'; Ok (z :: zs)
  end.

Definition getPorts (s : Service.t) (anno : string) : result (list Z) :=
  match svc_get s anno with
  | None => Ok []
  | Some ports => atoi_all (strings.Split ports ","%char)
  end.

Definition getHTTPPorts (s : Service.t) : result (list Z) := getPorts s annDOHTTPPorts.
Definition getHTTP2Ports (s : Service.t) : result (list Z) := getPorts s annDOHTTP2Ports.
Definition getHTTPSPorts (s : Service.t) : result (list Z) := getPorts s annDOTLSPorts.

Definition getHTTP3Port (s : Service.t) : result Z :=
  match svc_get s annDOHTTP3Port with
  | None => Ok (-1)
  | Some portStr => strconv.Atoi portStr
  end.

Definition getStrings (s : Service.t) (anno : string) : list string :=
  match svc_get s anno with
  | None => []
  | Some vals =>
      if len vals =? 0 then [] else strings.TrimSpace <$> strings.Split vals ","%char
  end.

(** [occurrences[val]++] over all lists. *)
Definition occurrences (lists : list (list Z)) : gmap Z Z :=
  foldl (λ occ list,
    foldl (λ (occ : gmap Z Z) val, <[val := default 0 (occ !! val) + 1]> occ) occ list) ∅ lists.

Definition findDups (lists : list (list Z)) : list string :=
  sort.Strings (strconv.Itoa <$> (filter (λ p, 1 < p.2) (map_to_list (occurrences lists))).*1).

Definition contains (vals : list Z) (val : Z) : bool := bool_decide (val ∈ vals).

(** ** Health checks *)

Definition kubeProxyHealthPort : Z := 10256.

(** [servicehelpers.GetServiceHealthCheckPathPort] with [NeedsHealthCheck]
    and [RequestsOnlyLocalTraffic]. *)
Definition RequestsOnlyLocalTraffic (s : Service.t) : bool :=
  if negb (str_eqb s.(Service.Type_) ServiceTypeLoadBalancer)
     && negb (str_eqb s.(Service.Type_) ServiceTypeNodePort)
  then false
  else str_eqb s.(Service.ExternalTrafficPolicy) ServiceExternalTrafficPolicyLocal.

Definition NeedsHealthCheck (s : Service.t) : bool :=
  if negb (str_eqb s.(Service.Type_) ServiceTypeLoadBalancer) then false
  else RequestsOnlyLocalTraffic s.

Definition GetServiceHealthCheckPathPort (s : Service.t) : string * Z :=
  if negb (NeedsHealthCheck s) then ("", 0)
  else if s.(Service.HealthCheckNodePort) =? 0 then ("", 0)
  else ("/healthz", s.(Service.HealthCheckNodePort)).

Definition healthCheckPathAndPort (s : Service.t) : string * Z :=
  let '(path, healthCheckNodePort) := GetServiceHealthCheckPathPort s in
  if negb (str_eqb path "") then (path, healthCheckNodePort)
  else ("/healthz", kubeProxyHealthPort).

Definition healthCheckPath (s : Service.t) : string :=
  match svc_get s annDOHealthCheckPath with
  | None => ""
  | Some path => path
  end.

(** The loop over [service.Spec.Ports] for an explicitly chosen port. *)
Fixpoint find_hc_port (s : Service.t) (port : Z) (l : list ServicePort.t) : result Z :=
  match l with
  | [] => Err (Errorf "specified health check port %d does not exist on service %s/%s"
                 [AInt port; AStr s.(Service.Namespace); AStr s.(Service.Name)])
  | servicePort :: l' =>
      if servicePort.(ServicePort.Port) =? port then
        if str_eqb servicePort.(ServicePort.Protocol) ProtocolUDP
        then Err (Errorf "health check port: %d, cannot be of protocol type UDP"
                    [AInt servicePort.(ServicePort.Port)])
        else Ok servicePort.(ServicePort.NodePort)
      else find_hc_port s port l'
  end.

(** The first TCP port. *)
Fixpoint first_tcp_port (l : list ServicePort.t) : result Z :=
  match l with
  | [] => Err (ErrNew "no health check port of protocol TCP found")
  | p :: l' =>
      if str_eqb p.(ServicePort.Protocol) ProtocolTCP then Ok p.(ServicePort.NodePort)
      else first_tcp_port l'
  end.

Definition healthCheckPort (s : Service.t) : result Z :=
  ports ← map_err (λ e, Errorf "failed to get health check port: %v" [AErr e])
            (getPorts s annDOHealthCheckPort);
  match ports with
  | [] => first_tcp_port s.(Service.Ports)
  | [port] => find_hc_port s port s.(Service.Ports)
  | _ => Err (Errorf "annotation %s only supports a single port, but found multiple: %v"
                [AStr annDOHealthCheckPort; AInts ports])
  end.

Definition healthCheckProtocol (s : Service.t) : result string :=
  let protocol := svc_val s annDOHealthCheckProtocol in
  let path := healthCheckPath s in
  if str_eqb protocol "" then
    if negb (str_eqb path "") then Ok protocolHTTP else Ok protocolTCP
  else if bool_decide (protocol ∈ [protocolTCP; protocolHTTP; protocolHTTPS]) then Ok protocol
  else Err (Errorf "invalid protocol %q specified in annotation %q"
              [AStr protocol; AStr annDOHealthCheckProtocol]).

(** [valStr, ok := service.Annotations[key]; if !ok { return dflt }; strconv.Atoi(valStr)] *)
Definition atoi_annotation (s : Service.t) (key : string) (dflt : Z) (format : string) : result Z :=
  match svc_get s key with
  | None => Ok dflt
  | Some valStr =>
      map_err (λ e, Errorf format [AStr key; AErr e]) (strconv.Atoi valStr)
  end.

Definition healthCheckIntervalSeconds (s : Service.t) : result Z :=
  atoi_annotation s annDOHealthCheckIntervalSeconds 3
    "failed to parse health check interval annotation %q: %s".
Definition healthCheckResponseTimeoutSeconds (s : Service.t) : result Z :=
  atoi_annotation s annDOHealthCheckResponseTimeoutSeconds 5
    "failed to parse health check response timeout annotation %q: %s".
Definition healthCheckUnhealthyThreshold (s : Service.t) : result Z :=
  atoi_annotation s annDOHealthCheckUnhealthyThreshold 3
    "failed to parse health check unhealthy threshold annotation %q: %s".
Definition healthCheckHealthyThreshold (s : Service.t) : result Z :=
  atoi_annotation s annDOHealthCheckHealthyThreshold 5
    "failed to parse health check healthy threshold annotation %q: %s".

(** ** Flags, sizes and types *)

(** A boolean annotation, [false] when absent, with the error reworded. *)
Definition flag_annotation (s : Service.t) (key format : string) : result bool :=
  map_err (λ e, Errorf format [AErr e]) (fst <$> getBool s.(Service.Annotations) key).

Definition getRedirectHTTPToHTTPS (s : Service.t) : result bool :=
  flag_annotation s annDORedirectHTTPToHTTPS
    "failed to get HTTP-to-HTTPS configuration setting: %s".
Definition getEnableProxyProtocol (s : Service.t) : result bool :=
  flag_annotation s annDOEnableProxyProtocol
    "failed to get proxy protocol configuration setting: %s".
Definition getDisableLetsEncryptDNSRecords (s : Service.t) : result bool :=
  flag_annotation s annDODisableLetsEncryptDNSRecords
    "failed to get disable lets encrypt dns records configuration setting: %s".
Definition getEnableBackendKeepalive (s : Service.t) : result bool :=
  flag_annotation s annDOEnableBackendKeepalive
    "failed to get backend keepalive configuration setting: %s".
Definition getDisownLB (s : Service.t) : result bool :=
  flag_annotation s annDODisownLB "failed to get disown LB configuration setting: %s".

Definition getTLSPassThrough (s : Service.t) : bool :=
  match getBool s.(Service.Annotations) annDOTLSPassThrough with
  | Ok (passThrough, _) => passThrough
  | _ => false
  end.

Definition getAlgorithm (s : Service.t) : string :=
  if str_eqb (svc_val s annDOAlgorithm) "least_connections" then "least_connections"
  else "round_robin".

Definition getSizeSlug (s : Service.t) : result string :=
  let sizeSlug := svc_val s annDOSizeSlug in
  if negb (str_eqb sizeSlug "") && negb (bool_decide (sizeSlug ∈ ["lb-small"; "lb-medium"; "lb-large"]))
  then Err (Errorf "invalid LB size slug provided: %s" [AStr sizeSlug])
  else Ok sizeSlug.

Definition getSizeUnit (s : Service.t) : result Z :=
  match svc_get s annDOSizeUnit with
  | None => Ok (uint32 0)
  | Some sizeUnitStr =>
      if str_eqb sizeUnitStr "" then Ok (uint32 0)
      else
        sizeUnit ← map_err (λ e, Errorf "invalid LB size unit %q provided: %s" [AStr sizeUnitStr; AErr e])
                     (strconv.Atoi sizeUnitStr);
        if sizeUnit <? 0
        then Err (Errorf "LB size unit must be non-negative. %d provided" [AInt sizeUnit])
        else Ok (uint32 sizeUnit)
  end.

Definition stickySessionsTypeNone : string := "none".
Definition stickySessionsTypeCookies : string := "cookies".

Definition getStickySessionsType (s : Service.t) : string :=
  if str_eqb (svc_val s annDOStickySessionsType) stickySessionsTypeCookies
  then stickySessionsTypeCookies else stickySessionsTypeNone.

Definition getStickySessionsCookieName (s : Service.t) : result string :=
  let name := svc_val s annDOStickySessionsCookieName in
  if str_eqb name ""
  then Err (ErrNew "sticky session cookie name not specified, but required")
  else Ok name.

Definition getStickySessionsCookieTTL (s : Service.t) : result Z :=
  let ttl := svc_val s annDOStickySessionsCookieTTL in
  if str_eqb ttl ""
  then Err (ErrNew "sticky session cookie ttl not specified, but required")
  else strconv.Atoi ttl.

Definition getHttpIdleTimeoutSeconds (s : Service.t) : result (option Z) :=
  match svc_get s annDOHttpIdleTimeoutSeconds with
  | None => Ok None
  | Some v =>
      Some <$> map_err (λ e, Errorf "failed to parse provided LB HTTP idle timeout seconds value '%s': %s"
                               [AStr v; AErr e])
                 (strconv.ParseUint v)
  end.

Definition getType (s : Service.t) (defaultLBType : string) : result string :=
  if str_eqb defaultLBType ""
     || (negb (str_eqb defaultLBType LoadBalancerTypeRegional)
         && negb (str_eqb defaultLBType LoadBalancerTypeRegionalNetwork))
  then Panic
  else
    let name := svc_val s annDOType in
    if str_eqb name "" then Ok defaultLBType
    else if str_eqb name LoadBalancerTypeRegional || str_eqb name LoadBalancerTypeRegionalNetwork
    then Ok name
    else Err (Errorf "only LB types supported are (%s, %s)"
                [AStr LoadBalancerTypeRegional; AStr LoadBalancerTypeRegionalNetwork]).

Definition getNetwork (s : Service.t) : result string :=
  let network := svc_val s annDONetwork in
  if str_eqb network "" then Ok LoadBalancerNetworkTypeExternal
  else if str_eqb network LoadBalancerNetworkTypeExternal || str_eqb network LoadBalancerNetworkTypeInternal
  then Ok network
  else Err (Errorf "only LB networks supported are (%s, %s)"
              [AStr LoadBalancerNetworkTypeExternal; AStr LoadBalancerNetworkTypeInternal]).

(** [updateServiceAnnotation]: allocates the map when it is nil. *)
Definition updateServiceAnnotation (s : Service.t) (annotName annotValue : string) : Service.t :=
  let m := default ∅ s.(Service.Annotations) in
  Service.set_Annotations (Some (<[annotName := annotValue]> m)) s.
Arguments updateServiceAnnotation : simpl never.

(* ================================================================== *)
(** * Facts *)

Lemma str_eqb_true a b : str_eqb a b = true ↔ a = b.
Proof. apply bool_decide_eq_true. Qed.

Lemma str_eqb_false a b : str_eqb a b = false ↔ a ≠ b.
Proof. apply bool_decide_eq_false. Qed.

Lemma str_eqb_refl a : str_eqb a a = true.
Proof. by apply str_eqb_true. Qed.

(** Turn the boolean tests of the code into propositions. *)
Ltac reflect_eqb :=
  repeat match goal with
  | H : str_eqb ?a ?b = true |- _ => apply str_eqb_true in H
  | H : str_eqb ?a ?b = false |- _ => apply str_eqb_false in H
  | H : negb ?b = true |- _ => apply negb_true_iff in H
  | H : negb ?b = false |- _ => apply negb_false_iff in H
  | H : (?a && ?b) = true |- _ => apply andb_true_iff in H as [? ?]
  | H : (?a || ?b) = false |- _ => apply orb_false_iff in H as [? ?]
  | H : bool_decide _ = true |- _ => apply bool_decide_eq_true in H
  | H : bool_decide _ = false |- _ => apply bool_decide_eq_false in H
  | H : (_ =? _) = true |- _ => apply Z.eqb_eq in H
  | H : (_ =? _) = false |- _ => apply Z.eqb_neq in H
  | H : (_ <? _) = true |- _ => apply Z.ltb_lt in H
  | H : (_ <? _) = false |- _ => apply Z.ltb_ge in H
  | H : (_ <=? _) = true |- _ => apply Z.leb_le in H
  | H : (_ <=? _) = false |- _ => apply Z.leb_gt in H
  end.

(** ** The annotation map *)

Lemma ann_get_update s k v k' :
  svc_get (updateServiceAnnotation s k v) k' = if decide (k = k') then Some v else svc_get s k'.
Proof.
  unfold updateServiceAnnotation; simpl. rewrite lookup_insert.
  case_decide; [done|]. by destruct (Service.Annotations s).
Qed.

Lemma ann_get_update_eq s k v : svc_get (updateServiceAnnotation s k v) k = Some v.
Proof. rewrite ann_get_update. by rewrite decide_True. Qed.

Lemma ann_get_update_ne s k v k' :
  k ≠ k' → svc_get (updateServiceAnnotation s k v) k' = svc_get s k'.
Proof. intros. rewrite ann_get_update. by rewrite decide_False. Qed.

Lemma ann_val_update s k v k' :
  svc_val (updateServiceAnnotation s k v) k' = if decide (k = k') then v else svc_val s k'.
Proof. unfold ann_val. rewrite ann_get_update. by case_decide. Qed.

(** A write that changes nothing: the value is already there. *)
Lemma updateServiceAnnotation_id s k v :
  svc_get s k = Some v → updateServiceAnnotation s k v = s.
Proof.
  destruct s as [??? [m|] ???????]; simpl; [|done]. intros E.
  unfold updateServiceAnnotation, Service.set_Annotations; simpl. by rewrite insert_id.
Qed.

#[export] Hint Rewrite ann_get_update_eq : go.

(** ** Types and networks *)

Definition valid_default (ty : string) : Prop :=
  ty = LoadBalancerTypeRegional ∨ ty = LoadBalancerTypeRegionalNetwork.

Lemma getType_cases s d :
  valid_default d →
  (∃ t, getType s d = Ok t ∧ valid_default t ∧ (svc_val s annDOType = "" → t = d)
        ∧ (svc_val s annDOType ≠ "" → t = svc_val s annDOType))
  ∨ (∃ e, getType s d = Err e ∧ ¬ valid_default (svc_val s annDOType) ∧ svc_val s annDOType ≠ "").
Proof.
  intros Hd. unfold getType.
  assert (str_eqb d "" || (negb (str_eqb d LoadBalancerTypeRegional)
    && negb (str_eqb d LoadBalancerTypeRegionalNetwork)) = false) as ->.
  { by destruct Hd as [-> | ->]. }
  destruct (str_eqb (svc_val s annDOType) "") eqn:E1; reflect_eqb.
  { left. exists d. naive_solver. }
  destruct (str_eqb _ _ || _) eqn:E2.
  - left. eexists. split_and!; [done| |done|done].
    apply orb_true_iff in E2 as [H|H]; reflect_eqb; [by left|by right].
  - right. eexists. split_and!; [done| |done]. reflect_eqb. intros [?|?]; congruence.
Qed.

Lemma getType_valid s d t : getType s d = Ok t → valid_default t.
Proof.
  unfold getType. repeat case_match; intros; simplify_eq.
  - apply orb_false_iff in H as [H1 H2].
    apply andb_false_iff in H2 as [?|?]; reflect_eqb; [by left|by right].
  - apply orb_true_iff in H1 as [?|?]; reflect_eqb; [by left|by right].
Qed.

Lemma getType_no_panic s d : valid_default d → getType s d ≠ Panic.
Proof. intros Hd. destruct (getType_cases s d Hd) as [(?&->&_)|(?&->&_)]; done. Qed.

Definition valid_network (n : string) : Prop :=
  n = LoadBalancerNetworkTypeExternal ∨ n = LoadBalancerNetworkTypeInternal.

Lemma getNetwork_valid s n : getNetwork s = Ok n → valid_network n.
Proof.
  unfold getNetwork. repeat case_match; intros; simplify_eq; [by left|].
  apply orb_true_iff in H0 as [?|?]; reflect_eqb; [by left|by right].
Qed.

#[export] Hint Resolve getType_valid getNetwork_valid getType_no_panic : go.

(** ** Ports shared between the annotations *)

Definition occ_step (occ : gmap Z Z) (val : Z) : gmap Z Z :=
  <[val := default 0 (occ !! val) + 1]> occ.

Lemma occ_step_lookup l occ v :
  default 0 (foldl occ_step occ l !! v) = default 0 (occ !! v) + Z.of_nat (count_occ Z.eq_dec l v).
Proof.
  revert occ. induction l as [|x l IH]; intros occ; simpl; [lia|].
  rewrite IH. unfold occ_step. rewrite lookup_insert.
  destruct (Z.eq_dec x v); case_decide; simpl; simplify_eq; lia.
Qed.

Lemma occurrences_concat lists : occurrences lists = foldl occ_step ∅ (concat lists).
Proof.
  unfold occurrences. generalize (∅ : gmap Z Z).
  induction lists as [|l lists IH]; intros occ; simpl; [done|]. by rewrite IH, foldl_app.
Qed.

Lemma occurrences_lookup lists v :
  default 0 (occurrences lists !! v) = Z.of_nat (count_occ Z.eq_dec (concat lists) v).
Proof. rewrite occurrences_concat, occ_step_lookup, lookup_empty. simpl. lia. Qed.

Lemma findDups_nil_iff lists : findDups lists = [] ↔ NoDup (concat lists).
Proof.
  rewrite NoDup_ListNoDup, (NoDup_count_occ Z.eq_dec). unfold findDups. split.
  - intros H v. pose proof (occurrences_lookup lists v) as Hv.
    destruct (occurrences lists !! v) as [n|] eqn:E; simpl in Hv; [|lia].
    destruct (decide (1 < n)) as [Hn|]; [|lia]. exfalso.
    assert (Hin : strconv.Itoa v ∈ sort.Strings (strconv.Itoa <$>
      (filter (λ p, 1 < p.2) (map_to_list (occurrences lists))).*1)).
    { rewrite Strings_perm. apply list_elem_of_fmap. exists v. split; [done|].
      apply list_elem_of_fmap. exists (v, n). split; [done|].
      apply list_elem_of_filter. split; [done|]. by apply elem_of_map_to_list. }
    rewrite H in Hin. by apply not_elem_of_nil in Hin.
  - intros H. apply Permutation_nil. rewrite Strings_perm.
    destruct (filter _ _) as [|[v n] l] eqn:E; [done|]. exfalso.
    assert (Hin : (v, n) ∈ filter (λ p, 1 < p.2) (map_to_list (occurrences lists)))
      by (rewrite E; left).
    apply list_elem_of_filter in Hin as [Hn Hin%elem_of_map_to_list]. simpl in Hn.
    pose proof (occurrences_lookup lists v) as Hv. rewrite Hin in Hv. simpl in Hv.
    specialize (H v). lia.
Qed.

(** ** Sizes *)

Lemma getSizeUnit_range s n : getSizeUnit s = Ok n → 0 ≤ n < 2 ^ 32.
Proof.
  unfold getSizeUnit, mbind, result_bind, map_err. repeat case_match; intros; simplify_eq; auto with go.
Qed.
