(* ===== verification/Nodes.v ===== *)
(** * Nodes as load-balancer backends

    [droplets.go]: provider identifiers; [common.go]: the addresses of a
    droplet; [loadbalancers.go]: classification of nodes by IP stack, the
    readiness gate for first admission, the nodes to retry for, the log
    format of node names, and the choice of the network stack. *)

From S2P Require Import Prelude GoStd Types Annotations.
From stdpp Require Import base gmap strings list sorting.
From Stdlib Require Import ZArith Lia Ascii.
#[local] Open Scope Z_scope.

(* ------------------------------------------------------------------ *)
(** ** Provider identifiers *)

Definition providerIDPrefix : string := "digitalocean://".

Definition dropletIDFromProviderID (providerID : string) : result Z :=
  if str_eqb providerID "" then Err (ErrNew "provider ID cannot be empty")
  else if negb (strings.HasPrefix providerID providerIDPrefix)
  then Err (Errorf "provider ID %q is missing prefix %q" [AStr providerID; AStr providerIDPrefix])
  else
    let provIDNum := strings.TrimPrefix providerID providerIDPrefix in
    if str_eqb provIDNum "" then Err (ErrNew "provider ID number cannot be empty")
    else map_err (λ e, Errorf "failed to convert provider ID number %q: %s" [AStr provIDNum; AErr e])
           (strconv.Atoi provIDNum).

(** [nodeAddresses]: the addresses of a droplet.  An empty private address
    is an error whose argument is a nil error. *)
Definition nodeAddresses (d : Droplet.t) : result (list NodeAddress.t) :=
  let addresses := [NodeAddress.mk NodeHostName d.(Droplet.Name)] in
  privateIP ← map_err (λ e, Errorf "could not get private ip: %v" [AErr e]) (PrivateIPv4 d);
  if str_eqb privateIP "" then Err (Errorf "could not get private ip: %v" [])
  else
    let addresses := addresses ++ [NodeAddress.mk NodeInternalIP privateIP] in
    publicIPv4 ← map_err (λ e, Errorf "could not get public ipv4: %v" [AErr e]) (PublicIPv4 d);
    let addresses :=
      if negb (str_eqb publicIPv4 "")
      then addresses ++ [NodeAddress.mk NodeExternalIP publicIPv4] else addresses in
    publicIPv6 ← map_err (λ e, Errorf "could not get public ipv6: %v" [AErr e]) (PublicIPv6 d);
    let addresses :=
      if negb (str_eqb publicIPv6 "")
      then addresses ++ [NodeAddress.mk NodeExternalIP publicIPv6] else addresses in
    Ok addresses.

(* ------------------------------------------------------------------ *)
(** ** Classification by IP stack *)

Inductive nodeClassification :=
| nodeClassSingleStackV4
| nodeClassSingleStackV6
| nodeClassDualStack
| nodeClassPublicNetUnready.

#[export] Instance nodeClassification_eq_dec : EqDecision nodeClassification.
Proof. solve_decision. Defined.

Definition isIPv6 (addr : string) : bool := netip.ParseAddr_Is6 addr.

(** The two loops over [node.Status.Addresses]. *)
Fixpoint external_stacks (l : list NodeAddress.t) (hasIPv4 hasIPv6 : bool) : bool * bool :=
  match l with
  | [] => (hasIPv4, hasIPv6)
  | addr :: l' =>
      if negb (str_eqb addr.(NodeAddress.Type_) NodeExternalIP)
      then external_stacks l' hasIPv4 hasIPv6
      else if isIPv6 addr.(NodeAddress.Address)
      then external_stacks l' hasIPv4 true
      else external_stacks l' true hasIPv6
  end.

Fixpoint internal_v4 (l : list NodeAddress.t) : bool :=
  match l with
  | [] => false
  | addr :: l' =>
      if str_eqb addr.(NodeAddress.Type_) NodeInternalIP && negb (isIPv6 addr.(NodeAddress.Address))
      then true else internal_v4 l'
  end.

Definition classifyNode (node : Node.t) (allowInternalFallback : bool) : nodeClassification :=
  let '(hasIPv4, hasIPv6) := external_stacks node.(Node.Addresses) false false in
  let hasIPv4 :=
    if negb hasIPv4 && negb hasIPv6 && allowInternalFallback
    then internal_v4 node.(Node.Addresses) else hasIPv4 in
  match hasIPv4, hasIPv6 with
  | true, true => nodeClassDualStack
  | true, false => nodeClassSingleStackV4
  | false, true => nodeClassSingleStackV6
  | false, false => nodeClassPublicNetUnready
  end.

(** [nodeState] *)
Module nodeState.
Record t := mk {
  lbReadyNodes : list Node.t;
  filteredCount : Z;
  publicNetUnreadyCount : Z;
  publicNetUnreadyNodes : list Node.t;
  singleStackV4Nodes : list Node.t;
  singleStackV6Nodes : list Node.t;
  dualStackNodes : list Node.t;
}.
End nodeState.

Definition hasSingleStackV4 (ns : nodeState.t) : bool :=
  0 <? Z.of_nat (length ns.(nodeState.singleStackV4Nodes)).
Definition hasSingleStackV6 (ns : nodeState.t) : bool :=
  0 <? Z.of_nat (length ns.(nodeState.singleStackV6Nodes)).
Definition hasDualStackNodes (ns : nodeState.t) : bool :=
  0 <? Z.of_nat (length ns.(nodeState.dualStackNodes)).
Definition isAllDualStack (ns : nodeState.t) : bool :=
  hasDualStackNodes ns && negb (hasSingleStackV4 ns).

Definition allowsPrivateOnlyBackends (lbType lbNetwork : string) : bool :=
  str_eqb lbNetwork LoadBalancerNetworkTypeInternal
  || (str_eqb lbNetwork LoadBalancerNetworkTypeExternal && str_eqb lbType LoadBalancerTypeRegional).

Definition empty_nodeState : nodeState.t := nodeState.mk [] 0 0 [] [] [] [].

(** One turn of the loop of [filterAndClassifyNodes]. *)
Definition classify_step (allowPrivateOnly isInternalLB : bool) (st : nodeState.t) (node : Node.t)
    : nodeState.t :=
  let '(nodeState.mk ready filtered unreadyCount unready v4 v6 dual) := st in
  if isInternalLB then nodeState.mk (ready ++ [node]) filtered unreadyCount unready v4 v6 dual
  else
    match classifyNode node allowPrivateOnly with
    | nodeClassPublicNetUnready =>
        nodeState.mk ready (filtered + 1) (unreadyCount + 1) (unready ++ [node]) v4 v6 dual
    | nodeClassSingleStackV6 =>
        nodeState.mk ready (filtered + 1) unreadyCount unready v4 (v6 ++ [node]) dual
    | nodeClassSingleStackV4 =>
        nodeState.mk (ready ++ [node]) filtered unreadyCount unready (v4 ++ [node]) v6 dual
    | nodeClassDualStack =>
        nodeState.mk (ready ++ [node]) filtered unreadyCount unready v4 v6 (dual ++ [node])
    end.

Definition filterAndClassifyNodes (nodes : list Node.t) (lbType lbNetwork : string) : nodeState.t :=
  let allowPrivateOnly := allowsPrivateOnlyBackends lbType lbNetwork in
  let isInternalLB := str_eqb lbNetwork LoadBalancerNetworkTypeInternal in
  foldl (classify_step allowPrivateOnly isInternalLB) empty_nodeState nodes.

(* ------------------------------------------------------------------ *)
(** ** Readiness and first admission *)

Definition nodeNetworkTypeLabel : string := "doks.digitalocean.com/node-network-type".
Definition nodeNetworkTypePrivate : string := "private".

Definition nodeIntendsPublicNetwork (node : Node.t) : bool :=
  negb (strings.EqualFold (default "" (node.(Node.Labels) !! nodeNetworkTypeLabel))
          nodeNetworkTypePrivate).

(** The first [NodeReady] condition decides. *)
Fixpoint ready_condition (l : list NodeCondition.t) : bool :=
  match l with
  | [] => false
  | c :: l' =>
      if str_eqb c.(NodeCondition.Type_) NodeReady
      then str_eqb c.(NodeCondition.Status) ConditionTrue
      else ready_condition l'
  end.

Definition isNodeReady (node : Node.t) : bool := ready_condition node.(Node.Conditions).

Definition doksCriticalComponentsReadyTaintKey : string :=
  "readiness.k8s.io/DOKSCriticalComponentsReady".

Definition hasPendingCriticalComponentsTaint (node : Node.t) : bool :=
  bool_decide (doksCriticalComponentsReadyTaintKey ∈ node.(Node.Taints)).

(** [admittedDropletIDSet]: nil and the empty map answer lookups alike. *)
Definition admittedDropletIDSet (lb : option LoadBalancer.t) : gset Z :=
  match lb with
  | None => ∅
  | Some lb => list_to_set lb.(LoadBalancer.DropletIDs)
  end.

Definition already_admitted (admittedIDs : gset Z) (node : Node.t) : bool :=
  match dropletIDFromProviderID node.(Node.ProviderID) with
  | Ok id => bool_decide (id ∈ admittedIDs)
  | _ => false
  end.

Definition admissible (admittedIDs : gset Z) (node : Node.t) : bool :=
  already_admitted admittedIDs node
  || (isNodeReady node && negb (hasPendingCriticalComponentsTaint node)).

Fixpoint filterByReadiness (nodes : list Node.t) (admittedIDs : gset Z) : list Node.t * list Node.t :=
  match nodes with
  | [] => ([], [])
  | node :: nodes' =>
      let '(admitted, pending) := filterByReadiness nodes' admittedIDs in
      if already_admitted admittedIDs node then (node :: admitted, pending)
      else if isNodeReady node && negb (hasPendingCriticalComponentsTaint node)
      then (node :: admitted, pending)
      else (admitted, node :: pending)
  end.

Fixpoint pendingInitNodes (unready : list Node.t) : list Node.t * list Node.t :=
  match unready with
  | [] => ([], [])
  | node :: unready' =>
      let '(pending, privateOnly) := pendingInitNodes unready' in
      if nodeIntendsPublicNetwork node then (node :: pending, privateOnly)
      else (pending, node :: privateOnly)
  end.

(* ------------------------------------------------------------------ *)
(** ** Node names in messages *)

Definition nodeNames (nodes : list Node.t) : list string := Node.Name <$> nodes.

Definition formatNodeNameList (names : list string) (maxNodes : nat) : string :=
  match names with
  | [] => ""
  | _ =>
      let sorted := sort.Strings names in
      if bool_decide (length sorted ≤ maxNodes)%nat then strings.Join sorted ", "
      else
        let truncated := take maxNodes sorted in
        let remaining := Z.of_nat (length sorted - maxNodes) in
        strings.Join truncated ", " +:+ " [+" +:+ strconv.Itoa remaining +:+ " more]"
  end.

Definition formatNodeNames (nodes : list Node.t) (maxNodes : nat) : string :=
  formatNodeNameList (nodeNames nodes) maxNodes.

(* ------------------------------------------------------------------ *)
(** ** Network stack *)

(** The default when the annotation is empty. *)
Definition default_stack (lbType : string) (isInternalLB : bool) (ns : option nodeState.t) : string :=
  if isInternalLB then LoadBalancerNetworkStackIPv4
  else if str_eqb lbType LoadBalancerTypeRegionalNetwork then
    match ns with
    | Some ns => if isAllDualStack ns then LoadBalancerNetworkStackDualstack
                 else LoadBalancerNetworkStackIPv4
    | None => LoadBalancerNetworkStackIPv4
    end
  else LoadBalancerNetworkStackDualstack.

Definition getNetworkStack (s : Service.t) (lbType network : string) (ns : option nodeState.t)
    : result string :=
  match ns with
  | Some (nodeState.mk [] _ _ _ _ _ _) => Err (ErrNew "no ready nodes available for load balancer")
  | _ =>
      let isInternalLB := str_eqb network LoadBalancerNetworkTypeInternal in
      let annotated := svc_val s annDONetworkStack in
      let explicitAnnotation := negb (str_eqb annotated "") in
      let networkStack :=
        if str_eqb annotated "" then default_stack lbType isInternalLB ns else annotated in
      if negb (str_eqb networkStack LoadBalancerNetworkStackIPv4
               || str_eqb networkStack LoadBalancerNetworkStackDualstack)
      then Err (Errorf "only LB network stacks supported are (%s, %s)"
                  [AStr LoadBalancerNetworkStackIPv4; AStr LoadBalancerNetworkStackDualstack])
      else if str_eqb networkStack LoadBalancerNetworkStackDualstack then
        if isInternalLB
        then Err (Errorf "%w: dual stack networking is not supported for internal load balancer"
                    [AWrap (ErrSentinel ErrNetworkStackConfig)])
        else
          match ns with
          | Some ns =>
              if str_eqb lbType LoadBalancerTypeRegionalNetwork && hasSingleStackV4 ns then
                if explicitAnnotation
                then Err (Errorf "%w: dual-stack networking requested but %d nodes lack IPv6 addresses: %s. REGIONAL_NETWORK load balancers require all nodes to have IPv6 for dual-stack mode"
                            [AWrap (ErrSentinel ErrNetworkStackConfig);
                             AInt (Z.of_nat (length ns.(nodeState.singleStackV4Nodes)));
                             AStr (formatNodeNames ns.(nodeState.singleStackV4Nodes) 3)])
                else Err (ErrNew "BUG detected: cluster has single stack v4 nodes but was not defaulted to single stack REGIONAL NETWORK lb")
              else Ok networkStack
          | None => Ok networkStack
          end
      else Ok networkStack
  end.

(* ================================================================== *)
(** * Facts *)

(** ** Provider identifiers *)

Definition providerID (dropletID : Z) : string := providerIDPrefix +:+ strconv.Itoa dropletID.

Lemma Itoa_nonempty z : is_int64 z → strconv.Itoa z ≠ "".
Proof. intros Hz E. apply Atoi_Itoa in Hz. by rewrite E in Hz. Qed.

Lemma dropletID_providerID z : is_int64 z → dropletIDFromProviderID (providerID z) = Ok z.
Proof.
  intros Hz. unfold dropletIDFromProviderID, providerID.
  assert (str_eqb (providerIDPrefix +:+ strconv.Itoa z) "" = false) as -> by done.
  rewrite HasPrefix_app, TrimPrefix_app. simpl.
  rewrite (proj2 (str_eqb_false _ _)) by by apply Itoa_nonempty. by rewrite Atoi_Itoa.
Qed.

Lemma dropletID_range pid z : dropletIDFromProviderID pid = Ok z → is_int64 z.
Proof.
  unfold dropletIDFromProviderID, map_err. repeat case_match; intros; simplify_eq.
  by eapply Atoi_range.
Qed.

(** ** Classification *)

(** Some external address that is ([v6 = true]) or is not an IPv6 address. *)
Definition has_external (v6 : bool) (node : Node.t) : bool :=
  existsb (λ a, str_eqb a.(NodeAddress.Type_) NodeExternalIP
                && Bool.eqb (isIPv6 a.(NodeAddress.Address)) v6) node.(Node.Addresses).

(** Some internal address that is not an IPv6 address. *)
Definition has_internal_v4 (node : Node.t) : bool :=
  existsb (λ a, str_eqb a.(NodeAddress.Type_) NodeInternalIP
                && negb (isIPv6 a.(NodeAddress.Address))) node.(Node.Addresses).

Lemma external_stacks_exists l b4 b6 :
  external_stacks l b4 b6
  = (b4 || existsb (λ a, str_eqb a.(NodeAddress.Type_) NodeExternalIP
                         && Bool.eqb (isIPv6 a.(NodeAddress.Address)) false) l,
     b6 || existsb (λ a, str_eqb a.(NodeAddress.Type_) NodeExternalIP
                         && Bool.eqb (isIPv6 a.(NodeAddress.Address)) true) l).
Proof.
  revert b4 b6. induction l as [|a l IH]; intros b4 b6; simpl.
  { by rewrite !orb_false_r. }
  destruct (str_eqb _ _), (isIPv6 _); simpl; rewrite IH; by destruct b4, b6.
Qed.

Lemma internal_v4_exists node : internal_v4 node.(Node.Addresses) = has_internal_v4 node.
Proof.
  unfold has_internal_v4. induction (Node.Addresses node) as [|a l IH]; simpl; [done|].
  destruct (str_eqb _ _ && _); simpl; [done|apply IH].
Qed.

(** [classifyNode] by the addresses the node has. *)
Lemma classifyNode_eq node fb :
  classifyNode node fb =
    match has_external false node, has_external true node with
    | true, true => nodeClassDualStack
    | true, false => nodeClassSingleStackV4
    | false, true => nodeClassSingleStackV6
    | false, false => if fb && has_internal_v4 node then nodeClassSingleStackV4
                      else nodeClassPublicNetUnready
    end.
Proof.
  unfold classifyNode. rewrite external_stacks_exists, internal_v4_exists. simpl.
  fold (has_external false node) (has_external true node).
  by destruct (has_external false node), (has_external true node), fb, (has_internal_v4 node).
Qed.

Definition class_is (allow : bool) (c : nodeClassification) (node : Node.t) : Prop :=
  classifyNode node allow = c.

#[export] Instance class_is_dec allow c node : Decision (class_is allow c node).
Proof. unfold class_is. apply _. Defined.

(** A node that an EXTERNAL load balancer accepts as a backend. *)
Definition backend_class (allow : bool) (node : Node.t) : Prop :=
  class_is allow nodeClassSingleStackV4 node ∨ class_is allow nodeClassDualStack node.

#[export] Instance backend_class_dec allow node : Decision (backend_class allow node).
Proof. unfold backend_class. apply _. Defined.

(** Decide the class tests left in the goal from a known [classifyNode]. *)
Ltac class_cases :=
  repeat (case_decide; try (exfalso; unfold backend_class, class_is in *; intuition congruence)).

Lemma classify_fold allow nodes st :
  foldl (classify_step allow false) st nodes =
    nodeState.mk
      (st.(nodeState.lbReadyNodes) ++ filter (backend_class allow) nodes)
      (st.(nodeState.filteredCount)
         + Z.of_nat (length (filter (class_is allow nodeClassPublicNetUnready) nodes))
         + Z.of_nat (length (filter (class_is allow nodeClassSingleStackV6) nodes)))
      (st.(nodeState.publicNetUnreadyCount)
         + Z.of_nat (length (filter (class_is allow nodeClassPublicNetUnready) nodes)))
      (st.(nodeState.publicNetUnreadyNodes) ++ filter (class_is allow nodeClassPublicNetUnready) nodes)
      (st.(nodeState.singleStackV4Nodes) ++ filter (class_is allow nodeClassSingleStackV4) nodes)
      (st.(nodeState.singleStackV6Nodes) ++ filter (class_is allow nodeClassSingleStackV6) nodes)
      (st.(nodeState.dualStackNodes) ++ filter (class_is allow nodeClassDualStack) nodes).
Proof.
  revert st. induction nodes as [|n nodes IH]; intros st; simpl.
  { destruct st; simpl. rewrite !app_nil_r. f_equal; lia. }
  rewrite IH. destruct st. rewrite !filter_cons. unfold classify_step.
  destruct (classifyNode n allow) eqn:E;
    class_cases;
    simpl; rewrite <- ?app_assoc; simpl; f_equal; lia.
Qed.

Lemma classify_fold_internal allow nodes st :
  foldl (classify_step allow true) st nodes =
    nodeState.mk (st.(nodeState.lbReadyNodes) ++ nodes) st.(nodeState.filteredCount)
      st.(nodeState.publicNetUnreadyCount) st.(nodeState.publicNetUnreadyNodes)
      st.(nodeState.singleStackV4Nodes) st.(nodeState.singleStackV6Nodes)
      st.(nodeState.dualStackNodes).
Proof.
  revert st. induction nodes as [|n nodes IH]; intros st; simpl.
  { destruct st; simpl. by rewrite app_nil_r. }
  rewrite IH. destruct st; simpl. by rewrite <- app_assoc.
Qed.

(** The loop of [filterAndClassifyNodes] in closed form. *)
Lemma filterAndClassifyNodes_external nodes ty net :
  net ≠ LoadBalancerNetworkTypeInternal →
  let allow := allowsPrivateOnlyBackends ty net in
  filterAndClassifyNodes nodes ty net =
    nodeState.mk (filter (backend_class allow) nodes)
      (Z.of_nat (length (filter (class_is allow nodeClassPublicNetUnready) nodes))
       + Z.of_nat (length (filter (class_is allow nodeClassSingleStackV6) nodes)))
      (Z.of_nat (length (filter (class_is allow nodeClassPublicNetUnready) nodes)))
      (filter (class_is allow nodeClassPublicNetUnready) nodes)
      (filter (class_is allow nodeClassSingleStackV4) nodes)
      (filter (class_is allow nodeClassSingleStackV6) nodes)
      (filter (class_is allow nodeClassDualStack) nodes).
Proof.
  intros Hnet. unfold filterAndClassifyNodes.
  rewrite (proj2 (str_eqb_false net _)) by done. by rewrite classify_fold.
Qed.

Lemma filterAndClassifyNodes_internal nodes ty :
  filterAndClassifyNodes nodes ty LoadBalancerNetworkTypeInternal = nodeState.mk nodes 0 0 [] [] [] [].
Proof. unfold filterAndClassifyNodes. rewrite str_eqb_refl. by rewrite classify_fold_internal. Qed.

(** An EXTERNAL REGIONAL_NETWORK load balancer takes no private fallback. *)
Lemma allowsPrivate_regional_network :
  allowsPrivateOnlyBackends LoadBalancerTypeRegionalNetwork LoadBalancerNetworkTypeExternal = false.
Proof. done. Qed.

Lemma backend_class_external_v4 node :
  backend_class false node ↔ has_external false node = true.
Proof.
  unfold backend_class, class_is. rewrite classifyNode_eq.
  destruct (has_external false node), (has_external true node); simpl; naive_solver.
Qed.

(** Four filters by class hold every node exactly once. *)
Lemma filters_partition allow nodes :
  filter (backend_class allow) nodes
    ++ filter (class_is allow nodeClassSingleStackV6) nodes
    ++ filter (class_is allow nodeClassPublicNetUnready) nodes ≡ₚ nodes.
Proof.
  induction nodes as [|n nodes IH]; [done|]. rewrite !filter_cons.
  destruct (classifyNode n allow) eqn:E;
    class_cases; simpl.
  - by rewrite IH.
  - rewrite <- Permutation_middle. by rewrite IH.
  - by rewrite IH.
  - rewrite app_assoc, <- Permutation_middle, <- app_assoc. by rewrite IH.
Qed.

Lemma backend_filters_partition allow nodes :
  filter (backend_class allow) nodes
    ≡ₚ filter (class_is allow nodeClassSingleStackV4) nodes
       ++ filter (class_is allow nodeClassDualStack) nodes.
Proof.
  induction nodes as [|n nodes IH]; [done|]. rewrite !filter_cons.
  destruct (classifyNode n allow) eqn:E;
    class_cases; simpl;
    [by rewrite IH| done | rewrite <- Permutation_middle; by rewrite IH | done].
Qed.

(** ** Readiness *)

Definition admissibleP (admittedIDs : gset Z) (node : Node.t) : Prop :=
  admissible admittedIDs node = true.

#[export] Instance admissibleP_dec ids node : Decision (admissibleP ids node).
Proof. unfold admissibleP. apply _. Defined.

Lemma filterByReadiness_eq nodes ids :
  filterByReadiness nodes ids
  = (filter (admissibleP ids) nodes, filter (λ n, ¬ admissibleP ids n) nodes).
Proof.
  induction nodes as [|n nodes IH]; simpl; [done|]. rewrite IH, !filter_cons.
  assert (Ha : admissibleP ids n ↔ already_admitted ids n
            || (isNodeReady n && negb (hasPendingCriticalComponentsTaint n)) = true) by done.
  destruct (already_admitted ids n); simpl in Ha.
  { by rewrite decide_True, decide_False by naive_solver. }
  destruct (isNodeReady n && _).
  - by rewrite decide_True, decide_False by naive_solver.
  - by rewrite decide_False, decide_True by naive_solver.
Qed.

Lemma pendingInitNodes_eq nodes :
  pendingInitNodes nodes
  = (filter (λ n, nodeIntendsPublicNetwork n = true) nodes,
     filter (λ n, nodeIntendsPublicNetwork n ≠ true) nodes).
Proof.
  induction nodes as [|n nodes IH]; simpl; [done|]. rewrite IH, !filter_cons.
  destruct (nodeIntendsPublicNetwork n) eqn:E;
    repeat (rewrite decide_True by naive_solver || rewrite decide_False by naive_solver); done.
Qed.

Lemma filter_nil_Forall {A} (P : A → Prop) `{∀ x, Decision (P x)} (l : list A) :
  filter P l = [] → Forall (λ x, ¬ P x) l.
Proof.
  induction l as [|x l IH]; [done|]. rewrite filter_cons. case_decide; [done|]. auto.
Qed.

Lemma filter_none {A} (P : A → Prop) `{∀ x, Decision (P x)} (l : list A) :
  Forall (λ x, ¬ P x) l → filter P l = [].
Proof. induction 1 as [|x l Hx _ IH]; [done|]. by rewrite filter_cons, decide_False. Qed.

Lemma filter_none_complement {A} (P : A → Prop) `{∀ x, Decision (P x)} (l : list A) :
  filter (λ x, ¬ P x) l = [] → filter P l = l.
Proof.
  induction l as [|x l IH]; [done|]. rewrite !filter_cons. repeat case_decide; try done.
  intros HF. by rewrite IH.
Qed.

(** ** Network stack *)

Lemma hasSingleStackV4_false ns : hasSingleStackV4 ns = false ↔ ns.(nodeState.singleStackV4Nodes) = [].
Proof.
  unfold hasSingleStackV4. destruct (nodeState.singleStackV4Nodes ns); simpl; [done|].
  split; [|done]. intros H. reflect_eqb. lia.
Qed.

(** The node state lists at least one ready node, or is absent. *)
Definition some_ready (ns : option nodeState.t) : Prop :=
  ∀ st, ns = Some st → st.(nodeState.lbReadyNodes) ≠ [].

Lemma getNetworkStack_Ok s ty net ns stk :
  getNetworkStack s ty net ns = Ok stk →
  (stk = LoadBalancerNetworkStackIPv4 ∨ stk = LoadBalancerNetworkStackDualstack)
  ∧ (net = LoadBalancerNetworkTypeInternal → stk = LoadBalancerNetworkStackIPv4)
  ∧ some_ready ns
  ∧ (∀ st, ns = Some st → ty = LoadBalancerTypeRegionalNetwork →
       stk = LoadBalancerNetworkStackDualstack → st.(nodeState.singleStackV4Nodes) = []).
Proof.
  assert (LoadBalancerNetworkStackIPv4 ≠ LoadBalancerNetworkStackDualstack) as Hne by done.
  unfold getNetworkStack. intros H.
  assert (Hr : some_ready ns).
  { intros [[|] ??????] ->; [done|]. by simpl. }
  set (n := if str_eqb _ "" then _ else _) in H.
  assert (Hn : (n = LoadBalancerNetworkStackIPv4 ∨ n = LoadBalancerNetworkStackDualstack)
    ∧ (n = LoadBalancerNetworkStackDualstack →
       net ≠ LoadBalancerNetworkTypeInternal ∧
       ∀ st, ns = Some st → ty = LoadBalancerTypeRegionalNetwork → hasSingleStackV4 st = false)
    ∧ stk = n).
  { clearbody n. destruct ns as [[[|] ??????]|]; [done|..].
    all: destruct (str_eqb n LoadBalancerNetworkStackIPv4) eqn:E1,
           (str_eqb n LoadBalancerNetworkStackDualstack) eqn:E2,
           (str_eqb net LoadBalancerNetworkTypeInternal) eqn:E3,
           (str_eqb ty LoadBalancerTypeRegionalNetwork) eqn:E4; simpl in *; try done;
      try (destruct (hasSingleStackV4 _) eqn:E5 in H; [repeat case_match; done|]);
      simplify_eq; reflect_eqb; subst; naive_solver. }
  destruct Hn as (Hv & Hd & ->). split_and!; [done| |done|].
  - intros ->. destruct Hv as [?|Hv]; [done|]. by destruct (Hd Hv).
  - intros st -> -> Hdual. apply hasSingleStackV4_false. naive_solver.
Qed.

(** Without the annotation, the default is always accepted. *)
Lemma getNetworkStack_default s ty net ns :
  svc_val s annDONetworkStack = "" → some_ready ns →
  getNetworkStack s ty net ns
  = Ok (default_stack ty (str_eqb net LoadBalancerNetworkTypeInternal) ns).
Proof.
  intros Ha Hr. unfold getNetworkStack. rewrite Ha, str_eqb_refl. unfold default_stack.
  destruct ns as [st|].
  - specialize (Hr st eq_refl). destruct st as [[|r rs] ? ? ? v4 ? dual]; [done|].
    destruct (str_eqb net LoadBalancerNetworkTypeInternal); [done|].
    destruct (str_eqb ty LoadBalancerTypeRegionalNetwork); [|done].
    set (st := nodeState.mk _ _ _ _ _ _ _). destruct (isAllDualStack st) eqn:E; [|done].
    unfold isAllDualStack in E. reflect_eqb. by rewrite H0.
  - destruct (str_eqb net LoadBalancerNetworkTypeInternal); [done|].
    by destruct (str_eqb ty LoadBalancerTypeRegionalNetwork).
Qed.

Lemma dualstack_backends s nodes :
  getNetworkStack s LoadBalancerTypeRegionalNetwork LoadBalancerNetworkTypeExternal
    (Some (filterAndClassifyNodes nodes LoadBalancerTypeRegionalNetwork LoadBalancerNetworkTypeExternal))
  = Ok LoadBalancerNetworkStackDualstack →
  Forall (λ n, has_external false n = true ∧ has_external true n = true)
    (filterAndClassifyNodes nodes LoadBalancerTypeRegionalNetwork LoadBalancerNetworkTypeExternal)
      .(nodeState.lbReadyNodes).
Proof.
  intros (_ & _ & _ & Hd)%getNetworkStack_Ok. specialize (Hd _ eq_refl eq_refl eq_refl).
  rewrite filterAndClassifyNodes_external in Hd |- * by done. simpl in *.
  apply filter_nil_Forall in Hd. rewrite Forall_forall in Hd |- *.
  intros n [Hc Hn]%list_elem_of_filter. specialize (Hd n Hn).
  unfold backend_class, class_is in *. rewrite classifyNode_eq in *.
  destruct (has_external false n), (has_external true n); naive_solver.
Qed.

(* ================================================================== *)
(** * Properties *)

(** C17. The classification loses and duplicates no node: the backends, the
    IPv6-only nodes and the nodes without a usable address are together the
    given nodes; the two counters are the sizes of the filtered groups; for an
    EXTERNAL load balancer the backends are the IPv4-only and the dual-stack
    nodes, for an INTERNAL one they are all the nodes, in order. *)
Theorem classification_partitions_nodes nodes ty net :
  let st := filterAndClassifyNodes nodes ty net in
  st.(nodeState.lbReadyNodes) ++ st.(nodeState.singleStackV6Nodes)
    ++ st.(nodeState.publicNetUnreadyNodes) ≡ₚ nodes
  ∧ st.(nodeState.publicNetUnreadyCount) = Z.of_nat (length st.(nodeState.publicNetUnreadyNodes))
  ∧ st.(nodeState.filteredCount)
    = Z.of_nat (length nodes) - Z.of_nat (length st.(nodeState.lbReadyNodes))
  ∧ (if str_eqb net LoadBalancerNetworkTypeInternal
     then st.(nodeState.lbReadyNodes) = nodes
     else st.(nodeState.lbReadyNodes)
          ≡ₚ st.(nodeState.singleStackV4Nodes) ++ st.(nodeState.dualStackNodes)).
Proof.
  destruct (str_eqb net LoadBalancerNetworkTypeInternal) eqn:E; reflect_eqb; subst; simpl.
  - rewrite filterAndClassifyNodes_internal; simpl. rewrite !app_nil_r. split_and!; [done..|lia|done].
  - rewrite filterAndClassifyNodes_external by done; simpl.
    set (allow := allowsPrivateOnlyBackends ty net).
    pose proof (filters_partition allow nodes) as HP.
    pose proof (Permutation_length HP) as HL. rewrite !length_app in HL.
    split_and!; [done|done|lia|apply backend_filters_partition].
Qed.

(** The backends of an EXTERNAL REGIONAL_NETWORK load balancer are exactly
    the nodes that have an external address which is not an IPv6 one, in the
    order given: IPv6-only and private-only nodes are never sent traffic. *)
Theorem regional_network_backends nodes :
  (filterAndClassifyNodes nodes LoadBalancerTypeRegionalNetwork LoadBalancerNetworkTypeExternal)
    .(nodeState.lbReadyNodes)
  = filter (λ n, has_external false n = true) nodes.
Proof.
  rewrite filterAndClassifyNodes_external by done. simpl.
  rewrite allowsPrivate_regional_network. apply list_filter_iff. intros n.
  apply backend_class_external_v4.
Qed.

(** C16. The readiness gate: a node is a backend iff its droplet already is one
    or it is Ready without the critical-components taint; the others are
    pending; both lists keep the order and together hold every node once. *)
Theorem readiness_gate nodes ids :
  let '(admitted, pending) := filterByReadiness nodes ids in
  admitted ++ pending ≡ₚ nodes
  ∧ admitted `sublist_of` nodes ∧ pending `sublist_of` nodes
  ∧ (∀ n, n ∈ admitted ↔ n ∈ nodes ∧
        ((∃ id, dropletIDFromProviderID n.(Node.ProviderID) = Ok id ∧ id ∈ ids)
         ∨ (isNodeReady n = true ∧ doksCriticalComponentsReadyTaintKey ∉ n.(Node.Taints)))).
Proof.
  rewrite filterByReadiness_eq. split_and!.
  - apply filter_app_complement.
  - apply sublist_filter.
  - apply sublist_filter.
  - intros n. rewrite list_elem_of_filter.
    unfold admissibleP, admissible, already_admitted, hasPendingCriticalComponentsTaint.
    rewrite orb_true_iff, andb_true_iff, negb_true_iff, bool_decide_eq_false.
    destruct (dropletIDFromProviderID _); rewrite ?bool_decide_eq_true; naive_solver.
Qed.

(** C18. Network stack, soundness: a stack that is returned is IPV4 or
    DUALSTACK; an INTERNAL load balancer is never dual-stack; a dual-stack
    EXTERNAL REGIONAL_NETWORK load balancer has at least one backend and every
    one of its backends has both an external IPv4 and an external IPv6
    address. *)
Theorem network_stack_sound s ty net nodes stk :
  getNetworkStack s ty net (Some (filterAndClassifyNodes nodes ty net)) = Ok stk →
  (stk = LoadBalancerNetworkStackIPv4 ∨ stk = LoadBalancerNetworkStackDualstack)
  ∧ (net = LoadBalancerNetworkTypeInternal → stk = LoadBalancerNetworkStackIPv4)
  ∧ (ty = LoadBalancerTypeRegionalNetwork → net = LoadBalancerNetworkTypeExternal →
     stk = LoadBalancerNetworkStackDualstack →
     (filterAndClassifyNodes nodes ty net).(nodeState.lbReadyNodes) ≠ []
     ∧ Forall (λ n, has_external false n = true ∧ has_external true n = true)
         (filterAndClassifyNodes nodes ty net).(nodeState.lbReadyNodes)).
Proof.
  intros Hs. destruct (getNetworkStack_Ok _ _ _ _ _ Hs) as (Hv & Hi & Hr & _).
  split_and!; [done..|]. intros -> -> ->. split; [by apply Hr|]. by eapply dualstack_backends.
Qed.

(** Network stack, default: without the annotation and with a ready node,
    [getNetworkStack] succeeds (its defensive BUG branch is unreachable) and
    answers IPV4 for INTERNAL, DUALSTACK for REGIONAL, and for
    REGIONAL_NETWORK DUALSTACK exactly when there is a dual-stack node and no
    IPv4-only one. *)
Theorem network_stack_default s ty net st :
  svc_val s annDONetworkStack = "" → st.(nodeState.lbReadyNodes) ≠ [] →
  getNetworkStack s ty net (Some st)
  = Ok (if decide (net = LoadBalancerNetworkTypeInternal) then LoadBalancerNetworkStackIPv4
        else if decide (ty = LoadBalancerTypeRegionalNetwork) then
          if decide (st.(nodeState.dualStackNodes) ≠ [] ∧ st.(nodeState.singleStackV4Nodes) = [])
          then LoadBalancerNetworkStackDualstack else LoadBalancerNetworkStackIPv4
        else LoadBalancerNetworkStackDualstack).
Proof.
  intros Ha Hr. rewrite getNetworkStack_default by (done || by intros ? [= <-]).
  f_equal. unfold default_stack, str_eqb, isAllDualStack, hasDualStackNodes, hasSingleStackV4.
  rewrite !bool_decide_decide. destruct (decide (net = _)); [done|].
  destruct (decide (ty = _)); [|done].
  destruct (nodeState.dualStackNodes st), (nodeState.singleStackV4Nodes st); simpl;
    try case_decide; naive_solver.
Qed.

(** A node's droplet is recovered from its provider ID: parsing the
    provider ID the cloud provider writes for a droplet gives the droplet ID
    back, and two droplets never share a provider ID. *)
Lemma provider_id_roundtrip z :
  is_int64 z →
  dropletIDFromProviderID (providerIDPrefix +:+ strconv.Itoa z) = Ok z
  ∧ ∀ z', is_int64 z' →
      providerIDPrefix +:+ strconv.Itoa z' = providerIDPrefix +:+ strconv.Itoa z → z' = z.
Proof.
  intros Hz. split; [by apply dropletID_providerID|].
  intros z' Hz' E%(inj _). by apply Itoa_inj.
Qed.

(** The node names in a message depend only on which nodes they are, not
    on their order: permuting the nodes gives the same text. *)
Lemma node_names_order_independent nodes1 nodes2 maxNodes :
  nodes1 ≡ₚ nodes2 → formatNodeNames nodes1 maxNodes = formatNodeNames nodes2 maxNodes.
Proof.
  intros HP. unfold formatNodeNames, formatNodeNameList, nodeNames.
  assert (HN : Node.Name <$> nodes1 ≡ₚ Node.Name <$> nodes2) by by rewrite HP.
  rewrite (Strings_canonical _ _ HN).
  destruct (Node.Name <$> nodes1), (Node.Name <$> nodes2); [done|..|done].
  - by apply Permutation_nil_cons in HN.
  - by apply symmetry, Permutation_nil_cons in HN.
Qed.

(** ** Witnesses *)

Definition ex_node (name pid : string) (addrs : list NodeAddress.t) (ready : bool) : Node.t :=
  Node.mk name ∅ pid []
    [NodeCondition.mk NodeReady (if ready then "True" else "False")] addrs.

Definition ex_dual : Node.t :=
  ex_node "n1" "digitalocean://11"
    [NodeAddress.mk NodeExternalIP "203.0.113.5"; NodeAddress.mk NodeExternalIP "2001:db8::1"] true.
Definition ex_v4 : Node.t :=
  ex_node "n2" "digitalocean://12" [NodeAddress.mk NodeExternalIP "203.0.113.6"] true.

Definition ex_service (a : list (string * string)) : Service.t :=
  Service.mk "web" "default" "0a1b2c3d-0000-1111-2222-333344445555" (Some (list_to_map a)) None
    ServiceTypeLoadBalancer [ServicePort.mk "http" ProtocolTCP 80 30080] [] "Cluster" 0 [].

Lemma network_stack_sound_witness :
  (filterAndClassifyNodes [ex_dual] LoadBalancerTypeRegionalNetwork LoadBalancerNetworkTypeExternal)
    .(nodeState.lbReadyNodes) ≠ [].
Proof.
  refine (proj1 (proj2 (proj2 (network_stack_sound (ex_service [])
    LoadBalancerTypeRegionalNetwork LoadBalancerNetworkTypeExternal [ex_dual]
    LoadBalancerNetworkStackDualstack _)) eq_refl eq_refl eq_refl)).
  vm_compute. reflexivity.
Defined.

Lemma network_stack_default_witness :
  getNetworkStack (ex_service []) LoadBalancerTypeRegionalNetwork LoadBalancerNetworkTypeExternal
    (Some (filterAndClassifyNodes [ex_dual; ex_v4] LoadBalancerTypeRegionalNetwork
             LoadBalancerNetworkTypeExternal))
  = Ok LoadBalancerNetworkStackIPv4.
Proof.
  rewrite (network_stack_default (ex_service []) LoadBalancerTypeRegionalNetwork
    LoadBalancerNetworkTypeExternal); [vm_compute; reflexivity | reflexivity | vm_compute; discriminate].
Defined.
