(* ===== verification/Api.v ===== *)
(** * Remote services

    The DigitalOcean API (through [godo]) and the Kubernetes API are services
    outside the repository.  They are interfaces here: a type class per group
    of calls, over an abstract remote state [R], in which a call may answer
    anything and change the remote state in any way.  What a caller relies on
    is stated as a named law where a theorem needs it.  The code runs in
    [M (net R)], whose state also keeps the calls made so far, in order.

    [common.go]: the paging loops. *)

From S2P Require Import Prelude GoStd Types Annotations Nodes.
From stdpp Require Import base gmap strings list.
From Stdlib Require Import ZArith Lia.
#[local] Open Scope Z_scope.

(** What a godo call returns: a value, a response that may be nil, an error
    that may be nil.  A value of a pointer type is itself an [option]. *)
Record reply (A : Type) := Reply {
  rval : A;
  rresp : option Response.t;
  rerr : option error;
}.
Arguments Reply {A} _ _ _.
Arguments rval {A} _.
Arguments rresp {A} _.
Arguments rerr {A} _.

Definition status {A} (rp : reply A) : option Z := Response.StatusCode <$> rp.(rresp).

(** [resp != nil && resp.StatusCode == http.StatusNotFound] *)
Definition is_404 {A} (rp : reply A) : bool := bool_decide (status rp = Some StatusNotFound).

(** The calls, as the trace records them. *)
Inductive event :=
| EvLBGet (id : string)
| EvLBList (page : Z)
| EvLBCreate (req : LoadBalancerRequest.t)
| EvLBUpdate (id : string) (req : LoadBalancerRequest.t)
| EvLBDelete (id : string)
| EvCertGet (id : string)
| EvCertListByName (name : string)
| EvDropletList (page : Z)
| EvDropletListByName (name : string) (page : Z)
| EvDropletGet (id : Z)
| EvRegionList (page : Z)
| EvHTTPGet (url : string)
| EvTagCreate (tag : string)
| EvTagResources (tag : string) (ids : list string)
| EvServicePatch (namespace name patch : string)
| EvServiceEvent (namespace name reason : string) (message : error).

Record net (R : Type) := Net { remote : R; trace : list event }.
Arguments Net {R} _ _.
Arguments remote {R} _.
Arguments trace {R} _.

(** [godo.Client]: load balancers, certificates, droplets. *)
Class GodoLoadBalancers (R : Type) := {
  LoadBalancers_Get : string → R → reply (option LoadBalancer.t) * R;
  LoadBalancers_List : Z → R → reply (list LoadBalancer.t) * R;
  LoadBalancers_Create : LoadBalancerRequest.t → R → reply (option LoadBalancer.t) * R;
  LoadBalancers_Update : string → LoadBalancerRequest.t → R → reply (option LoadBalancer.t) * R;
  LoadBalancers_Delete : string → R → reply unit * R;
}.

Class GodoCertificates (R : Type) := {
  Certificates_Get : string → R → reply (option Certificate.t) * R;
  Certificates_ListByName : string → R → reply (list Certificate.t) * R;
}.

Class GodoDroplets (R : Type) := {
  Droplets_List : Z → R → reply (list Droplet.t) * R;
}.

(** [godo]'s [pageForURL]: the page number in a paging URL. *)
Class GodoPaging := {
  pageForURL : string → Z + error;
}.

(** The Kubernetes clientset, [json.Marshal] of a Service and
    [strategicpatch.CreateTwoWayMergePatch].  The answer of an event creation
    is discarded by the code. *)
Class Kube (R : Type) := {
  Services_Patch : string → string → string → R → option error * R;
  Events_Create : string → string → string → error → R → R;
  MarshalJSON : Service.t → string + error;
  CreateTwoWayMergePatch : string → string → string + error;
}.

(** Send a call and record it. *)
Definition call {R A} (ev : event) (f : R → A * R) : M (net R) A := λ s,
  let '(a, r') := f s.(remote) in (Ok a, Net r' (s.(trace) ++ [ev])).

(* ------------------------------------------------------------------ *)
(** ** Paging *)

(** [(l *Links) IsLastPage()] *)
Definition IsLastPage (l : Links.t) : bool :=
  match l.(Links.Pages) with
  | None => true
  | Some p => str_eqb p.(Pages.Next) ""
  end.

(** [(l *Links) CurrentPage()] *)
Definition CurrentPage `{!GodoPaging} (l : Links.t) : result Z :=
  match l.(Links.Pages) with
  | None => Ok 1
  | Some p =>
      if str_eqb p.(Pages.Prev) "" && negb (str_eqb p.(Pages.Next) "") then Ok 1
      else if negb (str_eqb p.(Pages.Prev) "") then
        prevPage ← of_sum (pageForURL p.(Pages.Prev)); Ok (prevPage + 1)
      else Ok 0
  end.

(** The loop shared by [allDropletList] and [allLoadBalancerList], from page
    [page] with the objects seen so far.  [fuel]
    bounds the number of pages asked for. *)
Fixpoint all_pages `{!GodoPaging} {S A} (noResponse : string) (listFunc : Z → M S (reply (list A)))
    (fuel : nat) (page : Z) (acc : list A) : M S (list A) :=
  match fuel with
  | O => nofuel
  | S fuel' =>
      rp ← listFunc page;
      match rp.(rerr) with
      | Some e => throw e
      | None =>
          match rp.(rresp) with
          | None => throw (ErrNew noResponse)
          | Some resp =>
              let acc := acc ++ rp.(rval) in
              match resp.(Response.Links) with
              | None => mret acc
              | Some links =>
                  if IsLastPage links then mret acc
                  else
                    page ← pure (CurrentPage links);
                    all_pages noResponse listFunc fuel' (page + 1) acc
              end
          end
      end
  end.

Definition allDropletList `{!GodoPaging} {R}
    (listFunc : Z → M (net R) (reply (list Droplet.t))) (fuel : nat) : M (net R) (list Droplet.t) :=
  all_pages "droplets list request returned no response" listFunc fuel 1 [].

Definition allLoadBalancerList `{!GodoPaging, !GodoLoadBalancers R} (fuel : nat)
    : M (net R) (list LoadBalancer.t) :=
  all_pages "load balancers list request returned no response"
    (λ page, call (EvLBList page) (LoadBalancers_List page)) fuel 1 [].

(* ================================================================== *)
(** * Facts *)

(** ** What a piece of code adds to the trace *)

(** [m] only appends events that satisfy [P], whatever the remote side does. *)
Definition emits {R A} (P : event → Prop) (m : M (net R) A) : Prop :=
  ∀ s, ∃ evs, trace (m s).2 = trace s ++ evs ∧ Forall P evs.

Section Emits.
Context {R : Type} (P : event → Prop).

Lemma emits_ret {A} (a : A) : emits (R := R) P (mret a).
Proof. intros s. exists []. by rewrite app_nil_r. Qed.

Lemma emits_throw {A} e : emits (R := R) (A := A) P (throw e).
Proof. intros s. exists []. by rewrite app_nil_r. Qed.

Lemma emits_panic {A} : emits (R := R) (A := A) P panic.
Proof. intros s. exists []. by rewrite app_nil_r. Qed.

Lemma emits_nofuel {A} : emits (R := R) (A := A) P nofuel.
Proof. intros s. exists []. by rewrite app_nil_r. Qed.

Lemma emits_pure {A} (r : result A) : emits (R := R) P (pure r).
Proof. intros s. exists []. by rewrite app_nil_r. Qed.

Lemma emits_deref {A} (p : option A) : emits (R := R) P (deref p).
Proof. destruct p; [apply emits_ret | apply emits_panic]. Qed.

Lemma emits_bind {A B} (m : M (net R) A) (f : A → M (net R) B) :
  emits P m → (∀ a, emits P (f a)) → emits P (m ≫= f).
Proof.
  intros Hm Hf s. destruct (Hm s) as (evs & Ht & HP). unfold mbind, M_bind.
  destruct (m s) as [[a|e| |] s'] eqn:E; simpl in *; [|by eauto..].
  destruct (Hf a s') as (evs' & Ht' & HP'). exists (evs ++ evs').
  rewrite Ht', Ht, app_assoc. by split; [|apply Forall_app].
Qed.

Lemma emits_attempt {A} (m : M (net R) A) : emits P m → emits P (attempt m).
Proof. intros Hm s. destruct (Hm s) as (evs & Ht & HP). exists evs. unfold attempt. by repeat case_match. Qed.

Lemma emits_on_err {A} f (m : M (net R) A) : emits P m → emits P (on_err f m).
Proof. intros Hm s. destruct (Hm s) as (evs & Ht & HP). exists evs. unfold on_err. by case_match. Qed.

Lemma emits_call {A} ev (f : R → A * R) : P ev → emits P (call ev f).
Proof.
  intros HP s. exists [ev]. unfold call. destruct (f (remote s)). simpl.
  split; [done|]. by repeat constructor.
Qed.

Lemma emits_all_pages `{!GodoPaging} {A} nr (lf : Z → M (net R) (reply (list A))) fuel page acc :
  (∀ p, emits P (lf p)) → emits P (all_pages nr lf fuel page acc).
Proof.
  intros Hlf. revert page acc. induction fuel as [|fuel IH]; intros page acc; simpl.
  { apply emits_nofuel. }
  apply emits_bind; [done|]. intros rp.
  destruct (rerr rp); [apply emits_throw|]. destruct (rresp rp) as [resp|]; [|apply emits_throw].
  destruct (Response.Links resp); [|apply emits_ret]. case_match; [apply emits_ret|].
  apply emits_bind; [apply emits_pure|]. intros p. apply IH.
Qed.
End Emits.

Lemma emits_weaken {R A} (P Q : event → Prop) (m : M (net R) A) :
  (∀ ev, P ev → Q ev) → emits P m → emits Q m.
Proof.
  intros HPQ Hm s. destruct (Hm s) as (evs & Ht & HP). exists evs. split; [done|].
  eapply Forall_impl; [done|]. auto.
Qed.

#[export] Hint Resolve emits_ret emits_throw emits_panic emits_nofuel emits_pure emits_deref
  emits_attempt emits_on_err emits_all_pages : go.

(** Discharge [emits] by walking through the code. *)
Ltac solve_emits :=
  repeat first
    [ solve [auto with go]
    | apply emits_bind; [|intros ?]
    | apply emits_call; simpl
    | apply emits_on_err
    | apply emits_attempt
    | apply emits_all_pages; intros ?
    | case_match ].

(** ** The paging contract *)

Section Paging.
Context `{!GodoPaging} {R A : Type}.
Variable listF : Z → R → reply (list A) * R.

(** The links of page [i] (from 0) of [n]: the last page has no [next] link;
    an earlier one has, and from the second page on a [prev] link whose page
    number is that of the page before. *)
Definition page_links (i n : nat) (links : option Links.t) : Prop :=
  if decide (S i = n) then ∀ l, links = Some l → IsLastPage l = true
  else ∃ prev next, links = Some (Links.mk (Some (Pages.mk prev next))) ∧ next ≠ ""
       ∧ if decide (i = O) then prev = "" else prev ≠ "" ∧ pageForURL prev = inl (Z.of_nat i).

(** In remote state [r] the service lists [pages], and listing changes
    nothing. *)
Definition serves (pages : list (list A)) (r : R) : Prop :=
  ∀ (i : nat) objs, pages !! i = Some objs →
    ∃ code links, listF (Z.of_nat i + 1) r = (Reply objs (Some (Response.mk code links)) None, r)
                  ∧ page_links i (length pages) links.

(** The same service when requests may fail: a page is answered in full with its
    links, or with an error, or not at all. *)
Definition serves_or_fails (pages : list (list A)) (r : R) : Prop :=
  ∀ (i : nat) objs, pages !! i = Some objs →
    match (listF (Z.of_nat i + 1) r).1 with
    | Reply objs' (Some resp) None => objs' = objs ∧ page_links i (length pages) resp.(Response.Links)
    | _ => True
    end.

Lemma serves_or_serves pages r : serves pages r → serves_or_fails pages r.
Proof. intros Hs i objs Hi. destruct (Hs i objs Hi) as (code & links & -> & Hl). done. Qed.

Lemma page_links_current i n l :
  S i ≠ n → page_links i n l →
  ∃ l', l = Some l' ∧ IsLastPage l' = false ∧ CurrentPage l' = Ok (Z.of_nat i + 1).
Proof.
  unfold page_links. intros Hne. rewrite decide_False by done.
  intros (prev & next & -> & Hnext & Hprev). eexists. split; [done|].
  unfold IsLastPage, CurrentPage; simpl. rewrite (proj2 (str_eqb_false next _)) by done.
  split; [done|]. destruct (decide (i = O)) as [->|]; [by rewrite Hprev, str_eqb_refl|].
  destruct Hprev as [Hprev Hurl]. rewrite (proj2 (str_eqb_false prev _)) by done. simpl.
  by rewrite Hurl.
Qed.

Lemma all_pages_from nr ev pages r tr i acc fuel :
  serves pages r → (i < length pages)%nat → (length pages - i ≤ fuel)%nat →
  all_pages nr (λ p, call (ev p) (listF p)) fuel (Z.of_nat i + 1) acc (Net r tr)
  = (Ok (acc ++ concat (drop i pages)),
     Net r (tr ++ (ev <$> seqZ (Z.of_nat i + 1) (Z.of_nat (length pages - i))))).
Proof.
  intros Hs. revert i acc tr. induction fuel as [|fuel IH]; intros i acc tr Hi Hf; [lia|].
  destruct (lookup_lt_is_Some_2 pages i Hi) as [objs Hobjs].
  destruct (Hs i objs Hobjs) as (code & links & Hcall & Hlinks).
  rewrite (drop_S _ _ _ Hobjs). simpl. unfold mbind, M_bind, call at 1. simpl.
  rewrite Hcall. simpl.
  replace (Z.of_nat (length pages - i)) with (Z.succ (Z.of_nat (length pages - S i))) by lia.
  rewrite seqZ_cons by lia. rewrite Z.pred_succ.
  destruct (decide (S i = length pages)) as [Hlast|Hnl].
  - unfold page_links in Hlinks. rewrite decide_True in Hlinks by done.
    rewrite (drop_ge pages (S i)) by lia. rewrite Hlast, Nat.sub_diag. simpl.
    rewrite app_nil_r. destruct links as [l|]; [|done]. by rewrite (Hlinks l eq_refl).
  - destruct (page_links_current _ _ _ Hnl Hlinks) as (l & -> & -> & Hcur).
    unfold pure. rewrite Hcur.
    replace (Z.of_nat i + 1 + 1) with (Z.of_nat (S i) + 1) by lia.
    rewrite IH by lia. rewrite <- !app_assoc. simpl.
    replace (Z.succ (Z.of_nat i + 1)) with (Z.of_nat (S i) + 1) by lia. done.
Qed.

(** Where requests may fail, the loop ends with all the objects or with an error
    that it was answered with, never with part of them. *)
Lemma all_pages_outcome (I : R → Prop) nr ev pages i acc fuel n r n' :
  (∀ x p, I x → serves_or_fails pages x ∧ I (listF p x).2) →
  I (remote n) → (i < length pages)%nat → (length pages - i ≤ fuel)%nat →
  all_pages nr (λ p, call (ev p) (listF p)) fuel (Z.of_nat i + 1) acc n = (r, n') →
  match r with
  | Ok objs => objs = acc ++ concat (drop i pages)
  | Err e => e = ErrNew nr ∨ ∃ p x, rerr (listF p x).1 = Some e
  | _ => False
  end.
Proof.
  intros HI. revert i acc n. induction fuel as [|fuel IH]; intros i acc n Hn Hi Hf; [lia|].
  destruct (lookup_lt_is_Some_2 pages i Hi) as [objs Hobjs]. rewrite (drop_S _ _ _ Hobjs). simpl.
  destruct (HI (remote n) (Z.of_nat i + 1) Hn) as [Hs HI']. specialize (Hs i objs Hobjs).
  unfold mbind, M_bind, call at 1.
  destruct (listF (Z.of_nat i + 1) (remote n)) as [[objs' resp err] x'] eqn:El. simpl in *.
  destruct err as [e|]; [intros [= <- _]; right; do 2 eexists; by rewrite El|].
  destruct resp as [[code links]|]; [|intros [= <- _]; by left]. destruct Hs as [-> Hl]. simpl in *.
  destruct (decide (S i = length pages)) as [Hlast|Hnl].
  - unfold page_links in Hl. rewrite decide_True in Hl by done. rewrite (drop_ge pages (S i)) by lia.
    simpl. rewrite app_nil_r. destruct links as [l|]; [rewrite (Hl l eq_refl)|]; by intros [= <- _].
  - destruct (page_links_current _ _ _ Hnl Hl) as (l & -> & -> & Hcur). unfold pure. rewrite Hcur.
    replace (Z.of_nat i + 1 + 1) with (Z.of_nat (S i) + 1) by lia.
    intros Hr. apply IH in Hr; [|done|lia..]. by rewrite <- app_assoc in Hr.
Qed.
End Paging.

Lemma all_pages_complete `{!GodoPaging} {R A} (listF : Z → R → reply (list A) * R) nr ev pages r tr fuel :
  serves listF pages r → pages ≠ [] → (length pages ≤ fuel)%nat →
  all_pages nr (λ p, call (ev p) (listF p)) fuel 1 [] (Net r tr)
  = (Ok (concat pages), Net r (tr ++ (ev <$> seqZ 1 (Z.of_nat (length pages))))).
Proof.
  intros Hs Hne Hf. destruct pages as [|p0 pages]; [done|].
  rewrite (all_pages_from listF nr ev (p0 :: pages) r tr 0 [] fuel) by (done || simpl in *; lia).
  by rewrite Nat.sub_0_r.
Qed.

(* ================================================================== *)
(** * Properties *)

(** Paging is complete and terminates: when the service splits its load
    balancers into pages with correct links, [allLoadBalancerList] returns all
    of them in order, asks for every page exactly once and for no other, as
    soon as the fuel covers the pages. *)
Theorem allLoadBalancerList_complete `{!GodoPaging, !GodoLoadBalancers R} pages r tr fuel :
  serves LoadBalancers_List pages r → pages ≠ [] → (length pages ≤ fuel)%nat →
  allLoadBalancerList fuel (Net r tr)
  = (Ok (concat pages), Net r (tr ++ (EvLBList <$> seqZ 1 (Z.of_nat (length pages))))).
Proof. apply all_pages_complete. Qed.
