(* ===== verification/Rules.v ===== *)
(** * Parts of a load-balancer request

    [loadbalancers.go]: forwarding rules, the TLS part of a rule, the HTTP3
    rule, the certificate lookup, health checks, sticky sessions and the
    load-balancer firewall. *)

From S2P Require Import Prelude GoStd Types Annotations Nodes Api.
From stdpp Require Import base gmap strings list.
From Stdlib Require Import ZArith Lia Ascii.
#[local] Open Scope Z_scope.

Definition defaultSecurePort : Z := 443.

(** [findCertificateID]: by ID annotation, else by name through the API. *)
Definition findCertificateID `{!GodoCertificates R} (s : Service.t) : M (net R) string :=
  let certificateID := getCertificateID s in
  if negb (str_eqb certificateID "") then mret certificateID
  else
    let certificateName := getCertificateName s in
    if str_eqb certificateName "" then mret ""
    else
      rp ← call (EvCertListByName certificateName) (Certificates_ListByName certificateName);
      match rp.(rerr) with
      | Some e => throw (Errorf "failed to get certificate by name: %q error: %s"
                           [AStr certificateName; AErr e])
      | None =>
          match rp.(rval) with
          | [] => throw (Errorf "certificate with name: %q not found" [AStr certificateName])
          | cert :: _ => mret cert.(Certificate.ID)
          end
      end.

(** [buildTLSForwardingRule]: updates the rule it is given. *)
Definition buildTLSForwardingRule (rule : ForwardingRule.t) (certificateID : string)
    (tlsPassThrough : bool) : result ForwardingRule.t :=
  let '(ForwardingRule.mk entryProtocol entryPort targetProtocol targetPort cert passthrough) := rule in
  if str_eqb certificateID "" && negb tlsPassThrough
  then Err (ErrNew "must set certificate id or enable tls pass through")
  else if negb (str_eqb certificateID "") && tlsPassThrough
  then Err (ErrNew "either certificate id should be set or tls pass through enabled, not both")
  else if tlsPassThrough
  then Ok (ForwardingRule.mk entryProtocol entryPort targetProtocol targetPort cert tlsPassThrough)
  else Ok (ForwardingRule.mk entryProtocol entryPort protocolHTTP targetPort certificateID passthrough).

Definition unsupported_protocol (protocol : string) : error :=
  Errorf "only TCP or UDP protocol is supported, got: %q" [AStr protocol].

Definition buildForwardingRule (port : ServicePort.t) (protocol certificateID : string)
    (tlsPassThrough : bool) : result ForwardingRule.t :=
  if negb (bool_decide (port.(ServicePort.Protocol) ∈ [ProtocolTCP; ProtocolUDP]))
  then Err (unsupported_protocol port.(ServicePort.Protocol))
  else
    let rule := ForwardingRule.mk protocol port.(ServicePort.Port) protocol
                  port.(ServicePort.NodePort) "" false in
    if str_eqb protocol protocolHTTPS || str_eqb protocol protocolHTTP2
    then map_err (λ e, Errorf "failed to build TLS part(s) of forwarding rule: %s" [AErr e])
           (buildTLSForwardingRule rule certificateID tlsPassThrough)
    else Ok rule.

(** The protocol of a service port: the default, overridden by the port
    annotations (HTTP2 over HTTPS over HTTP), overridden by UDP. *)
Definition port_protocol (defaultProtocol : string) (httpPortMap httpsPortMap http2PortMap : gset Z)
    (port : ServicePort.t) : string :=
  let protocol := defaultProtocol in
  let protocol := if bool_decide (port.(ServicePort.Port) ∈ httpPortMap) then protocolHTTP else protocol in
  let protocol := if bool_decide (port.(ServicePort.Port) ∈ httpsPortMap) then protocolHTTPS else protocol in
  let protocol := if bool_decide (port.(ServicePort.Port) ∈ http2PortMap) then protocolHTTP2 else protocol in
  if str_eqb port.(ServicePort.Protocol) ProtocolUDP then protocolUDP else protocol.

(** The loop over [service.Spec.Ports] of [buildForwardingRules]. *)
Fixpoint port_rules (protocolOf : ServicePort.t → string) (certificateID : string)
    (tlsPassThrough : bool) (ports : list ServicePort.t) : result (list ForwardingRule.t) :=
  match ports with
  | [] => Ok []
  | port :: ports' =>
      rule ← buildForwardingRule port (protocolOf port) certificateID tlsPassThrough;
      rules ← port_rules protocolOf certificateID tlsPassThrough ports';
      Ok (rule :: rules)
  end.

(** The first service port with the HTTP3 port number, as an [int32]. *)
Fixpoint http3_rule (http3Port : Z) (certificateID : string) (ports : list ServicePort.t)
    : option ForwardingRule.t :=
  match ports with
  | [] => None
  | port :: ports' =>
      if port.(ServicePort.Port) =? int32 http3Port
      then Some (ForwardingRule.mk protocolHTTP3 http3Port protocolHTTP port.(ServicePort.NodePort)
                   certificateID false)
      else http3_rule http3Port certificateID ports'
  end.

Definition buildHTTP3ForwardingRule `{!GodoCertificates R} (s : Service.t)
    : M (net R) (option ForwardingRule.t) :=
  http3Port ← pure (getHTTP3Port s);
  if http3Port =? -1 then mret None
  else
    certificateID ← findCertificateID s;
    if getTLSPassThrough s
    then throw (ErrNew "TLS passthrough is not allowed to be used in conjunction with HTTP3")
    else if str_eqb certificateID "" then throw (ErrNew "certificate ID is required for HTTP3")
    else mret (http3_rule http3Port certificateID s.(Service.Ports)).

(** The HTTPS ports in force: port 443 is added when TLS is configured and no
    annotation claims a TLS port. *)
Definition effective_https (needSecureProto : bool) (httpsPorts http2Ports : list Z) : list Z :=
  if needSecureProto && bool_decide (httpsPorts = []) && negb (contains http2Ports defaultSecurePort)
  then httpsPorts ++ [defaultSecurePort] else httpsPorts.

Definition buildForwardingRules `{!GodoCertificates R} (s : Service.t)
    : M (net R) (list ForwardingRule.t) :=
  defaultProtocol ← pure (getProtocol s);
  httpPorts ← pure (getHTTPPorts s);
  httpsPorts ← pure (getHTTPSPorts s);
  http2Ports ← pure (getHTTP2Ports s);
  let portDups := findDups [httpPorts; httpsPorts; http2Ports] in
  if negb (bool_decide (portDups = []))
  then throw (Errorf ("ports from annotations " +:+ dq +:+ "%s*-ports" +:+ dq +:+ " cannot be shared but found: %s")
                [AStr annDOLoadBalancerBase; AStr (strings.Join portDups ", ")])
  else
    certificateID ← findCertificateID s;
    let tlsPassThrough := getTLSPassThrough s in
    let needSecureProto := negb (str_eqb certificateID "") || tlsPassThrough in
    let httpsPorts := effective_https needSecureProto httpsPorts http2Ports in
    let httpPortMap : gset Z := list_to_set (int32 <$> httpPorts) in
    let httpsPortMap : gset Z := list_to_set (int32 <$> httpsPorts) in
    let http2PortMap : gset Z := list_to_set (int32 <$> http2Ports) in
    forwardingRules ← pure (port_rules
      (port_protocol defaultProtocol httpPortMap httpsPortMap http2PortMap)
      certificateID tlsPassThrough s.(Service.Ports));
    h3 ← on_err (λ e, Errorf "failed to construct http3 forwarding rule: %w" [AWrap e])
           (buildHTTP3ForwardingRule s);
    mret (forwardingRules ++ option_list h3).

Fixpoint buildRegionalNetworkForwardingRule (ports : list ServicePort.t)
    : result (list ForwardingRule.t) :=
  match ports with
  | [] => Ok []
  | port :: ports' =>
      protocol ←
        (if str_eqb port.(ServicePort.Protocol) ProtocolTCP then Ok protocolTCP
         else if str_eqb port.(ServicePort.Protocol) ProtocolUDP then Ok protocolUDP
         else Err (unsupported_protocol port.(ServicePort.Protocol)));
      rules ← buildRegionalNetworkForwardingRule ports';
      Ok (ForwardingRule.mk protocol port.(ServicePort.Port) protocol port.(ServicePort.Port) "" false
            :: rules)
  end.

Definition buildHealthCheck (s : Service.t) : result HealthCheck.t :=
  let '(defaultPath, defaultPort) := healthCheckPathAndPort s in
  '(hcPath, hcPort, hcProtocol, proxyProtocol) ←
    (match svc_get s annDOOverrideHealthCheck with
     | Some _ =>
         let hcPath := healthCheckPath s in
         hcPort ← healthCheckPort s;
         hcProtocol ← healthCheckProtocol s;
         Ok (hcPath, hcPort, hcProtocol, None)
     | None => Ok (defaultPath, defaultPort, protocolHTTP, Some false)
     end);
  checkIntervalSecs ← healthCheckIntervalSeconds s;
  responseTimeoutSecs ← healthCheckResponseTimeoutSeconds s;
  unhealthyThreshold ← healthCheckUnhealthyThreshold s;
  healthyThreshold ← healthCheckHealthyThreshold s;
  Ok (HealthCheck.mk hcProtocol hcPort hcPath checkIntervalSecs responseTimeoutSecs
        unhealthyThreshold healthyThreshold proxyProtocol).

Definition buildStickySessions (s : Service.t) : result StickySessions.t :=
  let t := getStickySessionsType s in
  if str_eqb t stickySessionsTypeNone then Ok (StickySessions.mk t "" 0)
  else
    name ← getStickySessionsCookieName s;
    ttl ← getStickySessionsCookieTTL s;
    Ok (StickySessions.mk t name ttl).

(** [k8s.io/utils/net]: [ParseCIDRSloppy] followed by [IPNet.String], and the
    order in which Go ranges over the [IPNetSet] map. *)
Class IPNets := {
  ParseCIDRSloppy : string → string + error;
  range_order : list string → list string;
}.

(** [utilnet.ParseIPNets]: the keys of the set, in first-insertion order. *)
Fixpoint ParseIPNets `{!IPNets} (specs : list string) (keys : list string) : result (list string) :=
  match specs with
  | [] => Ok keys
  | spec :: specs' =>
      k ← of_sum (ParseCIDRSloppy (strings.TrimSpace spec));
      ParseIPNets specs' (if bool_decide (k ∈ keys) then keys else keys ++ [k])
  end.

Definition getSourceRangeRules `{!IPNets} (s : Service.t) : result (list string) :=
  match s.(Service.LoadBalancerSourceRanges) with
  | [] => Ok []
  | specs =>
      ipnets ← map_err (λ e, Errorf "failed to parse spec.loadBalancerSourceRanges %q: %s (expected format for an IP address is 10.0.0.0/24)"
                               [AStrs specs; AErr e])
                 (ParseIPNets specs []);
      Ok ((λ sourceRange, "cidr:" +:+ sourceRange) <$> range_order ipnets)
  end.

Definition buildFirewall `{!IPNets} (s : Service.t) : result LBFirewall.t :=
  sourceRanges ← map_err (λ e, Errorf "failed to get source range rules: %s" [AErr e])
                   (getSourceRangeRules s);
  let allow := if bool_decide (sourceRanges = []) then getStrings s annDOAllowRules else sourceRanges in
  Ok (LBFirewall.mk allow (getStrings s annDODenyRules)).

(* ================================================================== *)
(** * Facts *)

(** Split a successful or failed [M] run at its first step. *)
Lemma bind_Ok_inv {S A B} (m : M S A) (f : A → M S B) s b s' :
  (m ≫= f) s = (Ok b, s') → ∃ a s1, m s = (Ok a, s1) ∧ f a s1 = (Ok b, s').
Proof. unfold mbind, M_bind. destruct (m s) as [[]]; naive_solver. Qed.

Lemma rbind_Ok_inv {A B} (m : result A) (f : A → result B) b :
  (m ≫= f) = Ok b → ∃ a, m = Ok a ∧ f a = Ok b.
Proof. unfold mbind, result_bind. destruct m; naive_solver. Qed.

Lemma pure_Ok_inv {S A} (r : result A) (s s' : S) a : pure r s = (Ok a, s') → r = Ok a ∧ s' = s.
Proof. unfold pure. naive_solver. Qed.

Lemma on_err_Ok_inv {S A} f (m : M S A) s s' a : on_err f m s = (Ok a, s') → m s = (Ok a, s').
Proof. unfold on_err, map_err. destruct (m s) as [[]]; naive_solver. Qed.

Lemma map_err_Ok {A} f (r : result A) a : map_err f r = Ok a ↔ r = Ok a.
Proof. unfold map_err. destruct r; naive_solver. Qed.

Lemma mret_Ok_inv {S A} (a b : A) (s s' : S) : (mret a : M S A) s = (Ok b, s') → a = b ∧ s = s'.
Proof. unfold mret, M_ret. naive_solver. Qed.

Lemma Ok_inj {A} (a b : A) : Ok a = Ok b → a = b.
Proof. by intros [= ->]. Qed.

(** Take a hypothesis about a successful run apart, step by step. *)
Ltac inv_ok :=
  repeat match goal with
  | H : throw _ _ = (Ok _, _) |- _ => discriminate H
  | H : panic _ = (Ok _, _) |- _ => discriminate H
  | H : nofuel _ = (Ok _, _) |- _ => discriminate H
  | H : Err _ = Ok _ |- _ => discriminate H
  | H : Panic = Ok _ |- _ => discriminate H
  | H : Ok _ = Ok _ |- _ => apply Ok_inj in H; subst
  | H : (_ ≫= _) _ = (Ok _, _) |- _ =>
      let a := fresh "a" in let s1 := fresh "s" in let H1 := fresh "Hm" in let H2 := fresh "Hk" in
      apply bind_Ok_inv in H as (a & s1 & H1 & H2)
  | H : (_ ≫= _) = Ok _ |- _ =>
      let a := fresh "a" in let H1 := fresh "Hm" in let H2 := fresh "Hk" in
      apply rbind_Ok_inv in H as (a & H1 & H2)
  | H : pure _ _ = (Ok _, _) |- _ => apply pure_Ok_inv in H; destruct H as [H ->]
  | H : on_err _ _ _ = (Ok _, _) |- _ => apply on_err_Ok_inv in H
  | H : of_sum _ = Ok _ |- _ => apply of_sum_Ok in H
  | H : map_err _ _ = Ok _ |- _ => apply map_err_Ok in H
  | H : mret _ _ = (Ok _, _) |- _ => apply mret_Ok_inv in H as [? ?]; subst
  end.

(** ** One rule *)

(** A TLS rule terminates with a certificate and plain HTTP behind it, or
    passes through with the same protocol on both sides, never both; a rule
    that is not TLS carries neither. *)
Definition tls_ok (r : ForwardingRule.t) : Prop :=
  let cert := r.(ForwardingRule.CertificateID) in
  let pass := r.(ForwardingRule.TlsPassthrough) in
  if decide (r.(ForwardingRule.EntryProtocol) ∈ [protocolHTTPS; protocolHTTP2]) then
    (cert ≠ "" ∧ pass = false ∧ r.(ForwardingRule.TargetProtocol) = protocolHTTP)
    ∨ (cert = "" ∧ pass = true ∧ r.(ForwardingRule.TargetProtocol) = r.(ForwardingRule.EntryProtocol))
  else cert = "" ∧ pass = false ∧ r.(ForwardingRule.TargetProtocol) = r.(ForwardingRule.EntryProtocol).

(** The rule of a service port. *)
Definition rule_of_port (protocol : string) (p : ServicePort.t) (r : ForwardingRule.t) : Prop :=
  r.(ForwardingRule.EntryProtocol) = protocol
  ∧ r.(ForwardingRule.EntryPort) = p.(ServicePort.Port)
  ∧ r.(ForwardingRule.TargetPort) = p.(ServicePort.NodePort)
  ∧ p.(ServicePort.Protocol) ∈ [ProtocolTCP; ProtocolUDP]
  ∧ tls_ok r.

Lemma buildForwardingRule_Ok p protocol cert pass r :
  buildForwardingRule p protocol cert pass = Ok r → rule_of_port protocol p r.
Proof.
  unfold buildForwardingRule. case_bool_decide as Hp; simpl; [|done].
  destruct (str_eqb protocol protocolHTTPS || str_eqb protocol protocolHTTP2) eqn:E; intros H; inv_ok.
  - unfold buildTLSForwardingRule in H.
    destruct (str_eqb cert "") eqn:Ec, pass; simplify_eq/=; reflect_eqb;
      (split_and!; [done..|]); unfold tls_ok; simpl; rewrite decide_True;
      try (apply orb_true_iff in E as [E|E]; reflect_eqb; subst; set_solver); naive_solver.
  - split_and!; [done..|]. unfold tls_ok; simpl. rewrite decide_False; [done|].
    reflect_eqb. set_solver.
Qed.

Lemma port_rules_Ok protocolOf cert pass ports rules :
  port_rules protocolOf cert pass ports = Ok rules →
  Forall2 (λ p r, rule_of_port (protocolOf p) p r) ports rules.
Proof.
  revert rules. induction ports as [|p ports IH]; intros rules; simpl; intros H; inv_ok; constructor.
  - by eapply buildForwardingRule_Ok.
  - auto.
Qed.

(** The HTTP3 rule: a certificate, no pass-through, plain HTTP behind it. *)
Definition http3_ok (s : Service.t) (r : ForwardingRule.t) : Prop :=
  r.(ForwardingRule.EntryProtocol) = protocolHTTP3
  ∧ r.(ForwardingRule.TargetProtocol) = protocolHTTP
  ∧ r.(ForwardingRule.CertificateID) ≠ "" ∧ r.(ForwardingRule.TlsPassthrough) = false
  ∧ getHTTP3Port s = Ok r.(ForwardingRule.EntryPort)
  ∧ ∃ p, p ∈ s.(Service.Ports) ∧ p.(ServicePort.Port) = int32 r.(ForwardingRule.EntryPort)
         ∧ r.(ForwardingRule.TargetPort) = p.(ServicePort.NodePort).

Lemma http3_rule_Some port cert ports r :
  http3_rule port cert ports = Some r →
  ∃ p, p ∈ ports ∧ p.(ServicePort.Port) = int32 port
       ∧ r = ForwardingRule.mk protocolHTTP3 port protocolHTTP p.(ServicePort.NodePort) cert false.
Proof.
  induction ports as [|p ports IH]; simpl; [done|].
  destruct (_ =? _) eqn:E; intros H; simplify_eq; reflect_eqb.
  - exists p. split_and!; [left|done|done].
  - destruct (IH H) as (q & ? & ?). exists q. split; [by right|done].
Qed.

Lemma http3_rule_None port cert ports p :
  http3_rule port cert ports = None → p ∈ ports → p.(ServicePort.Port) ≠ int32 port.
Proof.
  induction ports as [|q ports IH]; simpl; [by intros _ ?%not_elem_of_nil|].
  destruct (_ =? _) eqn:E; [done|]. apply Z.eqb_neq in E. intros H [->|Hp]%elem_of_cons; auto.
Qed.

Section Certificates.
Context `{!GodoCertificates R}.

(** No HTTP3 rule: not asked for, or for none of the ports. *)
Lemma buildHTTP3_None s st st' x p :
  buildHTTP3ForwardingRule s st = (Ok None, st') → getHTTP3Port s = Ok x → x ≠ -1 →
  p ∈ s.(Service.Ports) → p.(ServicePort.Port) ≠ int32 x.
Proof.
  unfold buildHTTP3ForwardingRule. intros H Hx Hne; inv_ok. assert (a = x) as -> by congruence.
  destruct (Z.eqb_spec x (-1)); [done|]. inv_ok.
  destruct (getTLSPassThrough s); inv_ok. destruct (str_eqb _ ""); inv_ok. by apply http3_rule_None with a.
Qed.

Lemma buildHTTP3_Ok s st h3 st' :
  buildHTTP3ForwardingRule s st = (Ok h3, st') → ∀ r, h3 = Some r → http3_ok s r.
Proof.
  unfold buildHTTP3ForwardingRule. intros H; inv_ok. destruct (a =? -1); inv_ok; [done|].
  destruct (getTLSPassThrough s); inv_ok. destruct (str_eqb _ "") eqn:E; inv_ok. reflect_eqb.
  intros r Hr. apply http3_rule_Some in Hr as (p & Hp & Hport & ->).
  unfold http3_ok; simpl. eauto 10.
Qed.

(** What a successful [buildForwardingRules] built. *)
Lemma buildForwardingRules_Ok s st rules st' :
  buildForwardingRules s st = (Ok rules, st') →
  ∃ dflt http https http2 https' cert st1 prules h3,
    getProtocol s = Ok dflt ∧ getHTTPPorts s = Ok http ∧ getHTTPSPorts s = Ok https
    ∧ getHTTP2Ports s = Ok http2 ∧ NoDup (http ++ https ++ http2)
    ∧ findCertificateID s st = (Ok cert, st1)
    ∧ https' = effective_https (negb (str_eqb cert "") || getTLSPassThrough s) https http2
    ∧ Forall2 (λ p r, rule_of_port
        (port_protocol dflt (list_to_set (int32 <$> http)) (list_to_set (int32 <$> https'))
           (list_to_set (int32 <$> http2)) p) p r) s.(Service.Ports) prules
    ∧ (∀ r, h3 = Some r → http3_ok s r)
    ∧ (∀ x p, h3 = None → getHTTP3Port s = Ok x → x ≠ -1 → p ∈ s.(Service.Ports) →
         p.(ServicePort.Port) ≠ int32 x)
    ∧ rules = prules ++ option_list h3.
Proof.
  unfold buildForwardingRules. intros H; inv_ok. destruct (negb (bool_decide _)) eqn:E; inv_ok.
  reflect_eqb. apply findDups_nil_iff in E. simpl in E. rewrite app_nil_r in E.
  match goal with H : port_rules _ _ _ _ = Ok _ |- _ => apply port_rules_Ok in H end.
  match goal with H : buildHTTP3ForwardingRule _ _ = _ |- _ =>
    pose proof (buildHTTP3_Ok _ _ _ _ H); rename H into H3 end.
  do 9 eexists. split_and!; try done. intros x p ->. by eapply buildHTTP3_None.
Qed.
End Certificates.

(** ** REGIONAL_NETWORK rules *)

Definition network_protocol (p : ServicePort.t) : string :=
  if str_eqb p.(ServicePort.Protocol) ProtocolTCP then protocolTCP else protocolUDP.

Lemma regional_network_rules_eq ports :
  buildRegionalNetworkForwardingRule ports =
    match list_find (λ p, p.(ServicePort.Protocol) ∉ [ProtocolTCP; ProtocolUDP]) ports with
    | Some (_, p) => Err (unsupported_protocol p.(ServicePort.Protocol))
    | None => Ok ((λ p, ForwardingRule.mk (network_protocol p) p.(ServicePort.Port) (network_protocol p)
                          p.(ServicePort.Port) "" false) <$> ports)
    end.
Proof.
  induction ports as [|p ports IH]; [done|]. simpl. rewrite IH. unfold network_protocol.
  destruct (str_eqb (ServicePort.Protocol p) ProtocolTCP) eqn:E1; reflect_eqb; simpl.
  { rewrite decide_False by (rewrite E1; set_solver). by destruct (list_find _ ports) as [[]|]. }
  destruct (str_eqb (ServicePort.Protocol p) ProtocolUDP) eqn:E2; reflect_eqb; simpl.
  { rewrite decide_False by (rewrite E2; set_solver). by destruct (list_find _ ports) as [[]|]. }
  rewrite decide_True by set_solver. done.
Qed.

(** ** Health check ports *)

Lemma find_hc_port_Ok s port ports np :
  find_hc_port s port ports = Ok np →
  ∃ p, p ∈ ports ∧ p.(ServicePort.Port) = port ∧ p.(ServicePort.Protocol) ≠ ProtocolUDP
       ∧ np = p.(ServicePort.NodePort).
Proof.
  induction ports as [|p ports IH]; simpl; [done|].
  destruct (_ =? _) eqn:E1; [destruct (str_eqb _ _) eqn:E2|]; intros H; inv_ok; reflect_eqb.
  - exists p. split_and!; [left|done..].
  - destruct (IH H) as (q & ? & ?). exists q. split; [by right|done].
Qed.

Lemma first_tcp_port_Ok ports np :
  first_tcp_port ports = Ok np →
  ∃ p, p ∈ ports ∧ p.(ServicePort.Protocol) = ProtocolTCP ∧ np = p.(ServicePort.NodePort).
Proof.
  induction ports as [|p ports IH]; simpl; [done|].
  destruct (str_eqb _ _) eqn:E; intros H; inv_ok; reflect_eqb.
  - exists p. split_and!; [left|done..].
  - destruct (IH H) as (q & ? & ?). exists q. split; [by right|done].
Qed.

Lemma healthCheckPort_Ok s np :
  healthCheckPort s = Ok np →
  ∃ p, p ∈ s.(Service.Ports) ∧ p.(ServicePort.Protocol) ≠ ProtocolUDP
       ∧ np = p.(ServicePort.NodePort).
Proof.
  unfold healthCheckPort. intros Hb. inv_ok. destruct a as [|q [|??]]; inv_ok.
  - apply first_tcp_port_Ok in Hk as (p & ? & Hp & ->). exists p. by rewrite Hp.
  - apply find_hc_port_Ok in Hk as (p & ? & ? & ? & ->). by exists p.
Qed.

(** ** Source ranges *)

Lemma ParseIPNets_Ok `{!IPNets} specs keys nets :
  NoDup keys → ParseIPNets specs keys = Ok nets →
  NoDup nets ∧ ∀ n, n ∈ nets ↔ n ∈ keys
    ∨ ∃ spec, spec ∈ specs ∧ ParseCIDRSloppy (strings.TrimSpace spec) = inl n.
Proof.
  revert keys. induction specs as [|spec specs IH]; intros keys Hnd; simpl; intros HP; inv_ok.
  { split; [done|]. intros n. set_solver. }
  match goal with H : ParseIPNets _ _ = Ok _ |- _ => apply IH in H as [Hn Hin] end.
  2:{ case_bool_decide; [done|]. apply NoDup_app. split_and!; [done|set_solver|apply NoDup_singleton]. }
  split; [done|]. intros n. rewrite Hin.
  assert (Hk : n ∈ (if bool_decide (a ∈ keys) then keys else keys ++ [a]) ↔ n ∈ keys ∨ n = a).
  { case_bool_decide; set_solver. }
  rewrite Hk. split.
  - intros [[?| ->]|(sp & ? & ?)]; [by left| |]; right; [exists spec|exists sp]; split; auto; set_solver.
  - intros [?|(sp & [->|?]%elem_of_cons & ?)]; [by do 2 left| |right; by exists sp].
    left. right. congruence.
Qed.

(** ** What the port annotations ask for *)

Definition annotated_protocol (s : Service.t) (dflt : string) : Prop :=
  match svc_get s annDOProtocol with
  | None => dflt = "tcp"
  | Some v => dflt = v ∧ v ∈ ["tcp"; "http"; "https"; "http2"; "http3"]
  end.

(** The annotation lists the ports [l], numbers with commas between them. *)
Definition annotated_ports (s : Service.t) (anno : string) (l : list Z) : Prop :=
  match svc_get s anno with
  | None => l = []
  | Some v => Forall2 (λ piece x, strconv.Atoi piece = Ok x) (strings.Split v ","%char) l
  end.

(** A listed number is meant as an [int32]. *)
Definition lists_port (l : list Z) (p : ServicePort.t) : Prop :=
  ∃ x, x ∈ l ∧ p.(ServicePort.Port) = int32 x.

(** The port is listed for https, or is the standard port of a load balancer
    with TLS that has no listed port and whose http2 ports do not include it. *)
Definition asks_https (https http2 : list Z) (tls : Prop) (p : ServicePort.t) : Prop :=
  lists_port https p ∨ (tls ∧ https = [] ∧ ¬ (443 ∈ http2) ∧ p.(ServicePort.Port) = 443).

Inductive speaks (dflt : string) (http https http2 : list Z) (tls : Prop) (p : ServicePort.t)
    : string → Prop :=
| speaks_udp : p.(ServicePort.Protocol) = "UDP" → speaks dflt http https http2 tls p "udp"
| speaks_http2 :
    p.(ServicePort.Protocol) ≠ "UDP" → lists_port http2 p → speaks dflt http https http2 tls p "http2"
| speaks_https :
    p.(ServicePort.Protocol) ≠ "UDP" → ¬ lists_port http2 p → asks_https https http2 tls p →
    speaks dflt http https http2 tls p "https"
| speaks_http :
    p.(ServicePort.Protocol) ≠ "UDP" → ¬ lists_port http2 p → ¬ asks_https https http2 tls p →
    lists_port http p → speaks dflt http https http2 tls p "http"
| speaks_default :
    p.(ServicePort.Protocol) ≠ "UDP" → ¬ lists_port http2 p → ¬ asks_https https http2 tls p →
    ¬ lists_port http p → speaks dflt http https http2 tls p dflt.

(** HTTP3 is asked for with the number [x], which is that of a service port. *)
Definition asks_http3 (s : Service.t) (x : Z) : Prop :=
  (match svc_get s annDOHTTP3Port with
   | None => x = -1
   | Some v => strconv.Atoi v = Ok x
   end) ∧ ∃ p, p ∈ s.(Service.Ports) ∧ p.(ServicePort.Port) = int32 x.

Lemma getProtocol_annotated s dflt : getProtocol s = Ok dflt → annotated_protocol s dflt.
Proof.
  unfold getProtocol, annotated_protocol. destruct (svc_get s annDOProtocol); [|by intros [= <-]].
  case_bool_decide; [|done]. by intros [= <-].
Qed.

Lemma atoi_all_Ok l zs : atoi_all l = Ok zs → Forall2 (λ piece x, strconv.Atoi piece = Ok x) l zs.
Proof.
  revert zs. induction l as [|p l IH]; intros zs; simpl; intros H; inv_ok; constructor; auto.
Qed.

Lemma getPorts_annotated s anno l : getPorts s anno = Ok l → annotated_ports s anno l.
Proof.
  unfold getPorts, annotated_ports. destruct (svc_get s anno); [apply atoi_all_Ok|by intros [= <-]].
Qed.

Lemma getHTTP3Port_annotated s x :
  getHTTP3Port s = Ok x ↔ match svc_get s annDOHTTP3Port with
                          | None => x = -1
                          | Some v => strconv.Atoi v = Ok x
                          end.
Proof. unfold getHTTP3Port. destruct (svc_get s annDOHTTP3Port); [done|]. split; congruence. Qed.

Lemma lists_port_set (l : list Z) p :
  p.(ServicePort.Port) ∈ (list_to_set (int32 <$> l) : gset Z) ↔ lists_port l p.
Proof. rewrite elem_of_list_to_set, list_elem_of_fmap. unfold lists_port. naive_solver. Qed.

Lemma effective_https_asks cert pass https http2 p :
  lists_port (effective_https (negb (str_eqb cert "") || pass) https http2) p
  ↔ asks_https https http2 (cert ≠ "" ∨ pass = true) p.
Proof.
  unfold effective_https, asks_https, contains, defaultSecurePort, lists_port.
  destruct (str_eqb cert "") eqn:Ec, pass; simpl; reflect_eqb;
    repeat case_bool_decide; subst; simpl; try (naive_solver || set_solver).
Qed.

Lemma port_protocol_speaks dflt http https http2 cert pass p :
  speaks dflt http https http2 (cert ≠ "" ∨ pass = true) p
    (port_protocol dflt (list_to_set (int32 <$> http))
       (list_to_set (int32 <$> effective_https (negb (str_eqb cert "") || pass) https http2))
       (list_to_set (int32 <$> http2)) p).
Proof.
  unfold port_protocol. pose proof (effective_https_asks cert pass https http2 p) as Hs.
  rewrite <- lists_port_set in Hs.
  destruct (str_eqb _ ProtocolUDP) eqn:Eu; reflect_eqb; [by constructor|].
  case_bool_decide as H2; rewrite lists_port_set in H2; [by apply speaks_http2|].
  case_bool_decide as H1; rewrite Hs in H1; [by apply speaks_https|].
  case_bool_decide as H0; rewrite lists_port_set in H0; [by apply speaks_http|by apply speaks_default].
Qed.

(* ================================================================== *)
(** * Properties *)

(** C20. Forwarding rules of a REGIONAL load balancer: success means that no
    port is listed twice across the three port annotations, that there is
    exactly one rule per service port, in order, from the service port to its
    node port, and that its protocol is what the annotations ask for: udp for a
    UDP port, else http2, https or http for a port listed for it, in that order;
    port 443 counts as listed for https exactly when there is a certificate or
    pass-through, no https port is listed and http2 does not claim it; else the
    default protocol.  One HTTP3 rule follows exactly when the annotation names
    the number of a service port. *)
Theorem forwarding_rules_per_port `{!GodoCertificates R} s st rules st' :
  buildForwardingRules s st = (Ok rules, st') →
  ∃ dflt http https http2 cert st1 prules h3,
    annotated_protocol s dflt ∧ annotated_ports s annDOHTTPPorts http
    ∧ annotated_ports s annDOTLSPorts https ∧ annotated_ports s annDOHTTP2Ports http2
    ∧ NoDup (http ++ https ++ http2)
    ∧ findCertificateID s st = (Ok cert, st1)
    ∧ rules = prules ++ option_list h3
    ∧ Forall2 (λ p r,
        r.(ForwardingRule.EntryPort) = p.(ServicePort.Port)
        ∧ r.(ForwardingRule.TargetPort) = p.(ServicePort.NodePort)
        ∧ speaks dflt http https http2 (cert ≠ "" ∨ getTLSPassThrough s = true) p
            r.(ForwardingRule.EntryProtocol)) s.(Service.Ports) prules
    ∧ (∀ r, h3 = Some r → asks_http3 s r.(ForwardingRule.EntryPort)
                          ∧ r.(ForwardingRule.EntryProtocol) = "http3")
    ∧ (∀ x, asks_http3 s x → x ≠ -1 → is_Some h3).
Proof.
  intros (dflt & http & https & http2 & https' & cert & st1 & prules & h3 & Hd & Hh & Hs & H2 & Hnd & Hc
    & He & HF & H3 & Hn3 & ->)%buildForwardingRules_Ok.
  exists dflt, http, https, http2, cert, st1, prules, h3.
  split_and!; [by apply getProtocol_annotated|by apply getPorts_annotated..|done|done|done| | |].
  - eapply Forall2_impl; [exact HF|]. intros p r (-> & ? & ? & _). split_and!; [done..|].
    subst https'. apply port_protocol_speaks.
  - intros r Hr. destruct (H3 r Hr) as (? & _ & _ & _ & Hx & p & Hp & Hport & _). split; [|done].
    split; [by apply getHTTP3Port_annotated|eauto].
  - intros x [Hx (p & Hp & Hport)] Hne. destruct h3 as [r|]; [by eexists|].
    apply getHTTP3Port_annotated in Hx. by destruct (Hn3 x p eq_refl Hx Hne Hp).
Qed.

(** C19. TLS safety of every rule sent for a REGIONAL load balancer: a
    certificate and pass-through are never combined; an https or http2 rule
    has exactly one of the two, and terminates to plain HTTP exactly when it
    has the certificate; an HTTP3 rule built for the HTTP3 annotation always
    has a certificate. *)
Theorem forwarding_rules_tls_safe `{!GodoCertificates R} s st rules st' :
  buildForwardingRules s st = (Ok rules, st') →
  Forall (λ r, tls_ok r ∨ http3_ok s r) rules.
Proof.
  intros (? & ? & ? & ? & ? & ? & ? & prules & h3 & ? & ? & ? & ? & ? & ? & ? & HF & H3 & _ & ->)%buildForwardingRules_Ok.
  apply Forall_app. split.
  - apply Forall_forall. intros r Hr. left.
    apply list_elem_of_lookup in Hr as [i Hi].
    destruct (Forall2_lookup_r _ _ _ _ _ HF Hi) as (p & _ & Hrule). by destruct Hrule as (?&?&?&?&?).
  - destruct h3 as [r|]; simpl; [|done]. constructor; [right; by apply H3 | done].
Qed.

(** REGIONAL_NETWORK forwarding rules: the code succeeds exactly when every
    service port is TCP or UDP, and then forwards every port to the same
    service port (not the node port) with the port's own protocol; otherwise
    it reports the first port with another protocol. *)
Theorem regional_network_rules ports :
  buildRegionalNetworkForwardingRule ports =
    match list_find (λ p, p.(ServicePort.Protocol) ∉ [ProtocolTCP; ProtocolUDP]) ports with
    | Some (_, p) => Err (unsupported_protocol p.(ServicePort.Protocol))
    | None => Ok ((λ p, ForwardingRule.mk (network_protocol p) p.(ServicePort.Port) (network_protocol p)
                          p.(ServicePort.Port) "" false) <$> ports)
    end.
Proof. apply regional_network_rules_eq. Qed.

(** Health checks: without the override annotation the check is HTTP on
    /healthz with PROXY protocol off, on the health-check node port of a
    service with local traffic policy and on kube-proxy's port otherwise; with
    it, the port is the node port of a service port that is not UDP. *)
Theorem health_check_target s hc :
  buildHealthCheck s = Ok hc →
  match svc_get s annDOOverrideHealthCheck with
  | None =>
      hc.(HealthCheck.Protocol) = protocolHTTP ∧ hc.(HealthCheck.Path) = "/healthz"
      ∧ hc.(HealthCheck.ProxyProtocol) = Some false
      ∧ hc.(HealthCheck.Port) =
          (if decide (s.(Service.Type_) = ServiceTypeLoadBalancer
                      ∧ s.(Service.ExternalTrafficPolicy) = ServiceExternalTrafficPolicyLocal
                      ∧ s.(Service.HealthCheckNodePort) ≠ 0)
           then s.(Service.HealthCheckNodePort) else kubeProxyHealthPort)
  | Some _ =>
      hc.(HealthCheck.ProxyProtocol) = None
      ∧ ∃ p, p ∈ s.(Service.Ports) ∧ p.(ServicePort.Protocol) ≠ ProtocolUDP
             ∧ hc.(HealthCheck.Port) = p.(ServicePort.NodePort)
  end.
Proof.
  unfold buildHealthCheck. destruct (healthCheckPathAndPort s) as [path port] eqn:Ehc. intros Hb.
  destruct (svc_get s annDOOverrideHealthCheck) as [v|]; inv_ok.
  - simpl. split; [done|]. by apply healthCheckPort_Ok.
  - simpl. unfold healthCheckPathAndPort, GetServiceHealthCheckPathPort, NeedsHealthCheck,
      RequestsOnlyLocalTraffic in Ehc.
    destruct (str_eqb (Service.Type_ s) ServiceTypeLoadBalancer) eqn:E1;
      destruct (str_eqb (Service.ExternalTrafficPolicy s) _) eqn:E2;
      destruct (Service.HealthCheckNodePort s =? 0) eqn:E3; simplify_eq/=; reflect_eqb;
      case_decide; naive_solver.
Qed.

(** The load-balancer firewall: when the Service lists source ranges they
    take precedence, and the allow rules are then, whatever the map order,
    [cidr:] and the network of each listed range, every network once; without
    source ranges the allow rules are the trimmed pieces of the annotation. *)
Theorem firewall_allow_rules `{!IPNets} s fw :
  (∀ l, range_order l ≡ₚ l) → buildFirewall s = Ok fw →
  fw.(LBFirewall.Deny) = getStrings s annDODenyRules
  ∧ if decide (s.(Service.LoadBalancerSourceRanges) = [])
    then fw.(LBFirewall.Allow) = getStrings s annDOAllowRules
    else NoDup fw.(LBFirewall.Allow)
         ∧ ∀ rule, rule ∈ fw.(LBFirewall.Allow) ↔
             ∃ range net, range ∈ s.(Service.LoadBalancerSourceRanges)
               ∧ ParseCIDRSloppy (strings.TrimSpace range) = inl net ∧ rule = "cidr:" +:+ net.
Proof.
  intros Hperm. unfold buildFirewall, getSourceRangeRules. intros Hb. inv_ok.
  destruct (Service.LoadBalancerSourceRanges s) as [|spec specs] eqn:Es; inv_ok; simpl.
  { done. }
  match goal with Hx : ParseIPNets _ _ = Ok ?n |- _ => rename Hx into Hnets; rename n into nets end.
  assert (Hspec : ∃ n, ParseCIDRSloppy (strings.TrimSpace spec) = inl n)
    by (simpl in Hnets; inv_ok; eauto).
  apply ParseIPNets_Ok in Hnets as [Hnd Hin]; [|constructor].
  split; [done|]. destruct (range_order nets) eqn:Er.
  { exfalso. destruct Hspec as [n Hn]. pose proof (Hperm nets) as HP. rewrite Er in HP.
    apply Permutation_nil_l in HP. subst nets. apply (not_elem_of_nil n), Hin.
    right. exists spec. split; [left|done]. }
  rewrite <- Er. rewrite bool_decide_false by by rewrite Er. split.
  - apply (NoDup_fmap_2 _). by rewrite Hperm.
  - intros rule. rewrite list_elem_of_fmap. setoid_rewrite Hperm. setoid_rewrite Hin. split.
    + intros (net & -> & [[]%not_elem_of_nil|(range & ? & ?)]). by exists range, net.
    + intros (range & net & ? & ? & ->). exists net. split; [done|]. right. by exists range.
Qed.
