(* ===== verification/Requests.v ===== *)
(** * Load-balancer requests

    [loadbalancers.go]: the request for a Service without node information
    (admission) and with it, the droplets behind the nodes, and the method
    [buildLoadBalancerRequest] that the create and update paths share. *)

From S2P Require Import Prelude GoStd Types Annotations Nodes Api Rules.
From stdpp Require Import base gmap strings list.
From Stdlib Require Import ZArith Lia.
#[local] Open Scope Z_scope.

(** [loadBalancers] with the fields of its [resources] that it reads. *)
Module loadBalancers.
Record t := mk {
  region : string;
  clusterID : string;     (** [resources.clusterID] *)
  clusterVPCID : string;  (** [resources.clusterVPCID] *)
  defaultLBType : string;
}.
End loadBalancers.

Definition second : Z := 1000000000.
Definition nodesNotYetLBReadyRetryAfter : Z := 5 * second.
Definition nodesNotYetReadyRetryAfter : Z := 15 * second.

Definition tagPrefixClusterID : string := "k8s".
Definition buildK8sTag (val : string) : string := tagPrefixClusterID +:+ ":" +:+ val.

Definition errNoEligibleBackendsMsg : string :=
  "REGIONAL_NETWORK EXTERNAL load balancers require at least one node with a public IPv4 address; no eligible backends found. For private-only nodes, set service.beta.kubernetes.io/do-loadbalancer-type to "
  +:+ dq +:+ "REGIONAL" +:+ dq +:+ " or service.beta.kubernetes.io/do-loadbalancer-network to "
  +:+ dq +:+ "INTERNAL" +:+ dq +:+ ".".

(** The first loop of [nodesToDropletIDs]: the droplets named by provider IDs
    and the names of the nodes that have none. *)
Fixpoint provider_droplets (nodes : list Node.t) : result (list Z * gset string) :=
  match nodes with
  | [] => Ok ([], ∅)
  | node :: nodes' =>
      let providerID := node.(Node.ProviderID) in
      if negb (str_eqb providerID "") then
        dropletID ← map_err (λ e, Errorf "failed to parse provider ID %q: %s" [AStr providerID; AErr e])
                      (dropletIDFromProviderID providerID);
        '(dropletIDs, missingDroplets) ← provider_droplets nodes';
        Ok (dropletID :: dropletIDs, missingDroplets)
      else
        '(dropletIDs, missingDroplets) ← provider_droplets nodes';
        Ok (dropletIDs, {[node.(Node.Name)]} ∪ missingDroplets)
  end.

(** One turn of the loop over all droplets: a droplet is taken when its name,
    or else one of its addresses, is that of a node still missing; in both
    cases the droplet's name leaves the missing set. *)
Definition match_droplet (acc : list Z * gset string) (droplet : Droplet.t) : list Z * gset string :=
  let '(dropletIDs, missingDroplets) := acc in
  let taken := (dropletIDs ++ [droplet.(Droplet.ID)], missingDroplets ∖ {[droplet.(Droplet.Name)]}) in
  if bool_decide (droplet.(Droplet.Name) ∈ missingDroplets) then taken
  else
    match nodeAddresses droplet with
    | Ok addresses =>
        if existsb (λ a, bool_decide (a.(NodeAddress.Address) ∈ missingDroplets)) addresses
        then taken else acc
    | _ => acc
    end.

Section Requests.
Context {R : Type}.
Context `{!GodoPaging, !GodoLoadBalancers R, !GodoCertificates R, !GodoDroplets R, !Kube R, !IPNets}.
Variable fuel : nat.

Definition nodesToDropletIDs (nodes : list Node.t) : M (net R) (list Z) :=
  '(dropletIDs, missingDroplets) ← pure (provider_droplets nodes);
  if bool_decide (missingDroplets = ∅) then mret dropletIDs
  else
    droplets ← on_err (λ e, Errorf "failed to list all droplets: %s" [AErr e])
                 (allDropletList (λ page, call (EvDropletList page) (Droplets_List page)) fuel);
    mret (foldl match_droplet (dropletIDs, missingDroplets) droplets).1.

(** [buildLoadBalancerRequestWithNodeState] *)
Definition buildLoadBalancerRequestWithNodeState (s : Service.t) (defaultLBType : string)
    (ns : option nodeState.t) : M (net R) LoadBalancerRequest.t :=
  let lbName := getLoadBalancerName s in
  lbType ← pure (getType s defaultLBType);
  lbNetwork ← pure (getNetwork s);
  lbNetworkStack ← pure (getNetworkStack s lbType lbNetwork ns);
  forwardingRules ←
    (if str_eqb lbType LoadBalancerTypeRegionalNetwork
     then pure (buildRegionalNetworkForwardingRule s.(Service.Ports))
     else buildForwardingRules s);
  healthCheck ← pure (buildHealthCheck s);
  stickySessions ← pure (buildStickySessions s);
  let algorithm := getAlgorithm s in
  sizeSlug ← pure (getSizeSlug s);
  sizeUnit ← pure (getSizeUnit s);
  if negb (str_eqb sizeSlug "") && (0 <? sizeUnit)
  then throw (ErrNew "only one of LB size slug and size unit can be provided")
  else
    redirectHTTPToHTTPS ← pure (getRedirectHTTPToHTTPS s);
    enableProxyProtocol ← pure (getEnableProxyProtocol s);
    enableBackendKeepalive ← pure (getEnableBackendKeepalive s);
    disableLetsEncryptDNSRecords ← pure (getDisableLetsEncryptDNSRecords s);
    httpIdleTimeoutSeconds ← pure (getHttpIdleTimeoutSeconds s);
    fw ← pure (buildFirewall s);
    mret (LoadBalancerRequest.mk lbName algorithm "" sizeSlug sizeUnit lbType forwardingRules
            healthCheck stickySessions [] [] redirectHTTPToHTTPS enableProxyProtocol
            enableBackendKeepalive "" (getSubnetUUID s) disableLetsEncryptDNSRecords false
            httpIdleTimeoutSeconds fw lbNetwork lbNetworkStack "").

(** The package-level [buildLoadBalancerRequest], for the admission server. *)
Definition buildLoadBalancerRequest_admission (s : Service.t) (defaultLBType : string)
    : M (net R) LoadBalancerRequest.t :=
  buildLoadBalancerRequestWithNodeState s defaultLBType None.

Definition emitServiceEvent (s : Service.t) (reason : string) (message : error) : M (net R) unit :=
  call (EvServiceEvent s.(Service.Namespace) s.(Service.Name) reason message)
       (λ r, (tt, Events_Create s.(Service.Namespace) s.(Service.Name) reason message r)).

(** The error of a REGIONAL_NETWORK EXTERNAL load balancer without backends. *)
Definition no_eligible_backends : error :=
  Errorf "%w: %s" [AWrap (ErrSentinel ErrNoEligibleBackends); AStr errNoEligibleBackendsMsg].

(** The retry error when every candidate node is still coming up. *)
Definition none_serving_yet (s : Service.t) (pendingNotReady : list Node.t) : error :=
  RetryError "service %s/%s: %d lb-ready-by-IP node(s) are not yet serving (NodeReady=True and critical components ready) and none is already admitted, retrying instead of writing an empty backend set: %s"
    [AStr s.(Service.Namespace); AStr s.(Service.Name);
     AInt (Z.of_nat (length pendingNotReady)); AStr (formatNodeNames pendingNotReady 5)]
    nodesNotYetReadyRetryAfter.

(** The method [(l *loadBalancers) buildLoadBalancerRequest]. *)
Definition buildLoadBalancerRequest (l : loadBalancers.t) (s : Service.t) (nodes : list Node.t)
    (admittedIDs : gset Z) : M (net R) (LoadBalancerRequest.t * list Node.t) :=
  lbNetwork ← pure (getNetwork s);
  lbType ← pure (getType s l.(loadBalancers.defaultLBType));
  let ns := filterAndClassifyNodes nodes lbType lbNetwork in
  if bool_decide (ns.(nodeState.lbReadyNodes) = []) && (0 <? ns.(nodeState.publicNetUnreadyCount))
     && str_eqb lbType LoadBalancerTypeRegionalNetwork
     && str_eqb lbNetwork LoadBalancerNetworkTypeExternal
  then
    emitServiceEvent s "LoadBalancerConfigError" no_eligible_backends;;
    throw no_eligible_backends
  else
    let '(admitted, pendingNotReady) := filterByReadiness ns.(nodeState.lbReadyNodes) admittedIDs in
    if bool_decide (admitted = []) && negb (bool_decide (pendingNotReady = []))
    then throw (none_serving_yet s pendingNotReady)
    else
      let admitState := filterAndClassifyNodes admitted lbType lbNetwork in
      req ← attempt (buildLoadBalancerRequestWithNodeState s l.(loadBalancers.defaultLBType)
                       (Some admitState));
      match req with
      | inr err =>
          (if errors_Is err ErrNetworkStackConfig
           then emitServiceEvent s "LoadBalancerConfigError" err else mret tt);;
          throw err
      | inl req =>
          dropletIDs ← nodesToDropletIDs admitted;
          let tags := if negb (str_eqb l.(loadBalancers.clusterID) "")
                      then [buildK8sTag l.(loadBalancers.clusterID)] else [] in
          mret (LoadBalancerRequest.set_backends dropletIDs tags l.(loadBalancers.region)
                  l.(loadBalancers.clusterVPCID) req, pendingNotReady)
      end.
End Requests.

(* ================================================================== *)
(** * Facts *)

(** Calls that change a load balancer. *)
Definition lb_write (ev : event) : Prop :=
  match ev with
  | EvLBCreate _ | EvLBUpdate _ _ | EvLBDelete _ => True
  | _ => False
  end.

(** Calls made while a request is built. *)
Definition build_event (ev : event) : Prop :=
  match ev with
  | EvCertListByName _ | EvDropletList _ | EvServiceEvent _ _ _ _ => True
  | _ => False
  end.

Lemma attempt_inl_inv {S A} (m : M S A) s a s' :
  attempt m s = (Ok (inl a), s') → m s = (Ok a, s').
Proof. unfold attempt. destruct (m s) as [[]]; naive_solver. Qed.

Lemma provider_droplets_Ok nodes ids missing :
  provider_droplets nodes = Ok (ids, missing) →
  Forall (λ n, n.(Node.ProviderID) ≠ "") nodes →
  missing = ∅ ∧ Forall2 (λ n id, dropletIDFromProviderID n.(Node.ProviderID) = Ok id) nodes ids.
Proof.
  revert ids missing. induction nodes as [|n nodes IH]; intros ids missing; simpl.
  { intros [= <- <-] _. done. }
  destruct (str_eqb (Node.ProviderID n) "") eqn:E; reflect_eqb; simpl; intros Hb [Hn Hns]%Forall_cons;
    [done|]. inv_ok. destruct a0 as [ids' m']. inv_ok. simplify_eq.
  destruct (IH _ _ ltac:(done) Hns) as [-> HF]. split; [done|]. by constructor.
Qed.

(** The missing names are those of the nodes without provider ID. *)
Lemma provider_droplets_missing nodes ids missing :
  provider_droplets nodes = Ok (ids, missing) →
  ∀ name, name ∈ missing ↔ ∃ n, n ∈ nodes ∧ n.(Node.ProviderID) = "" ∧ n.(Node.Name) = name.
Proof.
  revert ids missing. induction nodes as [|n nodes IH]; intros ids missing; simpl.
  { intros [= <- <-]. set_solver. }
  destruct (str_eqb (Node.ProviderID n) "") eqn:E; reflect_eqb; simpl; intros Hb name; inv_ok.
  - destruct a as [ids' m']. inv_ok. simplify_eq. specialize (IH _ _ ltac:(done) name).
    set_solver.
  - destruct a0 as [ids' m']. inv_ok. simplify_eq. specialize (IH _ _ ltac:(done) name).
    set_solver.
Qed.

Section RequestFacts.
Context {R : Type}.
Context `{!GodoPaging, !GodoLoadBalancers R, !GodoCertificates R, !GodoDroplets R, !Kube R, !IPNets}.
Variable fuel : nat.

Lemma nodesToDropletIDs_provider nodes (st : net R) ids st' :
  nodesToDropletIDs fuel nodes st = (Ok ids, st') →
  Forall (λ n, n.(Node.ProviderID) ≠ "") nodes →
  st' = st ∧ Forall2 (λ n id, dropletIDFromProviderID n.(Node.ProviderID) = Ok id) nodes ids.
Proof.
  unfold nodesToDropletIDs. intros Hb Hp. inv_ok. destruct a as [ids' m'].
  destruct (provider_droplets_Ok _ _ _ Hm Hp) as [-> HF].
  rewrite bool_decide_true in Hk by done. by inv_ok.
Qed.

Lemma emits_nodesToDropletIDs nodes : emits (R := R) build_event (nodesToDropletIDs fuel nodes).
Proof. unfold nodesToDropletIDs, allDropletList. solve_emits; done. Qed.

Lemma emits_findCertificateID s : emits (R := R) build_event (findCertificateID s).
Proof. unfold findCertificateID. solve_emits; done. Qed.

Lemma emits_buildForwardingRules s : emits (R := R) build_event (buildForwardingRules s).
Proof.
  pose proof (emits_findCertificateID s). unfold buildForwardingRules, buildHTTP3ForwardingRule.
  solve_emits; done.
Qed.

Lemma emits_withNodeState s d ns :
  emits (R := R) build_event (buildLoadBalancerRequestWithNodeState s d ns).
Proof.
  pose proof (emits_buildForwardingRules s). unfold buildLoadBalancerRequestWithNodeState.
  solve_emits; done.
Qed.

Lemma emits_buildLoadBalancerRequest l s nodes ids :
  emits (R := R) build_event (buildLoadBalancerRequest fuel l s nodes ids).
Proof.
  pose proof (emits_withNodeState s). pose proof emits_nodesToDropletIDs.
  unfold buildLoadBalancerRequest, emitServiceEvent. solve_emits; done.
Qed.

(** What a request built without nodes, or from a node state, contains. *)
Lemma withNodeState_Ok s d ns (st : net R) req st' :
  buildLoadBalancerRequestWithNodeState s d ns st = (Ok req, st') →
  getType s d = Ok req.(LoadBalancerRequest.Type_)
  ∧ getNetwork s = Ok req.(LoadBalancerRequest.Network)
  ∧ getNetworkStack s req.(LoadBalancerRequest.Type_) req.(LoadBalancerRequest.Network) ns
    = Ok req.(LoadBalancerRequest.NetworkStack)
  ∧ req.(LoadBalancerRequest.Name) = getLoadBalancerName s
  ∧ req.(LoadBalancerRequest.IP) = "" ∧ req.(LoadBalancerRequest.ValidateOnly) = false
  ∧ (req.(LoadBalancerRequest.SizeSlug) = "" ∨ req.(LoadBalancerRequest.SizeUnit) = 0).
Proof.
  unfold buildLoadBalancerRequestWithNodeState. intros Hb. inv_ok.
  destruct (negb _ && _) eqn:E; inv_ok. simpl. split_and!; try done.
  match goal with H : getSizeUnit s = Ok _ |- _ => apply getSizeUnit_range in H end.
  apply andb_false_iff in E as [?|?]; reflect_eqb; [by left|right; lia].
Qed.

(** What [buildLoadBalancerRequest] returns. *)
Lemma buildLoadBalancerRequest_Ok l s nodes ids (st : net R) req pending st' :
  buildLoadBalancerRequest fuel l s nodes ids st = (Ok (req, pending), st') →
  ∃ net ty admitted base st1 st2,
    getNetwork s = Ok net ∧ getType s l.(loadBalancers.defaultLBType) = Ok ty
    ∧ filterByReadiness (filterAndClassifyNodes nodes ty net).(nodeState.lbReadyNodes) ids
      = (admitted, pending)
    ∧ buildLoadBalancerRequestWithNodeState s l.(loadBalancers.defaultLBType)
        (Some (filterAndClassifyNodes admitted ty net)) st1 = (Ok base, st2)
    ∧ nodesToDropletIDs fuel admitted st2 = (Ok req.(LoadBalancerRequest.DropletIDs), st')
    ∧ req = LoadBalancerRequest.set_backends req.(LoadBalancerRequest.DropletIDs)
              (if negb (str_eqb l.(loadBalancers.clusterID) "")
               then [buildK8sTag l.(loadBalancers.clusterID)] else [])
              l.(loadBalancers.region) l.(loadBalancers.clusterVPCID) base.
Proof.
  unfold buildLoadBalancerRequest. intros Hb. inv_ok.
  destruct (_ && _ && _ && _); inv_ok.
  destruct (filterByReadiness _ ids) as [admitted pend] eqn:Ef.
  destruct (_ && _); inv_ok. destruct a1 as [base|e]; inv_ok. simplify_eq.
  match goal with H : attempt _ _ = _ |- _ => apply attempt_inl_inv in H end.
  do 6 eexists. split_and!; done.
Qed.
End RequestFacts.

(** The nodes that back the load balancer: accepted by IP stack, then
    admissible. *)
Definition backends (s : Service.t) (l : loadBalancers.t) (nodes : list Node.t) (ids : gset Z)
    : list Node.t :=
  match getType s l.(loadBalancers.defaultLBType), getNetwork s with
  | Ok ty, Ok net =>
      filter (admissibleP ids) (filterAndClassifyNodes nodes ty net).(nodeState.lbReadyNodes)
  | _, _ => []
  end.

Lemma backends_sublist s l nodes ids : backends s l nodes ids ⊆ nodes.
Proof.
  unfold backends. repeat case_match; try set_solver.
  intros n [_ Hn]%list_elem_of_filter.
  destruct (decide (a0 = LoadBalancerNetworkTypeInternal)) as [->|Hne].
  - by rewrite filterAndClassifyNodes_internal in Hn.
  - rewrite filterAndClassifyNodes_external in Hn by done. simpl in Hn.
    by apply list_elem_of_filter in Hn as [_ ?].
Qed.

(** Classifying the accepted nodes again accepts them all. *)
Lemma classify_ready_idemp nodes ty net (P : Node.t → Prop) `{∀ n, Decision (P n)} :
  let ready := filter P (filterAndClassifyNodes nodes ty net).(nodeState.lbReadyNodes) in
  (filterAndClassifyNodes ready ty net).(nodeState.lbReadyNodes) = ready.
Proof.
  simpl. destruct (decide (net = LoadBalancerNetworkTypeInternal)) as [->|Hne].
  - by rewrite !filterAndClassifyNodes_internal.
  - rewrite !filterAndClassifyNodes_external by done; simpl.
    rewrite list_filter_filter. symmetry. rewrite list_filter_filter.
    rewrite list_filter_filter. apply list_filter_iff. naive_solver.
Qed.

(** The droplets of a request are those of the backends, and there is one. *)
Lemma request_droplets `{!GodoPaging, !GodoLoadBalancers R, !GodoCertificates R, !GodoDroplets R,
    !Kube R, !IPNets} fuel l s nodes ids (st : net R) req pending st' :
  buildLoadBalancerRequest fuel l s nodes ids st = (Ok (req, pending), st') →
  Forall (λ n, n.(Node.ProviderID) ≠ "") nodes →
  Forall2 (λ n id, dropletIDFromProviderID n.(Node.ProviderID) = Ok id)
    (backends s l nodes ids) req.(LoadBalancerRequest.DropletIDs)
  ∧ req.(LoadBalancerRequest.DropletIDs) ≠ [].
Proof.
  intros (net & ty & admitted & base & st1 & st2 & Hnet & Hty & Hf & Hb & Hn & _)%buildLoadBalancerRequest_Ok Hp.
  rewrite filterByReadiness_eq in Hf. simplify_eq.
  pose proof (backends_sublist s l nodes ids) as Hsub. unfold backends in *. rewrite Hty, Hnet in *.
  apply nodesToDropletIDs_provider in Hn as [_ HF].
  2:{ rewrite Forall_forall in *. auto. }
  split; [done|].
  apply withNodeState_Ok in Hb as (Hty' & Hnet' & Hs & _).
  apply getNetworkStack_Ok in Hs as (_ & _ & Hr & _). specialize (Hr _ eq_refl).
  rewrite (classify_ready_idemp nodes ty net (admissibleP ids)) in Hr. intros Hnil. apply Hr.
  rewrite Hnil in HF. by inversion HF.
Qed.

(** Nothing is held back: the backends are the nodes accepted by IP stack. *)
Lemma backends_all_accepted `{!GodoPaging, !GodoLoadBalancers R, !GodoCertificates R, !GodoDroplets R,
    !Kube R, !IPNets} fuel l s nodes ids (st : net R) req st' :
  buildLoadBalancerRequest fuel l s nodes ids st = (Ok (req, []), st') →
  ∃ net, getNetwork s = Ok net
    ∧ backends s l nodes ids
      = (filterAndClassifyNodes nodes req.(LoadBalancerRequest.Type_) net).(nodeState.lbReadyNodes).
Proof.
  intros (net & ty & admitted & base & st1 & st2 & Hnet & Hty & Hf & Hb & _ & ->)%buildLoadBalancerRequest_Ok.
  rewrite filterByReadiness_eq in Hf. simplify_eq.
  apply withNodeState_Ok in Hb as (Hty' & _). simpl. exists net. split; [done|].
  assert (LoadBalancerRequest.Type_ base = ty) as -> by congruence.
  unfold backends. rewrite Hty, Hnet. apply filter_none_complement. done.
Qed.

(* ================================================================== *)
(** * Properties *)

Section RequestProperties.
Context {R : Type}.
Context `{!GodoPaging, !GodoLoadBalancers R, !GodoCertificates R, !GodoDroplets R, !Kube R, !IPNets}.
Variable fuel : nat.

(** C15. The droplets of a request: when the nodes carry provider IDs, the
    request lists exactly the droplets of the backends (the nodes whose IP
    stack is accepted and that are admitted already or ready), in order, there
    is at least one, and the droplet of an accepted node that already backs
    the load balancer is always kept. *)
Theorem request_lists_backends l s nodes ids (st : net R) req pending st' :
  buildLoadBalancerRequest fuel l s nodes ids st = (Ok (req, pending), st') →
  Forall (λ n, n.(Node.ProviderID) ≠ "") nodes →
  Forall2 (λ n id, dropletIDFromProviderID n.(Node.ProviderID) = Ok id)
    (backends s l nodes ids) req.(LoadBalancerRequest.DropletIDs)
  ∧ req.(LoadBalancerRequest.DropletIDs) ≠ []
  ∧ ∀ n id ty net,
      getType s l.(loadBalancers.defaultLBType) = Ok ty → getNetwork s = Ok net →
      n ∈ (filterAndClassifyNodes nodes ty net).(nodeState.lbReadyNodes) →
      dropletIDFromProviderID n.(Node.ProviderID) = Ok id → id ∈ ids →
      id ∈ req.(LoadBalancerRequest.DropletIDs).
Proof.
  intros Hb Hp. destruct (request_droplets _ _ _ _ _ _ _ _ _ Hb Hp) as [HF Hne].
  split_and!; [done..|]. intros n id ty net Hty Hnet Hin Hid Hids.
  unfold backends in HF. rewrite Hty, Hnet in HF.
  assert (Hn : n ∈ filter (admissibleP ids) (nodeState.lbReadyNodes (filterAndClassifyNodes nodes ty net))).
  { apply list_elem_of_filter. split; [|done]. unfold admissibleP, admissible, already_admitted.
    rewrite Hid. by rewrite bool_decide_true. }
  apply list_elem_of_lookup in Hn as [i Hi].
  destruct (Forall2_lookup_l _ _ _ _ _ HF Hi) as (id' & Hi' & Hid').
  assert (id' = id) as -> by congruence. apply list_elem_of_lookup. eauto.
Qed.

(** C24. The settings of a request: the type and network are valid, a slug and a
    size unit never come together, the name is the
    Service's load-balancer name, the address is left empty and the request is
    not a dry run; region, VPC and cluster tag are the controller's; a
    dual-stack EXTERNAL REGIONAL_NETWORK load balancer only has backends with
    external IPv4 and IPv6 addresses. *)
Theorem request_settings l s nodes ids (st : net R) req pending st' :
  buildLoadBalancerRequest fuel l s nodes ids st = (Ok (req, pending), st') →
  valid_default req.(LoadBalancerRequest.Type_) ∧ valid_network req.(LoadBalancerRequest.Network)
  ∧ (req.(LoadBalancerRequest.SizeSlug) = "" ∨ req.(LoadBalancerRequest.SizeUnit) = 0)
  ∧ req.(LoadBalancerRequest.Name) = getLoadBalancerName s
  ∧ req.(LoadBalancerRequest.IP) = "" ∧ req.(LoadBalancerRequest.ValidateOnly) = false
  ∧ req.(LoadBalancerRequest.Region) = l.(loadBalancers.region)
  ∧ req.(LoadBalancerRequest.VPCUUID) = l.(loadBalancers.clusterVPCID)
  ∧ (l.(loadBalancers.clusterID) ≠ "" →
     req.(LoadBalancerRequest.Tags) = [buildK8sTag l.(loadBalancers.clusterID)])
  ∧ (req.(LoadBalancerRequest.Type_) = LoadBalancerTypeRegionalNetwork →
     req.(LoadBalancerRequest.Network) = LoadBalancerNetworkTypeExternal →
     req.(LoadBalancerRequest.NetworkStack) = LoadBalancerNetworkStackDualstack →
     Forall (λ n, has_external false n = true ∧ has_external true n = true) (backends s l nodes ids)).
Proof.
  intros (net & ty & admitted & base & st1 & st2 & Hnet & Hty & Hf & Hb & Hn & ->)%buildLoadBalancerRequest_Ok.
  rewrite filterByReadiness_eq in Hf. simplify_eq.
  apply withNodeState_Ok in Hb as (Hty' & Hnet' & Hs & Hname & Hip & Hv & Hsz). simpl.
  assert (ty = LoadBalancerRequest.Type_ base) as -> by congruence.
  assert (net = LoadBalancerRequest.Network base) as -> by congruence.
  split_and!; try done; [by eapply getType_valid|by eapply getNetwork_valid| |].
  - intros HcID. by rewrite (proj2 (str_eqb_false _ _)).
  - intros Ety Enet Estk. unfold backends. rewrite Hty, Hnet, Ety, Enet. rewrite Ety, Enet, Estk in Hs.
    apply dualstack_backends in Hs. by rewrite classify_ready_idemp in Hs.
Qed.

(** C39. No eligible backends: for a REGIONAL_NETWORK EXTERNAL load balancer
    whose nodes are all filtered out, one of them for lack of any external
    address, the request fails with an error that [errors.Is] recognises as
    ErrNoEligibleBackends, after recording that error as an event of the
    Service and making no other call. *)
Theorem no_eligible_backends_reported l s nodes ids (r : R) tr :
  getType s l.(loadBalancers.defaultLBType) = Ok LoadBalancerTypeRegionalNetwork →
  getNetwork s = Ok LoadBalancerNetworkTypeExternal →
  Forall (λ n, has_external false n = false) nodes →
  Exists (λ n, has_external true n = false) nodes →
  ∃ e r', buildLoadBalancerRequest fuel l s nodes ids (Net r tr)
          = (Err e, Net r' (tr ++ [EvServiceEvent s.(Service.Namespace) s.(Service.Name)
                                     "LoadBalancerConfigError" e]))
          ∧ errors_Is e ErrNoEligibleBackends = true ∧ errors_As_RetryError e = None.
Proof.
  intros Hty Hnet Hall Hex. eexists no_eligible_backends, _.
  unfold buildLoadBalancerRequest, mbind, M_bind, pure. rewrite Hnet, Hty.
  rewrite filterAndClassifyNodes_external, allowsPrivate_regional_network by done. simpl.
  assert (filter (backend_class false) nodes = []) as ->.
  { apply filter_none. eapply Forall_impl; [exact Hall|]. intros n Hn.
    rewrite backend_class_external_v4. by rewrite Hn. }
  assert (0 < Z.of_nat (length (filter (class_is false nodeClassPublicNetUnready) nodes))) as Hlen.
  { apply Exists_exists in Hex as (n & Hin & Hn). rewrite Forall_forall in Hall.
    assert (Hf : n ∈ filter (class_is false nodeClassPublicNetUnready) nodes).
    { apply list_elem_of_filter. split; [|done]. unfold class_is.
      by rewrite classifyNode_eq, (Hall n Hin), Hn. }
    destruct (filter _ nodes); [by apply not_elem_of_nil in Hf|simpl; lia]. }
  rewrite (proj2 (Z.ltb_lt _ _) Hlen). simpl. split_and!; done.
Qed.

(** Nobody is serving yet: when some node is acceptable by IP but none is
    admitted already or ready, the request fails with a retry error of fifteen
    seconds and nothing is called, so that no empty backend set is written. *)
Theorem none_serving_retries l s nodes ids (st : net R) ty net :
  getType s l.(loadBalancers.defaultLBType) = Ok ty → getNetwork s = Ok net →
  (filterAndClassifyNodes nodes ty net).(nodeState.lbReadyNodes) ≠ [] →
  backends s l nodes ids = [] →
  ∃ e, buildLoadBalancerRequest fuel l s nodes ids st = (Err e, st)
       ∧ errors_As_RetryError e = Some (15 * second).
Proof.
  intros Hty Hnet Hne Hb. unfold backends in Hb. rewrite Hty, Hnet in Hb.
  unfold buildLoadBalancerRequest, mbind, M_bind, pure. rewrite Hnet, Hty.
  rewrite filterByReadiness_eq. set (ns := filterAndClassifyNodes nodes ty net) in *.
  rewrite (bool_decide_false (nodeState.lbReadyNodes ns = [])) by done. simpl.
  rewrite Hb. simpl. rewrite bool_decide_false; [eauto|].
  intros Hc. apply Hne. apply Permutation_nil. symmetry.
  rewrite <- (filter_app_complement (admissibleP ids)), Hb, Hc. done.
Qed.
End RequestProperties.
