(* ===== verification/LoadBalancers.v ===== *)
(** * Load balancers

    [loadbalancers.go] and [patch.go]: the [cloudprovider.LoadBalancer]
    implementation, that is, look-up of a Service's load balancer, creation,
    update, deletion, certificate tracking, and the deferred patch of the
    Service's annotations.

    The Service object is shared: the code mutates its annotations in place
    and the patcher compares it with the copy taken at the start.  It is
    therefore part of the state, next to the network. *)

From S2P Require Import Prelude GoStd Types Annotations Nodes Api Rules Requests.
From stdpp Require Import base gmap strings list.
From Stdlib Require Import ZArith Lia.
#[local] Open Scope Z_scope.

Record lbst (R : Type) := LBState { lb_net : net R; lb_svc : Service.t }.
Arguments LBState {R} _ _.
Arguments lb_net {R} _.
Arguments lb_svc {R} _.

Definition lbStatusNew : string := "new".
Definition lbStatusActive : string := "active".

(** Calls that leave the Service alone. *)
Definition on_net {R A} (m : M (net R) A) : M (lbst R) A :=
  zoom lb_net (λ n s, LBState n s.(lb_svc)) m.

(** [*service], and a write of one annotation. *)
Definition service {R} : M (lbst R) Service.t := λ s, (Ok s.(lb_svc), s).
Definition annotate {R} (annotName annotValue : string) : M (lbst R) unit :=
  λ s, (Ok tt, LBState s.(lb_net) (updateServiceAnnotation s.(lb_svc) annotName annotValue)).

(** ** Node preparation and retries *)

Definition classifyServiceNodes (l : loadBalancers.t) (s : Service.t) (nodes : list Node.t)
    : result nodeState.t :=
  lbNetwork ← getNetwork s;
  lbType ← getType s l.(loadBalancers.defaultLBType);
  Ok (filterAndClassifyNodes nodes lbType lbNetwork).

Definition prepareNodesForLBSync (l : loadBalancers.t) (s : Service.t) (nodes : list Node.t)
    : result (list Node.t) :=
  ns ← classifyServiceNodes l s nodes;
  let '(pending, privateOnly) := pendingInitNodes ns.(nodeState.publicNetUnreadyNodes) in
  if bool_decide (ns.(nodeState.lbReadyNodes) = []) && negb (bool_decide (pending = []))
  then Err (RetryError "service %s/%s: %d node(s) still initializing and not yet lb-ready (e.g. missing ExternalIP); retrying instead of updating backends with an empty node set: %s"
              [AStr s.(Service.Namespace); AStr s.(Service.Name);
               AInt (Z.of_nat (length pending)); AStr (formatNodeNames pending 5)]
              nodesNotYetLBReadyRetryAfter)
  else Ok pending.

Definition retryIfNodesPendingInit (s : Service.t) (pendingInit pendingNotReady : list Node.t)
    : result unit :=
  let pending := pendingInit ++ pendingNotReady in
  if bool_decide (pending = []) then Ok tt
  else
    let retryAfter := if negb (bool_decide (pendingNotReady = []))
                      then nodesNotYetReadyRetryAfter else nodesNotYetLBReadyRetryAfter in
    Err (RetryError "service %s/%s: updated backends with the currently admissible node set; retrying for %d node(s) still pending (initializing, not yet NodeReady, or critical components not yet ready): %s"
           [AStr s.(Service.Namespace); AStr s.(Service.Name);
            AInt (Z.of_nat (length pending)); AStr (formatNodeNames pending 5)]
           retryAfter).

(** ** Look-up *)

(** [findLoadBalancerByName]: the first listed load balancer with the custom
    or the legacy name. *)
Definition candidates (s : Service.t) : list string :=
  let customName := getLoadBalancerName s in
  let legacyName := getLoadBalancerLegacyName s in
  customName :: (if str_eqb legacyName customName then [] else [legacyName]).

Definition findLoadBalancerByName (s : Service.t) (allLBs : list LoadBalancer.t)
    : option LoadBalancer.t :=
  snd <$> list_find (λ lb, lb.(LoadBalancer.Name) ∈ candidates s) allLBs.

Definition findLoadBalancerID (s : Service.t) (allLBs : list LoadBalancer.t) : string :=
  let id := getLoadBalancerID s in
  if 0 <? len id then id
  else match findLoadBalancerByName s allLBs with
       | None => ""
       | Some lb => lb.(LoadBalancer.ID)
       end.

Definition getCertificateIDFromLB (lb : LoadBalancer.t) : string :=
  match list_find (λ r, r.(ForwardingRule.CertificateID) ≠ "") lb.(LoadBalancer.ForwardingRules) with
  | Some (_, r) => r.(ForwardingRule.CertificateID)
  | None => ""
  end.

Section LoadBalancers.
Context {R : Type}.
Context `{!GodoPaging, !GodoLoadBalancers R, !GodoCertificates R, !GodoDroplets R, !Kube R, !IPNets}.
Variable unicode_ToLower : string → string.
Variable fuel : nat.

(** The pointer is nil when the API answers a nil load balancer without an
    error. *)
Definition findLoadBalancerByID (id : string) : M (net R) (option LoadBalancer.t) :=
  rp ← call (EvLBGet id) (LoadBalancers_Get id);
  match rp.(rerr) with
  | Some e =>
      if is_404 rp then throw (ErrSentinel errLBNotFound)
      else throw (Errorf "failed to get load-balancer by ID %s: %s" [AStr id; AErr e])
  | None => mret rp.(rval)
  end.

Definition retrieveLoadBalancer (s : Service.t) : M (net R) (option LoadBalancer.t) :=
  let id := getLoadBalancerID s in
  if 0 <? len id then findLoadBalancerByID id
  else
    allLBs ← allLoadBalancerList fuel;
    match findLoadBalancerByName s allLBs with
    | None => throw (ErrSentinel errLBNotFound)
    | Some lb => mret (Some lb)
    end.

Definition retrieveAndAnnotateLoadBalancer : M (lbst R) LoadBalancer.t :=
  s ← service;
  p ← on_net (retrieveLoadBalancer s);
  lb ← deref p;
  annotate annDOLoadBalancerID lb.(LoadBalancer.ID);;
  annotate annDOType lb.(LoadBalancer.Type_);;
  mret lb.

(** ** Patching the Service *)

Definition patchService (cur upd : Service.t) : M (net R) unit :=
  curJSON ← on_err (λ e, Errorf "failed to serialize current service object: %s" [AErr e])
              (pure (of_sum (MarshalJSON cur)));
  modJSON ← on_err (λ e, Errorf "failed to serialize modified service object: %s" [AErr e])
              (pure (of_sum (MarshalJSON upd)));
  patch ← on_err (λ e, Errorf "failed to create 2-way merge patch: %s" [AErr e])
            (pure (of_sum (CreateTwoWayMergePatch curJSON modJSON)));
  if str_eqb patch "" || str_eqb patch "{}" then mret tt
  else
    perr ← call (EvServicePatch cur.(Service.Namespace) cur.(Service.Name) patch)
             (Services_Patch cur.(Service.Namespace) cur.(Service.Name) patch);
    match perr with
    | Some e => throw (Errorf "failed to patch service object %s/%s: %s"
                         [AStr cur.(Service.Namespace); AStr cur.(Service.Name); AErr e])
    | None => mret tt
    end.

(** [utilerrors.NewAggregate]: nil errors are dropped. *)
Definition NewAggregate (errs : list (option error)) : option error :=
  match omap id errs with
  | [] => None
  | es => Some (Aggregate es)
  end.

(** [(sp *servicePatcher) Patch(ctx, err)] with the copy [base] taken when the
    patcher was made. *)
Definition Patch (base : Service.t) (err : option error) : M (lbst R) (option error) :=
  updated ← service;
  if bool_decide (base.(Service.Annotations) = updated.(Service.Annotations)) then mret err
  else
    perr ← attempt (on_net (patchService base updated));
    match perr with
    | inl _ => mret err
    | inr perr => mret (NewAggregate [err; Some perr])
    end.

(** What the deferred [err = patcher.Patch(ctx, err)] makes of the outcome of
    the body; it also runs when the body panics. *)
Definition patch_result {A} (base : Service.t) (r : result A) : M (lbst R) A := λ s,
  match r with
  | NoFuel => (NoFuel, s)
  | _ =>
      match Patch base (match r with Err e => Some e | _ => None end) s with
      | (Ok None, s') => (r, s')
      | (Ok (Some e), s') => (match r with Panic => Panic | _ => Err e end, s')
      | (Err e, s') => (Err e, s')
      | (Panic, s') => (Panic, s')
      | (NoFuel, s') => (NoFuel, s')
      end
  end.

(** [patcher := newServicePatcher(kclient, service)] with the deferred call. *)
Definition with_patcher {A} (m : M (lbst R) A) : M (lbst R) A := λ s,
  let '(r, s1) := m s in patch_result s.(lb_svc) r s1.

(** ** Certificates *)

(** Is the error a [godo.ErrorResponse] with status 404?  A nil [Response] is
    dereferenced. *)
Definition error_is_404 (e : error) : M (lbst R) bool :=
  match e with
  | ErrorResponse (Some code) _ => mret (code =? StatusNotFound)
  | ErrorResponse None _ => panic
  | _ => mret false
  end.

Definition cert_error (e : error) : error :=
  Errorf "failed to get DO certificate for load-balancer: %s" [AErr e].

Definition recordUpdatedLetsEncryptCert (lbCertID serviceCertID : string) : M (lbst R) unit :=
  if negb (str_eqb lbCertID "") && negb (str_eqb serviceCertID "")
     && negb (str_eqb lbCertID serviceCertID)
  then
    rp ← on_net (call (EvCertGet lbCertID) (Certificates_Get lbCertID));
    match rp.(rerr) with
    | Some e =>
        missing ← error_is_404 e;
        if missing : bool then mret tt else throw (cert_error e)
    | None =>
        lbCert ← deref rp.(rval);
        if negb (str_eqb lbCert.(Certificate.Type_) certTypeLetsEncrypt) then mret tt
        else
          rp ← on_net (call (EvCertGet serviceCertID) (Certificates_Get serviceCertID));
          match rp.(rerr) with
          | Some e =>
              missing ← error_is_404 e;
              if missing : bool then annotate annDOCertificateID lbCertID
              else throw (cert_error e)
          | None =>
              annCert ← deref rp.(rval);
              if str_eqb lbCert.(Certificate.Name) annCert.(Certificate.Name)
              then annotate annDOCertificateID lbCertID else mret tt
          end
    end
  else mret tt.

(** ** The interface methods *)

Definition build_failed (e : error) : error :=
  Errorf "failed to build load-balancer request: %w" [AWrap e].

Definition updateLoadBalancer (l : loadBalancers.t) (lb : LoadBalancer.t) (nodes : list Node.t)
    : M (lbst R) (option LoadBalancer.t * list Node.t) :=
  let admittedIDs := admittedDropletIDSet (Some lb) in
  s ← service;
  on_net (on_err build_failed (buildLoadBalancerRequest fuel l s nodes admittedIDs));;
  let lbCertID := getCertificateIDFromLB lb in
  serviceCertID ← on_net (findCertificateID s);
  recordUpdatedLetsEncryptCert lbCertID serviceCertID;;
  s ← service;
  '(lbRequest, pendingNotReady) ← on_net (on_err
    (λ e, Errorf "failed to build load-balancer request (post-certificate update): %w" [AWrap e])
    (buildLoadBalancerRequest fuel l s nodes admittedIDs));
  let lbID := lb.(LoadBalancer.ID) in
  rp ← on_net (call (EvLBUpdate lbID lbRequest) (LoadBalancers_Update lbID lbRequest));
  match rp.(rerr) with
  | Some e => throw (Errorf "failed to update load-balancer with ID %s: %s" [AStr lbID; AErr e])
  | None => mret (rp.(rval), pendingNotReady)
  end.

(** The ingress list of a load balancer. *)
Definition ingress_of (lb : LoadBalancer.t) : list Ingress.t :=
  Ingress.mk lb.(LoadBalancer.IP) ""
    :: (if negb (str_eqb lb.(LoadBalancer.IPv6) "") then [Ingress.mk lb.(LoadBalancer.IPv6) ""] else []).

(** [None] is the answer that the load balancer does not exist. *)
Definition GetLoadBalancer : M (lbst R) (option (list Ingress.t)) :=
  with_patcher (
    lb ← attempt retrieveAndAnnotateLoadBalancer;
    match lb with
    | inr (ErrSentinel errLBNotFound) => mret None
    | inr err => throw err
    | inl lb => mret (Some (ingress_of lb))
    end).

(** The missing load balancer is created; the address is sent only here. *)
Definition createLoadBalancer (lbRequest : LoadBalancerRequest.t) : M (lbst R) LoadBalancer.t :=
  s ← service;
  let ip := getLoadBalancerIP s in
  let lbRequest := if negb (str_eqb ip "") then LoadBalancerRequest.set_IP ip lbRequest else lbRequest in
  rp ← on_net (call (EvLBCreate lbRequest) (LoadBalancers_Create lbRequest));
  match rp.(rerr) with
  | Some e => throw (Errorf "failed to create load-balancer: %s" [AErr e])
  | None =>
      lb ← deref rp.(rval);
      annotate annDOLoadBalancerID lb.(LoadBalancer.ID);;
      annotate annDOType lb.(LoadBalancer.Type_);;
      mret lb
  end.

(** What follows the write: status, pending nodes, and the answer. *)
Definition finishEnsure (lb : LoadBalancer.t) (pending pendingNotReady : list Node.t)
    : M (lbst R) (list Ingress.t) :=
  if str_eqb lb.(LoadBalancer.Status) lbStatusNew
  then throw (RetryError "load-balancer is currently being created" [] (15 * second))
  else if negb (str_eqb lb.(LoadBalancer.Status) lbStatusActive)
  then throw (Errorf "load-balancer has unexpected status %q" [AStr lb.(LoadBalancer.Status)])
  else
    s ← service;
    pure (retryIfNodesPendingInit s pending pendingNotReady);;
    let hostname := getHostname unicode_ToLower s in
    if negb (str_eqb hostname "") then mret [Ingress.mk "" hostname]
    else mret (ingress_of lb).

(** [case nil] of the switch on the look-up error: the load balancer exists. *)
Definition ensureExisting (l : loadBalancers.t) (nodes pending : list Node.t) (lb : LoadBalancer.t)
    : M (lbst R) (list Ingress.t) :=
  s ← service;
  on_net (on_err build_failed
    (buildLoadBalancerRequest fuel l s nodes (admittedDropletIDSet (Some lb))));;
  '(p, pendingNotReady) ← updateLoadBalancer l lb nodes;
  lb ← deref p;
  finishEnsure lb pending pendingNotReady.

(** [case errLBNotFound].  For any other error that wraps errLBNotFound no case
    of the switch applies and the nil load balancer is dereferenced. *)
Definition ensureMissing (l : loadBalancers.t) (nodes pending : list Node.t) (lbErr : error)
    : M (lbst R) (list Ingress.t) :=
  s ← service;
  '(lbRequest, pendingNotReady) ← on_net (on_err build_failed
    (buildLoadBalancerRequest fuel l s nodes (admittedDropletIDSet None)));
  match lbErr with
  | ErrSentinel errLBNotFound =>
      lb ← createLoadBalancer lbRequest;
      finishEnsure lb pending pendingNotReady
  | _ => panic
  end.

Definition EnsureLoadBalancer (l : loadBalancers.t) (nodes : list Node.t) : M (lbst R) (list Ingress.t) :=
  s ← service;
  lbIsDisowned ← pure (getDisownLB s);
  if lbIsDisowned : bool then mret s.(Service.Status)
  else with_patcher (
    s ← service;
    pending ← pure (prepareNodesForLBSync l s nodes);
    found ← attempt retrieveAndAnnotateLoadBalancer;
    match found with
    | inl lb => ensureExisting l nodes pending lb
    | inr lbErr =>
        if negb (errors_Is lbErr errLBNotFound) then throw lbErr
        else ensureMissing l nodes pending lbErr
    end).

Definition UpdateLoadBalancer (l : loadBalancers.t) (nodes : list Node.t) : M (lbst R) unit :=
  s ← service;
  lbIsDisowned ← pure (getDisownLB s);
  if lbIsDisowned : bool then mret tt
  else with_patcher (
    lb ← retrieveAndAnnotateLoadBalancer;
    s ← service;
    pending ← pure (prepareNodesForLBSync l s nodes);
    '(_, pendingNotReady) ← updateLoadBalancer l lb nodes;
    s ← service;
    pure (retryIfNodesPendingInit s pending pendingNotReady)).

Definition EnsureLoadBalancerDeleted : M (lbst R) unit :=
  s ← service;
  lbIsDisowned ← pure (getDisownLB s);
  if lbIsDisowned : bool then mret tt
  else
    found ← attempt (on_net (retrieveLoadBalancer s));
    match found with
    | inr (ErrSentinel errLBNotFound) => mret tt
    | inr err => throw err
    | inl p =>
        lb ← deref p;
        rp ← on_net (call (EvLBDelete lb.(LoadBalancer.ID)) (LoadBalancers_Delete lb.(LoadBalancer.ID)));
        match rp.(rerr) with
        | Some e => if is_404 rp then mret tt
                    else throw (Errorf "failed to delete load-balancer: %s" [AErr e])
        | None => mret tt
        end
    end.

Definition GetLoadBalancerName : M (lbst R) string :=
  s ← service;
  mret (getLoadBalancerName s).
End LoadBalancers.
