(* ===== verification/LBFacts.v ===== *)
(** * Reasoning about the load-balancer methods

    A small program logic for code over [lbst]: for a bound on the number of
    load-balancer writes, a condition on every call made, and a condition on
    the value returned, [spec] also says that the Service changes in no other
    way than by its managed annotations.  The rules follow the code. *)

From S2P Require Import Prelude GoStd Types Annotations Nodes Api Rules Requests LoadBalancers.
From stdpp Require Import base gmap strings list.
From Stdlib Require Import ZArith Lia.
#[local] Open Scope Z_scope.

#[export] Instance lb_write_dec ev : Decision (lb_write ev).
Proof. destruct ev; simpl; apply _. Defined.

(** The annotations the controller writes itself. *)
Definition managed_annotations : list string :=
  [annDOLoadBalancerID; annDOType; annDOCertificateID].

(** The Service changed by nothing but the annotations [K]. *)
Definition svc_frame (K : list string) (s s' : Service.t) : Prop :=
  s' = Service.set_Annotations s'.(Service.Annotations) s
  ∧ ∀ k, k ∉ K → svc_get s' k = svc_get s k.

#[export] Instance svc_frame_preorder K : PreOrder (svc_frame K).
Proof.
  split.
  - intros s. split; [by destruct s|done].
  - intros s1 s2 s3 [E1 H1] [E2 H2]. split.
    + rewrite E2, E1. by destruct s1.
    + intros k Hk. by rewrite H2, H1.
Qed.

Lemma svc_frame_update K s k v : k ∈ K → svc_frame K s (updateServiceAnnotation s k v).
Proof.
  intros Hk. split; [by destruct s|]. intros k' Hk'.
  apply ann_get_update_ne. intros ->. done.
Qed.

Lemma svc_frame_weaken K K' s s' : K ⊆ K' → svc_frame K s s' → svc_frame K' s s'.
Proof. intros HK [E H]. split; [done|]. intros k Hk. apply H. set_solver. Qed.

Definition spec {R A} (K : list string) (n : nat) (P : event → Prop) (Q : A → Prop)
    (m : M (lbst R) A) : Prop :=
  ∀ s, ∃ evs,
    trace (lb_net (m s).2) = trace (lb_net s) ++ evs ∧ Forall P evs
    ∧ (length (filter lb_write evs) ≤ n)%nat
    ∧ svc_frame K (lb_svc s) (lb_svc (m s).2)
    ∧ (∀ a, (m s).1 = Ok a → Q a).

Section Spec.
Context {R : Type}.
Variable K : list string.
Implicit Types (P : event → Prop).

Lemma spec_nil {A} P (Q : A → Prop) (m : M (lbst R) A) :
  (∀ s, (m s).2 = s) → (∀ s a, (m s).1 = Ok a → Q a) → spec K 0 P Q m.
Proof.
  intros Hm HQ s. exists []. rewrite Hm, app_nil_r. split_and!; [done..|reflexivity|eauto].
Qed.

Lemma spec_ret {A} P (Q : A → Prop) a : Q a → spec (R := R) K 0 P Q (mret a).
Proof. intros HQ. apply spec_nil; [done|]. by intros s ? [= <-]. Qed.

Lemma spec_throw {A} P (Q : A → Prop) e : spec (R := R) K 0 P Q (throw e).
Proof. by apply spec_nil. Qed.

Lemma spec_panic {A} P (Q : A → Prop) : spec (R := R) K 0 P Q panic.
Proof. by apply spec_nil. Qed.

Lemma spec_pure {A} P (Q : A → Prop) r : (∀ a, r = Ok a → Q a) → spec (R := R) K 0 P Q (pure r).
Proof. intros HQ. apply spec_nil; [done|]. intros s a Ha. by apply HQ. Qed.

Lemma spec_deref {A} P (p : option A) : spec (R := R) K 0 P (λ a, p = Some a) (deref p).
Proof. destruct p; [by apply spec_ret | apply spec_panic]. Qed.

Lemma spec_service P : spec (R := R) K 0 P (λ _, True) service.
Proof. by apply spec_nil. Qed.

Lemma spec_annotate P k v : k ∈ K → spec (R := R) K 0 P (λ _, True) (annotate k v).
Proof.
  intros Hk s. exists []. simpl. rewrite app_nil_r. split_and!; [done..|by apply svc_frame_update|done].
Qed.

Lemma spec_bind {A B} n1 n2 P (Q1 : A → Prop) (Q2 : B → Prop) (m : M (lbst R) A) f :
  spec K n1 P Q1 m → (∀ a, Q1 a → spec K n2 P Q2 (f a)) → spec K (n1 + n2) P Q2 (m ≫= f).
Proof.
  intros Hm Hf s. destruct (Hm s) as (evs & Ht & HP & Hn & Hs & HQ). unfold mbind, M_bind.
  destruct (m s) as [[a|e| |] s1] eqn:E; simpl in *;
    [|exists evs; split_and!; [done|done|lia|done|done]..].
  destruct (Hf a (HQ a eq_refl) s1) as (evs' & Ht' & HP' & Hn' & Hs' & HQ').
  exists (evs ++ evs'). rewrite Ht', Ht, filter_app, length_app.
  split_and!; [by rewrite app_assoc|by apply Forall_app|lia|by etrans|done].
Qed.

Lemma spec_weaken {A} n n' P (Q Q' : A → Prop) (m : M (lbst R) A) :
  spec K n P Q m → (n ≤ n')%nat → (∀ a, Q a → Q' a) → spec K n' P Q' m.
Proof.
  intros Hm Hle HQQ s. destruct (Hm s) as (evs & ? & ? & ? & ? & ?). exists evs.
  split_and!; [done|done|lia|done|eauto].
Qed.

Lemma spec_attempt {A} n P (Q : A → Prop) (m : M (lbst R) A) :
  spec K n P Q m → spec K n P (λ r, ∀ a, r = inl a → Q a) (attempt m).
Proof.
  intros Hm s. destruct (Hm s) as (evs & Ht & HP & Hn & Hs & HQ). exists evs. unfold attempt.
  destruct (m s) as [[]]; simpl in *; split_and!; try done; intros ? [= <-] ? [= <-]; eauto.
Qed.

(** Read-only network code, with what is known of its value. *)
Lemma spec_on_net {A} (P0 P : event → Prop) (Q : A → Prop) (m : M (net R) A) :
  emits P0 m → (∀ ev, P0 ev → P ev ∧ ¬ lb_write ev) →
  (∀ s a s', m s = (Ok a, s') → Q a) → spec K 0 P Q (on_net m).
Proof.
  intros Hm HP0 HQ s. destruct (Hm (lb_net s)) as (evs & Ht & HP). exists evs.
  unfold on_net, zoom. destruct (m (lb_net s)) as [r s'] eqn:E. simpl in *.
  split_and!; [done| | |reflexivity|].
  - eapply Forall_impl; [exact HP|]. intros ev Hev. by apply HP0.
  - rewrite filter_none; [simpl; lia|]. eapply Forall_impl; [exact HP|]. intros ev Hev. by apply HP0.
  - intros a ->. eauto.
Qed.

(** One call. *)
Lemma spec_call {A} P ev (f : R → A * R) :
  P ev → spec K 1 P (λ _, True) (on_net (call ev f)).
Proof.
  intros HP s. exists [ev]. unfold on_net, zoom, call. destruct (f _). simpl.
  split_and!; [done|by repeat constructor| |reflexivity|done].
  rewrite filter_cons. case_decide; simpl; lia.
Qed.

Lemma spec_call_read {A} P ev (f : R → A * R) :
  P ev → ¬ lb_write ev → spec K 0 P (λ _, True) (on_net (call ev f)).
Proof.
  intros HP Hw s. exists [ev]. unfold on_net, zoom, call. destruct (f _). simpl.
  split_and!; [done|by repeat constructor| |reflexivity|done].
  rewrite filter_cons, decide_False by done. done.
Qed.
End Spec.

(** ** The methods *)

Section Methods.
Context {R : Type}.
Context `{!GodoPaging, !GodoLoadBalancers R, !GodoCertificates R, !GodoDroplets R, !Kube R, !IPNets}.
Variable fuel : nat.

(** Look-up calls. *)
Definition lookup_event (ev : event) : Prop :=
  match ev with EvLBGet _ | EvLBList _ => True | _ => False end.

Lemma emits_retrieve s : emits (R := R) lookup_event (retrieveLoadBalancer fuel s).
Proof. unfold retrieveLoadBalancer, findLoadBalancerByID, allLoadBalancerList. solve_emits; done. Qed.

Definition patch_event (ev : event) : Prop :=
  match ev with EvServicePatch _ _ _ => True | _ => False end.

Lemma emits_patchService cur upd : emits (R := R) patch_event (patchService cur upd).
Proof. unfold patchService. solve_emits; done. Qed.

(** Every condition below admits look-ups, request building, certificate
    reads and Service patches. *)
Definition admits_reads (P : event → Prop) : Prop :=
  ∀ ev, lookup_event ev ∨ build_event ev ∨ patch_event ev ∨ (∃ id, ev = EvCertGet id) → P ev.

Section Reads.
Variable K : list string.
Variable P : event → Prop.
Hypothesis HP : admits_reads P.

Lemma spec_retrieveAndAnnotate :
  annDOLoadBalancerID ∈ K → annDOType ∈ K →
  spec (R := R) K 0 P (λ _, True) (retrieveAndAnnotateLoadBalancer fuel).
Proof.
  intros HK1 HK2. unfold retrieveAndAnnotateLoadBalancer.
  apply (spec_bind _ 0 0 _ (λ _, True)); [apply spec_service|intros s _].
  apply (spec_bind _ 0 0 _ (λ _, True)).
  { eapply spec_on_net; [apply emits_retrieve| |done].
    intros ev Hev. split; [apply HP; by left|]. destruct ev; simpl in *; tauto. }
  intros p _. apply (spec_bind _ 0 0 _ (λ _, True)).
  { eapply spec_weaken; [apply spec_deref|lia|done]. }
  intros lb _. apply (spec_bind _ 0 0 _ (λ _, True)); [by apply spec_annotate|intros _ _].
  apply (spec_bind _ 0 0 _ (λ _, True)); [by apply spec_annotate|intros _ _].
  by apply spec_ret.
Qed.

Lemma spec_build f l s nodes ids :
  spec (R := R) K 0 P (λ rp, rp.1.(LoadBalancerRequest.IP) = ""
                          ∧ rp.1.(LoadBalancerRequest.ValidateOnly) = false)
    (on_net (on_err f (buildLoadBalancerRequest fuel l s nodes ids))).
Proof.
  eapply spec_on_net; [apply emits_on_err, emits_buildLoadBalancerRequest| |].
  - intros ev Hev. split; [apply HP; tauto|]. destruct ev; simpl in *; tauto.
  - intros st [req pend] st' Hok%on_err_Ok_inv.
    apply buildLoadBalancerRequest_Ok in Hok as (?&?&?&base&?&?&?&?&?&Hb&?&->).
    apply withNodeState_Ok in Hb as (?&?&?&?&?&?&?). done.
Qed.

Lemma spec_error_is_404 e : spec (R := R) K 0 P (λ _, True) (error_is_404 e).
Proof. destruct e as [| | | | |[]| |]; simpl; first [by apply spec_ret | apply spec_panic]. Qed.

Lemma spec_recordCert a b :
  annDOCertificateID ∈ K →
  spec (R := R) K 0 P (λ _, True) (recordUpdatedLetsEncryptCert a b).
Proof.
  intros HK3. unfold recordUpdatedLetsEncryptCert.
  assert (Hc : ∀ id, spec (R := R) K 0 P (λ _, True)
    (on_net (call (EvCertGet id) (Certificates_Get id)))).
  { intros id. apply spec_call_read; [apply HP; eauto|by intros []]. }
  repeat first
    [ apply (spec_bind _ 0 0 _ (λ _, True)); [|intros ? _]
    | by apply spec_annotate
    | by apply spec_ret | apply spec_throw | apply Hc | apply spec_error_is_404
    | eapply spec_weaken; [apply spec_deref|lia|done]
    | case_match ].
Qed.

Lemma spec_findCertificateID s : spec (R := R) K 0 P (λ _, True) (on_net (findCertificateID s)).
Proof.
  eapply spec_on_net; [apply emits_findCertificateID| |done].
  intros ev Hev. split; [apply HP; tauto|]. destruct ev; simpl in *; tauto.
Qed.

Lemma spec_updateLoadBalancer l lb nodes :
  annDOCertificateID ∈ K →
  (∀ id req, req.(LoadBalancerRequest.IP) = "" → req.(LoadBalancerRequest.ValidateOnly) = false →
     P (EvLBUpdate id req)) →
  spec (R := R) K 1 P (λ _, True) (updateLoadBalancer fuel l lb nodes).
Proof.
  intros HK3 HU. unfold updateLoadBalancer.
  apply (spec_bind _ 0 1 _ (λ _, True)); [apply spec_service|intros s _].
  apply (spec_bind _ 0 1 _ (λ _, True)); [eapply spec_weaken; [apply spec_build|lia|done]|intros _ _].
  apply (spec_bind _ 0 1 _ (λ _, True)); [apply spec_findCertificateID|intros c _].
  apply (spec_bind _ 0 1 _ (λ _, True)); [by apply spec_recordCert|intros _ _].
  apply (spec_bind _ 0 1 _ (λ _, True)); [apply spec_service|intros s' _].
  eapply (spec_bind _ 0 1); [apply spec_build|intros [req pend] [Hip Hv]].
  apply (spec_bind _ 1 0 _ (λ _, True)); [apply spec_call; by apply HU|intros rp _].
  case_match; [apply spec_throw|by apply spec_ret].
Qed.

Lemma spec_createLoadBalancer req :
  annDOLoadBalancerID ∈ K → annDOType ∈ K →
  (∀ ip, P (EvLBCreate (LoadBalancerRequest.set_IP ip req))) → P (EvLBCreate req) →
  spec (R := R) K 1 P (λ _, True) (createLoadBalancer req).
Proof.
  intros HK1 HK2 H1 H2. unfold createLoadBalancer.
  apply (spec_bind _ 0 1 _ (λ _, True)); [apply spec_service|intros s _].
  apply (spec_bind _ 1 0 _ (λ _, True)); [apply spec_call; by case_match|intros rp _].
  case_match; [apply spec_throw|].
  apply (spec_bind _ 0 0 _ (λ _, True)); [eapply spec_weaken; [apply spec_deref|lia|done]|intros lb _].
  apply (spec_bind _ 0 0 _ (λ _, True)); [by apply spec_annotate|intros _ _].
  apply (spec_bind _ 0 0 _ (λ _, True)); [by apply spec_annotate|intros _ _].
  by apply spec_ret.
Qed.

Lemma spec_finishEnsure lower lb p1 p2 :
  spec (R := R) K 0 P (λ _, True) (finishEnsure lower lb p1 p2).
Proof.
  unfold finishEnsure. case_match; [apply spec_throw|]. case_match; [apply spec_throw|].
  apply (spec_bind _ 0 0 _ (λ _, True)); [apply spec_service|intros s _].
  apply (spec_bind _ 0 0 _ (λ _, True)); [by apply spec_pure|intros _ _].
  case_match; by apply spec_ret.
Qed.

Lemma spec_Patch base err : spec (R := R) K 0 P (λ _, True) (Patch base err).
Proof.
  unfold Patch. apply (spec_bind _ 0 0 _ (λ _, True)); [apply spec_service|intros s _].
  case_match; [by apply spec_ret|].
  apply (spec_bind _ 0 0 _ (λ _, True)).
  { eapply spec_weaken; [apply (spec_attempt _ 0 _ (λ _, True))|lia|done].
    eapply spec_on_net; [apply emits_patchService| |done].
    intros ev Hev. split; [apply HP; tauto|]. destruct ev; simpl in *; tauto. }
  intros r _. case_match; by apply spec_ret.
Qed.

Lemma spec_patch_result {A} base (r : result A) :
  spec (R := R) K 0 P (λ a, r = Ok a) (patch_result base r).
Proof.
  intros s. unfold patch_result.
  assert (Hnil : ∃ evs, trace (lb_net s) = trace (lb_net s) ++ evs ∧ Forall P evs
    ∧ (length (filter lb_write evs) ≤ 0)%nat ∧ svc_frame K (lb_svc s) (lb_svc s)).
  { exists []. rewrite app_nil_r. split_and!; [done..|reflexivity]. }
  set (err := match r with Err e => Some e | _ => None end).
  destruct (spec_Patch base err s) as (evs & Ht & HPe & Hn & Hs & _).
  destruct (Patch base err s) as [[[e|]|e| |] s']; destruct r;
    first [ destruct Hnil as (evs0 & ? & ? & ? & ?); exists evs0; split_and!; done
          | exists evs; split_and!; naive_solver ].
Qed.

Lemma spec_with_patcher {A} n (Q : A → Prop) (m : M (lbst R) A) :
  spec K n P Q m → spec K n P Q (with_patcher m).
Proof.
  intros Hm s. destruct (Hm s) as (evs & Ht & HPe & Hn & Hs & HQ).
  unfold with_patcher. destruct (m s) as [r s1]. simpl in Ht, Hs, HQ.
  destruct (spec_patch_result (lb_svc s) r s1) as (evs' & Ht' & HPe' & Hn' & Hs' & HQ').
  exists (evs ++ evs'). rewrite Ht', Ht, filter_app, length_app.
  split_and!; [by rewrite app_assoc|by apply Forall_app|lia|by etrans|auto].
Qed.
End Reads.

(** ** Conditions on the calls of each method *)

(** Look-up and Service patch only. *)
Definition get_event (ev : event) : Prop := ¬ lb_write ev.

(** No creation and no deletion; updates never carry an address and are never
    dry runs. *)
Definition update_event (ev : event) : Prop :=
  match ev with
  | EvLBUpdate _ req =>
      req.(LoadBalancerRequest.IP) = "" ∧ req.(LoadBalancerRequest.ValidateOnly) = false
  | EvLBCreate _ | EvLBDelete _ => False
  | _ => True
  end.

(** As above, and creations are never dry runs. *)
Definition ensure_event (ev : event) : Prop :=
  match ev with
  | EvLBUpdate _ req =>
      req.(LoadBalancerRequest.IP) = "" ∧ req.(LoadBalancerRequest.ValidateOnly) = false
  | EvLBCreate req => req.(LoadBalancerRequest.ValidateOnly) = false
  | EvLBDelete _ => False
  | _ => True
  end.

Lemma admits_get : admits_reads get_event.
Proof. intros [] [?|[?|[?|[? ?]]]]; unfold get_event; simpl in *; naive_solver. Qed.
Lemma admits_update : admits_reads update_event.
Proof. intros [] [?|[?|[?|[? ?]]]]; simpl in *; naive_solver. Qed.
Lemma admits_ensure : admits_reads ensure_event.
Proof. intros [] [?|[?|[?|[? ?]]]]; simpl in *; naive_solver. Qed.

Lemma managed_ID : annDOLoadBalancerID ∈ managed_annotations. Proof. set_solver. Qed.
Lemma managed_Type : annDOType ∈ managed_annotations. Proof. set_solver. Qed.
Lemma managed_Cert : annDOCertificateID ∈ managed_annotations. Proof. set_solver. Qed.
Hint Resolve managed_ID managed_Type managed_Cert admits_get admits_update admits_ensure : core.

Abbreviation mspec := (spec (R := R) managed_annotations).

Lemma spec_GetLoadBalancer : mspec 0 get_event (λ _, True) (GetLoadBalancer fuel).
Proof.
  apply spec_with_patcher; [done|]. apply (spec_bind _ 0 0 _ (λ _, True)).
  { eapply spec_weaken; [by apply spec_attempt, spec_retrieveAndAnnotate|lia|done]. }
  intros [lb|e] _; [by apply spec_ret|].
  destruct e as [[]| | | | | | |]; first [by apply spec_ret|apply spec_throw].
Qed.

Lemma spec_UpdateLoadBalancer l nodes :
  mspec 1 update_event (λ _, True) (UpdateLoadBalancer fuel l nodes).
Proof.
  unfold UpdateLoadBalancer.
  apply (spec_bind _ 0 1 _ (λ _, True)); [apply spec_service|intros s _].
  apply (spec_bind _ 0 1 _ (λ _, True)); [by apply spec_pure|intros b _].
  destruct b; [eapply spec_weaken; [by apply (spec_ret _ _ (λ _, True))|lia|done]|].
  apply spec_with_patcher; [done|].
  apply (spec_bind _ 0 1 _ (λ _, True)); [by apply spec_retrieveAndAnnotate|intros lb _].
  apply (spec_bind _ 0 1 _ (λ _, True)); [apply spec_service|intros s' _].
  apply (spec_bind _ 0 1 _ (λ _, True)); [by apply spec_pure|intros pend _].
  apply (spec_bind _ 1 0 _ (λ _, True)); [by apply spec_updateLoadBalancer|].
  intros [p nr] _. apply (spec_bind _ 0 0 _ (λ _, True)); [apply spec_service|intros s'' _].
  by apply spec_pure.
Qed.

(** An existing load balancer is updated, never created. *)
Lemma spec_ensureExisting lower l nodes pending lb :
  mspec 1 update_event (λ _, True) (ensureExisting lower fuel l nodes pending lb).
Proof.
  unfold ensureExisting.
  apply (spec_bind _ 0 1 _ (λ _, True)); [apply spec_service|intros s1 _].
  apply (spec_bind _ 0 1 _ (λ _, True)); [eapply spec_weaken; [by apply spec_build|lia|done]|intros _ _].
  apply (spec_bind _ 1 0 _ (λ _, True)); [by apply spec_updateLoadBalancer|intros [p nr] _].
  apply (spec_bind _ 0 0 _ (λ _, True)); [eapply spec_weaken; [apply spec_deref|lia|done]|].
  intros lb' _. apply spec_finishEnsure.
Qed.

(** A missing load balancer is created, never updated. *)
Definition create_event (ev : event) : Prop :=
  match ev with
  | EvLBCreate req => req.(LoadBalancerRequest.ValidateOnly) = false
  | EvLBUpdate _ _ | EvLBDelete _ => False
  | _ => True
  end.

Lemma admits_create : admits_reads create_event.
Proof. intros [] [?|[?|[?|[? ?]]]]; simpl in *; naive_solver. Qed.
Hint Resolve admits_create : core.

Lemma spec_ensureMissing lower l nodes pending e :
  mspec 1 create_event (λ _, True) (ensureMissing lower fuel l nodes pending e).
Proof.
  unfold ensureMissing.
  apply (spec_bind _ 0 1 _ (λ _, True)); [apply spec_service|intros s1 _].
  eapply (spec_bind _ 0 1); [by apply spec_build|intros [req nr] [Hip Hv]].
  assert (Hp : mspec 1 create_event (λ _ : list Ingress.t, True) panic).
  { eapply spec_weaken; [apply (spec_panic _ _ (λ _, True))|lia|done]. }
  destruct e as [[]| | | | | | |]; try exact Hp.
  apply (spec_bind _ 1 0 _ (λ _, True)); [by apply spec_createLoadBalancer|].
  intros lb _. apply spec_finishEnsure.
Qed.

Lemma spec_mono {A} K n (P P' : event → Prop) (Q : A → Prop) (m : M (lbst R) A) :
  (∀ ev, P ev → P' ev) → spec K n P Q m → spec K n P' Q m.
Proof.
  intros HPP Hm s. destruct (Hm s) as (evs & ? & HF & ? & ? & ?). exists evs.
  split_and!; [done|by eapply Forall_impl|done..].
Qed.

Lemma spec_EnsureLoadBalancer lower l nodes :
  mspec 1 ensure_event (λ _, True) (EnsureLoadBalancer lower fuel l nodes).
Proof.
  unfold EnsureLoadBalancer.
  apply (spec_bind _ 0 1 _ (λ _, True)); [apply spec_service|intros s _].
  apply (spec_bind _ 0 1 _ (λ _, True)); [by apply spec_pure|intros b _].
  destruct b; [eapply spec_weaken; [by apply (spec_ret _ _ (λ _, True))|lia|done]|].
  apply spec_with_patcher; [done|].
  apply (spec_bind _ 0 1 _ (λ _, True)); [apply spec_service|intros s' _].
  apply (spec_bind _ 0 1 _ (λ _, True)); [by apply spec_pure|intros pend _].
  apply (spec_bind _ 0 1 _ (λ _, True)).
  { eapply spec_weaken; [by apply spec_attempt, spec_retrieveAndAnnotate|lia|done]. }
  intros [lb|e] _.
  - eapply spec_mono; [|apply spec_ensureExisting]. by intros [].
  - case_match; [eapply spec_weaken; [apply (spec_throw _ _ (λ _, True))|lia|done]|].
    eapply spec_mono; [|apply spec_ensureMissing]. by intros [].
Qed.
End Methods.
