(* ===== verification/LBProps.v ===== *)
(** * Load-balancer methods against any API

    Properties of the methods of [loadbalancers.go] that hold whatever the
    remote services answer: disowned Services, which calls a method may make,
    what decides between creation and update, the deferred patch and the
    retries for nodes that are not ready yet. *)

From S2P Require Import Prelude GoStd Types Annotations Nodes Api Rules Requests LoadBalancers LBFacts.
From stdpp Require Import base gmap strings list.
From Stdlib Require Import ZArith Lia.
#[local] Open Scope Z_scope.

(* ================================================================== *)
(** * Facts *)

(** The calls that a run has added to the trace. *)
Definition new_calls {R A} (m : M (lbst R) A) (st : lbst R) (evs : list event) : Prop :=
  trace (lb_net (m st).2) = trace (lb_net st) ++ evs.

Lemma spec_calls {R A} K n P (m : M (lbst R) A) st :
  spec K n P (λ _, True) m →
  ∃ evs, new_calls m st evs ∧ Forall P evs ∧ (length (filter lb_write evs) ≤ n)%nat
    ∧ svc_frame K (lb_svc st) (lb_svc (m st).2).
Proof. intros Hm. destruct (Hm st) as (evs & ? & ? & ? & ? & _). by exists evs. Qed.

Section Facts.
Context {R : Type}.
Context `{!GodoPaging, !GodoLoadBalancers R, !GodoCertificates R, !GodoDroplets R, !Kube R, !IPNets}.
Variable fuel : nat.

(** An error that hides the patch failure's cause but keeps what [errors.Is]
    sees of the method's own error. *)
Lemma Aggregate_Is e perr t : errors_Is e t = true → errors_Is (Aggregate [e; perr]) t = true.
Proof. simpl. by intros ->. Qed.

Lemma Patch_unchanged base err (st : lbst R) :
  base.(Service.Annotations) = (lb_svc st).(Service.Annotations) → Patch base err st = (Ok err, st).
Proof. intros Heq. unfold Patch, service, mbind, M_bind. by rewrite bool_decide_true. Qed.

Lemma Patch_changed base err (st : lbst R) :
  base.(Service.Annotations) ≠ (lb_svc st).(Service.Annotations) →
  Patch base err st =
    match patchService base (lb_svc st) (lb_net st) with
    | (Ok _, n') => (Ok err, LBState n' (lb_svc st))
    | (Err perr, n') => (Ok (NewAggregate [err; Some perr]), LBState n' (lb_svc st))
    | (Panic, n') => (Panic, LBState n' (lb_svc st))
    | (NoFuel, n') => (NoFuel, LBState n' (lb_svc st))
    end.
Proof.
  intros Hne. unfold Patch, service, mbind, M_bind. rewrite bool_decide_false by done.
  unfold attempt, on_net, zoom. by destruct (patchService _ _ _) as [[] n'].
Qed.

(** The deferred patch adds no load-balancer call. *)
Lemma patch_result_calls {A} base (r : result A) (st : lbst R) :
  ∃ evs, new_calls (patch_result base r) st evs ∧ Forall patch_event evs.
Proof.
  assert (HP : ∀ err, ∃ evs, new_calls (Patch base err) st evs ∧ Forall patch_event evs).
  { intros err. unfold new_calls.
    destruct (decide (Service.Annotations base = Service.Annotations (lb_svc st))) as [E|E].
    - rewrite Patch_unchanged by done. exists []. by rewrite app_nil_r.
    - rewrite Patch_changed by done.
      destruct (emits_patchService base (lb_svc st) (lb_net st)) as (evs & Ht & HF).
      exists evs. by destruct (patchService _ _ _) as [[] n']. }
  unfold new_calls, patch_result in *. destruct r as [a|e| |].
  - destruct (HP None) as (evs & Ht & HF). exists evs. by destruct (Patch _ _ st) as [[[]| | |] st'].
  - destruct (HP (Some e)) as (evs & Ht & HF). exists evs. by destruct (Patch _ _ st) as [[[]| | |] st'].
  - destruct (HP None) as (evs & Ht & HF). exists evs. by destruct (Patch _ _ st) as [[[]| | |] st'].
  - exists []. by rewrite app_nil_r.
Qed.

(** The run of the look-up, and of EnsureLoadBalancer after it. *)
Lemma retrieveAndAnnotate_run (st : lbst R) :
  retrieveAndAnnotateLoadBalancer fuel st =
    let '(r, n1) := retrieveLoadBalancer fuel (lb_svc st) (lb_net st) in
    match r with
    | Ok (Some lb) =>
        (Ok lb, LBState n1 (updateServiceAnnotation
           (updateServiceAnnotation (lb_svc st) annDOLoadBalancerID lb.(LoadBalancer.ID))
           annDOType lb.(LoadBalancer.Type_)))
    | Ok None | Panic => (Panic, LBState n1 (lb_svc st))
    | Err e => (Err e, LBState n1 (lb_svc st))
    | NoFuel => (NoFuel, LBState n1 (lb_svc st))
    end.
Proof.
  unfold retrieveAndAnnotateLoadBalancer, service, mbind, M_bind, on_net, zoom.
  by destruct (retrieveLoadBalancer _ _ _) as [[[]| | |] n1].
Qed.

Lemma EnsureLoadBalancer_run lower l nodes (st : lbst R) pending :
  getDisownLB (lb_svc st) = Ok false → prepareNodesForLBSync l (lb_svc st) nodes = Ok pending →
  EnsureLoadBalancer lower fuel l nodes st =
    let '(r, st1) :=
      match retrieveAndAnnotateLoadBalancer fuel st with
      | (Ok lb, s1) => ensureExisting lower fuel l nodes pending lb s1
      | (Err e, s1) =>
          if errors_Is e errLBNotFound then ensureMissing lower fuel l nodes pending e s1 else (Err e, s1)
      | (Panic, s1) => (Panic, s1)
      | (NoFuel, s1) => (NoFuel, s1)
      end in
    patch_result (lb_svc st) r st1.
Proof.
  intros Hdis Hprep. unfold EnsureLoadBalancer, with_patcher, service, pure, attempt, mbind, M_bind.
  simpl. rewrite Hdis. simpl. rewrite Hprep.
  destruct (retrieveAndAnnotateLoadBalancer fuel st) as [[lb|e| |] s1]; try done.
  by destruct (errors_Is e errLBNotFound).
Qed.

Lemma calls_then_patch {A} (P : event → Prop) base (m : M (lbst R) A) st1 evs :
  (∀ ev, patch_event ev → P ev) → new_calls m st1 evs → Forall P evs →
  ∃ evs', trace (lb_net (let '(r, st2) := m st1 in patch_result base r st2).2) = trace (lb_net st1) ++ evs'
    ∧ Forall P evs'.
Proof.
  unfold new_calls. intros HP Ht HF. destruct (m st1) as [r st2]. simpl in Ht.
  destruct (patch_result_calls base r st2) as (evs' & Ht' & HF').
  exists (evs ++ evs'). rewrite Ht', Ht, app_assoc. split; [done|].
  apply Forall_app. split; [done|]. by eapply Forall_impl.
Qed.

(** ** Nodes that are waited for *)

(** The classes of the nodes, for the type and network of the Service. *)
Definition classified (l : loadBalancers.t) (s : Service.t) (nodes : list Node.t) (ns : nodeState.t) : Prop :=
  ∃ net ty, getNetwork s = Ok net ∧ getType s l.(loadBalancers.defaultLBType) = Ok ty
    ∧ ns = filterAndClassifyNodes nodes ty net.

(** They are to get an external address and have none yet. *)
Definition waiting (ns : nodeState.t) : list Node.t :=
  filter (λ n, nodeIntendsPublicNetwork n = true) ns.(nodeState.publicNetUnreadyNodes).

Definition unserved (ns : nodeState.t) : Prop := ns.(nodeState.lbReadyNodes) = [] ∧ waiting ns ≠ [].

Definition retry_after (notReady : list Node.t) : Z :=
  if decide (notReady = []) then 5 * second else 15 * second.

(** EnsureLoadBalancer has made its write: the load balancer answered, the
    nodes that are acceptable but not ready, and the state then. *)
Inductive ensure_writes (l : loadBalancers.t) (nodes : list Node.t) (st : lbst R)
    : option LoadBalancer.t → list Node.t → lbst R → Prop :=
| writes_update lb st1 first st1' p notReady st2 :
    retrieveAndAnnotateLoadBalancer fuel st = (Ok lb, st1) →
    on_net (buildLoadBalancerRequest fuel l (lb_svc st1) nodes (admittedDropletIDSet (Some lb))) st1
      = (Ok first, st1') →
    updateLoadBalancer fuel l lb nodes st1' = (Ok (p, notReady), st2) →
    ensure_writes l nodes st p notReady st2
| writes_create st1 req notReady st1' lb st2 :
    retrieveAndAnnotateLoadBalancer fuel st = (Err (ErrSentinel errLBNotFound), st1) →
    on_net (buildLoadBalancerRequest fuel l (lb_svc st1) nodes (admittedDropletIDSet None)) st1
      = (Ok (req, notReady), st1') →
    createLoadBalancer req st1' = (Ok lb, st2) →
    ensure_writes l nodes st (Some lb) notReady st2.

Lemma prepare_classified l s nodes ns :
  classified l s nodes ns →
  match prepareNodesForLBSync l s nodes with
  | Ok pending => pending = waiting ns ∧ ¬ unserved ns
  | Err e => unserved ns ∧ errors_As_RetryError e = Some (5 * second)
  | _ => False
  end.
Proof.
  intros (net & ty & Hnet & Hty & ->). unfold prepareNodesForLBSync, classifyServiceNodes, unserved, waiting.
  rewrite Hnet, Hty. simpl. rewrite pendingInitNodes_eq. repeat case_bool_decide; simpl; naive_solver.
Qed.

Lemma retry_pending s pending notReady :
  match retryIfNodesPendingInit s pending notReady with
  | Ok _ => pending ++ notReady = []
  | Err e => pending ++ notReady ≠ [] ∧ errors_As_RetryError e = Some (retry_after notReady)
  | _ => False
  end.
Proof.
  unfold retryIfNodesPendingInit, retry_after. case_bool_decide; [done|]. split; [done|].
  case_bool_decide; by case_decide.
Qed.

(** The deferred patch turns no failure into a success. *)
Lemma patch_result_Ok {A} base (r : result A) (st : lbst R) a st' :
  patch_result base r st = (Ok a, st') → r = Ok a.
Proof.
  intros Hp. destruct (spec_patch_result [] (λ _, True) ltac:(done) base r st) as (_&_&_&_&_&HQ).
  rewrite Hp in HQ. by apply HQ.
Qed.

Lemma call_last {A} ev (f : R → A * R) (s s' : lbst R) r :
  on_net (call ev f) s = (r, s') → last (trace (lb_net s')) = Some ev.
Proof.
  unfold on_net, zoom, call. destruct (f _) as [a r']. intros [= _ <-]. apply last_snoc.
Qed.

Lemma update_last l lb nodes (st : lbst R) p notReady st2 :
  updateLoadBalancer fuel l lb nodes st = (Ok (p, notReady), st2) →
  ∃ ev, last (trace (lb_net st2)) = Some ev ∧ lb_write ev.
Proof.
  unfold updateLoadBalancer. intros Hu. inv_ok. destruct a4 as [req pnr]. inv_ok.
  match goal with H : on_net (call _ _) _ = _ |- _ => apply call_last in H end.
  destruct (rerr _); inv_ok. by eexists.
Qed.

Lemma create_last req (st : lbst R) lb st2 :
  createLoadBalancer req st = (Ok lb, st2) → ∃ ev, last (trace (lb_net st2)) = Some ev ∧ lb_write ev.
Proof.
  unfold createLoadBalancer. intros Hc. inv_ok.
  match goal with H : on_net (call _ _) _ = _ |- _ => apply call_last in H end.
  destruct (rerr _); inv_ok. destruct (rval _); simpl in *; [|done]. inv_ok.
  injection Hm2 as _ <-. injection Hm3 as _ <-. by eexists.
Qed.

Lemma ensure_writes_last l nodes st p notReady st2 :
  ensure_writes l nodes st p notReady st2 → ∃ ev, last (trace (lb_net st2)) = Some ev ∧ lb_write ev.
Proof. destruct 1; [by eapply update_last|by eapply create_last]. Qed.

Lemma finishEnsure_retry lower lb pending notReady (st : lbst R) :
  lb.(LoadBalancer.Status) = lbStatusActive → pending ++ notReady ≠ [] →
  ∃ e, errors_As_RetryError e = Some (retry_after notReady)
    ∧ finishEnsure lower lb pending notReady st = (Err e, st).
Proof.
  intros Hact Hne. unfold finishEnsure. rewrite Hact. simpl.
  unfold service, pure, mbind, M_bind. pose proof (retry_pending (lb_svc st) pending notReady) as Hr.
  destruct (retryIfNodesPendingInit _ _ _) as [|e| |]; [done| |done..]. exists e. by destruct Hr.
Qed.

Section Ensure.
Variables (lower : string → string) (l : loadBalancers.t) (nodes : list Node.t) (st : lbst R) (ns : nodeState.t).
Hypothesis Hdis : getDisownLB (lb_svc st) = Ok false.
Hypothesis Hns : classified l (lb_svc st) nodes ns.

Lemma ensure_early_retry :
  unserved ns → ∃ e, errors_As_RetryError e = Some (5 * second)
    ∧ EnsureLoadBalancer lower fuel l nodes st = (Err e, st).
Proof.
  intros Hu. pose proof (prepare_classified _ _ _ _ Hns) as Hp.
  destruct (prepareNodesForLBSync l (lb_svc st) nodes) as [|e| |] eqn:E; [naive_solver| |done..].
  exists e. split; [apply Hp|].
  unfold EnsureLoadBalancer, with_patcher, service, pure, mbind, M_bind. simpl. rewrite Hdis, E.
  unfold patch_result. by rewrite Patch_unchanged.
Qed.

Lemma ensure_run_waiting :
  ¬ unserved ns →
  EnsureLoadBalancer lower fuel l nodes st =
    let '(r, st1) :=
      match retrieveAndAnnotateLoadBalancer fuel st with
      | (Ok lb, s1) => ensureExisting lower fuel l nodes (waiting ns) lb s1
      | (Err e, s1) =>
          if errors_Is e errLBNotFound then ensureMissing lower fuel l nodes (waiting ns) e s1 else (Err e, s1)
      | (Panic, s1) => (Panic, s1)
      | (NoFuel, s1) => (NoFuel, s1)
      end in
    patch_result (lb_svc st) r st1.
Proof.
  intros Hu. pose proof (prepare_classified _ _ _ _ Hns) as Hp.
  destruct (prepareNodesForLBSync l (lb_svc st) nodes) as [pending|e| |] eqn:E; [|naive_solver|done..].
  destruct Hp as [-> _]. by apply EnsureLoadBalancer_run.
Qed.

Lemma ensure_late_retry lb notReady st2 :
  ¬ unserved ns → ensure_writes l nodes st (Some lb) notReady st2 →
  lb.(LoadBalancer.Status) = lbStatusActive → waiting ns ++ notReady ≠ [] →
  ∃ e, errors_As_RetryError e = Some (retry_after notReady)
    ∧ EnsureLoadBalancer lower fuel l nodes st = patch_result (lb_svc st) (Err e) st2.
Proof.
  intros Hu Hw Hact Hne. rewrite (ensure_run_waiting Hu).
  destruct (finishEnsure_retry lower lb (waiting ns) notReady st2 Hact Hne) as (e & He & Hf). exists e. split; [done|].
  inversion Hw as [lb0 st1 first st1' p nr st2' Hr Hb Hup|st1 req nr st1' lb' st2' Hr Hb Hc]; subst; rewrite Hr.
  - unfold ensureExisting, service, mbind, M_bind. unfold on_net, zoom, on_err in *.
    destruct (buildLoadBalancerRequest _ _ _ _ _ _) as [b n1]. injection Hb as -> <-. simpl in *.
    rewrite Hup. simpl. by rewrite Hf.
  - simpl. unfold ensureMissing, service, mbind, M_bind. unfold on_net, zoom, on_err in *.
    destruct (buildLoadBalancerRequest _ _ _ _ _ _) as [b n1]. injection Hb as -> <-. simpl in *.
    rewrite Hc. by rewrite Hf.
Qed.

Lemma finishEnsure_none lb pending notReady (s1 : lbst R) status s2 :
  finishEnsure lower lb pending notReady s1 = (Ok status, s2) → pending = [].
Proof.
  unfold finishEnsure. destruct (str_eqb _ _); [done|]. destruct (negb _); [done|]. intros He. inv_ok.
  match goal with H : retryIfNodesPendingInit ?s ?p ?q = Ok _ |- _ =>
    pose proof (retry_pending s p q) as Hr; rewrite H in Hr end. by apply app_nil in Hr as [-> _].
Qed.

Lemma ensure_none_waiting status st' :
  EnsureLoadBalancer lower fuel l nodes st = (Ok status, st') → waiting ns = [].
Proof.
  intros He. assert (Hdec : unserved ns ∨ ¬ unserved ns).
  { unfold unserved. destruct (nodeState.lbReadyNodes ns), (waiting ns); naive_solver. }
  destruct Hdec as [Hu|Hu]; [destruct (ensure_early_retry Hu) as (e & _ & E); congruence|].
  rewrite (ensure_run_waiting Hu) in He.
  destruct (retrieveAndAnnotateLoadBalancer fuel st) as [[lb|e| |] s1].
  - destruct (ensureExisting _ _ _ _ _ _ _) as [r s2] eqn:E. apply patch_result_Ok in He as ->.
    unfold ensureExisting in E. inv_ok. destruct a1 as [p nr]. inv_ok. by eapply finishEnsure_none.
  - destruct (errors_Is e errLBNotFound); [|by apply patch_result_Ok in He].
    destruct (ensureMissing _ _ _ _ _ _ _) as [r s2] eqn:E. apply patch_result_Ok in He as ->.
    unfold ensureMissing in E. inv_ok. destruct a0 as [req nr]. repeat case_match; inv_ok.
    by eapply finishEnsure_none.
  - by apply patch_result_Ok in He.
  - by apply patch_result_Ok in He.
Qed.
End Ensure.

Section Update.
Variables (l : loadBalancers.t) (nodes : list Node.t) (st : lbst R) (lb : LoadBalancer.t) (st1 : lbst R)
  (ns : nodeState.t).
Hypothesis Hdis : getDisownLB (lb_svc st) = Ok false.
Hypothesis Hlb : retrieveAndAnnotateLoadBalancer fuel st = (Ok lb, st1).
Hypothesis Hns : classified l (lb_svc st1) nodes ns.

Lemma update_run :
  UpdateLoadBalancer fuel l nodes st =
    let '(r, st2) :=
      match prepareNodesForLBSync l (lb_svc st1) nodes with
      | Ok pending =>
          match updateLoadBalancer fuel l lb nodes st1 with
          | (Ok (_, notReady), st2) => (retryIfNodesPendingInit (lb_svc st2) pending notReady, st2)
          | (Err e, st2) => (Err e, st2)
          | (Panic, st2) => (Panic, st2)
          | (NoFuel, st2) => (NoFuel, st2)
          end
      | Err e => (Err e, st1)
      | Panic => (Panic, st1)
      | NoFuel => (NoFuel, st1)
      end in
    patch_result (lb_svc st) r st2.
Proof.
  unfold UpdateLoadBalancer, with_patcher, service, pure, mbind, M_bind. simpl. rewrite Hdis, Hlb.
  destruct (prepareNodesForLBSync _ _ _); try done.
  by destruct (updateLoadBalancer _ _ _ _ st1) as [[[p nr]| | |] st2].
Qed.

Lemma update_early_retry :
  unserved ns → ∃ e, errors_As_RetryError e = Some (5 * second)
    ∧ UpdateLoadBalancer fuel l nodes st = patch_result (lb_svc st) (Err e) st1.
Proof.
  intros Hu. pose proof (prepare_classified _ _ _ _ Hns) as Hp. rewrite update_run.
  destruct (prepareNodesForLBSync _ _ _) as [|e| |]; [naive_solver| |done..]. exists e. by destruct Hp.
Qed.

Lemma update_late_retry p notReady st2 :
  ¬ unserved ns → updateLoadBalancer fuel l lb nodes st1 = (Ok (p, notReady), st2) →
  waiting ns ++ notReady ≠ [] →
  ∃ e, errors_As_RetryError e = Some (retry_after notReady)
    ∧ UpdateLoadBalancer fuel l nodes st = patch_result (lb_svc st) (Err e) st2.
Proof.
  intros Hu Hup Hne. pose proof (prepare_classified _ _ _ _ Hns) as Hp. rewrite update_run, Hup.
  destruct (prepareNodesForLBSync _ _ _) as [pending|e| |]; [|naive_solver|done..]. destruct Hp as [-> _].
  pose proof (retry_pending (lb_svc st2) (waiting ns) notReady) as Hr.
  destruct (retryIfNodesPendingInit _ _ _) as [|e| |]; [done| |done..]. exists e. by destruct Hr.
Qed.

Lemma update_none_waiting st' : UpdateLoadBalancer fuel l nodes st = (Ok (), st') → waiting ns = [].
Proof.
  rewrite update_run. pose proof (prepare_classified _ _ _ _ Hns) as Hp.
  destruct (prepareNodesForLBSync _ _ _) as [pending|e| |]; [|by intros ?%patch_result_Ok|done..].
  destruct Hp as [-> _].
  destruct (updateLoadBalancer _ _ _ _ st1) as [[[p nr]| | |] st2]; intros He%patch_result_Ok; try done.
  pose proof (retry_pending (lb_svc st2) (waiting ns) nr) as Hr. rewrite He in Hr. by apply app_nil in Hr as [-> _].
Qed.
End Update.
End Facts.

(* ================================================================== *)
(** * Properties *)

Section Properties.
Context {R : Type}.
Context `{!GodoPaging, !GodoLoadBalancers R, !GodoCertificates R, !GodoDroplets R, !Kube R, !IPNets}.
Variable unicode_ToLower : string → string.
Variable fuel : nat.

(** C23. A disowned Service is left alone: EnsureLoadBalancer answers the status
    it finds, UpdateLoadBalancer and EnsureLoadBalancerDeleted succeed, and none
    makes a call or changes the Service; a malformed disown annotation fails all
    three in the same inert way. *)
Theorem disowned_services_inert l nodes (st : lbst R) :
  (getDisownLB (lb_svc st) = Ok true →
     EnsureLoadBalancer unicode_ToLower fuel l nodes st = (Ok (lb_svc st).(Service.Status), st)
     ∧ UpdateLoadBalancer fuel l nodes st = (Ok (), st)
     ∧ EnsureLoadBalancerDeleted fuel st = (Ok (), st))
  ∧ (∀ e, getDisownLB (lb_svc st) = Err e →
     EnsureLoadBalancer unicode_ToLower fuel l nodes st = (Err e, st)
     ∧ UpdateLoadBalancer fuel l nodes st = (Err e, st)
     ∧ EnsureLoadBalancerDeleted fuel st = (Err e, st)).
Proof.
  unfold EnsureLoadBalancer, UpdateLoadBalancer, EnsureLoadBalancerDeleted, service, pure, mbind, M_bind.
  split; [intros ->|intros e ->]; done.
Qed.

(** C13. What EnsureLoadBalancer may do, whatever the API answers: it writes at
    most one load balancer, never deletes one, never sends an address with an
    update, never asks for a dry run, and changes nothing of the Service but
    the annotations it manages. *)
Theorem ensure_calls l nodes (st : lbst R) :
  ∃ evs, new_calls (EnsureLoadBalancer unicode_ToLower fuel l nodes) st evs
    ∧ Forall ensure_event evs ∧ (length (filter lb_write evs) ≤ 1)%nat
    ∧ svc_frame managed_annotations (lb_svc st)
        (lb_svc (EnsureLoadBalancer unicode_ToLower fuel l nodes st).2).
Proof. apply spec_calls, spec_EnsureLoadBalancer. Qed.

(** What UpdateLoadBalancer and GetLoadBalancer may do: an update writes at
    most one load balancer, which it neither creates nor deletes, and never
    sends an address; a get writes none; both change nothing of the Service but
    the managed annotations. *)
Theorem update_and_get_calls l nodes (st : lbst R) :
  (∃ evs, new_calls (UpdateLoadBalancer fuel l nodes) st evs
    ∧ Forall update_event evs ∧ (length (filter lb_write evs) ≤ 1)%nat
    ∧ svc_frame managed_annotations (lb_svc st) (lb_svc (UpdateLoadBalancer fuel l nodes st).2))
  ∧ (∃ evs, new_calls (GetLoadBalancer fuel) st evs
    ∧ Forall get_event evs
    ∧ svc_frame managed_annotations (lb_svc st) (lb_svc (GetLoadBalancer fuel st).2)).
Proof.
  split; [apply spec_calls, spec_UpdateLoadBalancer|].
  destruct (spec_calls _ _ _ _ st (spec_GetLoadBalancer fuel)) as (evs & ? & ? & _ & ?). by exists evs.
Qed.

(** C12. The look-up alone decides what EnsureLoadBalancer writes: a load
    balancer that was found is never created again, one that was not found is
    never updated, and any other look-up error is returned as it is, after
    which no call is made and the Service is unchanged. *)
Theorem lookup_decides_create_or_update l nodes (st : lbst R) pending :
  getDisownLB (lb_svc st) = Ok false →
  prepareNodesForLBSync l (lb_svc st) nodes = Ok pending →
  let '(found, n1) := retrieveLoadBalancer fuel (lb_svc st) (lb_net st) in
  let final := EnsureLoadBalancer unicode_ToLower fuel l nodes st in
  match found with
  | Ok (Some lb) => ∃ evs, trace (lb_net final.2) = trace n1 ++ evs ∧ Forall update_event evs
  | Err e =>
      if errors_Is e errLBNotFound
      then ∃ evs, trace (lb_net final.2) = trace n1 ++ evs ∧ Forall create_event evs
      else final = (Err e, LBState n1 (lb_svc st))
  | _ => True
  end.
Proof.
  intros Hdis Hprep. rewrite (EnsureLoadBalancer_run _ _ _ _ _ _ Hdis Hprep), retrieveAndAnnotate_run.
  destruct (retrieveLoadBalancer fuel _ _) as [[[lb|]|e| |] n1]; try done.
  - destruct (spec_ensureExisting fuel unicode_ToLower l nodes pending lb
      (LBState n1 (updateServiceAnnotation (updateServiceAnnotation (lb_svc st) annDOLoadBalancerID
         lb.(LoadBalancer.ID)) annDOType lb.(LoadBalancer.Type_)))) as (evs & Ht & HF & _).
    by eapply calls_then_patch; [intros []| |].
  - destruct (errors_Is e errLBNotFound).
    + destruct (spec_ensureMissing fuel unicode_ToLower l nodes pending e (LBState n1 (lb_svc st)))
        as (evs & Ht & HF & _).
      by eapply calls_then_patch; [intros []| |].
    + unfold patch_result. by rewrite Patch_unchanged.
Qed.

(** C14. The deferred patch of the Service: a body that leaves the annotations
    as they were is not followed by any call and its outcome stands; after a
    successful patch the outcome stands too, so that a retry error is still
    visible to the caller; a failed patch turns the outcome into an aggregate,
    in which [errors.Is] still finds the body's error but no retry error is
    visible any more. *)
Theorem deferred_patch {A} (m : M (lbst R) A) (st : lbst R) :
  let '(r, st1) := m st in
  ((lb_svc st).(Service.Annotations) = (lb_svc st1).(Service.Annotations) →
     with_patcher m st = (r, st1))
  ∧ ((lb_svc st).(Service.Annotations) ≠ (lb_svc st1).(Service.Annotations) → r ≠ NoFuel →
     match patchService (lb_svc st) (lb_svc st1) (lb_net st1) with
     | (Ok _, n2) => with_patcher m st = (r, LBState n2 (lb_svc st1))
     | (Err perr, n2) =>
         ∃ e', with_patcher m st = (match r with Panic => Panic | _ => Err e' end, LBState n2 (lb_svc st1))
           ∧ errors_As_RetryError e' = None
           ∧ ∀ e t, r = Err e → errors_Is e t = true → errors_Is e' t = true
     | _ => True
     end).
Proof.
  unfold with_patcher. destruct (m st) as [r st1]. split.
  - intros Heq. unfold patch_result. rewrite !Patch_unchanged by done. by destruct r.
  - intros Hne Hr. destruct (patchService _ _ _) as [pr n2] eqn:E. unfold patch_result.
    rewrite !Patch_changed, E by done. destruct pr as [u|perr| |]; [by destruct r| |done..].
    destruct r as [a|e| |]; [by exists (Aggregate [perr])| |by exists (Aggregate [perr])|done].
    exists (Aggregate [e; perr]). split_and!; [done..|]. intros e0 t [= <-]. apply Aggregate_Is.
Qed.

End Properties.
