(* ===== verification/ApiLaws.v ===== *)
(** * What the remote services promise

    The documented behaviour of the DigitalOcean API that the load-balancer
    code relies on, as laws over an abstract view of the remote state: the
    load balancers by identifier, the pages in which load balancers and
    droplets are listed, and the certificates.  A call may fail at any time,
    and a failed write may or may not have taken effect; what it never does is
    touch another object. *)

From S2P Require Import Prelude GoStd Types Annotations Nodes Api Rules Requests LoadBalancers.
From stdpp Require Import base gmap strings list.
From Stdlib Require Import ZArith Lia.
#[local] Open Scope Z_scope.

Record remote_view := RView {
  v_lbs : gmap string LoadBalancer.t;
  v_lb_pages : list (list LoadBalancer.t);
  v_droplet_pages : list (list Droplet.t);
  v_certs : gmap string Certificate.t;
}.

(** The load balancer is configured as the request asks. *)
Definition realizes (req : LoadBalancerRequest.t) (lb : LoadBalancer.t) : Prop :=
  lb.(LoadBalancer.Name) = req.(LoadBalancerRequest.Name)
  ∧ lb.(LoadBalancer.Type_) = req.(LoadBalancerRequest.Type_)
  ∧ lb.(LoadBalancer.ForwardingRules) = req.(LoadBalancerRequest.ForwardingRules)
  ∧ lb.(LoadBalancer.DropletIDs) ≡ₚ req.(LoadBalancerRequest.DropletIDs).

Class ApiLaws (R : Type) `{!GodoPaging, !GodoLoadBalancers R, !GodoCertificates R, !GodoDroplets R,
    !Kube R} := {
  view : R → remote_view;
  (** Objects are filed under their identifier. *)
  lbs_keyed r id lb : v_lbs (view r) !! id = Some lb → lb.(LoadBalancer.ID) = id;
  (** Reads change nothing. *)
  get_keeps id r : view (LoadBalancers_Get id r).2 = view r;
  list_keeps page r : view (LoadBalancers_List page r).2 = view r;
  cert_get_keeps id r : view (Certificates_Get id r).2 = view r;
  cert_list_keeps name r : view (Certificates_ListByName name r).2 = view r;
  droplets_keeps page r : view (Droplets_List page r).2 = view r;
  (** Nor do writes to the Kubernetes API. *)
  patch_keeps ns name p r : view (Services_Patch ns name p r).2 = view r;
  event_keeps ns name reason msg r : view (Events_Create ns name reason msg r) = view r;
  (** A load balancer is read as it is; 404 means that there is none. *)
  get_ok id r : rerr (LoadBalancers_Get id r).1 = None →
    rval (LoadBalancers_Get id r).1 = v_lbs (view r) !! id ∧ is_Some (v_lbs (view r) !! id);
  get_404 id r : is_404 (LoadBalancers_Get id r).1 = true → v_lbs (view r) !! id = None;
  (** Listing is paged and complete; any request for a page may fail, but not
      with the sentinel of this program, which the service does not know. *)
  lb_pages_served r : serves_or_fails LoadBalancers_List (v_lb_pages (view r)) r;
  lb_list_error page r e : rerr (LoadBalancers_List page r).1 = Some e → errors_Is e errLBNotFound = false;
  lb_pages_nonempty r : v_lb_pages (view r) ≠ [];
  lb_pages_all r lb : lb ∈ concat (v_lb_pages (view r)) ↔ v_lbs (view r) !! lb.(LoadBalancer.ID) = Some lb;
  droplet_pages_served r : serves_or_fails Droplets_List (v_droplet_pages (view r)) r;
  droplet_pages_nonempty r : v_droplet_pages (view r) ≠ [];
  (** A certificate is read as it is; 404 means that there is none. *)
  cert_get_ok id r : rerr (Certificates_Get id r).1 = None →
    rval (Certificates_Get id r).1 = v_certs (view r) !! id ∧ is_Some (v_certs (view r) !! id);
  cert_get_404 id r msg : rerr (Certificates_Get id r).1 = Some (ErrorResponse (Some StatusNotFound) msg) →
    v_certs (view r) !! id = None;
  (** Creation adds one new object. *)
  create_frame req r : ∃ id, v_lbs (view r) !! id = None
    ∧ delete id (v_lbs (view (LoadBalancers_Create req r).2)) = v_lbs (view r);
  create_ok req r : rerr (LoadBalancers_Create req r).1 = None →
    ∃ lb, rval (LoadBalancers_Create req r).1 = Some lb
      ∧ v_lbs (view (LoadBalancers_Create req r).2) = <[lb.(LoadBalancer.ID) := lb]> (v_lbs (view r))
      ∧ v_lbs (view r) !! lb.(LoadBalancer.ID) = None ∧ realizes req lb;
  (** An update replaces the configuration of one object. *)
  update_frame id req r :
    delete id (v_lbs (view (LoadBalancers_Update id req r).2)) = delete id (v_lbs (view r));
  update_ok id req r : rerr (LoadBalancers_Update id req r).1 = None →
    ∃ lb, rval (LoadBalancers_Update id req r).1 = Some lb
      ∧ lb.(LoadBalancer.ID) = id
      ∧ v_lbs (view (LoadBalancers_Update id req r).2) = <[id := lb]> (v_lbs (view r))
      ∧ realizes req lb;
  (** A deletion removes one object; 404 means that there was none. *)
  delete_frame id r :
    delete id (v_lbs (view (LoadBalancers_Delete id r).2)) = delete id (v_lbs (view r));
  delete_ok id r : rerr (LoadBalancers_Delete id r).1 = None →
    v_lbs (view (LoadBalancers_Delete id r).2) !! id = None;
  delete_404 id r : is_404 (LoadBalancers_Delete id r).1 = true →
    v_lbs (view (LoadBalancers_Delete id r).2) !! id = None;
}.

(** Writes are atomic: whatever a write answers, it has taken effect as a whole
    or not at all, what it created or updated has the name asked for, and an
    update creates nothing. *)
Class AtomicWrites (R : Type) `{!GodoPaging, !GodoLoadBalancers R, !GodoCertificates R, !GodoDroplets R,
    !Kube R, !ApiLaws R} := {
  create_atomic req r :
    v_lbs (view (LoadBalancers_Create req r).2) = v_lbs (view r)
    ∨ ∃ lb, v_lbs (view (LoadBalancers_Create req r).2) = <[lb.(LoadBalancer.ID) := lb]> (v_lbs (view r))
            ∧ v_lbs (view r) !! lb.(LoadBalancer.ID) = None
            ∧ lb.(LoadBalancer.Name) = req.(LoadBalancerRequest.Name);
  update_atomic id req r :
    v_lbs (view (LoadBalancers_Update id req r).2) = v_lbs (view r)
    ∨ ∃ lb, v_lbs (view (LoadBalancers_Update id req r).2) = <[id := lb]> (v_lbs (view r))
            ∧ is_Some (v_lbs (view r) !! id)
            ∧ lb.(LoadBalancer.Name) = req.(LoadBalancerRequest.Name);
  delete_atomic id r :
    v_lbs (view (LoadBalancers_Delete id r).2) = v_lbs (view r)
    ∨ v_lbs (view (LoadBalancers_Delete id r).2) = delete id (v_lbs (view r));
}.

(* ================================================================== *)
(** * Facts *)

Lemma within_call {R A} (Rl : relation (net R)) ev (f : R → A * R) :
  (∀ s a r', f (remote s) = (a, r') → Rl s (Net r' (trace s ++ [ev]))) → within Rl (call ev f).
Proof. intros Hf s. unfold call. destruct (f (remote s)) as [a r'] eqn:E. simpl. by eapply Hf. Qed.

Lemma within_all_pages `{!GodoPaging} {S A} (Rl : relation S) `{!PreOrder Rl} nr
    (lf : Z → M S (reply (list A))) fuel page acc :
  (∀ p, within Rl (lf p)) → within Rl (all_pages nr lf fuel page acc).
Proof.
  intros Hlf. revert page acc. induction fuel as [|fuel IH]; intros page acc; simpl.
  { by apply within_nofuel. }
  apply within_bind; [apply _|done|]. intros rp.
  repeat (case_match; try solve [auto with go]).
  apply within_bind; [apply _|by apply within_pure|auto].
Qed.

Section Laws.
Context {R : Type}.
Context `{!GodoPaging, !GodoLoadBalancers R, !GodoCertificates R, !GodoDroplets R, !Kube R, !IPNets}.
Context `{!ApiLaws R}.
Variable fuel : nat.

(** ** Reads keep the view *)

Definition net_view (n : net R) : remote_view := view (remote n).

(** ** Listings *)

(** All load balancers, or an error that is not the sentinel. *)
Lemma lb_listing n r n' :
  (length (v_lb_pages (net_view n)) ≤ fuel)%nat → allLoadBalancerList fuel n = (r, n') →
  match r with
  | Ok lbs => lbs = concat (v_lb_pages (net_view n))
  | Err e => errors_Is e errLBNotFound = false
  | _ => False
  end.
Proof.
  intros Hf Hr. pose proof (lb_pages_nonempty (remote n)) as Hne. unfold net_view in *.
  apply (all_pages_outcome _ (λ x, view x = view (remote n)) _ _ (v_lb_pages (view (remote n))) 0) in Hr.
  - destruct r; [done| |done..]. destruct Hr as [->|(p & x & He)]; [done|]. by eapply lb_list_error.
  - intros x p Hx. rewrite <- Hx at 1. rewrite list_keeps. split; [apply lb_pages_served|done].
  - done.
  - by destruct (v_lb_pages _); [|simpl; lia].
  - lia.
Qed.

Lemma droplet_listing n r n' :
  (length (v_droplet_pages (net_view n)) ≤ fuel)%nat →
  allDropletList (λ p, call (EvDropletList p) (Droplets_List p)) fuel n = (r, n') →
  match r with
  | Ok droplets => droplets = concat (v_droplet_pages (net_view n))
  | Err _ => True
  | _ => False
  end.
Proof.
  intros Hf Hr. pose proof (droplet_pages_nonempty (remote n)) as Hne. unfold net_view in *.
  apply (all_pages_outcome _ (λ x, view x = view (remote n)) _ _ (v_droplet_pages (view (remote n))) 0) in Hr.
  - by destruct r.
  - intros x p Hx. rewrite <- Hx at 1. rewrite droplets_keeps. split; [apply droplet_pages_served|done].
  - done.
  - by destruct (v_droplet_pages _); [|simpl; lia].
  - lia.
Qed.

Lemma same_view_call {A} ev (f : R → A * R) :
  (∀ r, view (f r).2 = view r) → within (same net_view) (call ev f).
Proof.
  intros Hf. apply within_call. intros s a r' E. unfold same, net_view. simpl.
  specialize (Hf (remote s)). by rewrite E in Hf.
Qed.

Lemma same_view_LBGet id : within (same net_view) (call (EvLBGet id) (LoadBalancers_Get id)).
Proof. apply same_view_call, get_keeps. Qed.
Lemma same_view_LBList p : within (same net_view) (call (EvLBList p) (LoadBalancers_List p)).
Proof. apply same_view_call, list_keeps. Qed.
Lemma same_view_CertGet id : within (same net_view) (call (EvCertGet id) (Certificates_Get id)).
Proof. apply same_view_call, cert_get_keeps. Qed.
Lemma same_view_CertList n : within (same net_view) (call (EvCertListByName n) (Certificates_ListByName n)).
Proof. apply same_view_call, cert_list_keeps. Qed.
Lemma same_view_DropletList p : within (same net_view) (call (EvDropletList p) (Droplets_List p)).
Proof. apply same_view_call, droplets_keeps. Qed.
Lemma same_view_Patch ns n p : within (same net_view) (call (EvServicePatch ns n p) (Services_Patch ns n p)).
Proof. apply same_view_call, patch_keeps. Qed.
Lemma same_view_event s reason msg : within (same net_view) (emitServiceEvent s reason msg).
Proof. apply same_view_call. intros r. apply event_keeps. Qed.

Hint Resolve same_view_LBGet same_view_LBList same_view_CertGet same_view_CertList
  same_view_DropletList same_view_Patch same_view_event within_all_pages : go.

Lemma same_view_retrieve s : within (same net_view) (retrieveLoadBalancer fuel s).
Proof.
  unfold retrieveLoadBalancer, findLoadBalancerByID, allLoadBalancerList. solve_within.
Qed.

Lemma same_view_findCertificateID s : within (same net_view) (findCertificateID s).
Proof. unfold findCertificateID. solve_within. Qed.
Hint Resolve same_view_findCertificateID : go.

Lemma same_view_build l s nodes ids :
  within (same net_view) (buildLoadBalancerRequest fuel l s nodes ids).
Proof.
  unfold buildLoadBalancerRequest, buildLoadBalancerRequestWithNodeState, buildForwardingRules,
    buildHTTP3ForwardingRule, nodesToDropletIDs, allDropletList.
  solve_within.
Qed.

Lemma same_view_patchService cur upd : within (same net_view) (patchService cur upd).
Proof. unfold patchService. solve_within. Qed.
End Laws.

#[export] Hint Resolve same_view_LBGet same_view_LBList same_view_CertGet same_view_CertList
  same_view_DropletList same_view_Patch same_view_event within_all_pages same_view_retrieve
  same_view_findCertificateID same_view_build same_view_patchService : go.
