(* ===== verification/Memory.v ===== *)
(** * An API in memory

    A small executable model of the remote services, used to evaluate the code
    on concrete inputs.  It keeps every promise of [ApiLaws]: objects live in
    maps, listings are served one object a page, and the next few listings may
    fail. *)

From S2P Require Import Prelude GoStd Types Annotations Nodes Api Rules Requests LoadBalancers ApiLaws.
From stdpp Require Import base gmap strings list.
From Stdlib Require Import ZArith Lia.
#[local] Open Scope Z_scope.

Module Memory.
Record t := mk {
  lbs : gmap string LoadBalancer.t;
  droplets : list Droplet.t;
  certs : gmap string Certificate.t;
  outages : nat;
}.
Definition set_lbs (m : gmap string LoadBalancer.t) (r : t) : t := mk m r.(droplets) r.(certs) r.(outages).
Definition set_outages (k : nat) (r : t) : t := mk r.(lbs) r.(droplets) r.(certs) k.

(** One object a page, and one empty page when there is none. *)
Definition pages {A} (l : list A) : list (list A) :=
  match l with [] => [[]] | _ => (λ x, [x]) <$> l end.

(** The URL of page [n] has [n] characters. *)
Fixpoint url (n : nat) : string :=
  match n with O => "" | S n' => "p" +:+ url n' end.

Definition answer {A} (code : Z) (a : A) : reply A := Reply a (Some (Response.mk code None)) None.
Definition failure {A} (code : Z) (a : A) : reply A :=
  Reply a (Some (Response.mk code None)) (Some (ErrorResponse (Some code) "request failed")).

Definition paged {A} (l : list (list A)) (page : Z) : reply (list A) :=
  let i := Z.to_nat (page - 1) in
  match l !! i with
  | Some objs =>
      Reply objs (Some (Response.mk 200 (Some (Links.mk (Some
        (Pages.mk (url i) (if decide (S i = length l) then "" else url (S (S i)))))))))
        None
  | None => failure 404 []
  end.

Definition configure (id ip : string) (req : LoadBalancerRequest.t) : LoadBalancer.t :=
  LoadBalancer.mk id req.(LoadBalancerRequest.Name) ip "" req.(LoadBalancerRequest.Type_) lbStatusActive
    req.(LoadBalancerRequest.ForwardingRules) req.(LoadBalancerRequest.DropletIDs).

(** Load balancers carry the identifier they are filed under. *)
Definition with_ID (id : string) (lb : LoadBalancer.t) : LoadBalancer.t :=
  LoadBalancer.mk id lb.(LoadBalancer.Name) lb.(LoadBalancer.IP) lb.(LoadBalancer.IPv6)
    lb.(LoadBalancer.Type_) lb.(LoadBalancer.Status) lb.(LoadBalancer.ForwardingRules)
    lb.(LoadBalancer.DropletIDs).
Definition lb_map (r : t) : gmap string LoadBalancer.t :=
  map_imap (λ id lb, Some (with_ID id lb)) r.(lbs).
Definition lb_list (r : t) : list LoadBalancer.t := (map_to_list (lb_map r)).*2.
End Memory.
Import Memory.

#[export] Instance Memory_paging : GodoPaging := {| pageForURL u := inl (len u) |}.

#[export] Instance Memory_lbs : GodoLoadBalancers Memory.t := {|
  LoadBalancers_Get id r :=
    (match lb_map r !! id with
     | Some lb => answer 200 (Some lb)
     | None => failure 404 None
     end, r);
  LoadBalancers_List page r :=
    match r.(outages) with
    | O => (paged (pages (lb_list r)) page, r)
    | S k => (failure 503 [], set_outages k r)
    end;
  LoadBalancers_Create req r :=
    let id := fresh (dom r.(lbs)) in
    let lb := configure id "203.0.113.10" req in
    (answer 202 (Some lb), set_lbs (<[id := lb]> r.(lbs)) r);
  LoadBalancers_Update id req r :=
    match r.(lbs) !! id with
    | Some lb0 =>
        let lb := configure id lb0.(LoadBalancer.IP) req in
        (answer 200 (Some lb), set_lbs (<[id := lb]> r.(lbs)) r)
    | None => (failure 404 None, r)
    end;
  LoadBalancers_Delete id r :=
    match r.(lbs) !! id with
    | Some _ => (answer 204 (), set_lbs (delete id r.(lbs)) r)
    | None => (failure 404 (), r)
    end;
|}.

#[export] Instance Memory_certs : GodoCertificates Memory.t := {|
  Certificates_Get id r :=
    (match r.(certs) !! id with
     | Some c => answer 200 (Some c)
     | None => failure 404 None
     end, r);
  Certificates_ListByName name r :=
    (answer 200 (filter (λ c, c.(Certificate.Name) = name) (map_to_list r.(certs)).*2), r);
|}.

#[export] Instance Memory_droplets : GodoDroplets Memory.t := {|
  Droplets_List page r :=
    match r.(outages) with
    | O => (paged (pages r.(droplets)) page, r)
    | S k => (failure 503 [], set_outages k r)
    end;
|}.

(** Services are accepted; a Service is serialized to its load-balancer ID. *)
#[export] Instance Memory_kube : Kube Memory.t := {|
  Services_Patch _ _ _ r := (None, r);
  Events_Create _ _ _ _ r := r;
  MarshalJSON s := inl (getLoadBalancerID s);
  CreateTwoWayMergePatch cur upd := inl (if str_eqb cur upd then "{}" else upd);
|}.

(** Networks are written canonically; sets are ranged over backwards. *)
#[export] Instance Memory_ipnets : IPNets := {|
  ParseCIDRSloppy s := if str_eqb s "" then inr (ErrNew "invalid CIDR address") else inl s;
  range_order l := rev l;
|}.

(* ================================================================== *)
(** * Facts *)

Definition Memory_view (r : Memory.t) : remote_view :=
  RView (lb_map r) (pages (lb_list r)) (pages r.(droplets)) r.(certs).

Lemma pages_nonempty {A} (l : list A) : pages l ≠ [].
Proof. by destruct l. Qed.

Lemma concat_pages {A} (l : list A) : concat (pages l) = l.
Proof. destruct l as [|x l]; [done|]. simpl. f_equal. induction l; simpl; congruence. Qed.

Lemma length_url n : len (url n) = Z.of_nat n.
Proof.
  induction n as [|n IH]; [done|].
  change (len (url (S n))) with (Z.of_nat (S (String.length (url n)))). unfold len in IH. lia.
Qed.

Lemma paged_serves {R A} (l : list (list A)) (r : R) :
  serves (λ page r, (paged l page, r)) l r.
Proof.
  intros i objs Hi. unfold paged. replace (Z.to_nat (Z.of_nat i + 1 - 1)) with i by lia.
  rewrite Hi. do 2 eexists. split; [done|]. unfold page_links.
  destruct (decide (S i = length l)) as [E|E].
  - by intros k [= <-].
  - do 2 eexists. split; [done|]. split; [done|]. destruct (decide (i = O)) as [->|]; [done|].
    split; [by destruct i|]. unfold pageForURL; simpl. by rewrite length_url.
Qed.

Lemma lb_map_lookup r id : lb_map r !! id = with_ID id <$> r.(lbs) !! id.
Proof. unfold lb_map. rewrite map_lookup_imap. by destruct (lbs r !! id). Qed.

Lemma lb_map_insert r id lb :
  lb_map (set_lbs (<[id := lb]> r.(lbs)) r) = <[id := with_ID id lb]> (lb_map r).
Proof.
  apply map_eq. intros k. rewrite lb_map_lookup. simpl. destruct (decide (k = id)) as [->|].
  - by rewrite !lookup_insert_eq.
  - by rewrite !lookup_insert_ne, lb_map_lookup.
Qed.

Lemma lb_map_delete r id : lb_map (set_lbs (delete id r.(lbs)) r) = delete id (lb_map r).
Proof.
  apply map_eq. intros k. rewrite lb_map_lookup. simpl. destruct (decide (k = id)) as [->|].
  - by rewrite !lookup_delete_eq.
  - by rewrite !lookup_delete_ne, lb_map_lookup.
Qed.

Lemma lb_list_elem r lb : lb ∈ lb_list r ↔ lb_map r !! lb.(LoadBalancer.ID) = Some lb.
Proof.
  unfold lb_list. rewrite list_elem_of_fmap. split.
  - intros ([id lb'] & -> & Hin). apply elem_of_map_to_list in Hin. simpl.
    pose proof Hin as Hid. rewrite lb_map_lookup in Hid. destruct (lbs r !! id); simplify_eq/=. done.
  - intros Hlb. exists (LoadBalancer.ID lb, lb). split; [done|]. by apply elem_of_map_to_list.
Qed.

Lemma Memory_served r : r.(outages) = O → serves LoadBalancers_List (pages (lb_list r)) r.
Proof. intros Ho i objs Hi. simpl. rewrite Ho. by apply paged_serves. Qed.

(** Out of service a request for a page fails. *)
Lemma paged_or_outage {A} (l : Memory.t → list (list A)) r :
  serves_or_fails (λ page r, match r.(outages) with
                             | O => (paged (l r) page, r)
                             | S k => (failure 503 [], set_outages k r)
                             end) (l r) r.
Proof.
  intros i objs Hi. destruct (outages r); [|done].
  exact (serves_or_serves _ _ _ (paged_serves (l r) r) i objs Hi).
Qed.

(** The laws, one group of calls at a time. *)
Lemma Memory_update r id req :
  match LoadBalancers_Update id req r with
  | (rp, r') =>
      delete id (lb_map r') = delete id (lb_map r)
      ∧ (rerr rp = None → ∃ lb, rval rp = Some lb ∧ lb.(LoadBalancer.ID) = id
           ∧ lb_map r' = <[id := lb]> (lb_map r) ∧ realizes req lb)
  end.
Proof.
  simpl. destruct (lbs r !! id) as [lb0|]; [|done]. rewrite lb_map_insert, delete_insert_eq.
  split; [done|]. intros _. eexists. by split_and!.
Qed.

Lemma Memory_create r req :
  match LoadBalancers_Create req r with
  | (rp, r') => ∃ lb, rval rp = Some lb ∧ lb_map r !! lb.(LoadBalancer.ID) = None
      ∧ lb_map r' = <[lb.(LoadBalancer.ID) := lb]> (lb_map r) ∧ realizes req lb
  end.
Proof.
  simpl. eexists. split; [done|]. rewrite lb_map_insert. simpl. split; [|by split_and!].
  rewrite lb_map_lookup. assert (Hf : fresh (dom (lbs r)) ∉ dom (lbs r)) by apply is_fresh.
  apply not_elem_of_dom in Hf. by rewrite Hf.
Qed.

Lemma Memory_delete r id :
  match LoadBalancers_Delete id r with
  | (rp, r') => delete id (lb_map r') = delete id (lb_map r) ∧ lb_map r' !! id = None
  end.
Proof.
  simpl. destruct (lbs r !! id) eqn:E.
  - rewrite lb_map_delete. split; [by rewrite delete_delete_eq|apply lookup_delete_eq].
  - split; [done|]. by rewrite lb_map_lookup, E.
Qed.

#[export] Instance Memory_laws : ApiLaws Memory.t.
Proof.
  refine {| view := Memory_view |}; try done; simpl.
  - intros r id lb. rewrite lb_map_lookup. destruct (lbs r !! id); naive_solver.
  - intros page r. by destruct (outages r).
  - intros page r. by destruct (outages r).
  - intros id r. destruct (lb_map r !! id); simpl; naive_solver.
  - intros id r. by destruct (lb_map r !! id).
  - intros r. apply (paged_or_outage (λ r, pages (lb_list r))).
  - intros page r e. destruct (outages r); [|by intros [= <-]].
    unfold paged. destruct (pages _ !! _); [done|]. by intros [= <-].
  - intros r. apply pages_nonempty.
  - intros r lb. rewrite concat_pages. apply lb_list_elem.
  - intros r. apply (paged_or_outage (λ r, pages r.(droplets))).
  - intros r. apply pages_nonempty.
  - intros id r. destruct (certs r !! id); simpl; naive_solver.
  - intros id r msg. by destruct (certs r !! id).
  - intros req r. destruct (Memory_create r req) as (lb & _ & Hnew & Hins & _). simpl in Hins.
    exists (LoadBalancer.ID lb). by rewrite Hins, delete_insert_id.
  - intros req r _. destruct (Memory_create r req) as (lb & Hval & Hnew & Hins & Hreal).
    by exists lb.
  - intros id req r. pose proof (Memory_update r id req) as Hu. simpl in Hu.
    destruct (lbs r !! id); apply Hu.
  - intros id req r Hn. pose proof (Memory_update r id req) as Hu. simpl in Hu.
    destruct (lbs r !! id); by apply Hu.
  - intros id r. pose proof (Memory_delete r id) as Hd. simpl in Hd.
    destruct (lbs r !! id); apply Hd.
  - intros id r _. pose proof (Memory_delete r id) as Hd. simpl in Hd.
    destruct (lbs r !! id); apply Hd.
  - intros id r _. pose proof (Memory_delete r id) as Hd. simpl in Hd.
    destruct (lbs r !! id); apply Hd.
Defined.

#[export] Instance Memory_atomic : AtomicWrites Memory.t.
Proof.
  constructor.
  - intros req r. right. destruct (Memory_create r req) as (lb & _ & Hn & Hl & Hr & _). by exists lb.
  - intros id req r. pose proof (Memory_update r id req) as Hu. simpl in *.
    destruct (lbs r !! id) as [lb0|] eqn:E; [|by left]. right. destruct Hu as [_ Hu].
    destruct (Hu eq_refl) as (lb & _ & <- & Hl & Hr & _). exists lb. split_and!; [done| |done].
    rewrite lb_map_lookup, E. by eexists.
  - intros id r. simpl. destruct (lbs r !! id); [|by left]. right. apply lb_map_delete.
Defined.
