(* ===== verification/LBSpec.v ===== *)
(** * What the load-balancer methods achieve

    Against an API that keeps its documented promises ([ApiLaws]), each method
    of [loadbalancers.go] implements a contract on the set of load balancers:
    which one is the Service's, what it looks like afterwards, and that no
    other is touched, whatever fails on the way. *)

From S2P Require Import Prelude GoStd Types Annotations Nodes Api Rules Requests LoadBalancers LBFacts ApiLaws.
From stdpp Require Import base gmap strings list.
From Stdlib Require Import ZArith Lia.
#[local] Open Scope Z_scope.

(** The load balancer [id] is the Service's: the one its annotation names, or,
    without annotation, one with the Service's custom or legacy name. *)
Definition owned (s : Service.t) (lbs : gmap string LoadBalancer.t) (id : string) : Prop :=
  if str_eqb (getLoadBalancerID s) ""
  then ∃ lb, lbs !! id = Some lb ∧ lb.(LoadBalancer.Name) ∈ candidates s
  else id = getLoadBalancerID s.

Lemma len_pos_eqb s : (0 <? len s) = negb (str_eqb s "").
Proof. destruct s; [done|]. by unfold len; simpl. Qed.

(** ** Inversion of runs over the larger state *)

Section Inversion.
Context {R : Type}.

Lemma on_net_inv {A} (m : M (net R) A) s r s' :
  on_net m s = (r, s') → m (lb_net s) = (r, lb_net s') ∧ lb_svc s' = lb_svc s.
Proof. unfold on_net, zoom. destruct (m (lb_net s)). by intros [= <- <-]. Qed.

Lemma service_inv (s : lbst R) r s' : service s = (r, s') → r = Ok (lb_svc s) ∧ s' = s.
Proof. by intros [= <- <-]. Qed.

Lemma annotate_inv k v (s : lbst R) r s' :
  annotate k v s = (r, s') →
  r = Ok () ∧ s' = LBState (lb_net s) (updateServiceAnnotation (lb_svc s) k v).
Proof. by intros [= <- <-]. Qed.

Lemma call_inv {A} ev (f : R → A * R) n r n' :
  call ev f n = (r, n') → ∃ a, r = Ok a ∧ f (remote n) = (a, remote n') ∧ trace n' = trace n ++ [ev].
Proof. unfold call. destruct (f (remote n)) as [a r']. intros [= <- <-]. eauto. Qed.

Lemma deref_Ok_inv {S A} (p : option A) (s s' : S) a : deref p s = (Ok a, s') → p = Some a ∧ s' = s.
Proof. destruct p; [by intros [= -> ->]|done]. Qed.

Lemma attempt_inr_inv {S A} (m : M S A) s e s' : attempt m s = (Ok (inr e), s') → m s = (Err e, s').
Proof. unfold attempt. destruct (m s) as [[]]; naive_solver. Qed.
End Inversion.

(** [inv_ok] with the steps of [lbst]. *)
Ltac inv_lb :=
  repeat (inv_ok; simpl in *;
    match goal with
    | H : service _ = (Ok _, _) |- _ => apply service_inv in H as [[= ->] ->]
    | H : on_net _ _ = (Ok _, _) |- _ =>
        let E := fresh "Hsvc" in apply on_net_inv in H as [H E]
    | H : deref _ _ = (Ok _, _) |- _ => apply deref_Ok_inv in H as [H ->]
    | H : annotate _ _ _ = (Ok _, _) |- _ => apply annotate_inv in H as [_ ->]
    | H : attempt _ _ = (Ok (inl _), _) |- _ => apply attempt_inl_inv in H
    | H : attempt _ _ = (Ok (inr _), _) |- _ => apply attempt_inr_inv in H
    end); inv_ok.

Section Spec.
Context {R : Type}.
Context `{!GodoPaging, !GodoLoadBalancers R, !GodoCertificates R, !GodoDroplets R, !Kube R, !IPNets}.
Context `{!ApiLaws R}.
Variable fuel : nat.

Abbreviation lbs n := (v_lbs (net_view n)).
Definition enough_fuel (n : net R) : Prop := (length (v_lb_pages (net_view n)) ≤ fuel)%nat.

(** ** Look-up *)

Lemma findLoadBalancerByID_spec id n r n' :
  findLoadBalancerByID id n = (r, n') →
  match r with
  | Ok p => p = lbs n !! id ∧ is_Some (lbs n !! id)
  | Err e => e = ErrSentinel errLBNotFound ∧ lbs n !! id = None ∨ errors_Is e errLBNotFound = false
  | _ => False
  end.
Proof.
  unfold findLoadBalancerByID, mbind, M_bind, call.
  pose proof (get_ok id (remote n)) as Hok. pose proof (get_404 id (remote n)) as H404.
  destruct (LoadBalancers_Get id (remote n)) as [rp r']. simpl in *.
  destruct (rerr rp); [destruct (is_404 rp)|]; intros [= <- _]; auto.
Qed.

Lemma findLoadBalancerByName_Some s l lb :
  findLoadBalancerByName s l = Some lb → lb ∈ l ∧ lb.(LoadBalancer.Name) ∈ candidates s.
Proof.
  unfold findLoadBalancerByName. destruct (list_find _ l) as [[i x]|] eqn:E; [|done].
  intros [= <-]. apply list_find_Some in E as (Hi & Hx & _). split; [|done].
  by eapply list_elem_of_lookup_2.
Qed.

Lemma findLoadBalancerByName_None s l lb :
  findLoadBalancerByName s l = None → lb ∈ l → lb.(LoadBalancer.Name) ∉ candidates s.
Proof.
  unfold findLoadBalancerByName. destruct (list_find _ l) as [[i x]|] eqn:E; [done|].
  intros _ Hin. apply list_find_None in E. rewrite Forall_forall in E. by apply E.
Qed.

Lemma retrieve_spec s n r n' :
  enough_fuel n → retrieveLoadBalancer fuel s n = (r, n') →
  match r with
  | Ok p => ∃ lb, p = Some lb ∧ lbs n !! lb.(LoadBalancer.ID) = Some lb
                  ∧ owned s (lbs n) lb.(LoadBalancer.ID)
  | Err e => (e = ErrSentinel errLBNotFound ∧ ∀ id, owned s (lbs n) id → lbs n !! id = None)
             ∨ errors_Is e errLBNotFound = false
  | _ => False
  end.
Proof.
  intros Hfuel. unfold retrieveLoadBalancer, owned. rewrite len_pos_eqb.
  destruct (str_eqb (getLoadBalancerID s) "") eqn:E; simpl; reflect_eqb.
  - unfold mbind, M_bind. destruct (allLoadBalancerList fuel n) as [rl n1] eqn:El.
    apply lb_listing in El; [|exact Hfuel]. destruct rl as [l| | |]; [|intros [= <- _]; by right|done..].
    destruct (findLoadBalancerByName s l) as [lb|] eqn:Ef; intros [= <- _]; rewrite El in Ef.
    + apply findLoadBalancerByName_Some in Ef as [Hin Hc]. apply lb_pages_all in Hin. eauto 6.
    + left. split; [done|]. intros id (lb & Hlb & Hc). exfalso.
      eapply findLoadBalancerByName_None; [done| |done].
      apply lb_pages_all. by rewrite (lbs_keyed _ _ _ Hlb).
  - intros Hf. apply findLoadBalancerByID_spec in Hf. destruct r; [|naive_solver..].
    destruct Hf as [-> [lb Hlb]]. exists lb. rewrite Hlb. pose proof (lbs_keyed _ _ _ Hlb) as ->. done.
Qed.

(** ** The larger state *)

Definition lview (st : lbst R) : remote_view := net_view (lb_net st).

Lemma same_on_net {A} (m : M (net R) A) : within (same net_view) m → within (same lview) (on_net m).
Proof. intros Hm st. specialize (Hm (lb_net st)). unfold on_net, zoom. by destruct (m (lb_net st)). Qed.

Lemma same_svc_on_net {A} (m : M (net R) A) : within (same lb_svc) (on_net m).
Proof. intros st. unfold on_net, zoom. by destruct (m (lb_net st)). Qed.

Lemma same_lview_service : within (same lview) service.
Proof. done. Qed.
Lemma same_svc_service : within (same (lb_svc (R := R))) service.
Proof. done. Qed.
Lemma same_lview_annotate k v : within (same lview) (annotate k v).
Proof. done. Qed.
Hint Resolve same_on_net same_svc_on_net same_lview_service same_lview_annotate same_svc_service : go.

Lemma same_lview_retrieveAndAnnotate : within (same lview) (retrieveAndAnnotateLoadBalancer fuel).
Proof. unfold retrieveAndAnnotateLoadBalancer. solve_within. Qed.

Lemma same_lview_recordCert a b : within (same lview) (recordUpdatedLetsEncryptCert (R := R) a b).
Proof.
  assert (∀ e, within (same lview) (error_is_404 (R := R) e)).
  { intros e. unfold error_is_404. solve_within. }
  unfold recordUpdatedLetsEncryptCert. solve_within.
Qed.

Lemma same_lview_finish unicode_ToLower lb p1 p2 : within (same lview) (finishEnsure unicode_ToLower lb p1 p2).
Proof. unfold finishEnsure. solve_within. Qed.
Hint Resolve same_lview_retrieveAndAnnotate same_lview_recordCert same_lview_finish : go.

Lemma within_patch_result {A} (Rl : relation (lbst R)) `{!PreOrder Rl} base (r : result A) :
  (∀ err, within Rl (Patch base err)) → within Rl (patch_result base r).
Proof.
  intros HP st. unfold patch_result. pose proof (HP (match r with Err e => Some e | _ => None end) st) as HPs.
  destruct r; try reflexivity; destruct (Patch _ _ st) as [[[]| | |] st']; done.
Qed.

Lemma within_with_patcher {A} (Rl : relation (lbst R)) `{!PreOrder Rl} (m : M (lbst R) A) :
  (∀ base err, within Rl (Patch base err)) → within Rl m → within Rl (with_patcher m).
Proof.
  intros HP Hm st. specialize (Hm st). unfold with_patcher. destruct (m st) as [r st1]. simpl in Hm.
  etrans; [done|]. by apply within_patch_result.
Qed.

Lemma same_lview_Patch base err : within (same lview) (Patch base err).
Proof. unfold Patch. solve_within. Qed.
Lemma same_svc_Patch base err : within (same lb_svc) (Patch (R := R) base err).
Proof. unfold Patch. solve_within. Qed.

(** A successful method ran its body successfully; the deferred patch changed
    neither the Service nor what the API holds. *)
Lemma with_patcher_Ok {A} (m : M (lbst R) A) st a st' :
  with_patcher m st = (Ok a, st') →
  ∃ st1, m st = (Ok a, st1) ∧ lview st' = lview st1 ∧ lb_svc st' = lb_svc st1.
Proof.
  unfold with_patcher. destruct (m st) as [r st1]. intros Hp.
  assert (r = Ok a) as ->.
  { destruct (spec_patch_result [] (λ _, True) ltac:(done) (lb_svc st) r st1) as (_&_&_&_&_&HQ).
    rewrite Hp in HQ. by apply HQ. }
  exists st1. split; [done|].
  pose proof (within_patch_result (same lview) (lb_svc st) (Ok a) (same_lview_Patch _) st1) as H1.
  pose proof (within_patch_result (same lb_svc) (lb_svc st) (Ok a) (same_svc_Patch _) st1) as H2.
  unfold same in *. by rewrite Hp in H1, H2.
Qed.

(** ** Frames on the Service *)

Lemma getNetwork_frame s s' : svc_frame managed_annotations s s' → getNetwork s' = getNetwork s.
Proof. intros [_ Hg]. unfold getNetwork, ann_val. by rewrite Hg by (vm_compute; set_solver). Qed.

Lemma getHostname_frame unicode_ToLower s s' :
  svc_frame managed_annotations s s' → getHostname unicode_ToLower s' = getHostname unicode_ToLower s.
Proof. intros [_ Hg]. unfold getHostname, ann_val. by rewrite Hg by (vm_compute; set_solver). Qed.

(** ** A load balancer backed by every acceptable node *)

Definition fully_backed (nodes : list Node.t) (net : string) (lb : LoadBalancer.t) : Prop :=
  lb.(LoadBalancer.DropletIDs) ≠ []
  ∧ ∀ d, d ∈ lb.(LoadBalancer.DropletIDs) ↔
      ∃ n, n ∈ (filterAndClassifyNodes nodes lb.(LoadBalancer.Type_) net).(nodeState.lbReadyNodes)
           ∧ dropletIDFromProviderID n.(Node.ProviderID) = Ok d.

Lemma build_fully_backed l s nodes ids (n n' : net R) req lb :
  buildLoadBalancerRequest fuel l s nodes ids n = (Ok (req, []), n') →
  Forall (λ n, n.(Node.ProviderID) ≠ "") nodes → realizes req lb →
  ∃ net, getNetwork s = Ok net ∧ fully_backed nodes net lb.
Proof.
  intros Hb Hp (_ & Hty & _ & Hd).
  destruct (request_droplets _ _ _ _ _ _ _ _ _ Hb Hp) as [HF Hne].
  destruct (backends_all_accepted _ _ _ _ _ _ _ _ Hb) as (net & Hnet & Hall).
  exists net. split; [done|]. rewrite Hall in HF. unfold fully_backed. rewrite Hty. split.
  - intros Hnil. apply Hne. rewrite Hnil in Hd. by apply Permutation_nil.
  - intros d. rewrite Hd. split.
    + intros [i Hi]%list_elem_of_lookup.
      destruct (Forall2_lookup_r _ _ _ _ _ HF Hi) as (nd & Hnd & Hid).
      exists nd. split; [|done]. by eapply list_elem_of_lookup_2.
    + intros (nd & [i Hi]%list_elem_of_lookup & Hid).
      destruct (Forall2_lookup_l _ _ _ _ _ HF Hi) as (d' & Hd' & Hid').
      assert (d' = d) as -> by congruence. by eapply list_elem_of_lookup_2.
Qed.

(** ** The write *)

Abbreviation slbs st := (v_lbs (lview st)).

Lemma svc_frame_spec {A} (m : M (lbst R) A) K n P Q st r st' :
  spec K n P Q m → m st = (r, st') → svc_frame K (lb_svc st) (lb_svc st').
Proof. intros Hm E. destruct (Hm st) as (_&_&_&_&Hf&_). by rewrite E in Hf. Qed.

Lemma updateLoadBalancer_Ok l lb nodes st p pend st' :
  updateLoadBalancer fuel l lb nodes st = (Ok (p, pend), st') →
  Forall (λ n, n.(Node.ProviderID) ≠ "") nodes →
  ∃ lb', p = Some lb' ∧ slbs st' = <[lb.(LoadBalancer.ID) := lb']> (slbs st)
    ∧ (pend = [] → ∃ net, getNetwork (lb_svc st) = Ok net ∧ fully_backed nodes net lb').
Proof.
  intros Hu Hp. unfold updateLoadBalancer in Hu. inv_lb.
  destruct a4 as [req pend']. inv_lb. destruct (rerr _) eqn:Hrerr; inv_lb. simplify_eq.
  assert (Hv : lview s4 = lview st).
  { apply (within_run _ _ _ _ _ (same_view_build _ _ _ _ _)) in Hm0, Hm4.
    apply (within_run _ _ _ _ _ (same_view_findCertificateID _)) in Hm1.
    apply (within_run _ _ _ _ _ (same_lview_recordCert _ _)) in Hm2.
    unfold same, lview in *. congruence. }
  match goal with H : call _ _ _ = _ |- _ => apply call_inv in H as (rp & [= <-] & Hupd & _) end.
  pose proof (update_ok (LoadBalancer.ID lb) req (remote (lb_net s4))) as Hok.
  rewrite Hupd in Hok. destruct (Hok Hrerr) as (lb' & Hval & Hid & Hlbs & Hreal).
  exists lb'. split_and!; [done| |].
  - unfold lview, net_view in *. simpl in Hlbs. by rewrite Hlbs, Hv.
  - intros ->. destruct (build_fully_backed _ _ _ _ _ _ _ _ Hm4 Hp Hreal) as (net & Hnet & Hfb).
    exists net. split; [|done]. rewrite <- Hnet, <- Hsvc1, <- Hsvc0. symmetry. apply getNetwork_frame.
    eapply svc_frame_spec; [|exact Hm2]. apply (spec_recordCert _ _ admits_update), managed_Cert.
Qed.

(** What [finishEnsure] accepts: an active load balancer and no node held back. *)
Definition status_of (unicode_ToLower : string → string) (s : Service.t) (lb : LoadBalancer.t) : list Ingress.t :=
  let hostname := getHostname unicode_ToLower s in
  if negb (str_eqb hostname "") then [Ingress.mk "" hostname] else ingress_of lb.

Lemma retryIfNodesPendingInit_Ok s p1 p2 : retryIfNodesPendingInit s p1 p2 = Ok () ↔ p1 = [] ∧ p2 = [].
Proof.
  unfold retryIfNodesPendingInit. case_bool_decide as E.
  - by apply app_nil in E.
  - split; [done|]. intros [-> ->]. done.
Qed.

Lemma finishEnsure_Ok unicode_ToLower lb p1 p2 (st : lbst R) status st' :
  finishEnsure unicode_ToLower lb p1 p2 st = (Ok status, st') →
  st' = st ∧ lb.(LoadBalancer.Status) = lbStatusActive ∧ p1 = [] ∧ p2 = []
  ∧ status = status_of unicode_ToLower (lb_svc st) lb.
Proof.
  unfold finishEnsure, status_of. destruct (str_eqb _ lbStatusNew); [done|].
  destruct (str_eqb _ lbStatusActive) eqn:E; [|done]. simpl. reflect_eqb. intros Hf. inv_lb.
  destruct a0. apply retryIfNodesPendingInit_Ok in Hm0 as [-> ->].
  case_match; by inv_lb.
Qed.

Lemma retrieveAndAnnotate_Ok st lb st' :
  enough_fuel (lb_net st) → retrieveAndAnnotateLoadBalancer fuel st = (Ok lb, st') →
  lview st' = lview st ∧ slbs st !! lb.(LoadBalancer.ID) = Some lb
  ∧ owned (lb_svc st) (slbs st) lb.(LoadBalancer.ID)
  ∧ svc_frame managed_annotations (lb_svc st) (lb_svc st')
  ∧ svc_get (lb_svc st') annDOLoadBalancerID = Some lb.(LoadBalancer.ID).
Proof.
  intros Hfuel Hr. pose proof (within_run _ _ _ _ _ same_lview_retrieveAndAnnotate Hr) as Hv.
  pose proof (svc_frame_spec _ _ _ _ _ _ _ _ (spec_retrieveAndAnnotate fuel _ _ admits_update
    managed_ID managed_Type) Hr) as Hf.
  unfold retrieveAndAnnotateLoadBalancer in Hr. inv_lb. subst.
  apply (retrieve_spec _ _ _ _ Hfuel) in Hm0 as (lb' & [= <-] & Hlb & Hown).
  do 4 (split; [done|]). etrans; [by apply ann_get_update_ne|apply ann_get_update_eq].
Qed.

Lemma retrieveAndAnnotate_Err st e st' :
  enough_fuel (lb_net st) → retrieveAndAnnotateLoadBalancer fuel st = (Err e, st') →
  lview st' = lview st ∧ lb_svc st' = lb_svc st
  ∧ ((e = ErrSentinel errLBNotFound ∧ ∀ id, owned (lb_svc st) (slbs st) id → slbs st !! id = None)
     ∨ errors_Is e errLBNotFound = false).
Proof.
  intros Hfuel Hr. pose proof (within_run _ _ _ _ _ same_lview_retrieveAndAnnotate Hr) as Hv.
  split; [done|]. unfold retrieveAndAnnotateLoadBalancer, service, mbind, M_bind in Hr.
  destruct (on_net _ st) as [r st1] eqn:E. apply on_net_inv in E as [E Hs].
  apply (retrieve_spec _ _ _ _ Hfuel) in E.
  destruct r as [p|e'| |]; simpl in Hr; [by destruct p| |done..]. by simplify_eq.
Qed.

(** The state after a method that worked on load balancer [id]. *)
Definition established (nodes : list Node.t) (st st' : lbst R) (id : string) (lb : LoadBalancer.t) : Prop :=
  svc_get (lb_svc st') annDOLoadBalancerID = Some id
  ∧ slbs st' !! id = Some lb ∧ delete id (slbs st') = delete id (slbs st)
  ∧ ∃ net, getNetwork (lb_svc st) = Ok net ∧ fully_backed nodes net lb.

Lemma ensureExisting_Ok unicode_ToLower l nodes pending lb st status st' :
  ensureExisting unicode_ToLower fuel l nodes pending lb st = (Ok status, st') →
  Forall (λ n, n.(Node.ProviderID) ≠ "") nodes →
  svc_get (lb_svc st) annDOLoadBalancerID = Some lb.(LoadBalancer.ID) →
  ∃ lb', established nodes st st' lb.(LoadBalancer.ID) lb' ∧ lb'.(LoadBalancer.Status) = lbStatusActive
    ∧ status = status_of unicode_ToLower (lb_svc st') lb'.
Proof.
  intros He Hp Hid. unfold ensureExisting in He. inv_lb. destruct a1 as [p pend]. inv_lb.
  match goal with H : finishEnsure _ _ _ _ _ = _ |- _ =>
    apply finishEnsure_Ok in H as (-> & Hact & -> & -> & ->) end.
  pose proof (svc_frame_spec _ _ _ _ _ _ _ _ (spec_updateLoadBalancer fuel [annDOCertificateID] _
     admits_update l lb nodes ltac:(set_solver) ltac:(done)) Hm1) as [_ Hf].
  apply updateLoadBalancer_Ok in Hm1 as (lb' & -> & Hlbs & Hfb); [|done].
  match goal with H : Some lb' = Some _ |- _ => injection H as <- end.
  apply (within_run _ _ _ _ _ (same_view_build _ _ _ _ _)) in Hm0.
  assert (Hv : slbs s0 = slbs st) by (unfold same, lview in *; congruence).
  exists lb'. split_and!; [|done|done]. rewrite Hv in Hlbs. rewrite Hsvc in *. split_and!.
  - rewrite Hf by (vm_compute; set_solver). done.
  - rewrite Hlbs. apply lookup_insert_eq.
  - rewrite Hlbs. apply delete_insert_eq.
  - auto.
Qed.

Lemma createLoadBalancer_Ok req st lb st' :
  createLoadBalancer req st = (Ok lb, st') →
  slbs st' = <[lb.(LoadBalancer.ID) := lb]> (slbs st) ∧ slbs st !! lb.(LoadBalancer.ID) = None
  ∧ realizes req lb ∧ svc_get (lb_svc st') annDOLoadBalancerID = Some lb.(LoadBalancer.ID).
Proof.
  intros Hc. unfold createLoadBalancer in Hc. inv_lb.
  destruct (rerr _) eqn:Hrerr; inv_lb. subst.
  match goal with H : call _ _ _ = _ |- _ => apply call_inv in H as (rp & [= <-] & Hcreate & _) end.
  match type of Hcreate with LoadBalancers_Create ?q _ = _ => pose proof (create_ok q (remote (lb_net st))) as Hok end.
  rewrite Hcreate in Hok. destruct (Hok Hrerr) as (lb' & Hval & Hlbs & Hnew & Hreal).
  assert (lb' = lb) as -> by (simpl in Hval; congruence).
  split; [done|]. split; [done|]. split.
  - destruct Hreal as (H1 & H2 & H3 & H4). unfold realizes. by case_match.
  - etrans; [by apply ann_get_update_ne|apply ann_get_update_eq].
Qed.

Lemma ensureMissing_Ok unicode_ToLower l nodes pending e st status st' :
  ensureMissing unicode_ToLower fuel l nodes pending e st = (Ok status, st') →
  Forall (λ n, n.(Node.ProviderID) ≠ "") nodes →
  ∃ id lb, established nodes st st' id lb ∧ lb.(LoadBalancer.Status) = lbStatusActive
    ∧ status = status_of unicode_ToLower (lb_svc st') lb ∧ slbs st !! id = None.
Proof.
  intros He Hp. unfold ensureMissing in He. inv_lb. destruct a0 as [req pend].
  destruct e as [[]| | | | | | |]; inv_lb.
  match goal with H : finishEnsure _ _ _ _ _ = _ |- _ =>
    apply finishEnsure_Ok in H as (-> & Hact & -> & -> & ->) end.
  match goal with H : createLoadBalancer _ _ = (Ok ?x, _) |- _ =>
    rename x into lb; apply createLoadBalancer_Ok in H as (Hlbs & Hnew & Hreal & Hid) end.
  destruct (build_fully_backed _ _ _ _ _ _ _ _ Hm0 Hp Hreal) as (net & Hnet & Hfb).
  apply (within_run _ _ _ _ _ (same_view_build _ _ _ _ _)) in Hm0.
  assert (Hv : slbs s0 = slbs st) by (unfold same, lview in *; congruence). rewrite Hv in *.
  exists (LoadBalancer.ID lb), lb. unfold established.
  rewrite Hlbs, lookup_insert_eq, delete_insert_eq. split_and!; eauto.
Qed.

(** The body of a method runs on a Service whose managed annotations may have
    changed since the call. *)
Lemma established_from nodes st0 st st' id lb :
  established nodes st st' id lb → slbs st = slbs st0 →
  svc_frame managed_annotations (lb_svc st0) (lb_svc st) → established nodes st0 st' id lb.
Proof.
  intros (H1 & H2 & H3 & net & Hnet & Hfb) Hv Hf. rewrite Hv in *. split_and!; try done.
  exists net. split; [|done]. by rewrite <- (getNetwork_frame _ _ Hf).
Qed.

(** ** Certificates *)

(** The load balancer's certificate is a renewal of the Service's. *)
Definition renewed (certs : gmap string Certificate.t) (lbCertID serviceCertID : string) : bool :=
  negb (str_eqb lbCertID "") && negb (str_eqb serviceCertID "") && negb (str_eqb lbCertID serviceCertID)
  && match certs !! lbCertID with
     | Some lbCert =>
         str_eqb lbCert.(Certificate.Type_) certTypeLetsEncrypt
         && match certs !! serviceCertID with
            | Some annCert => str_eqb lbCert.(Certificate.Name) annCert.(Certificate.Name)
            | None => true
            end
     | None => false
     end.

Lemma error_is_404_run e (st : lbst R) :
  (error_is_404 e st = (Panic, st))
  ∨ (∃ msg, e = ErrorResponse (Some StatusNotFound) msg ∧ error_is_404 e st = (Ok true, st))
  ∨ error_is_404 e st = (Ok false, st).
Proof.
  destruct e as [| | | | |[code|]| |]; simpl; eauto. unfold error_is_404.
  destruct (code =? StatusNotFound) eqn:Ec; [|by eauto].
  right; left. apply Z.eqb_eq in Ec as ->. eauto.
Qed.

(** A certificate read: the certificate, or a missing one, or a failure. *)
Lemma cert_get_run id (st : lbst R) :
  ∃ rp st', on_net (call (EvCertGet id) (Certificates_Get id)) st = (Ok rp, st')
    ∧ lview st' = lview st ∧ lb_svc st' = lb_svc st
    ∧ (rerr rp = None → ∃ c, rval rp = Some c ∧ v_certs (lview st) !! id = Some c)
    ∧ (∀ msg, rerr rp = Some (ErrorResponse (Some StatusNotFound) msg) → v_certs (lview st) !! id = None).
Proof.
  unfold on_net, zoom, call, lview, net_view.
  pose proof (cert_get_keeps id (remote (lb_net st))). pose proof (cert_get_ok id (remote (lb_net st))) as Hok.
  pose proof (λ msg, cert_get_404 id (remote (lb_net st)) msg).
  destruct (Certificates_Get id (remote (lb_net st))) as [rp r']. simpl in *.
  do 2 eexists. split; [done|]. split_and!; [done|done| |done].
  intros Hn. destruct (Hok Hn) as [-> [c Hc]]. rewrite Hc. eauto.
Qed.

Lemma recordCert_svc lbCertID serviceCertID st r st' :
  recordUpdatedLetsEncryptCert lbCertID serviceCertID st = (r, st') →
  lb_svc st' = if is_ok r && renewed (v_certs (lview st)) lbCertID serviceCertID
    then updateServiceAnnotation (lb_svc st) annDOCertificateID lbCertID else lb_svc st.
Proof.
  unfold recordUpdatedLetsEncryptCert, renewed.
  destruct (negb _ && negb _ && negb _); simpl; [|by intros [= <- <-]; rewrite andb_false_r].
  destruct (cert_get_run lbCertID st) as (rp & st1 & E1 & Hv1 & Hs1 & Hok1 & Hno1).
  unfold mbind, M_bind. rewrite E1. destruct (rerr rp) as [e|].
  { destruct (error_is_404_run e st1) as [->|[(msg & -> & ->)| ->]]; intros [= <- <-]; simpl; try done.
    by rewrite (Hno1 msg eq_refl). }
  destruct (Hok1 eq_refl) as (lbCert & -> & ->). simpl.
  destruct (str_eqb (Certificate.Type_ lbCert) certTypeLetsEncrypt); simpl;
    [|by intros [= <- <-]; rewrite andb_false_r].
  destruct (cert_get_run serviceCertID st1) as (rp2 & st2 & E2 & Hv2 & Hs2 & Hok2 & Hno2).
  rewrite Hv1 in *. unfold deref, mret, M_ret. rewrite E2. destruct (rerr rp2) as [e|].
  { destruct (error_is_404_run e st2) as [->|[(msg & -> & ->)| ->]]; intros [= <- <-]; simpl;
      try congruence. rewrite (Hno2 msg eq_refl). simpl. congruence. }
  destruct (Hok2 eq_refl) as (annCert & -> & ->). simpl.
  destruct (str_eqb _ _); intros [= <- <-]; simpl; congruence.
Qed.

(** ** What is kept whatever happens *)

(** The load balancer [id], if it is [lb], stays so. *)
Definition keeps_lb (id : string) (lb : LoadBalancer.t) : relation (lbst R) :=
  λ st st', slbs st !! id = Some lb → slbs st' !! id = Some lb.

#[export] Instance keeps_lb_preorder id lb : PreOrder (keeps_lb id lb).
Proof. split; unfold keeps_lb; [intros st Hid; exact Hid|]. intros s1 s2 s3. auto. Qed.

Lemma same_keeps_lb {A} id lb (m : M (lbst R) A) : within (same lview) m → within (keeps_lb id lb) m.
Proof. apply within_mono. unfold same, keeps_lb. by intros st st' ->. Qed.

Lemma keeps_lb_call {A} id lb ev (f : R → A * R) :
  (∀ r, v_lbs (view r) !! id = Some lb → v_lbs (view (f r).2) !! id = Some lb) →
  within (keeps_lb id lb) (on_net (call ev f)).
Proof.
  intros Hf st. unfold on_net, zoom, call, keeps_lb, lview, net_view.
  specialize (Hf (remote (lb_net st))). by destruct (f _).
Qed.

Lemma keeps_lb_frame id id' lb (m1 m2 : gmap string LoadBalancer.t) :
  id ≠ id' → delete id' m2 = delete id' m1 → m1 !! id = Some lb → m2 !! id = Some lb.
Proof.
  intros Hne Hd Hm. rewrite <- (lookup_delete_ne m2 id' id) by done. rewrite Hd.
  by rewrite lookup_delete_ne.
Qed.

Lemma keeps_lb_updateLoadBalancer id lb l lb0 nodes :
  id ≠ lb0.(LoadBalancer.ID) → within (keeps_lb id lb) (updateLoadBalancer fuel l lb0 nodes).
Proof.
  intros Hne. unfold updateLoadBalancer.
  repeat (apply within_bind; [apply _|apply same_keeps_lb; solve [solve_within]|intros ?]).
  case_match. apply within_bind; [apply _| |intros ?].
  - apply keeps_lb_call. intros r. eapply keeps_lb_frame; [done|apply update_frame].
  - apply same_keeps_lb. solve_within.
Qed.

Lemma keeps_lb_create id lb req : within (keeps_lb id lb) (createLoadBalancer req).
Proof.
  unfold createLoadBalancer.
  apply within_bind; [apply _|apply same_keeps_lb, same_lview_service|intros s].
  apply within_bind; [apply _| |intros rp; apply same_keeps_lb; solve_within].
  apply keeps_lb_call. intros r Hid.
  match goal with |- context [LoadBalancers_Create ?q r] =>
    destruct (create_frame q r) as (id' & Hnew & Hd) end.
  eapply (keeps_lb_frame id id'); [congruence| |exact Hid]. rewrite Hd. by rewrite delete_id.
Qed.

Lemma keeps_lb_ensureExisting lower id lb l nodes pending lb0 :
  id ≠ lb0.(LoadBalancer.ID) → within (keeps_lb id lb) (ensureExisting lower fuel l nodes pending lb0).
Proof.
  intros Hne. unfold ensureExisting.
  repeat (apply within_bind; [apply _|apply same_keeps_lb; solve [solve_within]|intros ?]).
  apply within_bind; [apply _|by apply keeps_lb_updateLoadBalancer|intros [p pend]].
  apply same_keeps_lb. solve_within.
Qed.

Lemma keeps_lb_ensureMissing lower id lb l nodes pending e :
  within (keeps_lb id lb) (ensureMissing lower fuel l nodes pending e).
Proof.
  unfold ensureMissing.
  repeat (apply within_bind; [apply _|apply same_keeps_lb; solve [solve_within]|intros ?]).
  repeat case_match; try by apply same_keeps_lb, within_panic, _.
  apply within_bind; [apply _|apply keeps_lb_create|intros lb'].
  apply same_keeps_lb. solve_within.
Qed.

Lemma keeps_lb_with_patcher {A} id lb (m : M (lbst R) A) st :
  keeps_lb id lb st (m st).2 → keeps_lb id lb st (with_patcher m st).2.
Proof.
  intros Hm. unfold with_patcher. destruct (m st) as [r st1]. simpl in Hm.
  etrans; [exact Hm|]. apply within_patch_result; [apply _|]. intros err.
  apply same_keeps_lb, same_lview_Patch.
Qed.

(** The look-up finds a load balancer other than [id]. *)
Lemma retrieved_not_foreign st lb0 st' id :
  enough_fuel (lb_net st) → ¬ owned (lb_svc st) (slbs st) id →
  retrieveAndAnnotateLoadBalancer fuel st = (Ok lb0, st') → id ≠ lb0.(LoadBalancer.ID).
Proof. intros Hf Hown Hr ->. apply retrieveAndAnnotate_Ok in Hr; naive_solver. Qed.

Lemma keeps_lb_ensure lower l nodes st id lb :
  enough_fuel (lb_net st) → ¬ owned (lb_svc st) (slbs st) id →
  keeps_lb id lb st (EnsureLoadBalancer lower fuel l nodes st).2.
Proof.
  intros Hf Hown. unfold EnsureLoadBalancer, service, pure, mbind, M_bind; simpl.
  destruct (getDisownLB _) as [[]| | |]; try reflexivity. apply keeps_lb_with_patcher.
  unfold mbind, M_bind. destruct (prepareNodesForLBSync _ _ _); try reflexivity.
  unfold attempt. pose proof (same_lview_retrieveAndAnnotate st) as Hv.
  destruct (retrieveAndAnnotateLoadBalancer fuel st) as [[lb0|e| |] st1] eqn:Er; simpl in *;
    try by (unfold keeps_lb; rewrite Hv).
  - etrans; [by unfold keeps_lb; rewrite Hv|]. apply keeps_lb_ensureExisting.
    by eapply retrieved_not_foreign.
  - case_match; [by unfold keeps_lb; simpl; rewrite Hv|].
    etrans; [by unfold keeps_lb; rewrite Hv|]. apply keeps_lb_ensureMissing.
Qed.

Lemma keeps_lb_update l nodes st id lb :
  enough_fuel (lb_net st) → ¬ owned (lb_svc st) (slbs st) id →
  keeps_lb id lb st (UpdateLoadBalancer fuel l nodes st).2.
Proof.
  intros Hf Hown. unfold UpdateLoadBalancer, service, pure, mbind, M_bind; simpl.
  destruct (getDisownLB _) as [[]| | |]; try reflexivity. apply keeps_lb_with_patcher.
  pose proof (same_lview_retrieveAndAnnotate st) as Hv.
  destruct (retrieveAndAnnotateLoadBalancer fuel st) as [[lb0|e| |] st1] eqn:Er; simpl in *;
    try by (unfold keeps_lb; rewrite Hv).
  etrans; [by unfold keeps_lb; rewrite Hv|].
  destruct (prepareNodesForLBSync _ _ _); try reflexivity.
  pose proof (keeps_lb_updateLoadBalancer id lb l lb0 nodes
    ltac:(by eapply retrieved_not_foreign) st1) as Hu.
  destruct (updateLoadBalancer _ _ _ _ st1) as [[[]| | |] st2]; exact Hu.
Qed.

Lemma keeps_lb_deleted st id lb :
  enough_fuel (lb_net st) → ¬ owned (lb_svc st) (slbs st) id →
  keeps_lb id lb st (EnsureLoadBalancerDeleted fuel st).2.
Proof.
  intros Hf Hown. unfold EnsureLoadBalancerDeleted, service, pure, mbind, M_bind, attempt; simpl.
  destruct (getDisownLB _) as [[]| | |]; try reflexivity.
  pose proof (same_on_net _ (same_view_retrieve fuel (lb_svc st)) st) as Hv.
  destruct (on_net _ st) as [r st1] eqn:Er. pose proof Er as [Er' _]%on_net_inv.
  apply (retrieve_spec _ _ _ _ Hf) in Er'. simpl in Hv.
  destruct r as [p|e| |]; [|by repeat case_match; unfold keeps_lb; simpl; rewrite Hv|done..].
  destruct Er' as (lb0 & -> & _ & Ho). simpl.
  etrans; [by unfold keeps_lb; rewrite Hv|].
  assert (id ≠ LoadBalancer.ID lb0) as Hne by naive_solver.
  pose proof (keeps_lb_call id lb (EvLBDelete (LoadBalancer.ID lb0))
    (LoadBalancers_Delete (LoadBalancer.ID lb0))
    ltac:(intros r0; eapply keeps_lb_frame; [exact Hne|apply delete_frame]) st1) as Hd.
  destruct (on_net _ st1) as [[]]; repeat case_match; done.
Qed.
End Spec.

#[export] Hint Resolve same_on_net same_svc_on_net same_lview_service same_lview_annotate
  same_svc_service same_lview_retrieveAndAnnotate same_lview_recordCert same_lview_finish : go.

(* ================================================================== *)
(** * Properties *)

Section Properties.
Context {R : Type}.
Context `{!GodoPaging, !GodoLoadBalancers R, !GodoCertificates R, !GodoDroplets R, !Kube R, !IPNets}.
Context `{!ApiLaws R}.
Variable fuel : nat.
Abbreviation slbs st := (v_lbs (lview st)).

(** C1. A successful EnsureLoadBalancer has established the Service's load
    balancer.  For a Service that is not disowned, nodes that all carry a provider
    ID, and an API that keeps its laws and whose pages the fuel covers: the
    Service is annotated with the identifier of a load balancer
    that exists, is active and whose backends are exactly the droplets of the
    nodes acceptable by IP stack (at least one); it was the Service's before or
    did not exist while the Service had none; every other load balancer is
    untouched; and the status returned is the hostname annotation or that load
    balancer's addresses. *)
Theorem ensure_establishes unicode_ToLower l nodes (st : lbst R) status st' :
  getDisownLB (lb_svc st) = Ok false →
  Forall (λ n, n.(Node.ProviderID) ≠ "") nodes →
  enough_fuel fuel (lb_net st) →
  EnsureLoadBalancer unicode_ToLower fuel l nodes st = (Ok status, st') →
  ∃ id lb, established nodes st st' id lb
    ∧ lb.(LoadBalancer.Status) = lbStatusActive
    ∧ status = status_of unicode_ToLower (lb_svc st') lb
    ∧ (owned (lb_svc st) (slbs st) id ∨
       slbs st !! id = None ∧ ∀ id', owned (lb_svc st) (slbs st) id' → slbs st !! id' = None).
Proof.
  intros Hdis Hp Hfuel He. unfold EnsureLoadBalancer in He. inv_lb.
  rewrite Hdis in Hm0. simplify_eq.
  apply with_patcher_Ok in Hk0 as (st1 & Hb & Hv1 & Hs1). inv_lb.
  assert (Hgoal : ∃ id lb, established nodes st st1 id lb ∧ lb.(LoadBalancer.Status) = lbStatusActive
    ∧ status = status_of unicode_ToLower (lb_svc st1) lb
    ∧ (owned (lb_svc st) (slbs st) id ∨
       slbs st !! id = None ∧ ∀ id', owned (lb_svc st) (slbs st) id' → slbs st !! id' = None)).
  2:{ unfold established in *. by rewrite Hv1, Hs1. }
  destruct a1 as [lb|e]; inv_lb.
  - apply retrieveAndAnnotate_Ok in Hm1 as (Hv & Hlb & Hown & Hf & Hid); [|done].
    apply ensureExisting_Ok in Hk as (lb' & Hest & Hact & Hstat); [|done..].
    exists (LoadBalancer.ID lb), lb'. split_and!; [|done|done|by left].
    eapply established_from; [done| |done]. by rewrite Hv.
  - apply retrieveAndAnnotate_Err in Hm1 as (Hv & Hs & He); [|done].
    destruct (errors_Is e errLBNotFound) eqn:Eis; simpl in Hk; [|done].
    destruct He as [[-> Hno]|?]; [|congruence].
    apply ensureMissing_Ok in Hk as (id & lb & Hest & Hact & Hstat & Hnew); [|done].
    rewrite Hv in Hnew. exists id, lb. split_and!; [|done|done|by right].
    eapply established_from; [done|by rewrite Hv|]. by rewrite Hs.
Qed.

(** C2. Only the Service's own load balancer is ever changed: whichever calls an
    API that keeps its laws lets fail, listings included, and however the methods
    end (with fuel for the pages), a load balancer that is not the
    Service's stays exactly as it was through EnsureLoadBalancer,
    UpdateLoadBalancer and EnsureLoadBalancerDeleted. *)
Theorem foreign_load_balancers_kept unicode_ToLower l nodes (st : lbst R) id lb :
  enough_fuel fuel (lb_net st) →
  slbs st !! id = Some lb → ¬ owned (lb_svc st) (slbs st) id →
  slbs (EnsureLoadBalancer unicode_ToLower fuel l nodes st).2 !! id = Some lb
  ∧ slbs (UpdateLoadBalancer fuel l nodes st).2 !! id = Some lb
  ∧ slbs (EnsureLoadBalancerDeleted fuel st).2 !! id = Some lb.
Proof.
  intros Hfuel Hlb Hown.
  pose proof (keeps_lb_ensure fuel unicode_ToLower l nodes st id lb Hfuel Hown).
  pose proof (keeps_lb_update fuel l nodes st id lb Hfuel Hown).
  pose proof (keeps_lb_deleted fuel st id lb Hfuel Hown). unfold keeps_lb in *. auto.
Qed.

(** C3. A successful UpdateLoadBalancer has brought the Service's existing load
    balancer up to date.  For a Service that is not disowned, nodes that all carry
    a provider ID, and an API that keeps its laws and whose pages the fuel covers:
    its backends are exactly the droplets of the nodes
    acceptable by IP stack, the Service carries its identifier, and every other
    load balancer is untouched. *)
Theorem update_establishes l nodes (st : lbst R) st' :
  getDisownLB (lb_svc st) = Ok false →
  Forall (λ n, n.(Node.ProviderID) ≠ "") nodes →
  enough_fuel fuel (lb_net st) →
  UpdateLoadBalancer fuel l nodes st = (Ok (), st') →
  ∃ id lb, established nodes st st' id lb ∧ owned (lb_svc st) (slbs st) id ∧ is_Some (slbs st !! id).
Proof.
  intros Hdis Hp Hfuel He. unfold UpdateLoadBalancer in He. inv_lb.
  rewrite Hdis in Hm0. simplify_eq.
  apply with_patcher_Ok in Hk0 as (st1 & Hb & Hv1 & Hs1). inv_lb.
  destruct a2 as [p pend]. inv_lb.
  match goal with H : retryIfNodesPendingInit _ _ _ = _ |- _ =>
    apply retryIfNodesPendingInit_Ok in H as [-> ->] end.
  apply retrieveAndAnnotate_Ok in Hm as (Hv & Hlb & Hown & Hf & Hid); [|done].
  match goal with H : updateLoadBalancer _ _ ?x _ _ = _ |- _ => rename x into lb; rename H into Hu end.
  pose proof (svc_frame_spec _ _ _ _ _ _ _ _ (spec_updateLoadBalancer fuel [annDOCertificateID] _
     admits_update l lb nodes ltac:(set_solver) ltac:(done)) Hu) as [_ Hfu].
  apply updateLoadBalancer_Ok in Hu as (lb' & -> & Hlbs & Hfb); [|done].
  destruct (Hfb eq_refl) as (net & Hnet & Hback).
  exists (LoadBalancer.ID lb), lb'. split_and!; [|done|by eexists].
  unfold established. rewrite Hv1, Hs1, Hlbs, Hv, lookup_insert_eq, delete_insert_eq.
  rewrite Hfu by (vm_compute; set_solver). split_and!; [done..|].
  exists net. by rewrite <- (getNetwork_frame _ _ Hf).
Qed.

(** C4. A successful EnsureLoadBalancerDeleted for a Service that is not disowned
    leaves the Service object alone, changes at most one load balancer, and, when
    at most one is the Service's, leaves none of its load balancers behind.  Any
    call to the API may fail, a listing too: then the method does not succeed, so
    a look-up that failed never passes for a load balancer that is gone. *)
Theorem delete_establishes (st : lbst R) st' :
  getDisownLB (lb_svc st) = Ok false →
  enough_fuel fuel (lb_net st) →
  EnsureLoadBalancerDeleted fuel st = (Ok (), st') →
  lb_svc st' = lb_svc st
  ∧ (∃ id, delete id (slbs st') = delete id (slbs st))
  ∧ ((∀ id1 id2, owned (lb_svc st) (slbs st) id1 → owned (lb_svc st) (slbs st) id2 → id1 = id2) →
     ∀ id, owned (lb_svc st) (slbs st) id → slbs st' !! id = None).
Proof.
  intros Hdis Hfuel He. unfold EnsureLoadBalancerDeleted in He. inv_lb.
  rewrite Hdis in Hm0. simplify_eq. inv_lb.
  match goal with H : attempt _ _ = (Ok ?x, ?s) |- _ => rename x into found; rename s into st1; rename H into Ha end.
  destruct found as [p|e]; inv_lb; [|apply on_net_inv in Ha as [Ha Hsvc]];
    pose proof (within_run _ _ _ _ _ (same_view_retrieve fuel _) Ha) as Hv;
    apply (retrieve_spec _ _ _ _ _ Hfuel) in Ha; unfold same in Hv.
  - destruct Ha as (lb & -> & Hlb & Hown).
    match goal with H : Some lb = Some _ |- _ => injection H as <- end.
    match goal with H : call _ _ _ = _ |- _ => apply call_inv in H as (rp & [= <-] & Hdel & _) end.
    pose proof (delete_frame (LoadBalancer.ID lb) (remote (lb_net st1))) as Hfr.
    pose proof (delete_ok (LoadBalancer.ID lb) (remote (lb_net st1))) as Hok.
    pose proof (delete_404 (LoadBalancer.ID lb) (remote (lb_net st1))) as H404.
    rewrite Hdel in Hfr, Hok, H404. simpl in *.
    assert (st' = s0 ∧ v_lbs (view (remote (lb_net s0))) !! LoadBalancer.ID lb = None) as [-> Hgone].
    { destruct (rerr a0); [destruct (is_404 a0)|]; inv_ok; auto. }
    unfold lview, net_view in *. split_and!; [congruence|exists (LoadBalancer.ID lb); congruence|].
    intros Huniq id Hid. by rewrite (Huniq id (LoadBalancer.ID lb)).
  - assert (st' = st1 ∧ ∀ id, owned (lb_svc st) (slbs st) id → slbs st !! id = None) as [-> Hno].
    { destruct Ha as [[-> Hno]|Hfalse]; [by inv_ok|].
      destruct e as [[]| | | | | | |]; first [discriminate Hk | discriminate Hfalse]. }
    unfold lview, net_view in *. rewrite Hv. split_and!; [congruence|by exists ""|auto].
Qed.

(** C21. Certificate tracking: when it succeeds, the Service's certificate
    annotation follows the load balancer's certificate exactly when that one is
    a different, managed (Let's Encrypt) certificate and the annotated one is
    gone or has the same name, that is, was renewed; nothing else changes, and
    when it fails nothing changes at all. *)
Theorem certificate_annotation_tracks_renewal lbCertID serviceCertID (st : lbst R) :
  let '(r, st') := recordUpdatedLetsEncryptCert lbCertID serviceCertID st in
  lview st' = lview st
  ∧ lb_svc st' =
      if is_ok r && renewed (v_certs (lview st)) lbCertID serviceCertID
      then updateServiceAnnotation (lb_svc st) annDOCertificateID lbCertID else lb_svc st.
Proof.
  pose proof (same_lview_recordCert lbCertID serviceCertID st) as Hv.
  destruct (recordUpdatedLetsEncryptCert lbCertID serviceCertID st) as [r st'] eqn:E.
  split; [exact Hv|]. by apply recordCert_svc in E.
Qed.
End Properties.
