(* ===== verification/LBLifecycle.v ===== *)
(** * One load balancer per Service

    The life of a Service of type LoadBalancer as a transition system: the
    service controller calls EnsureLoadBalancer and UpdateLoadBalancer in any
    order, each call may fail anywhere, the patch that stores the annotations
    may be lost, the Service and the other load balancers change meanwhile. *)

From stdpp Require Import base gmap strings list relations.
From Stdlib Require Import ZArith Lia.
From S2P Require Import Prelude GoStd Types Annotations Nodes Api Rules Requests LoadBalancers LBFacts ApiLaws LBSpec.
#[local] Open Scope Z_scope.

(** A load balancer with one of the names that the Service's may have. *)
Definition named (s : Service.t) (lbs : gmap string LoadBalancer.t) (id : string) : Prop :=
  ∃ lb, lbs !! id = Some lb ∧ lb.(LoadBalancer.Name) ∈ candidates s.

(** A load balancer that is the Service's by its name or by the annotation. *)
Definition belongs (s : Service.t) (lbs : gmap string LoadBalancer.t) (id : string) : Prop :=
  named s lbs id ∨ id ≠ "" ∧ id = getLoadBalancerID s ∧ is_Some (lbs !! id).

Definition at_most_one (P : string → Prop) : Prop := ∀ id1 id2, P id1 → P id2 → id1 = id2.

(** The invariant: one name, one load balancer; the annotation names one that
    exists, and then no other has the Service's names. *)
Definition single (s : Service.t) (lbs : gmap string LoadBalancer.t) : Prop :=
  at_most_one (named s lbs)
  ∧ (getLoadBalancerID s ≠ "" →
     is_Some (lbs !! getLoadBalancerID s) ∧ ∀ id, named s lbs id → id = getLoadBalancerID s).

Lemma single_belongs s lbs : single s lbs → at_most_one (belongs s lbs).
Proof. unfold belongs. intros [H1 H2] id1 id2 [?|(? & -> & ?)] [?|(? & -> & ?)]; naive_solver. Qed.

(** What the names and the identifier of a Service depend on. *)
Definition same_claim (s s' : Service.t) : Prop :=
  candidates s' = candidates s ∧ getLoadBalancerID s' = getLoadBalancerID s.

Lemma named_ext s s' lbs id : candidates s' = candidates s → named s' lbs id ↔ named s lbs id.
Proof. unfold named. by intros ->. Qed.

Lemma single_ext s s' lbs : same_claim s s' → single s lbs → single s' lbs.
Proof.
  intros [Hc Hid] [H1 H2]. split.
  - intros id1 id2. rewrite !(named_ext s s') by done. auto.
  - rewrite Hid. intros Hne. destruct (H2 Hne). split; [done|]. intros id. rewrite (named_ext s s') by done. auto.
Qed.

Lemma candidates_frame s s' : svc_frame managed_annotations s s' → candidates s' = candidates s.
Proof.
  intros [Hs Hg]. unfold candidates.
  assert (getLoadBalancerName s' = getLoadBalancerName s ∧ getLoadBalancerLegacyName s' = getLoadBalancerLegacyName s)
    as [-> ->]; [|done].
  unfold getLoadBalancerName, getLoadBalancerLegacyName, ann_val. rewrite Hg by (vm_compute; set_solver).
  rewrite Hs. done.
Qed.

Lemma ID_not_cert : annDOLoadBalancerID ∉ [annDOCertificateID].
Proof. vm_compute. set_solver. Qed.
Lemma cert_managed : [annDOCertificateID] ⊆ managed_annotations.
Proof. vm_compute. set_solver. Qed.

(** One load balancer changes. *)
Lemma single_touched s s' lbs lbs' id :
  single s lbs → owned s lbs id → delete id lbs' = delete id lbs → is_Some (lbs' !! id) →
  candidates s' = candidates s → getLoadBalancerID s' = id ∨ getLoadBalancerID s' = getLoadBalancerID s →
  single s' lbs'.
Proof.
  intros [H1 H2] Ho Hd Hex Hc Hid.
  assert (Hn : ∀ id', named s lbs' id' → id' = id).
  { intros id' (lb & Hlb & Hnm). destruct (decide (id' = id)) as [|Hne]; [done|].
    assert (named s lbs id') as Hnd.
    { exists lb. split; [|done]. rewrite <- (lookup_delete_ne lbs id id') by done. rewrite <- Hd.
      by rewrite lookup_delete_ne. }
    unfold owned in Ho. destruct (str_eqb (getLoadBalancerID s) "") eqn:E; reflect_eqb.
    - by apply H1.
    - subst id. by apply H2. }
  split.
  - intros id1 id2. rewrite !(named_ext s s') by done. intros ->%Hn ->%Hn. done.
  - intros Hne. assert (getLoadBalancerID s' = id) as ->.
    { destruct Hid as [|Hid]; [done|]. unfold owned in Ho. rewrite Hid in Hne |- *.
      by rewrite (proj2 (str_eqb_false _ _) Hne) in Ho. }
    split; [done|]. intros id'. rewrite (named_ext s s') by done. apply Hn.
Qed.

(** One load balancer is added where there was none. *)
Lemma single_added s s' lbs lbs' id :
  single s lbs → (∀ id', owned s lbs id' → lbs !! id' = None) → delete id lbs' = lbs →
  candidates s' = candidates s →
  getLoadBalancerID s' = getLoadBalancerID s ∨ getLoadBalancerID s' = id ∧ is_Some (lbs' !! id) →
  single s' lbs'.
Proof.
  intros [H1 H2] Hno Hd Hc Hid. unfold owned in Hno.
  destruct (str_eqb (getLoadBalancerID s) "") eqn:E; reflect_eqb.
  2:{ destruct (H2 E) as [[lb Hlb] _]. by rewrite Hno in Hlb. }
  assert (Hn : ∀ id', named s lbs' id' → id' = id).
  { intros id' (lb & Hlb & Hnm). destruct (decide (id' = id)) as [|Hne]; [done|].
    assert (lbs !! id' = Some lb) as Hlb' by (rewrite <- Hd; by rewrite lookup_delete_ne).
    rewrite (Hno id') in Hlb'; [done|]. by exists lb. }
  split.
  - intros id1 id2. rewrite !(named_ext s s') by done. intros ->%Hn ->%Hn. done.
  - intros Hne. destruct Hid as [Hid|[-> Hex]]; [congruence|]. split; [done|].
    intros id'. rewrite (named_ext s s') by done. apply Hn.
Qed.

#[local] Set Default Proof Using "Type*".

Section Lifecycle.
Context {R : Type}.
Context `{!GodoPaging, !GodoLoadBalancers R, !GodoCertificates R, !GodoDroplets R, !Kube R, !IPNets}.
Context `{!ApiLaws R, !AtomicWrites R}.
Variables (unicode_ToLower : string → string) (fuel : nat) (l : loadBalancers.t).

Abbreviation slbs st := (v_lbs (lview st)).

Lemma update_keeps_existence id req (r : R) :
  is_Some (v_lbs (view r) !! id) ↔ is_Some (v_lbs (view (LoadBalancers_Update id req r).2) !! id).
Proof.
  destruct (update_atomic id req r) as [->|(lb & -> & Hs & _)]; [done|].
  rewrite lookup_insert_eq. split; [by eexists|done].
Qed.

(** ** What a method does to the load balancers and the Service *)

(** Only load balancer [id] changes, if there is one, and stays; of the Service at
    most the certificate annotation changes. *)
Definition touches (id : string) : relation (lbst R) := λ st st',
  delete id (slbs st') = delete id (slbs st)
  ∧ (is_Some (slbs st !! id) ↔ is_Some (slbs st' !! id))
  ∧ svc_frame [annDOCertificateID] (lb_svc st) (lb_svc st').

#[local] Instance touches_preorder id : PreOrder (touches id).
Proof.
  split; [intros st; by split_and!|].
  intros s1 s2 s3 (A1 & A2 & A3) (B1 & B2 & B3). split_and!; [congruence|by etrans|by etrans].
Qed.

(** Neither the load balancers nor the Service change. *)
Definition still : relation (lbst R) := λ st st', lview st' = lview st ∧ lb_svc st' = lb_svc st.

#[local] Instance still_preorder : PreOrder still.
Proof. split; [by intros st|]. unfold still. intros s1 s2 s3 [] []. split; congruence. Qed.

Lemma still_within {A} (m : M (lbst R) A) : within (same lview) m → within (same lb_svc) m → within still m.
Proof. intros H1 H2 st. split; [apply H1|apply H2]. Qed.

Lemma still_on_net {A} (m : M (net R) A) : within (same net_view) m → within still (on_net m).
Proof. intros Hm. apply still_within; auto with go. Qed.

Lemma still_service : within still service.
Proof. done. Qed.

Lemma still_finish lb p1 p2 : within still (finishEnsure unicode_ToLower lb p1 p2).
Proof. pose proof still_service. unfold finishEnsure. solve_within. Qed.

Lemma touches_still {A} id (m : M (lbst R) A) : within still m → within (touches id) m.
Proof. apply within_mono. intros st st' [Hv Hs]. unfold touches. rewrite Hv, Hs. by split_and!. Qed.

Lemma touches_recordCert id a b : within (touches id) (recordUpdatedLetsEncryptCert (R := R) a b).
Proof.
  intros st. pose proof (same_lview_recordCert a b st) as Hv.
  destruct (recordUpdatedLetsEncryptCert a b st) as [r st'] eqn:E. unfold same in Hv. simpl in *.
  unfold touches. rewrite Hv. split_and!; [done..|].
  eapply svc_frame_spec; [|exact E]. apply (spec_recordCert _ _ admits_update). left.
Qed.

Lemma touches_update lb nodes :
  within (touches lb.(LoadBalancer.ID)) (updateLoadBalancer fuel l lb nodes).
Proof.
  unfold updateLoadBalancer.
  repeat (apply within_bind; [apply _|first
    [ apply touches_recordCert
    | apply touches_still; first [apply still_service|apply still_on_net; solve [solve_within]]]|intros ?]).
  case_match. apply within_bind; [apply _| |intros ?; solve_within].
  intros st. unfold on_net, zoom, call, touches, lview, net_view. simpl.
  pose proof (update_frame (LoadBalancer.ID lb) t (remote (lb_net st))).
  pose proof (update_keeps_existence (LoadBalancer.ID lb) t (remote (lb_net st))).
  destruct (LoadBalancers_Update _ _ _). simpl in *. by split_and!.
Qed.

Lemma touches_ensureExisting nodes pending lb :
  within (touches lb.(LoadBalancer.ID)) (ensureExisting unicode_ToLower fuel l nodes pending lb).
Proof.
  unfold ensureExisting.
  apply within_bind; [apply _|apply touches_still, still_service|intros s].
  apply within_bind; [apply _|apply touches_still, still_on_net; solve_within|intros _].
  apply within_bind; [apply _|apply touches_update|intros [p pend]].
  apply within_bind; [apply _|by apply within_deref; apply _|intros lb'].
  apply touches_still, still_finish.
Qed.

(** A new load balancer, which the Service is annotated with if the API
    answered it. *)
Definition adds (st st' : lbst R) : Prop :=
  ∃ id, delete id (slbs st') = slbs st
    ∧ (lb_svc st' = lb_svc st ∨
       svc_frame managed_annotations (lb_svc st) (lb_svc st')
       ∧ getLoadBalancerID (lb_svc st') = id ∧ is_Some (slbs st' !! id)).

Lemma adds_create req st : adds st (createLoadBalancer req st).2.
Proof.
  unfold createLoadBalancer, service, on_net, zoom, call, mbind, M_bind. simpl.
  match goal with |- context [LoadBalancers_Create ?q _] =>
    pose proof (create_frame q (remote (lb_net st))) as (id & Hnew & Hd);
    pose proof (create_ok q (remote (lb_net st))) as Hok; destruct (LoadBalancers_Create q _) as [rp r'] end.
  simpl in *. unfold adds, lview, net_view. destruct (rerr rp) as [e|]; simpl.
  { exists id. split; [done|by left]. }
  destruct (Hok eq_refl) as (lb & -> & Hlbs & Hn & _). simpl. exists (LoadBalancer.ID lb). rewrite Hlbs.
  split; [by apply delete_insert_id|]. right. split_and!.
  - etrans; [apply svc_frame_update, managed_ID|apply svc_frame_update, managed_Type].
  - unfold getLoadBalancerID, ann_val. rewrite ann_get_update_ne by done. by rewrite ann_get_update_eq.
  - rewrite lookup_insert_eq. by eexists.
Qed.

Lemma ensureMissing_effect nodes pending e st :
  let st' := (ensureMissing unicode_ToLower fuel l nodes pending e st).2 in still st st' ∨ adds st st'.
Proof.
  unfold ensureMissing. simpl.
  assert (within still (on_net (on_err build_failed
    (buildLoadBalancerRequest fuel l (lb_svc st) nodes (admittedDropletIDSet None))))) as Hb.
  { apply still_on_net. solve_within. }
  specialize (Hb st). unfold mbind, M_bind, service.
  destruct (on_net _ st) as [[[req pend]| | |] st1]; simpl in *; [|by left..].
  destruct e as [[]| | | | | | |]; try by left. right.
  pose proof (adds_create req st1) as Ha. destruct (createLoadBalancer req st1) as [[lb| | |] st2]; simpl in *.
  1: destruct (still_finish lb pending pend st2) as [Hv Hs]; unfold adds in *; rewrite Hv, Hs.
  all: destruct Hb as [Hv' Hs']; unfold adds in *; by rewrite <- Hv', <- Hs'.
Qed.

(** ** The invariant through a method *)

(** From [st] to [st'] the invariant is kept, whether the annotations are stored
    or not, and an identifier stays. *)
Definition keeps_single (st st' : lbst R) : Prop :=
  single (lb_svc st) (slbs st) →
  single (lb_svc st') (slbs st') ∧ single (lb_svc st) (slbs st')
  ∧ (getLoadBalancerID (lb_svc st) ≠ "" → getLoadBalancerID (lb_svc st') = getLoadBalancerID (lb_svc st)).

Lemma keeps_single_refl st st' : still st st' → keeps_single st st'.
Proof. unfold keeps_single, still. by intros [-> ->]. Qed.

Lemma keeps_single_found st lb st1 st' :
  enough_fuel fuel (lb_net st) → retrieveAndAnnotateLoadBalancer fuel st = (Ok lb, st1) →
  touches lb.(LoadBalancer.ID) st1 st' → keeps_single st st'.
Proof.
  intros Hf Hr (Hd & Hex & Hfr) Hs. apply retrieveAndAnnotate_Ok in Hr as (Hv & Hlb & Ho & Hfr1 & Hid); [|done].
  rewrite Hv in *. apply proj1 in Hex. specialize (Hex (mk_is_Some _ _ Hlb)).
  assert (getLoadBalancerID (lb_svc st') = LoadBalancer.ID lb) as Hid'.
  { unfold getLoadBalancerID, ann_val. destruct Hfr as [_ Hg]. by rewrite (Hg _ ID_not_cert), Hid. }
  assert (candidates (lb_svc st') = candidates (lb_svc st)) as Hc.
  { apply candidates_frame. etrans; [done|]. eapply svc_frame_weaken; [apply cert_managed|done]. }
  split_and!; [eapply single_touched; eauto..|].
  intros Hne. unfold owned in Ho. rewrite (proj2 (str_eqb_false _ _) Hne) in Ho. congruence.
Qed.

Lemma keeps_single_missing st e st1 st' :
  enough_fuel fuel (lb_net st) → retrieveAndAnnotateLoadBalancer fuel st = (Err e, st1) →
  errors_Is e errLBNotFound = true → adds st1 st' → keeps_single st st'.
Proof.
  intros Hf Hr He (id & Hd & Hsvc) Hs. apply retrieveAndAnnotate_Err in Hr as (Hv & Hs1 & Hr); [|done].
  destruct Hr as [[_ Hno]|]; [|congruence]. rewrite Hv, Hs1 in *.
  assert (candidates (lb_svc st') = candidates (lb_svc st)) as Hc.
  { destruct Hsvc as [->|[? _]]; [done|by apply candidates_frame]. }
  split_and!.
  - eapply single_added; [done..|]. destruct Hsvc as [->|(_ & ? & ?)]; auto.
  - eapply single_added; eauto.
  - intros Hne. destruct Hs as [_ Hs]. destruct (Hs Hne) as [[lb Hlb] _]. rewrite Hno in Hlb; [done|].
    unfold owned. by rewrite (proj2 (str_eqb_false _ _) Hne).
Qed.

Lemma retrieveAndAnnotate_ends st r st1 :
  enough_fuel fuel (lb_net st) → retrieveAndAnnotateLoadBalancer fuel st = (r, st1) →
  (∃ lb, r = Ok lb) ∨ ∃ e, r = Err e.
Proof.
  intros Hf. unfold retrieveAndAnnotateLoadBalancer, service, mbind, M_bind.
  destruct (on_net _ st) as [r' st2] eqn:E. apply on_net_inv in E as [E _].
  apply (retrieve_spec _ _ _ _ _ Hf) in E. destruct r' as [p|e| |]; [|intros [= <- _]; eauto|done..].
  destruct E as (lb & -> & _). intros [= <- _]. eauto.
Qed.

(** What a call does, however it ends: nothing to load balancers and Service; or
    it found the Service's load balancer and touched that one; or it found none
    and added one. *)
Definition effect (st st' : lbst R) : Prop :=
  still st st'
  ∨ (∃ lb st1, retrieveAndAnnotateLoadBalancer fuel st = (Ok lb, st1) ∧ touches lb.(LoadBalancer.ID) st1 st')
  ∨ (∃ e st1, retrieveAndAnnotateLoadBalancer fuel st = (Err e, st1)
       ∧ errors_Is e errLBNotFound = true ∧ adds st1 st').

Lemma effect_still st1 st2 st3 : effect st1 st2 → still st2 st3 → effect st1 st3.
Proof.
  intros [Hs|[(lb & st & Hr & Ht)|(e & st & Hr & He & Ha)]] H23.
  - left. by etrans.
  - right; left. exists lb, st. split; [done|]. etrans; [done|].
    destruct H23 as [Hv Hs]. unfold touches. rewrite Hv, Hs. by split_and!.
  - right; right. exists e, st. split_and!; [done..|]. destruct H23 as [Hv Hs]. unfold adds in *. by rewrite Hv, Hs.
Qed.

Lemma effect_patcher {A} (m : M (lbst R) A) st : effect st (m st).2 → effect st (with_patcher m st).2.
Proof.
  intros Hm. unfold with_patcher. destruct (m st) as [r st1]. eapply effect_still; [exact Hm|].
  apply within_patch_result; [apply _|]. intros err. apply still_within; [apply same_lview_Patch|apply same_svc_Patch].
Qed.

Lemma effect_ensure nodes st :
  enough_fuel fuel (lb_net st) → effect st (EnsureLoadBalancer unicode_ToLower fuel l nodes st).2.
Proof.
  intros Hf. unfold EnsureLoadBalancer, service, pure, mbind, M_bind; simpl.
  destruct (getDisownLB _) as [[]| | |]; try by left. apply effect_patcher.
  unfold mbind, M_bind. destruct (prepareNodesForLBSync _ _ _); try by left. unfold attempt.
  destruct (retrieveAndAnnotateLoadBalancer fuel st) as [[lb|e| |] st1] eqn:Er; simpl in *.
  - right; left. exists lb, st1. split; [done|]. apply touches_ensureExisting.
  - pose proof Er as (Hv & Hs & _)%retrieveAndAnnotate_Err; [|done].
    destruct (errors_Is e errLBNotFound) eqn:Ee; simpl; [|by left].
    destruct (ensureMissing_effect nodes a e st1) as [Hst|Hadds]; [|by right; right; exists e, st1].
    left. apply (PreOrder_Transitive st st1); done.
  - apply retrieveAndAnnotate_ends in Er; naive_solver.
  - apply retrieveAndAnnotate_ends in Er; naive_solver.
Qed.

Lemma effect_update nodes st :
  enough_fuel fuel (lb_net st) → effect st (UpdateLoadBalancer fuel l nodes st).2.
Proof.
  intros Hf. unfold UpdateLoadBalancer, service, pure, mbind, M_bind; simpl.
  destruct (getDisownLB _) as [[]| | |]; try by left. apply effect_patcher.
  destruct (retrieveAndAnnotateLoadBalancer fuel st) as [[lb|e| |] st1] eqn:Er; simpl.
  2:{ apply retrieveAndAnnotate_Err in Er as (? & ? & _); [|done]. by left. }
  2-3: apply retrieveAndAnnotate_ends in Er; naive_solver.
  right; left. exists lb, st1. split; [done|]. destruct (prepareNodesForLBSync _ _ _); try reflexivity.
  pose proof (touches_update lb nodes st1) as Hu.
  destruct (updateLoadBalancer _ _ _ _ st1) as [[[]| | |] st2]; exact Hu.
Qed.

Lemma effect_keeps_single st st' : enough_fuel fuel (lb_net st) → effect st st' → keeps_single st st'.
Proof.
  intros Hf [Hs|[(lb & st1 & Hr & Ht)|(e & st1 & Hr & He & Ha)]].
  - by apply keeps_single_refl.
  - by eapply keeps_single_found.
  - by eapply keeps_single_missing.
Qed.

(** ** The life of a Service *)

(** The calls of the service controller while the Service exists. *)
Inductive sync_call :=
| Ensure (nodes : list Node.t)
| Update (nodes : list Node.t).

(** The state after a call, however it ends. *)
Definition after_call (c : sync_call) (st : lbst R) : lbst R :=
  match c with
  | Ensure nodes => (EnsureLoadBalancer unicode_ToLower fuel l nodes st).2
  | Update nodes => (UpdateLoadBalancer fuel l nodes st).2
  end.

(** The state holds the Service as the cluster stores it.  Between calls the
    Service may be edited, except for the annotations that name its load
    balancer, and load balancers may come and go, except that nobody else takes
    the Service's names or removes the load balancer it is annotated with. *)
Inductive life_step : relation (lbst R) :=
| call_stored c st : enough_fuel fuel (lb_net st) → life_step st (after_call c st)
| call_lost c st : enough_fuel fuel (lb_net st) → life_step st (LBState (lb_net (after_call c st)) (lb_svc st))
| edited st s : same_claim (lb_svc st) s → life_step st (LBState (lb_net st) s)
| environment st n :
    let lbs' := v_lbs (net_view n) in
    (∀ id, named (lb_svc st) lbs' id → named (lb_svc st) (slbs st) id) →
    (is_Some (slbs st !! getLoadBalancerID (lb_svc st)) → is_Some (lbs' !! getLoadBalancerID (lb_svc st))) →
    life_step st (LBState n (lb_svc st)).

Lemma effect_call c st : enough_fuel fuel (lb_net st) → effect st (after_call c st).
Proof. destruct c; [apply effect_ensure|apply effect_update]. Qed.

Lemma keeps_single_call c st : enough_fuel fuel (lb_net st) → keeps_single st (after_call c st).
Proof. intros Hf. by apply effect_keeps_single, effect_call. Qed.

(** C6. One load balancer per Service: from a state in which at most one load
    balancer has the Service's names and the one it is annotated with, if any,
    exists and is that one, no sequence of EnsureLoadBalancer and
    UpdateLoadBalancer calls ever leaves two load balancers that are the
    Service's by name or annotation, and the identifier the Service is annotated
    with never changes again.  Any call to the API may fail within its laws, a
    listing too (writes are atomic); the nodes are any, patches may be lost, and
    between the calls the Service may be edited except for its names and
    identifier annotation, and others may change the account except that they
    neither take the Service's names nor delete the load balancer it is annotated
    with (what follows such a deletion is shown apart). *)
Theorem one_load_balancer_per_service st st' :
  single (lb_svc st) (slbs st) → rtc life_step st st' →
  at_most_one (belongs (lb_svc st') (slbs st'))
  ∧ (getLoadBalancerID (lb_svc st) ≠ "" →
     getLoadBalancerID (lb_svc st') = getLoadBalancerID (lb_svc st)
     ∧ is_Some (slbs st' !! getLoadBalancerID (lb_svc st))).
Proof.
  intros Hs Hr. assert (single (lb_svc st') (slbs st') ∧ (getLoadBalancerID (lb_svc st) ≠ "" →
     getLoadBalancerID (lb_svc st') = getLoadBalancerID (lb_svc st))) as [Hs' Hid].
  { induction Hr as [st|st st1 st' Hstep _ IH]; [done|].
    assert (single (lb_svc st1) (slbs st1) ∧ (getLoadBalancerID (lb_svc st) ≠ "" →
      getLoadBalancerID (lb_svc st1) = getLoadBalancerID (lb_svc st))) as [Hs1 Hid1].
    { destruct Hstep as [c st Hf|c st Hf|st s Hc|st n lbs' Hn Hex].
      - destruct (keeps_single_call c st Hf Hs) as (? & _ & ?). done.
      - destruct (keeps_single_call c st Hf Hs) as (_ & ? & _). done.
      - split; [by eapply single_ext|]. intros _. apply Hc.
      - split; [|done]. destruct Hs as [H1 H2]. split; simpl; [intros id1 id2; auto|]. intros Hne.
        destruct (H2 Hne). auto. }
    destruct (IH Hs1) as [? Hid2]. split; [done|]. intros Hne. rewrite Hid2; auto. by rewrite Hid1. }
  split; [by apply single_belongs|]. intros Hne. split; [auto|].
  rewrite <- Hid by done. apply Hs'. by rewrite Hid.
Qed.
End Lifecycle.
