(* ===== verification/LBCluster.v ===== *)
(** * The load balancers of a cluster

    Many Services share one account.  The service controller works on them one
    call at a time: it ensures and updates the load balancers of the Services
    that live and deletes those of the Services that go.  Calls fail, patches are
    lost, Services come, are edited and go, and others use the account too.  Here
    is what holds of the account as a whole: no Service has two load balancers,
    no load balancer has two Services, and none is left without one. *)

From stdpp Require Import base gmap strings list relations.
From Stdlib Require Import ZArith Lia.
From S2P Require Import Prelude GoStd Types Annotations Nodes Api Rules Requests LoadBalancers LBFacts ApiLaws LBSpec LBLifecycle.
#[local] Open Scope Z_scope.

#[local] Set Default Proof Using "Type*".

Section Names.
Context {R : Type}.
Context `{!GodoPaging, !GodoLoadBalancers R, !GodoCertificates R, !GodoDroplets R, !Kube R, !IPNets}.
Context `{!ApiLaws R, !AtomicWrites R}.
Variables (unicode_ToLower : string → string) (fuel : nat) (l : loadBalancers.t).

Abbreviation slbs st := (v_lbs (lview st)).

(** ** Names *)

(** Load balancers keep their names or get one of [names], the Service's. *)
Definition renames (names : list string) : relation (lbst R) := λ st st',
  candidates (lb_svc st) = names →
  candidates (lb_svc st') = names
  ∧ ∀ id lb', slbs st' !! id = Some lb' →
      (∃ lb, slbs st !! id = Some lb ∧ lb.(LoadBalancer.Name) = lb'.(LoadBalancer.Name))
      ∨ lb'.(LoadBalancer.Name) ∈ names.

#[local] Instance renames_preorder names : PreOrder (renames names).
Proof.
  split; [intros st Hc; split; [done|]; eauto|].
  intros s1 s2 s3 H12 H23 Hc. destruct (H12 Hc) as [Hc2 H2]. destruct (H23 Hc2) as [Hc3 H3].
  split; [done|]. intros id lb3 Hlb3. destruct (H3 id lb3 Hlb3) as [(lb2 & Hlb2 & Hn)|]; [|by right].
  destruct (H2 id lb2 Hlb2) as [(lb & Hlb & Hn')|Hin]; [left; exists lb; split; [done|congruence]|].
  right. by rewrite <- Hn.
Qed.

Lemma renames_same names {A} (m : M (lbst R) A) :
  within (same lview) m → (∀ st, svc_frame managed_annotations (lb_svc st) (lb_svc (m st).2)) →
  within (renames names) m.
Proof.
  intros Hv Hs st Hc. split; [rewrite <- Hc; apply candidates_frame, Hs|].
  intros id lb'. rewrite (Hv st). eauto.
Qed.

Lemma renames_still names {A} (m : M (lbst R) A) : within still m → within (renames names) m.
Proof.
  intros Hm. apply renames_same; intros st; destruct (Hm st) as [Hv Hs]; [done|by rewrite Hs].
Qed.

Lemma getLoadBalancerName_candidate s : getLoadBalancerName s ∈ candidates s.
Proof. unfold candidates. left. Qed.

Lemma build_name s nodes ids (n n' : net R) req pending :
  buildLoadBalancerRequest fuel l s nodes ids n = (Ok (req, pending), n') →
  req.(LoadBalancerRequest.Name) = getLoadBalancerName s.
Proof.
  intros (net & ty & adm & base & st1 & st2 & _ & _ & _ & Hb & _ & ->)%buildLoadBalancerRequest_Ok.
  by apply withNodeState_Ok in Hb as (_ & _ & _ & ? & _).
Qed.

Lemma renames_recordCert names a b : within (renames names) (recordUpdatedLetsEncryptCert (R := R) a b).
Proof.
  apply renames_same; [apply same_lview_recordCert|]. intros st.
  destruct (recordUpdatedLetsEncryptCert a b st) as [r st'] eqn:E.
  eapply svc_frame_spec; [|exact E]. apply (spec_recordCert _ _ admits_update), managed_Cert.
Qed.

(** The write of [updateLoadBalancer], with the request that was built. *)
Lemma renames_update_call names id req st :
  candidates (lb_svc st) = names → req.(LoadBalancerRequest.Name) ∈ names →
  renames names st (on_net (call (EvLBUpdate id req) (LoadBalancers_Update id req)) st).2.
Proof.
  intros _ Hin Hc. unfold on_net, zoom, call, lview, net_view. simpl.
  pose proof (update_atomic id req (remote (lb_net st))) as Ha.
  destruct (LoadBalancers_Update _ _ _) as [rp r']. simpl in *. split; [done|].
  destruct Ha as [->|(lb & -> & _ & Hn)]; [eauto|]. intros id' lb'.
  destruct (decide (id' = id)) as [->|Hne].
  - rewrite lookup_insert_eq. intros [= <-]. right. by rewrite Hn.
  - rewrite lookup_insert_ne by done. eauto.
Qed.

(** A request that was built carries one of the Service's names. *)
Lemma renames_built {A} names f nodes ids (k : LoadBalancerRequest.t * list Node.t → M (lbst R) A) :
  (∀ st req pending, candidates (lb_svc st) = names → req.(LoadBalancerRequest.Name) ∈ names →
     renames names st (k (req, pending) st).2) →
  within (renames names)
    (s ← service; rq ← on_net (on_err f (buildLoadBalancerRequest fuel l s nodes ids)); k rq).
Proof.
  intros Hk st Hc. unfold service, mbind, M_bind.
  pose proof (still_on_net _ (within_on_err _ f _ (same_view_build fuel l (lb_svc st) nodes ids)) st) as [Hv Hs].
  destruct (on_net _ st) as [[[req pending]| | |] st1] eqn:E; simpl in *;
    try by (split; [by rewrite Hs|rewrite Hv; eauto]).
  apply on_net_inv in E as [E _]. apply on_err_Ok_inv in E. apply build_name in E.
  assert (renames names st st1) as H1 by (intros _; split; [by rewrite Hs|rewrite Hv; eauto]).
  apply (PreOrder_Transitive _ _ _ H1); [|done]. apply Hk; [by rewrite Hs|].
  rewrite E, <- Hc. apply getLoadBalancerName_candidate.
Qed.

Lemma renames_update names lb nodes : within (renames names) (updateLoadBalancer fuel l lb nodes).
Proof.
  unfold updateLoadBalancer.
  apply within_bind; [apply _|apply renames_still, still_service|intros s].
  apply within_bind; [apply _|apply renames_still, still_on_net; solve_within|intros _].
  apply within_bind; [apply _|apply renames_still, still_on_net; solve_within|intros c].
  apply within_bind; [apply _|apply renames_recordCert|intros _].
  apply renames_built. intros st req pending Hc Hn. unfold mbind, M_bind.
  pose proof (renames_update_call names (LoadBalancer.ID lb) req st Hc Hn) as Hu.
  destruct (on_net _ st) as [[rp| | |] st1]; simpl in *; [|done..]. by destruct (rerr rp).
Qed.

Lemma renames_finish names lb p1 p2 : within (renames names) (finishEnsure unicode_ToLower lb p1 p2).
Proof. apply renames_still, still_finish. Qed.

Lemma renames_existing names nodes pending lb :
  within (renames names) (ensureExisting unicode_ToLower fuel l nodes pending lb).
Proof.
  unfold ensureExisting.
  apply within_bind; [apply _|apply renames_still, still_service|intros s].
  apply within_bind; [apply _|apply renames_still, still_on_net; solve_within|intros _].
  apply within_bind; [apply _|apply renames_update|intros [p pend]].
  apply within_bind; [apply _|by apply within_deref; apply _|intros lb']. apply renames_finish.
Qed.

Lemma renames_create names req st :
  candidates (lb_svc st) = names → req.(LoadBalancerRequest.Name) ∈ names →
  renames names st (createLoadBalancer req st).2.
Proof.
  intros _ Hin Hc. destruct (adds_create req st) as (id0 & _ & Hsvc).
  assert (candidates (lb_svc (createLoadBalancer req st).2) = names) as Hc'.
  { destruct Hsvc as [->|[Hf _]]; [done|]. by rewrite <- Hc; apply candidates_frame. }
  split; [done|]. clear id0 Hsvc Hc'. unfold createLoadBalancer, service, on_net, zoom, call, mbind, M_bind. simpl.
  match goal with |- context [LoadBalancers_Create ?q _] => set (req' := q) end.
  assert (LoadBalancerRequest.Name req' ∈ names) as Hin' by (unfold req'; by destruct (negb _)).
  pose proof (create_atomic req' (remote (lb_net st))) as Ha.
  destruct (LoadBalancers_Create req' _) as [rp r']. simpl in *. unfold lview, net_view.
  assert (∀ id lb', v_lbs (view r') !! id = Some lb' →
    (∃ lb, v_lbs (view (remote (lb_net st))) !! id = Some lb ∧ LoadBalancer.Name lb = LoadBalancer.Name lb')
    ∨ LoadBalancer.Name lb' ∈ names) as Hgoal.
  { destruct Ha as [->|(lb & -> & _ & Hn)]; [eauto|]. intros id' lb'.
    destruct (decide (id' = LoadBalancer.ID lb)) as [->|Hne].
    - rewrite lookup_insert_eq. intros [= <-]. right. by rewrite Hn.
    - rewrite lookup_insert_ne by done. eauto. }
  destruct (rerr rp); [exact Hgoal|]. by destruct (rval rp).
Qed.

Lemma renames_missing names nodes pending e :
  within (renames names) (ensureMissing unicode_ToLower fuel l nodes pending e).
Proof.
  unfold ensureMissing. apply renames_built. intros st req pend Hc Hn.
  destruct e as [[]| | | | | | |]; try reflexivity. unfold mbind, M_bind.
  pose proof (renames_create names req st Hc Hn) as Hcr.
  destruct (createLoadBalancer req st) as [[lb| | |] st1]; simpl in *; [|done..].
  etrans; [exact Hcr|]. apply renames_finish.
Qed.

Lemma renames_lookup names : within (renames names) (retrieveAndAnnotateLoadBalancer fuel).
Proof.
  apply renames_same; [apply same_lview_retrieveAndAnnotate|]. intros st.
  destruct (retrieveAndAnnotateLoadBalancer fuel st) as [r st'] eqn:E.
  eapply svc_frame_spec; [|exact E]. apply (spec_retrieveAndAnnotate fuel _ _ admits_update managed_ID managed_Type).
Qed.

Lemma renames_patch names base err : within (renames names) (Patch base err).
Proof. apply renames_still, still_within; [apply same_lview_Patch|apply same_svc_Patch]. Qed.

(** Every call keeps to the names of its Service. *)
Lemma renames_call names c st : renames names st (after_call unicode_ToLower fuel l c st).
Proof.
  destruct c as [nodes|nodes]; simpl.
  - enough (within (renames names) (EnsureLoadBalancer unicode_ToLower fuel l nodes)) as Hw by apply Hw.
    unfold EnsureLoadBalancer. apply within_bind; [apply _|apply renames_still, still_service|intros s].
    apply within_bind; [apply _|by apply within_pure; apply _|intros [|]]; [by apply within_ret; apply _|].
    apply within_with_patcher; [apply _|apply renames_patch|].
    apply within_bind; [apply _|apply renames_still, still_service|intros s'].
    apply within_bind; [apply _|by apply within_pure; apply _|intros pending].
    apply within_bind; [apply _|by apply within_attempt, renames_lookup|intros [lb|e]].
    { apply renames_existing. }
    destruct (negb _); [by apply within_throw; apply _|apply renames_missing].
  - enough (within (renames names) (UpdateLoadBalancer fuel l nodes)) as Hw by apply Hw.
    unfold UpdateLoadBalancer. apply within_bind; [apply _|apply renames_still, still_service|intros s].
    apply within_bind; [apply _|by apply within_pure; apply _|intros [|]]; [by apply within_ret; apply _|].
    apply within_with_patcher; [apply _|apply renames_patch|].
    apply within_bind; [apply _|apply renames_lookup|intros lb].
    apply within_bind; [apply _|apply renames_still, still_service|intros s'].
    apply within_bind; [apply _|by apply within_pure; apply _|intros pending].
    apply within_bind; [apply _|apply renames_update|intros [p pend]].
    apply within_bind; [apply _|apply renames_still, still_service|intros s''].
    by apply within_pure; apply _.
Qed.

(** ** Other load balancers *)

Lemma effect_foreign st st' id lb :
  enough_fuel fuel (lb_net st) → effect fuel st st' → ¬ owned (lb_svc st) (slbs st) id →
  slbs st !! id = Some lb → slbs st' !! id = Some lb.
Proof.
  intros Hf [[Hv _]|[(lb0 & st1 & Hr & Hd & _)|(e & st1 & Hr & _ & id0 & Hd & _)]] Hno Hlb.
  - by rewrite Hv.
  - apply retrieveAndAnnotate_Ok in Hr as (Hv & _ & Ho & _); [|done].
    rewrite Hv in Hd. eapply keeps_lb_frame; [|exact Hd|done]. by intros ->.
  - apply retrieveAndAnnotate_Err in Hr as (Hv & _ & _); [|done]. rewrite Hv in Hd.
    rewrite <- Hd in Hlb. by apply lookup_delete_Some in Hlb as [_ ?].
Qed.

(** Where the identifier of a Service comes from. *)
Lemma effect_identifier st st' :
  enough_fuel fuel (lb_net st) → effect fuel st st' →
  let id := getLoadBalancerID (lb_svc st') in
  id = getLoadBalancerID (lb_svc st)
  ∨ owned (lb_svc st) (slbs st) id ∧ is_Some (slbs st !! id)
  ∨ slbs st !! id = None.
Proof.
  intros Hf [[_ Hs]|[(lb0 & st1 & Hr & _ & _ & Hfr)|(e & st1 & Hr & _ & id0 & Hd & Hsvc)]]; simpl.
  - left. by rewrite Hs.
  - apply retrieveAndAnnotate_Ok in Hr as (_ & Hlb & Ho & _ & Hid); [|done]. right; left.
    assert (getLoadBalancerID (lb_svc st') = LoadBalancer.ID lb0) as ->; [|by rewrite Hlb].
    unfold getLoadBalancerID, ann_val. destruct Hfr as [_ Hg]. by rewrite (Hg _ ID_not_cert), Hid.
  - apply retrieveAndAnnotate_Err in Hr as (Hv & Hs & _); [|done]. rewrite Hv, Hs in *.
    destruct Hsvc as [->|(_ & -> & _)]; [by left|]. right; right. rewrite <- Hd. apply lookup_delete_eq.
Qed.

(** ** Deletion *)

Lemma deleted_effect st r st' :
  enough_fuel fuel (lb_net st) → EnsureLoadBalancerDeleted fuel st = (r, st') →
  lb_svc st' = lb_svc st
  ∧ (slbs st' = slbs st ∨ ∃ id, owned (lb_svc st) (slbs st) id ∧ slbs st' = delete id (slbs st))
  ∧ (r = Ok () → getDisownLB (lb_svc st) = Ok true
       ∨ (∃ id, owned (lb_svc st) (slbs st) id ∧ slbs st' !! id = None)
       ∨ ∀ id, owned (lb_svc st) (slbs st) id → slbs st' !! id = None).
Proof.
  intros Hf. unfold EnsureLoadBalancerDeleted, service, pure, mbind, M_bind, attempt; simpl.
  destruct (getDisownLB _) as [[]| | |]; try (by intros [= <- <-]; split_and!; auto).
  pose proof (same_on_net _ (same_view_retrieve fuel (lb_svc st)) st) as Hv.
  destruct (on_net _ st) as [r1 st1] eqn:Er. pose proof Er as [Er' Hs1]%on_net_inv.
  apply (retrieve_spec _ _ _ _ _ Hf) in Er'. unfold same in Hv. simpl in Hv.
  destruct r1 as [p|e| |]; [| |done..].
  2:{ destruct Er' as [[-> Hno]|Hne].
      - intros [= <- <-]. rewrite Hv, Hs1. split_and!; auto.
      - destruct e as [[]| | | | | | |]; try discriminate Hne; intros [= <- <-]; rewrite Hv, Hs1; split_and!; auto; done. }
  destruct Er' as (lb0 & -> & Hlb0 & Ho). simpl. unfold on_net, zoom, call. simpl.
  pose proof (delete_atomic (LoadBalancer.ID lb0) (remote (lb_net st1))) as Ha.
  pose proof (delete_ok (LoadBalancer.ID lb0) (remote (lb_net st1))) as Hok.
  pose proof (delete_404 (LoadBalancer.ID lb0) (remote (lb_net st1))) as H404.
  destruct (LoadBalancers_Delete _ _) as [rp r']. simpl in *. unfold lview, net_view in *. rewrite Hv in Ha.
  intros Hrun. assert (remote (lb_net st') = r' ∧ lb_svc st' = lb_svc st
    ∧ (r = Ok () → v_lbs (view r') !! LoadBalancer.ID lb0 = None)) as (-> & -> & Hgone).
  { destruct (rerr rp); [destruct (is_404 rp)|]; injection Hrun as <- <-; simpl; split_and!; auto; done. }
  split_and!; [done| |].
  - destruct Ha as [->| ->]; [by left|right; eauto].
  - intros Hr. right; left. eauto.
Qed.
End Names.

(* ------------------------------------------------------------------ *)
(** ** Invariants of one Service *)

(** What is left of [single] once deletion has begun: the load balancer that the
    Service is annotated with may be gone already. *)
Definition weak (s : Service.t) (lbs : gmap string LoadBalancer.t) : Prop :=
  at_most_one (named s lbs) ∧ (getLoadBalancerID s ≠ "" → ∀ id, named s lbs id → id = getLoadBalancerID s).

Lemma single_weak s lbs : single s lbs → weak s lbs.
Proof. intros [H1 H2]. split; [done|]. naive_solver. Qed.

Lemma weak_mono s lbs lbs' : weak s lbs → (∀ id, named s lbs' id → named s lbs id) → weak s lbs'.
Proof. intros [H1 H2] Hn. split; [intros id1 id2; auto|eauto]. Qed.

Lemma single_mono s lbs lbs' :
  single s lbs → (∀ id, named s lbs' id → named s lbs id) →
  (getLoadBalancerID s ≠ "" → is_Some (lbs' !! getLoadBalancerID s)) → single s lbs'.
Proof. intros [H1 H2] Hn He. split; [intros id1 id2; auto|]. intros Hne. destruct (H2 Hne). auto. Qed.

Lemma belongs_owned s lbs id : weak s lbs → belongs s lbs id → owned s lbs id.
Proof.
  intros [_ Hw] Hb. unfold owned. destruct (str_eqb (getLoadBalancerID s) "") eqn:E; reflect_eqb.
  - destruct Hb as [Hb|(Hne & Hid & _)]; [exact Hb|congruence].
  - destruct Hb as [Hb|(_ & Hid & _)]; [by apply Hw|done].
Qed.

Lemma owned_belongs s lbs id : owned s lbs id → is_Some (lbs !! id) → belongs s lbs id.
Proof.
  unfold owned, belongs, named. destruct (str_eqb (getLoadBalancerID s) "") eqn:E; reflect_eqb.
  - intros Hn _. by left.
  - intros ->. right. by split_and!.
Qed.

Lemma weak_belongs s lbs : weak s lbs → at_most_one (belongs s lbs).
Proof. unfold belongs. intros [H1 H2] id1 id2 [?|(? & -> & ?)] [?|(? & -> & ?)]; naive_solver. Qed.

Lemma owned_unique s lbs : weak s lbs → at_most_one (owned s lbs).
Proof.
  intros [H1 _] id1 id2. unfold owned. destruct (str_eqb _ ""); [apply H1|congruence].
Qed.

Lemma belongs_exists s lbs id : belongs s lbs id → is_Some (lbs !! id).
Proof. intros [(lb & Hlb & _)|(_ & _ & ?)]; [by exists lb|done]. Qed.

(** Belonging goes with the names and the identifier. *)
Lemma belongs_ext s s' lbs id : same_claim s s' → belongs s' lbs id ↔ belongs s lbs id.
Proof. intros [Hc Hid]. unfold belongs. by rewrite (named_ext s s'), Hid. Qed.

Lemma weak_ext s s' lbs : same_claim s s' → weak s lbs → weak s' lbs.
Proof.
  intros [Hc Hid] [H1 H2]. split.
  - intros id1 id2. rewrite !(named_ext s s') by done. auto.
  - rewrite Hid. intros Hne id. rewrite (named_ext s s') by done. auto.
Qed.

Lemma weak_narrow s lbs lbs' : weak s lbs → (∀ id, belongs s lbs' id → belongs s lbs id) → weak s lbs'.
Proof.
  intros Hw Hb. assert (∀ id, named s lbs' id → belongs s lbs id) as Hn by (intros id ?; apply Hb; by left).
  split; [intros id1 id2 ??; eapply weak_belongs; eauto|].
  intros Hne id Hid. destruct (Hn id Hid) as [?|(_ & ? & _)]; [by apply Hw|done].
Qed.

(* ------------------------------------------------------------------ *)
(** ** The cluster *)

(** A Service is synced while it lives and cleaned up once it is marked for
    deletion. *)
Inductive phase := Live | Deleting.

#[export] Instance phase_eq_dec : EqDecision phase.
Proof. solve_decision. Defined.

(** What holds of one Service and the load balancers. *)
Definition service_ok (p : phase) (s : Service.t) (lbs : gmap string LoadBalancer.t) : Prop :=
  weak s lbs ∧ (p = Live → getLoadBalancerID s ≠ "" → is_Some (lbs !! getLoadBalancerID s)).

Lemma service_ok_single p s lbs : single s lbs → service_ok p s lbs.
Proof. intros Hs. split; [by apply single_weak|]. intros _. apply Hs. Qed.

Lemma service_ok_live s lbs : service_ok Live s lbs → single s lbs.
Proof. intros [[H1 H2] H3]. split; [done|]. intros Hne. split; auto. Qed.

(** Services that have no name in common. *)
Definition apart (s s' : Service.t) : Prop := ∀ n, n ∈ candidates s → n ∉ candidates s'.

(** Nobody else took a load balancer of the Service or made one for it, and what
    a live one has is still there. *)
Definition undisturbed (p : phase) (s : Service.t) (lbs lbs' : gmap string LoadBalancer.t) : Prop :=
  (∀ id, is_Some (lbs' !! id) → belongs s lbs' id ↔ belongs s lbs id)
  ∧ (p = Live → ∀ id, belongs s lbs id → is_Some (lbs' !! id)).

Lemma undisturbed_refl p s lbs : undisturbed p s lbs lbs.
Proof. split; [done|]. intros _ id. apply belongs_exists. Qed.

Lemma undisturbed_belongs p s lbs lbs' id : undisturbed p s lbs lbs' → belongs s lbs' id → belongs s lbs id.
Proof. intros [Hu _] Hb. apply Hu; [by eapply belongs_exists|done]. Qed.

Lemma undisturbed_ok p s lbs lbs' : undisturbed p s lbs lbs' → service_ok p s lbs → service_ok p s lbs'.
Proof.
  intros Hu [Hw Hl]. split; [eapply weak_narrow; [done|]; intros id; by eapply undisturbed_belongs|].
  intros Hp Hne. destruct Hu as [_ Hu]. apply Hu; [done|]. right. auto.
Qed.

Lemma owned_or_not s lbs id : owned s lbs id ∨ ¬ owned s lbs id.
Proof.
  unfold owned, named. destruct (str_eqb _ _).
  - destruct (lbs !! id) as [lb|]; [|right; naive_solver].
    destruct (decide (LoadBalancer.Name lb ∈ candidates s)); [left; eauto|right; naive_solver].
  - destruct (decide (id = getLoadBalancerID s)); auto.
Qed.

Section Cluster.
Context {R : Type}.
Context `{!GodoPaging, !GodoLoadBalancers R, !GodoCertificates R, !GodoDroplets R, !Kube R, !IPNets}.
Context `{!ApiLaws R, !AtomicWrites R}.
Variables (unicode_ToLower : string → string) (fuel : nat) (l : loadBalancers.t).

(** The remote side, the Services of type LoadBalancer as the cluster stores
    them, and the load balancers that were made, or are kept, for others. *)
Record cluster := Cluster {
  c_net : net R;
  c_svcs : gmap string (Service.t * phase);
  c_foreign : string → Prop;
}.

Definition clbs (c : cluster) : gmap string LoadBalancer.t := v_lbs (net_view (c_net c)).

(** The API does not give out an identifier that a Service still carries. *)
Definition fresh_ids (c : cluster) (lbs' : gmap string LoadBalancer.t) : Prop :=
  ∀ k s p, c_svcs c !! k = Some (s, p) → is_Some (lbs' !! getLoadBalancerID s) →
    is_Some (clbs c !! getLoadBalancerID s).

(** The load balancers that a Service gives up when it goes: those it had, if
    its annotation disowns them. *)
Definition released (s : Service.t) (lbs : gmap string LoadBalancer.t) (id : string) : Prop :=
  getDisownLB s = Ok true ∧ belongs s lbs id.

Inductive cluster_step : relation cluster :=
(** A Service appears; if it is annotated with a load balancer, with one that
    no other Service has. *)
| svc_created c k s :
    c_svcs c !! k = None → single s (clbs c) →
    (∀ k' s' p, c_svcs c !! k' = Some (s', p) →
       apart s s' ∧ ∀ id, belongs s (clbs c) id → ¬ belongs s' (clbs c) id) →
    cluster_step c (Cluster (c_net c) (<[k := (s, Live)]> (c_svcs c)) (c_foreign c))
(** It is edited, except for the annotations that name its load balancer. *)
| svc_edited c k s s' p :
    c_svcs c !! k = Some (s, p) → same_claim s s' →
    cluster_step c (Cluster (c_net c) (<[k := (s', p)]> (c_svcs c)) (c_foreign c))
(** The controller syncs it; the patch is stored, or lost. *)
| svc_synced c k s call :
    let st' := after_call unicode_ToLower fuel l call (LBState (c_net c) s) in
    c_svcs c !! k = Some (s, Live) → enough_fuel fuel (c_net c) → fresh_ids c (v_lbs (lview st')) →
    cluster_step c (Cluster (lb_net st') (<[k := (lb_svc st', Live)]> (c_svcs c)) (c_foreign c))
| svc_synced_lost c k s call :
    let st' := after_call unicode_ToLower fuel l call (LBState (c_net c) s) in
    c_svcs c !! k = Some (s, Live) → enough_fuel fuel (c_net c) → fresh_ids c (v_lbs (lview st')) →
    cluster_step c (Cluster (lb_net st') (c_svcs c) (c_foreign c))
(** It is marked for deletion, by a user or by a change of its type. *)
| svc_marked c k s :
    c_svcs c !! k = Some (s, Live) →
    cluster_step c (Cluster (c_net c) (<[k := (s, Deleting)]> (c_svcs c)) (c_foreign c))
(** Its clean-up fails and is retried later, or succeeds and the Service goes. *)
| svc_cleanup_failed c k s r st' :
    c_svcs c !! k = Some (s, Deleting) → enough_fuel fuel (c_net c) →
    EnsureLoadBalancerDeleted fuel (LBState (c_net c) s) = (r, st') → r ≠ Ok () →
    cluster_step c (Cluster (lb_net st') (c_svcs c) (c_foreign c))
| svc_cleanup_done c k s st' :
    c_svcs c !! k = Some (s, Deleting) → enough_fuel fuel (c_net c) →
    EnsureLoadBalancerDeleted fuel (LBState (c_net c) s) = (Ok (), st') →
    cluster_step c (Cluster (lb_net st') (delete k (c_svcs c))
      (λ id, c_foreign c id ∨ released s (clbs c) id))
(** Others create, change and delete load balancers, but keep off those of the
    Services, save that they may remove one whose Service goes. *)
| others_act c n' :
    let lbs' := v_lbs (net_view n') in
    (∀ k s p, c_svcs c !! k = Some (s, p) → undisturbed p s (clbs c) lbs') →
    cluster_step c (Cluster n' (c_svcs c)
      (λ id, c_foreign c id ∨ clbs c !! id = None ∧ is_Some (lbs' !! id))).

(** ** The invariant *)

Record accounted (c : cluster) : Prop := {
  acc_ok k s p : c_svcs c !! k = Some (s, p) → service_ok p s (clbs c);
  acc_apart k1 s1 p1 k2 s2 p2 : c_svcs c !! k1 = Some (s1, p1) → c_svcs c !! k2 = Some (s2, p2) →
    k1 ≠ k2 → apart s1 s2;
  acc_unshared k1 s1 p1 k2 s2 p2 id : c_svcs c !! k1 = Some (s1, p1) → c_svcs c !! k2 = Some (s2, p2) →
    k1 ≠ k2 → belongs s1 (clbs c) id → ¬ belongs s2 (clbs c) id;
  acc_no_orphan id : is_Some (clbs c !! id) →
    c_foreign c id ∨ ∃ k s p, c_svcs c !! k = Some (s, p) ∧ belongs s (clbs c) id;
}.

(** ** Steps of one Service *)

(** One Service and the load balancers change, the other Services are not
    disturbed: what the Service has now it had before, or nobody had. *)
Lemma accounted_change c n' k s p s1 p1 :
  let lbs' := v_lbs (net_view n') in
  accounted c → c_svcs c !! k = Some (s, p) → candidates s1 = candidates s → service_ok p1 s1 lbs' →
  (∀ k' s' p', c_svcs c !! k' = Some (s', p') → k' ≠ k → undisturbed p' s' (clbs c) lbs') →
  (∀ id, is_Some (lbs' !! id) → belongs s1 lbs' id ↔ belongs s (clbs c) id ∨ clbs c !! id = None) →
  accounted (Cluster n' (<[k := (s1, p1)]> (c_svcs c)) (c_foreign c)).
Proof.
  intros lbs' [Hok Hap Hun Hor] Hk Hc Hok1 Hu Hb.
  assert (Hopp : ∀ k' s' p' id, c_svcs c !! k' = Some (s', p') → k' ≠ k → belongs s1 lbs' id → ¬ belongs s' lbs' id).
  { intros k' s' p' id Hk' Hne Hb1 Hb'%(undisturbed_belongs p' s' (clbs c)); [|by eauto].
    pose proof Hb' as [lb Hlb]%belongs_exists.
    apply Hb in Hb1 as [Hb1|Hnone]; [|congruence|by eapply belongs_exists].
    by apply (Hun k s p k' s' p' id Hk Hk' (not_eq_sym Hne)). }
  split; simpl.
  - intros k' s' p' [[-> [= <- <-]]|[Hne Hk']]%lookup_insert_Some; [done|]. eapply undisturbed_ok; eauto.
  - intros k1 t1 q1 k2 t2 q2 [[-> [= <- <-]]|[Hne1 H1]]%lookup_insert_Some
      [[-> [= <- <-]]|[Hne2 H2]]%lookup_insert_Some Hne; [done| | |by eauto].
    all: unfold apart; rewrite Hc; eapply Hap; eauto.
  - intros k1 t1 q1 k2 t2 q2 id [[-> [= <- <-]]|[Hne1 H1]]%lookup_insert_Some
      [[-> [= <- <-]]|[Hne2 H2]]%lookup_insert_Some Hne Hb1 Hb2; [done|by eapply Hopp..|].
    eapply (Hun k1 t1 q1 k2 t2 q2); eauto using undisturbed_belongs.
  - intros id Hex. unfold clbs in Hex |- *. simpl in *. fold lbs' in Hex |- *.
    destruct (clbs c !! id) as [lb|] eqn:Elb.
    2:{ right. exists k, s1, p1. split; [apply lookup_insert_eq|]. apply Hb; auto. }
    destruct (Hor id (mk_is_Some _ _ Elb)) as [?|(k' & s' & p' & Hk' & Hb')]; [by left|right].
    destruct (decide (k' = k)) as [->|Hne].
    + exists k, s1, p1. split; [apply lookup_insert_eq|]. apply Hb; [done|left]. congruence.
    + exists k', s', p'. rewrite lookup_insert_ne by done. split; [done|]. by apply (Hu k' s' p').
Qed.

(** The Services that a call is not about. *)
Lemma synced_others c k s call k' s' p' :
  let st' := after_call unicode_ToLower fuel l call (LBState (c_net c) s) in
  accounted c → c_svcs c !! k = Some (s, Live) → enough_fuel fuel (c_net c) →
  fresh_ids c (v_lbs (lview st')) → c_svcs c !! k' = Some (s', p') → k' ≠ k →
  undisturbed p' s' (clbs c) (v_lbs (lview st')).
Proof.
  intros st' [Hok Hap Hun _] Hk Hf Hfr Hk' Hne.
  pose proof (effect_call unicode_ToLower fuel l call (LBState (c_net c) s) Hf) as He.
  destruct (renames_call unicode_ToLower fuel l (candidates s) call (LBState (c_net c) s) eq_refl) as [_ Hn].
  assert (Hkeep : ∀ id lb, belongs s' (clbs c) id → clbs c !! id = Some lb → v_lbs (lview st') !! id = Some lb).
  { intros id lb Hb Hlb. apply (effect_foreign fuel (LBState (c_net c) s) st' id lb Hf He); [|exact Hlb].
    intros Ho. apply (Hun k s Live k' s' p' id Hk Hk' (not_eq_sym Hne)); [|done].
    apply owned_belongs; [exact Ho|]. rewrite Hlb. by eexists. }
  split.
  - intros id Hex. split.
    + intros [(lb & Hlb & Hin)|(Hid & -> & Hs)]; [left|right; split_and!; eauto].
      destruct (Hn id lb Hlb) as [(lb0 & Hlb0 & Heq)|Hin']; [exists lb0; split; [done|congruence]|].
      by destruct (Hap k' s' p' k s Live Hk' Hk Hne _ Hin).
    + intros Hb. pose proof Hb as [lb Hlb]%belongs_exists. pose proof (Hkeep _ _ Hb Hlb) as Hlb'.
      destruct Hb as [(lb0 & Hlb0 & Hin)|(Hid & -> & Hs)]; [left; exists lb; split; [done|congruence]|right; done].
  - intros _ id Hb. pose proof Hb as [lb Hlb]%belongs_exists. eauto.
Qed.

(** What the Service of a call has afterwards, stored or not. *)
Lemma synced_own c k s call s1 :
  let st' := after_call unicode_ToLower fuel l call (LBState (c_net c) s) in
  accounted c → c_svcs c !! k = Some (s, Live) → enough_fuel fuel (c_net c) →
  fresh_ids c (v_lbs (lview st')) → s1 = s ∨ s1 = lb_svc st' →
  candidates s1 = candidates s ∧ single s1 (v_lbs (lview st'))
  ∧ ∀ id, is_Some (v_lbs (lview st') !! id) →
      belongs s1 (v_lbs (lview st')) id ↔ belongs s (clbs c) id ∨ clbs c !! id = None.
Proof.
  intros st' [Hok Hap Hun _] Hk Hf Hfr Hs1.
  pose proof (effect_call unicode_ToLower fuel l call (LBState (c_net c) s) Hf) as He.
  destruct (renames_call unicode_ToLower fuel l (candidates s) call (LBState (c_net c) s) eq_refl) as [Hc Hn].
  destruct (keeps_single_call unicode_ToLower fuel l call (LBState (c_net c) s) Hf) as (Hst & Hlost & Hid).
  { apply service_ok_live. exact (Hok k s Live Hk). }
  fold st' in He, Hn, Hc, Hst, Hlost, Hid. simpl in Hc, Hn, Hid, Hlost.
  assert (candidates s1 = candidates s) as Hc1 by (destruct Hs1 as [->| ->]; done).
  split_and!; [done|by destruct Hs1 as [->| ->]|]. intros id Hex. split.
  - intros [(lb & Hlb & Hin)|(Hne & -> & _)].
    + destruct (Hn id lb Hlb) as [(lb0 & Hlb0 & Heq)|Hin']; [left; left; exists lb0; split; [done|]; congruence|].
      destruct (clbs c !! id) as [lb0|] eqn:Elb0; [left|by right].
      destruct (owned_or_not s (clbs c) id) as [Ho|Ho]; [apply owned_belongs; [done|by eexists]|].
      pose proof (effect_foreign fuel (LBState (c_net c) s) st' id lb0 Hf He Ho Elb0) as Hlb'. left. exists lb0. split; [done|].
      assert (lb0 = lb) as -> by congruence. by rewrite <- Hc1.
    + destruct Hs1 as [->| ->]; [left; right; split_and!; eauto|].
      destruct (effect_identifier fuel (LBState (c_net c) s) st' Hf He) as [Heq|[[Ho Hso]|Hnone]]; simpl in *; [|left|by right].
      * rewrite Heq in *. left. right. split_and!; eauto.
      * by apply owned_belongs.
  - intros Hb. destruct Hex as [lb' Hlb']. specialize (Hn id lb' Hlb').
    assert (LoadBalancer.Name lb' ∈ candidates s → belongs s1 (v_lbs (lview st')) id) as Hname.
    { intros Hin. left. exists lb'. by rewrite Hc1. }
    destruct Hb as [[(lb & Hlb & Hin)|(Hne & -> & _)]|Hnone].
    + apply Hname. destruct Hn as [(lb0 & Hlb0 & <-)|]; [|done].
      by assert (lb0 = lb) as -> by (unfold clbs, lview in *; simpl in *; congruence).
    + right. rewrite Hlb'. split_and!; [done| |by eexists]. destruct Hs1 as [->| ->]; [done|]. by rewrite Hid.
    + apply Hname. destruct Hn as [(lb0 & Hlb0 & _)|]; [|done].
      unfold clbs, lview in *; simpl in *; congruence.
Qed.

Lemma accounted_synced c k s call s1 :
  let st' := after_call unicode_ToLower fuel l call (LBState (c_net c) s) in
  accounted c → c_svcs c !! k = Some (s, Live) → enough_fuel fuel (c_net c) →
  fresh_ids c (v_lbs (lview st')) → s1 = s ∨ s1 = lb_svc st' →
  accounted (Cluster (lb_net st') (<[k := (s1, Live)]> (c_svcs c)) (c_foreign c)).
Proof.
  intros st' Ha Hk Hf Hfr Hs1. destruct (synced_own c k s call s1 Ha Hk Hf Hfr Hs1) as (Hc & Hsg & Hb).
  apply (accounted_change c (lb_net st') k s Live s1 Live Ha Hk Hc); [by apply service_ok_single| |exact Hb].
  intros k' s' p' Hk' Hne. by apply (synced_others c k s call k' s' p').
Qed.

(** The clean-up of a Service removes at most a load balancer of its own. *)
Lemma cleanup_others c k s r st' k' s' p' :
  accounted c → c_svcs c !! k = Some (s, Deleting) → enough_fuel fuel (c_net c) →
  EnsureLoadBalancerDeleted fuel (LBState (c_net c) s) = (r, st') →
  c_svcs c !! k' = Some (s', p') → k' ≠ k → undisturbed p' s' (clbs c) (v_lbs (net_view (lb_net st'))).
Proof.
  intros [Hok Hap Hun _] Hk Hf Hr Hk' Hne.
  destruct (deleted_effect fuel (LBState (c_net c) s) r st' Hf Hr) as (_ & [Heq|(id0 & Ho & Heq)] & _); simpl in *.
  all: unfold lview in Heq; rewrite Heq; clear Heq.
  { apply undisturbed_refl. }
  assert (Hother : ∀ id, belongs s' (clbs c) id → id ≠ id0).
  { intros id Hb ->. apply (Hun k s Deleting k' s' p' id0 Hk Hk' (not_eq_sym Hne)); [|done].
    apply owned_belongs; [exact Ho|by eapply belongs_exists]. }
  split.
  - intros id Hex. assert (id ≠ id0) as Hid by (intros ->; rewrite lookup_delete_eq in Hex; by destruct Hex).
    unfold belongs, named. by rewrite lookup_delete_ne.
  - intros _ id Hb. rewrite lookup_delete_ne by (apply not_eq_sym; auto). by eapply belongs_exists.
Qed.

Lemma cleanup_own s st r st' :
  weak s (v_lbs (net_view (lb_net st))) → lb_svc st = s → enough_fuel fuel (lb_net st) →
  EnsureLoadBalancerDeleted fuel st = (r, st') →
  (∀ id, is_Some (v_lbs (lview st') !! id) → belongs s (v_lbs (lview st')) id ↔ belongs s (v_lbs (lview st)) id)
  ∧ (∀ id, is_Some (v_lbs (lview st') !! id) → is_Some (v_lbs (lview st) !! id))
  ∧ (r = Ok () → getDisownLB s ≠ Ok true → ∀ id, ¬ belongs s (v_lbs (lview st')) id).
Proof.
  intros Hw Hs Hf Hr. pose proof (deleted_effect fuel st r st' Hf Hr) as (_ & Hd & Hdone). rewrite Hs in *.
  assert (Hsub : ∀ id, is_Some (v_lbs (lview st') !! id) → v_lbs (lview st') !! id = v_lbs (lview st) !! id).
  { intros id Hex. destruct Hd as [->|(id0 & _ & Hd)]; [done|]. rewrite Hd in *.
    destruct (decide (id = id0)) as [->|]; [rewrite lookup_delete_eq in Hex; by destruct Hex|].
    by rewrite lookup_delete_ne. }
  assert (Hiff : ∀ id, is_Some (v_lbs (lview st') !! id) →
    belongs s (v_lbs (lview st')) id ↔ belongs s (v_lbs (lview st)) id).
  { intros id Hex. unfold belongs, named. by rewrite (Hsub id Hex). }
  split_and!; [done|intros id Hex; by rewrite <- (Hsub id Hex)|].
  intros -> Hno id Hb. pose proof (belongs_exists _ _ _ Hb) as Hex. apply Hiff in Hb; [|done].
  apply belongs_owned in Hb; [|done]. rewrite <- not_eq_None_Some in Hex. apply Hex.
  destruct (Hdone eq_refl) as [?|[(id0 & Ho & Hgone)|Hall]]; [done| |by apply Hall].
  by rewrite (owned_unique s _ Hw id id0 Hb Ho).
Qed.

Lemma accounted_cleanup_failed c k s r st' :
  accounted c → c_svcs c !! k = Some (s, Deleting) → enough_fuel fuel (c_net c) →
  EnsureLoadBalancerDeleted fuel (LBState (c_net c) s) = (r, st') →
  accounted (Cluster (lb_net st') (c_svcs c) (c_foreign c)).
Proof.
  intros Ha Hk Hf Hr. destruct (acc_ok c Ha k s Deleting Hk) as [Hw _].
  destruct (cleanup_own s (LBState (c_net c) s) r st' Hw eq_refl Hf Hr) as (Hiff & Hsub & _).
  rewrite <- (insert_id _ k (s, Deleting) Hk).
  apply (accounted_change c (lb_net st') k s Deleting s Deleting Ha Hk eq_refl).
  - split; [|done]. eapply weak_narrow; [exact Hw|]. intros id Hb.
    apply Hiff; [by eapply belongs_exists|done].
  - intros k' s' p'. by apply (cleanup_others c k s r st' k' s' p').
  - intros id Hex. rewrite (Hiff id Hex). split; [by left|]. intros [?|Hnone]; [done|].
    destruct (Hsub id Hex) as [lb Hlb]. unfold clbs, lview in *; simpl in *; congruence.
Qed.

(** A Service goes, and what it had is others' now. *)
Lemma accounted_gone c k s p foreign' :
  accounted c → c_svcs c !! k = Some (s, p) → (∀ id, c_foreign c id → foreign' id) →
  (∀ id, belongs s (clbs c) id → foreign' id) →
  accounted (Cluster (c_net c) (delete k (c_svcs c)) foreign').
Proof.
  intros [Hok Hap Hun Hor] Hk Hf Hb. split; simpl.
  - intros k' s' p' [_ Hk']%lookup_delete_Some. exact (Hok k' s' p' Hk').
  - intros k1 s1 p1 k2 s2 p2 [_ H1]%lookup_delete_Some [_ H2]%lookup_delete_Some. eauto.
  - intros k1 s1 p1 k2 s2 p2 id [_ H1]%lookup_delete_Some [_ H2]%lookup_delete_Some.
    exact (Hun k1 s1 p1 k2 s2 p2 id H1 H2).
  - intros id Hex. destruct (Hor id Hex) as [?|(k' & s' & p' & Hk' & Hb')]; [left; auto|].
    destruct (decide (k' = k)) as [->|Hne].
    + left. apply Hb. congruence.
    + right. exists k', s', p'. by rewrite lookup_delete_ne.
Qed.

Lemma accounted_cleanup_done c k s st' :
  accounted c → c_svcs c !! k = Some (s, Deleting) → enough_fuel fuel (c_net c) →
  EnsureLoadBalancerDeleted fuel (LBState (c_net c) s) = (Ok (), st') →
  accounted (Cluster (lb_net st') (delete k (c_svcs c)) (λ id, c_foreign c id ∨ released s (clbs c) id)).
Proof.
  intros Ha Hk Hf Hr. destruct (acc_ok c Ha k s Deleting Hk) as [Hw _].
  destruct (cleanup_own s (LBState (c_net c) s) (Ok ()) st' Hw eq_refl Hf Hr) as (Hiff & _ & Hgone).
  pose proof (accounted_cleanup_failed c k s _ st' Ha Hk Hf Hr) as Ha'.
  apply (accounted_gone _ k s Deleting _ Ha'); [done|by left|]. intros id Hb. right.
  assert (getDisownLB s = Ok true) as Hd.
  { destruct (getDisownLB s) as [[]| | |] eqn:E; [done|exfalso..]; by apply (Hgone eq_refl) in Hb. }
  split; [done|]. apply Hiff; [by eapply belongs_exists|done].
Qed.

Lemma accounted_created c k s :
  accounted c → c_svcs c !! k = None → single s (clbs c) →
  (∀ k' s' p, c_svcs c !! k' = Some (s', p) →
     apart s s' ∧ ∀ id, belongs s (clbs c) id → ¬ belongs s' (clbs c) id) →
  accounted (Cluster (c_net c) (<[k := (s, Live)]> (c_svcs c)) (c_foreign c)).
Proof.
  intros [Hok Hap Hun Hor] Hk Hs Hother.
  assert (Hsym : ∀ t t', apart t t' → apart t' t) by (intros t t' Ht n Hn Hn'; by apply (Ht n)).
  split; simpl.
  - intros k' s' p' [[-> [= <- <-]]|[Hne Hk']]%lookup_insert_Some; [by apply service_ok_single|eauto].
  - intros k1 t1 q1 k2 t2 q2 [[-> [= <- <-]]|[Hne1 H1]]%lookup_insert_Some
      [[-> [= <- <-]]|[Hne2 H2]]%lookup_insert_Some Hne; [done| | |by eauto].
    + by destruct (Hother _ _ _ H2).
    + apply Hsym. by destruct (Hother _ _ _ H1).
  - intros k1 t1 q1 k2 t2 q2 id [[-> [= <- <-]]|[Hne1 H1]]%lookup_insert_Some
      [[-> [= <- <-]]|[Hne2 H2]]%lookup_insert_Some Hne Hb1 Hb2; [done| | |by eapply (Hun k1 t1 q1 k2 t2 q2)].
    + by destruct (Hother _ _ _ H2) as [_ Hn]; apply (Hn id).
    + by destruct (Hother _ _ _ H1) as [_ Hn]; apply (Hn id).
  - intros id Hex. destruct (Hor id Hex) as [?|(k' & s' & p' & Hk' & Hb)]; [by left|right].
    exists k', s', p'. rewrite lookup_insert_ne; [done|congruence].
Qed.

(** The Service changes, the load balancers do not. *)
Lemma accounted_service c k s p s1 p1 :
  accounted c → c_svcs c !! k = Some (s, p) → same_claim s s1 → (p1 = Live → p = Live) →
  accounted (Cluster (c_net c) (<[k := (s1, p1)]> (c_svcs c)) (c_foreign c)).
Proof.
  intros Ha Hk Hc Hp. apply (accounted_change c (c_net c) k s p s1 p1 Ha Hk); [apply Hc| | |].
  - destruct (acc_ok c Ha k s p Hk) as [Hw Hl]. split; [by eapply weak_ext|].
    destruct Hc as [_ ->]. auto.
  - intros k' s' p' _ _. apply undisturbed_refl.
  - intros id Hex. rewrite (belongs_ext s s1) by done. split; [by left|]. intros [?|Hnone]; [done|].
    destruct Hex as [lb Hlb]. unfold clbs in Hnone. congruence.
Qed.

Lemma accounted_others c n' :
  let lbs' := v_lbs (net_view n') in
  accounted c → (∀ k s p, c_svcs c !! k = Some (s, p) → undisturbed p s (clbs c) lbs') →
  accounted (Cluster n' (c_svcs c) (λ id, c_foreign c id ∨ clbs c !! id = None ∧ is_Some (lbs' !! id))).
Proof.
  intros lbs' [Hok Hap Hun Hor] Hu. split; simpl.
  - intros k s p Hk. eapply undisturbed_ok; eauto.
  - done.
  - intros k1 s1 p1 k2 s2 p2 id H1 H2 Hne Hb1 Hb2.
    eapply (Hun k1 s1 p1 k2 s2 p2); eauto using undisturbed_belongs.
  - intros id Hex. destruct (clbs c !! id) as [lb|] eqn:E; [|by left; right].
    destruct (Hor id (mk_is_Some _ _ E)) as [?|(k & s & p & Hk & Hb)]; [by left; left|right].
    exists k, s, p. split; [done|]. by apply (Hu k s p).
Qed.

Lemma accounted_step c c' : accounted c → cluster_step c c' → accounted c'.
Proof.
  intros Ha Hstep.
  destruct Hstep as [c k s Hk Hs Ho|c k s s' p Hk Hc|c k s call st' Hk Hf Hfr|c k s call st' Hk Hf Hfr
    |c k s Hk|c k s r st' Hk Hf Hr _|c k s st' Hk Hf Hr|c n' lbs' Hu].
  - by apply accounted_created.
  - by eapply accounted_service.
  - eapply accounted_synced; eauto.
  - rewrite <- (insert_id (c_svcs c) k (s, Live) Hk). eapply accounted_synced; eauto.
  - eapply accounted_service; [done..|].  done.
  - by eapply accounted_cleanup_failed.
  - by eapply accounted_cleanup_done.
  - by apply accounted_others.
Qed.

(** The cluster before its first Service: whatever load balancers the account
    has are others'. *)
Definition cluster_initial (c : cluster) : Prop :=
  c_svcs c = ∅ ∧ ∀ id, is_Some (clbs c !! id) → c_foreign c id.

Lemma cluster_initial_accounted c : cluster_initial c → accounted c.
Proof.
  intros [He Hf]. split; rewrite ?He; [intros k s p|intros k1 s1 p1 k2 s2 p2|intros k1 s1 p1 k2 s2 p2 id|];
    try by rewrite lookup_empty. intros id Hex. left. auto.
Qed.

(** The load balancers of a cluster are accounted for.  Start with no Service
    of type LoadBalancer, and let Services be created, synced with any calls and
    any API failures, edited, marked for deletion and cleaned up in any
    interleaving, with patches lost, clean-ups failing and others using the same
    account.  Then at all times no Service has two load balancers, no load
    balancer belongs to two Services, and every load balancer of the account
    belongs to a Service that still exists, was not made for one, or was given
    up by one that disowned it: none is leaked. *)
Theorem cluster_accounted c c' :
  cluster_initial c → rtc cluster_step c c' →
  (∀ k s p, c_svcs c' !! k = Some (s, p) → at_most_one (belongs s (clbs c')))
  ∧ (∀ k1 s1 p1 k2 s2 p2 id, c_svcs c' !! k1 = Some (s1, p1) → c_svcs c' !! k2 = Some (s2, p2) →
       belongs s1 (clbs c') id → belongs s2 (clbs c') id → k1 = k2)
  ∧ (∀ id, is_Some (clbs c' !! id) →
       c_foreign c' id ∨ ∃ k s p, c_svcs c' !! k = Some (s, p) ∧ belongs s (clbs c') id).
Proof.
  intros Hi Hr. assert (accounted c') as [Hok Hap Hun Hor].
  { apply cluster_initial_accounted in Hi. induction Hr as [|c c1 c' Hs _ IH]; [done|].
    apply IH. by eapply accounted_step. }
  split_and!; [|intros k1 s1 p1 k2 s2 p2 id H1 H2 Hb1 Hb2|done].
  - intros k s p Hk. apply weak_belongs. by destruct (Hok k s p Hk).
  - destruct (decide (k1 = k2)) as [|Hne]; [done|]. by destruct (Hun k1 s1 p1 k2 s2 p2 id).
Qed.
End Cluster.
