(* ===== verification/LBOverlap.v ===== *)
(** * Calls that overlap

    The service controller has a worker for Services and one for the nodes of
    Services, so that while EnsureLoadBalancer runs for a Service, any number of
    UpdateLoadBalancer and GetLoadBalancer calls may run for the same Service.
    Each call looks the load balancer up, works from the Service as it was then,
    writes to the load balancer at most once and patches the Service at the end;
    anything may happen between its look-up and its write.  Here each call is
    taken apart there, and the invariant of [LBLifecycle] is shown to survive. *)

From stdpp Require Import base gmap strings list relations.
From Stdlib Require Import ZArith Lia.
From S2P Require Import Prelude GoStd Types Annotations Nodes Api Rules Requests LoadBalancers LBFacts ApiLaws LBSpec LBLifecycle LBCluster.
#[local] Open Scope Z_scope.

(** ** Tasks *)

(** What a call is about to do once it has looked the load balancer up. *)
Inductive work :=
| Existing (nodes pending : list Node.t) (lb : LoadBalancer.t)   (** EnsureLoadBalancer, found *)
| Missing (nodes pending : list Node.t) (lbErr : error)          (** EnsureLoadBalancer, not found *)
| Updating (nodes : list Node.t) (lb : LoadBalancer.t)           (** UpdateLoadBalancer *)
| Getting (lb : LoadBalancer.t).                                 (** GetLoadBalancer *)

(** A call on its way: the Service that its patcher copied, and the working
    object with the annotations written so far. *)
Record task := Task { t_base : Service.t; t_svc : Service.t; t_work : work }.

(** A strategic merge patch from [base] to [upd], applied to the object that is
    stored now: the managed annotations that differ are set, the rest is kept. *)
Definition patch_annotation (base upd : Service.t) (cur : Service.t) (k : string) : Service.t :=
  if bool_decide (svc_get base k = svc_get upd k) then cur
  else updateServiceAnnotation cur k (svc_val upd k).

Definition apply_patch (base upd cur : Service.t) : Service.t :=
  foldl (patch_annotation base upd) cur managed_annotations.

Lemma option_list_elem {A} (x : A) mx : x ∈ option_list mx → mx = Some x.
Proof. destruct mx; simpl; set_solver. Qed.

Lemma patch_annotation_frame base upd cur k :
  k ∈ managed_annotations → svc_frame managed_annotations cur (patch_annotation base upd cur k).
Proof. intros Hk. unfold patch_annotation. case_bool_decide; [done|]. by apply svc_frame_update. Qed.

Lemma apply_patch_frame base upd cur : svc_frame managed_annotations cur (apply_patch base upd cur).
Proof.
  unfold apply_patch. assert (∀ K, K ⊆ managed_annotations → ∀ cur,
    svc_frame managed_annotations cur (foldl (patch_annotation base upd) cur K)) as Hall; [|by apply Hall].
  intros K. induction K as [|k K IH]; intros HK cur'; simpl; [done|].
  etrans; [apply patch_annotation_frame; apply HK; left|]. apply IH. set_solver.
Qed.

(** The identifier is the patch's if the call changed it. *)
Lemma patch_annotation_ID base upd cur k :
  k ≠ annDOLoadBalancerID → getLoadBalancerID (patch_annotation base upd cur k) = getLoadBalancerID cur.
Proof.
  intros Hk. unfold patch_annotation, getLoadBalancerID. case_bool_decide; [done|].
  rewrite ann_val_update. by rewrite decide_False.
Qed.

Lemma apply_patch_ID base upd cur :
  getLoadBalancerID (apply_patch base upd cur)
  = if bool_decide (svc_get base annDOLoadBalancerID = svc_get upd annDOLoadBalancerID)
    then getLoadBalancerID cur else getLoadBalancerID upd.
Proof.
  unfold apply_patch. simpl. rewrite !patch_annotation_ID by (vm_compute; discriminate).
  unfold patch_annotation, getLoadBalancerID. case_bool_decide; [done|].
  rewrite ann_val_update. by rewrite decide_True.
Qed.

(** One load balancer of the Service is written: it stays the only one. *)
Lemma only_written s s' lbs lbs' id :
  weak s lbs → belongs s lbs id →
  delete id lbs' = delete id lbs → is_Some (lbs' !! id) →
  (∀ lb', lbs' !! id = Some lb' →
     (∃ lb, lbs !! id = Some lb ∧ lb.(LoadBalancer.Name) = lb'.(LoadBalancer.Name))
     ∨ lb'.(LoadBalancer.Name) ∈ candidates s) →
  candidates s' = candidates s → getLoadBalancerID s' = getLoadBalancerID s ∨ getLoadBalancerID s' = id →
  (∀ id', belongs s lbs id' ↔ id' = id) ∧ (∀ id', belongs s' lbs' id' ↔ id' = id)
  ∧ single s' lbs' ∧ (getLoadBalancerID s ≠ "" → getLoadBalancerID s' = getLoadBalancerID s).
Proof.
  intros Hs Hb Hd Hex' Hn Hc HID. pose proof (weak_belongs _ _ Hs) as Huniq.
  assert (HIDs : getLoadBalancerID s ≠ "" → getLoadBalancerID s = id).
  { intros Hne. symmetry. destruct Hb as [Hb|(_ & ? & _)]; [by apply Hs|done]. }
  assert (Hb' : belongs s' lbs' id).
  { destruct Hb as [(lb & Hlb & Hin)|(Hne & Heq & _)].
    - left. destruct Hex' as [lb' Hlb']. exists lb'. split; [done|]. rewrite Hc.
      destruct (Hn lb' Hlb') as [(lb0 & Hlb0 & <-)|Hin']; [|done]. by assert (lb0 = lb) as -> by congruence.
    - right. split_and!; [done| |done]. destruct HID; congruence. }
  assert (Hback : ∀ id', belongs s' lbs' id' → id' = id).
  { intros id' [(lb & Hlb & Hin)|(Hne & -> & _)].
    - destruct (decide (id' = id)) as [|Hne]; [done|]. apply Huniq; [|done]. left. exists lb.
      split; [|by rewrite <- Hc]. rewrite <- (lookup_delete_ne _ id id') by done. rewrite <- Hd.
      by rewrite lookup_delete_ne.
    - destruct HID as [HID|]; [|done]. rewrite HID in *. auto. }
  split_and!; [|intros id'; split; [apply Hback|by intros ->]| |].
  - intros id'. split; [|by intros ->]. intros Hbi. by apply Huniq.
  - split; [intros id1 id2 H1 H2; rewrite (Hback id1), (Hback id2) by (by left); done|]. intros Hne.
    assert (getLoadBalancerID s' = id) as -> by (destruct HID as [HID|]; [rewrite HID in *; auto|done]).
    split; [done|]. intros id' ?. apply Hback. by left.
  - intros Hne. destruct HID as [|HID]; [done|]. rewrite HID. symmetry. auto.
Qed.

#[local] Set Default Proof Using "Type*".

Section Overlap.
Context {R : Type}.
Context `{!GodoPaging, !GodoLoadBalancers R, !GodoCertificates R, !GodoDroplets R, !Kube R, !IPNets}.
Context `{!ApiLaws R, !AtomicWrites R}.
Variables (unicode_ToLower : string → string) (fuel : nat) (l : loadBalancers.t).

Abbreviation slbs st := (v_lbs (lview st)).

(** The first part of each method, up to and with the look-up: no task means that
    the call is over. *)
Definition begin_ensure (nodes : list Node.t) (st : lbst R) : option task * lbst R :=
  match getDisownLB (lb_svc st) with
  | Ok false =>
      match prepareNodesForLBSync l (lb_svc st) nodes with
      | Ok pending =>
          match retrieveAndAnnotateLoadBalancer fuel st with
          | (Ok lb, st1) => (Some (Task (lb_svc st) (lb_svc st1) (Existing nodes pending lb)), st1)
          | (Err e, st1) =>
              if errors_Is e errLBNotFound
              then (Some (Task (lb_svc st) (lb_svc st1) (Missing nodes pending e)), st1) else (None, st1)
          | (_, st1) => (None, st1)
          end
      | _ => (None, st)
      end
  | _ => (None, st)
  end.

Definition begin_update (nodes : list Node.t) (st : lbst R) : option task * lbst R :=
  match getDisownLB (lb_svc st) with
  | Ok false =>
      match retrieveAndAnnotateLoadBalancer fuel st with
      | (Ok lb, st1) => (Some (Task (lb_svc st) (lb_svc st1) (Updating nodes lb)), st1)
      | (_, st1) => (None, st1)
      end
  | _ => (None, st)
  end.

Definition begin_get (st : lbst R) : option task * lbst R :=
  match retrieveAndAnnotateLoadBalancer fuel st with
  | (Ok lb, st1) => (Some (Task (lb_svc st) (lb_svc st1) (Getting lb)), st1)
  | (_, st1) => (None, st1)
  end.

(** The rest of the method, without the deferred patch, *)
Definition rest (w : work) : M (lbst R) unit :=
  match w with
  | Existing nodes pending lb => ensureExisting unicode_ToLower fuel l nodes pending lb;; mret tt
  | Missing nodes pending e => ensureMissing unicode_ToLower fuel l nodes pending e;; mret tt
  | Updating nodes lb =>
      s ← service;
      pending ← pure (prepareNodesForLBSync l s nodes);
      '(_, pendingNotReady) ← updateLoadBalancer fuel l lb nodes;
      s ← service;
      pure (retryIfNodesPendingInit s pending pendingNotReady)
  | Getting lb => mret tt
  end.

(** and with it, on the services as they are by then. *)
Definition finish (t : task) (n : net R) : lbst R :=
  let '(r, st) := rest (t_work t) (LBState n (t_svc t)) in (patch_result (t_base t) r st).2.

(** ** The parts make up the methods *)

#[local] Arguments patch_result : simpl never.
#[local] Arguments finish : simpl never.

Lemma patch_result_state {A B} base (r : result A) (r' : result B) (st : lbst R) :
  match r, r' with
  | Ok _, Ok _ | Panic, Panic | NoFuel, NoFuel => True
  | Err e, Err e' => e = e'
  | _, _ => False
  end → (patch_result base r st).2 = (patch_result base r' st).2.
Proof.
  unfold patch_result. destruct r, r'; try done; intros H'; subst; simpl;
    by destruct (Patch _ _ st) as [[[]| | |] ?].
Qed.

(** Nothing annotated, nothing patched. *)
Lemma patch_result_unchanged {A} (r : result A) (st : lbst R) base :
  lb_svc st = base → (patch_result base r st).2 = st.
Proof.
  intros <-. unfold patch_result, Patch, service, mbind, M_bind.
  destruct r; simpl; rewrite ?bool_decide_true by done; done.
Qed.

Lemma lookup_unchanged st r st1 :
  retrieveAndAnnotateLoadBalancer fuel st = (r, st1) → is_ok r = false → lb_svc st1 = lb_svc st.
Proof.
  unfold retrieveAndAnnotateLoadBalancer, service, mbind, M_bind.
  destruct (on_net _ st) as [[p| | |] st2] eqn:E; apply on_net_inv in E as [_ E]; simpl; [|by intros [= <- <-]..].
  destruct p; simpl; by intros [= <- <-].
Qed.

Lemma finish_patched {A} base w st1 (r : result A) st2 :
  (∃ r', rest w st1 = (r', st2) ∧
     match r, r' with
     | Ok _, Ok _ | Panic, Panic | NoFuel, NoFuel => True
     | Err e, Err e' => e = e'
     | _, _ => False
     end) →
  (patch_result base r st2).2 = finish (Task base (lb_svc st1) w) (lb_net st1).
Proof.
  intros (r' & Hr & Hm). unfold finish. simpl. destruct st1 as [n s]. simpl in *. rewrite Hr.
  by apply patch_result_state.
Qed.

Lemma ensure_split nodes st :
  let '(t, st1) := begin_ensure nodes st in
  (EnsureLoadBalancer unicode_ToLower fuel l nodes st).2
  = match t with None => st1 | Some t => finish t (lb_net st1) end.
Proof.
  unfold begin_ensure, EnsureLoadBalancer, service, pure, with_patcher, mbind, M_bind, attempt. simpl.
  destruct (getDisownLB _) as [[]| | |]; [done| |done..].
  destruct (prepareNodesForLBSync _ _ _) as [pending| | |]; simpl; [|first [done|by apply patch_result_unchanged]..].
  destruct (retrieveAndAnnotateLoadBalancer fuel st) as [[lb|e| |] st1] eqn:Er; simpl.
  3-4: first [done|apply patch_result_unchanged; by eapply lookup_unchanged].
  - destruct (ensureExisting _ _ _ _ _ _ st1) as [r st2] eqn:Ex. apply finish_patched. simpl.
    unfold mbind, M_bind. rewrite Ex. destruct r; by eexists.
  - destruct (errors_Is e errLBNotFound); simpl.
    + destruct (ensureMissing _ _ _ _ _ _ st1) as [r st2] eqn:Ex. apply finish_patched. simpl.
      unfold mbind, M_bind. rewrite Ex. destruct r; by eexists.
    + apply patch_result_unchanged. by eapply lookup_unchanged.
Qed.

Lemma update_split nodes st :
  let '(t, st1) := begin_update nodes st in
  (UpdateLoadBalancer fuel l nodes st).2 = match t with None => st1 | Some t => finish t (lb_net st1) end.
Proof.
  unfold begin_update, UpdateLoadBalancer, with_patcher. unfold service at 1, pure at 1, mbind at 1 2, M_bind at 1 2.
  simpl. destruct (getDisownLB _) as [[]| | |]; [done| |done..].
  unfold mbind at 1, M_bind at 1.
  destruct (retrieveAndAnnotateLoadBalancer fuel st) as [[lb|e| |] st1] eqn:Er.
  2-4: first [done|apply patch_result_unchanged; by eapply lookup_unchanged].
  match goal with |- context [let '(r, s1) := ?m in _] => destruct m as [r st2] eqn:Ex end.
  apply finish_patched. exists r. split; [exact Ex|]. by destruct r.
Qed.

Lemma get_split st :
  let '(t, st1) := begin_get st in
  (GetLoadBalancer fuel st).2 = match t with None => st1 | Some t => finish t (lb_net st1) end.
Proof.
  unfold begin_get, GetLoadBalancer, with_patcher, mbind, M_bind, attempt.
  destruct (retrieveAndAnnotateLoadBalancer fuel st) as [[lb|e| |] st1] eqn:Er.
  - apply finish_patched. simpl. by eexists.
  - pose proof (lookup_unchanged _ _ _ Er eq_refl) as Hs.
    destruct e as [[]| | | | | | |]; by apply patch_result_unchanged.
  - apply patch_result_unchanged. by eapply lookup_unchanged.
  - apply patch_result_unchanged. by eapply lookup_unchanged.
Qed.

(** ** The system *)

(** The remote side, the Service as it is stored, the call of the worker for
    Services and the calls of the others. *)
Record overlap := Overlap {
  o_net : net R;
  o_svc : Service.t;
  o_ensure : option task;
  o_others : list task;
}.

Definition olbs (o : overlap) : gmap string LoadBalancer.t := v_lbs (net_view (o_net o)).

(** The Service after the call: the patch was stored, or lost. *)
Definition patched (stored : bool) (t : task) (st : lbst R) (s : Service.t) : Service.t :=
  if stored then apply_patch (t_base t) (lb_svc st) s else s.

Inductive overlap_step : relation overlap :=
| ensure_begins o nodes t st1 :
    o_ensure o = None → enough_fuel fuel (o_net o) →
    begin_ensure nodes (LBState (o_net o) (o_svc o)) = (t, st1) →
    overlap_step o (Overlap (lb_net st1) (o_svc o) t (o_others o))
| update_begins o nodes t st1 :
    enough_fuel fuel (o_net o) → begin_update nodes (LBState (o_net o) (o_svc o)) = (t, st1) →
    overlap_step o (Overlap (lb_net st1) (o_svc o) (o_ensure o) (option_list t ++ o_others o))
| get_begins o t st1 :
    enough_fuel fuel (o_net o) → begin_get (LBState (o_net o) (o_svc o)) = (t, st1) →
    overlap_step o (Overlap (lb_net st1) (o_svc o) (o_ensure o) (option_list t ++ o_others o))
| ensure_ends o t stored :
    let st := finish t (o_net o) in
    o_ensure o = Some t →
    overlap_step o (Overlap (lb_net st) (patched stored t st (o_svc o)) None (o_others o))
| other_ends o l1 t l2 stored :
    let st := finish t (o_net o) in
    o_others o = l1 ++ t :: l2 →
    overlap_step o (Overlap (lb_net st) (patched stored t st (o_svc o)) (o_ensure o) (l1 ++ l2))
(** The Service is edited, except for what names its load balancer. *)
| service_edited o s :
    same_claim (o_svc o) s → overlap_step o (Overlap (o_net o) s (o_ensure o) (o_others o))
(** Others keep off the Service's names and load balancer. *)
| others_interfere o n' :
    undisturbed Live (o_svc o) (olbs o) (v_lbs (net_view n')) →
    overlap_step o (Overlap n' (o_svc o) (o_ensure o) (o_others o)).

(** ** The invariant *)

(** The load balancer that a call has found. *)
Definition held (w : work) : option string :=
  match w with
  | Existing _ _ lb | Updating _ lb | Getting lb => Some lb.(LoadBalancer.ID)
  | Missing _ _ _ => None
  end.

(** It is the Service's still; a call that found none was right and still is. *)
Definition task_ok (s : Service.t) (lbs : gmap string LoadBalancer.t) (t : task) : Prop :=
  candidates (t_svc t) = candidates s
  ∧ match held (t_work t) with
    | Some id => belongs s lbs id ∧ getLoadBalancerID (t_svc t) = id
    | None => (∀ id, ¬ belongs s lbs id) ∧ t_svc t = t_base t
    end.

Record overlap_ok (o : overlap) : Prop := {
  ok_single : single (o_svc o) (olbs o);
  ok_ensure t : o_ensure o = Some t → task_ok (o_svc o) (olbs o) t;
  ok_others : Forall (λ t, is_Some (held (t_work t)) ∧ task_ok (o_svc o) (olbs o) t) (o_others o);
}.

(** Tasks see the Service and the load balancers only through what belongs. *)
Lemma task_ok_ext s lbs s' lbs' t :
  candidates s' = candidates s → (∀ id, belongs s' lbs' id ↔ belongs s lbs id) →
  task_ok s lbs t → task_ok s' lbs' t.
Proof.
  intros Hc Hb [H1 H2]. split; [congruence|]. destruct (held _).
  - by rewrite Hb.
  - split; [|apply H2]. intros id'. rewrite Hb. apply H2.
Qed.

Lemma overlap_ok_change o n' s' e' others' :
  let lbs' := v_lbs (net_view n') in
  overlap_ok o → single s' lbs' → candidates s' = candidates (o_svc o) →
  (∀ id, belongs s' lbs' id ↔ belongs (o_svc o) (olbs o) id) →
  (∀ t, e' = Some t → o_ensure o = Some t ∨ task_ok s' lbs' t) →
  (∀ t, t ∈ others' → t ∈ o_others o ∨ is_Some (held (t_work t)) ∧ task_ok s' lbs' t) →
  overlap_ok (Overlap n' s' e' others').
Proof.
  intros lbs' [Hs He Ho] Hs' Hc Hb He' Ho'. rewrite Forall_forall in Ho. split; [done| |].
  - intros t Ht. destruct (He' t Ht) as [?|?]; [|done]. eapply task_ok_ext; eauto.
  - rewrite Forall_forall. intros t Ht. destruct (Ho' t Ht) as [Hin|?]; [|done].
    destruct (Ho t Hin). split; [done|]. eapply task_ok_ext; eauto.
Qed.

(** ** Beginnings *)

Lemma lookup_found st lb st1 w :
  enough_fuel fuel (lb_net st) → retrieveAndAnnotateLoadBalancer fuel st = (Ok lb, st1) →
  held w = Some (LoadBalancer.ID lb) →
  slbs st1 = slbs st ∧ task_ok (lb_svc st) (slbs st) (Task (lb_svc st) (lb_svc st1) w).
Proof.
  intros Hf Hr Hw. apply retrieveAndAnnotate_Ok in Hr as (Hv & Hlb & Ho & Hfr & Hid); [|done].
  split; [by rewrite Hv|]. split; [by apply candidates_frame|]. simpl. rewrite Hw. split.
  - apply owned_belongs; [done|]. rewrite Hlb. by eexists.
  - unfold getLoadBalancerID, ann_val. by rewrite Hid.
Qed.

Lemma lookup_missing st e st1 w :
  enough_fuel fuel (lb_net st) → single (lb_svc st) (slbs st) →
  retrieveAndAnnotateLoadBalancer fuel st = (Err e, st1) → errors_Is e errLBNotFound = true → held w = None →
  task_ok (lb_svc st) (slbs st) (Task (lb_svc st) (lb_svc st1) w).
Proof.
  intros Hf Hs Hr He Hw. apply retrieveAndAnnotate_Err in Hr as (_ & Hsvc & Hno); [|done].
  destruct Hno as [[_ Hno]|]; [|congruence]. split; [by rewrite Hsvc|]. simpl. rewrite Hw. split; [|done].
  intros id Hb. pose proof Hb as [lb Hlb]%belongs_exists. apply belongs_owned in Hb; [|by apply single_weak].
  apply Hno in Hb. congruence.
Qed.

(** A look-up changes nothing that is seen. *)
Lemma lookup_still st r st1 :
  retrieveAndAnnotateLoadBalancer fuel st = (r, st1) → slbs st1 = slbs st.
Proof. intros Hr. by rewrite <- (within_run _ _ _ _ _ (same_lview_retrieveAndAnnotate fuel) Hr). Qed.

Lemma begin_ensure_ok nodes st t st1 :
  enough_fuel fuel (lb_net st) → single (lb_svc st) (slbs st) → begin_ensure nodes st = (t, st1) →
  slbs st1 = slbs st ∧ ∀ t', t = Some t' → task_ok (lb_svc st) (slbs st) t'.
Proof.
  intros Hf Hs. unfold begin_ensure. destruct (getDisownLB _) as [[]| | |]; try by intros [= <- <-].
  destruct (prepareNodesForLBSync _ _ _) as [pending| | |]; try by intros [= <- <-].
  destruct (retrieveAndAnnotateLoadBalancer fuel st) as [[lb|e| |] st2] eqn:Er;
    pose proof (lookup_still _ _ _ Er) as Hv; try by intros [= <- <-].
  - intros [= <- <-]. split; [done|]. intros t' [= <-]. by eapply lookup_found.
  - destruct (errors_Is e errLBNotFound) eqn:Ee; intros [= <- <-]; [|done]. split; [done|].
    intros t' [= <-]. by eapply lookup_missing.
Qed.

Definition found_ok (st : lbst R) (t : option task) : Prop :=
  ∀ t', t = Some t' → is_Some (held (t_work t')) ∧ task_ok (lb_svc st) (slbs st) t'.

Lemma begin_update_ok nodes st t st1 :
  enough_fuel fuel (lb_net st) → begin_update nodes st = (t, st1) → slbs st1 = slbs st ∧ found_ok st t.
Proof.
  intros Hf. unfold begin_update, found_ok. destruct (getDisownLB _) as [[]| | |]; try by intros [= <- <-].
  destruct (retrieveAndAnnotateLoadBalancer fuel st) as [[lb|e| |] st2] eqn:Er;
    pose proof (lookup_still _ _ _ Er) as Hv; intros [= <- <-]; try done.
  split; [done|]. intros t' [= <-]. split; [by eexists|]. by eapply lookup_found.
Qed.

Lemma begin_get_ok st t st1 :
  enough_fuel fuel (lb_net st) → begin_get st = (t, st1) → slbs st1 = slbs st ∧ found_ok st t.
Proof.
  intros Hf. unfold begin_get, found_ok.
  destruct (retrieveAndAnnotateLoadBalancer fuel st) as [[lb|e| |] st2] eqn:Er;
    pose proof (lookup_still _ _ _ Er) as Hv; intros [= <- <-]; try done.
  split; [done|]. intros t' [= <-]. split; [by eexists|]. by eapply lookup_found.
Qed.

(** ** Ends *)

Lemma finish_still t n : still (rest (t_work t) (LBState n (t_svc t))).2 (finish t n).
Proof.
  unfold finish. destruct (rest _ _) as [r st]. simpl.
  apply (within_patch_result still (t_base t) r (PreOrder0 := still_preorder)).
  intros err. apply still_within; [apply same_lview_Patch|apply same_svc_Patch].
Qed.

Lemma touches_rest w id : held w = Some id → within (touches id) (rest w).
Proof.
  pose proof (touches_preorder id). destruct w as [nodes pending lb|?|nodes lb|lb]; intros [= <-].
  - apply within_bind; [apply _|apply touches_ensureExisting|intros _; by apply within_ret].
  - simpl. apply within_bind; [apply _|apply touches_still, still_service|intros s].
    apply within_bind; [apply _|by apply within_pure|intros pending].
    apply within_bind; [apply _|apply touches_update|intros [p pend]].
    apply within_bind; [apply _|apply touches_still, still_service|intros s']. by apply within_pure.
  - by apply within_ret.
Qed.

Lemma renames_rest names w : within (renames names) (rest w).
Proof.
  pose proof (renames_preorder names). destruct w as [nodes pending lb|nodes pending e|nodes lb|lb]; simpl.
  - apply within_bind; [apply _|apply renames_existing|intros _; by apply within_ret].
  - apply within_bind; [apply _|apply renames_missing|intros _; by apply within_ret].
  - apply within_bind; [apply _|apply renames_still, still_service|intros s].
    apply within_bind; [apply _|by apply within_pure|intros pending].
    apply within_bind; [apply _|apply renames_update|intros [p pend]].
    apply within_bind; [apply _|apply renames_still, still_service|intros s']. by apply within_pure.
  - by apply within_ret.
Qed.

Lemma finish_renames t n :
  let st := finish t n in
  candidates (lb_svc st) = candidates (t_svc t)
  ∧ ∀ id lb', slbs st !! id = Some lb' →
      (∃ lb, v_lbs (net_view n) !! id = Some lb ∧ lb.(LoadBalancer.Name) = lb'.(LoadBalancer.Name))
      ∨ lb'.(LoadBalancer.Name) ∈ candidates (t_svc t).
Proof.
  simpl. destruct (finish_still t n) as [-> ->].
  exact (renames_rest (candidates (t_svc t)) (t_work t) (LBState n (t_svc t)) eq_refl).
Qed.

(** A call that found the load balancer, at its end: the load balancer stays, or
    stays gone, and no other changes. *)
Lemma finish_held t n id :
  held (t_work t) = Some id → getLoadBalancerID (t_svc t) = id →
  let st := finish t n in
  delete id (slbs st) = delete id (v_lbs (net_view n))
  ∧ (is_Some (v_lbs (net_view n) !! id) ↔ is_Some (slbs st !! id))
  ∧ getLoadBalancerID (lb_svc st) = id.
Proof.
  intros Hw Hid. simpl. destruct (finish_still t n) as [-> ->].
  destruct (touches_rest (t_work t) id Hw (LBState n (t_svc t))) as (Hd & Hx & Hfr). simpl in *.
  split_and!; [done|done|]. rewrite <- Hid. unfold getLoadBalancerID, ann_val. destruct Hfr as [_ Hg].
  by rewrite (Hg _ ID_not_cert).
Qed.

(** What the Service is after the patch of a call. *)
Lemma patched_claim stored t st s :
  candidates (patched stored t st s) = candidates s
  ∧ (getLoadBalancerID (patched stored t st s) = getLoadBalancerID s
     ∨ getLoadBalancerID (patched stored t st s) = getLoadBalancerID (lb_svc st) ∧ lb_svc st ≠ t_base t).
Proof.
  unfold patched. destruct stored; [|by split; [|left]]. split; [apply candidates_frame, apply_patch_frame|].
  rewrite apply_patch_ID. case_bool_decide as Hg; [by left|right]. split; [done|]. congruence.
Qed.

(** The Service has what it had, stored or not. *)
Lemma finish_held_ok s lbs t n id stored :
  v_lbs (net_view n) = lbs → single s lbs → held (t_work t) = Some id → task_ok s lbs t →
  let st := finish t n in
  let s' := patched stored t st s in
  single s' (slbs st) ∧ candidates s' = candidates s
  ∧ (∀ id', belongs s' (slbs st) id' ↔ belongs s lbs id')
  ∧ (getLoadBalancerID s ≠ "" → getLoadBalancerID s' = getLoadBalancerID s).
Proof.
  intros <- Hs Hw [Hct Hok]. rewrite Hw in Hok. destruct Hok as [Hb Hid]. simpl.
  destruct (finish_renames t n) as [_ Hn].
  destruct (finish_held t n id Hw Hid) as (Hd & Hex' & Hid').
  apply proj1 in Hex'. specialize (Hex' (belongs_exists _ _ _ Hb)).
  set (st := finish t n) in *. set (s' := patched stored t st s).
  destruct (patched_claim stored t st s) as [Hc HID]. fold s' in Hc, HID. rewrite Hid' in HID.
  destruct (only_written s s' (v_lbs (net_view n)) (slbs st) id) as (Hone & Hone' & Hsg & Hkeep); try done.
  { by apply single_weak. }
  { intros lb' Hlb'. rewrite <- Hct. by apply Hn. }
  { destruct HID as [|[? _]]; auto. }
  split_and!; [done..| |done]. intros id'. by rewrite Hone', Hone.
Qed.

(** A call that found none, at its end: nothing is changed, or one is added. *)
Lemma finish_missing t n :
  held (t_work t) = None →
  let st := finish t n in
  (slbs st = v_lbs (net_view n) ∧ lb_svc st = t_svc t)
  ∨ ∃ id, delete id (slbs st) = v_lbs (net_view n)
      ∧ (lb_svc st = t_svc t ∨ getLoadBalancerID (lb_svc st) = id ∧ is_Some (slbs st !! id)).
Proof.
  intros Hw. simpl. destruct (finish_still t n) as [-> ->].
  destruct (t_work t) as [|nodes pending e| |]; try done. simpl. unfold mbind, M_bind.
  pose proof (ensureMissing_effect unicode_ToLower fuel l nodes pending e (LBState n (t_svc t))) as Heff.
  destruct (ensureMissing _ _ _ _ _ _ _) as [r st]. simpl in Heff |- *.
  assert (still (LBState n (t_svc t)) st ∨ adds (LBState n (t_svc t)) st →
    (slbs st = v_lbs (net_view n) ∧ lb_svc st = t_svc t)
    ∨ ∃ id, delete id (slbs st) = v_lbs (net_view n)
        ∧ (lb_svc st = t_svc t ∨ getLoadBalancerID (lb_svc st) = id ∧ is_Some (slbs st !! id))) as Himp.
  { intros [[Hv Hs]|(id & Hd & Hs)]; [left; by rewrite Hv|right]. exists id. split; [done|]. naive_solver. }
  destruct r; exact (Himp Heff).
Qed.

Lemma finish_missing_single s t n stored :
  let st := finish t n in
  single s (v_lbs (net_view n)) → held (t_work t) = None → t_svc t = t_base t →
  (∀ id, ¬ belongs s (v_lbs (net_view n)) id) → single (patched stored t st s) (slbs st).
Proof.
  intros st Hs Hw Hbase Hno. destruct (patched_claim stored t st s) as [Hc HID].
  destruct (finish_missing t n Hw) as [[Hv Hsv]|(id1 & Hd & Hsv)]; fold st in Hsv.
  - unfold st at 2. rewrite Hv. apply (single_ext s); [|done]. split; [done|].
    destruct HID as [|[_ ?]]; [done|congruence].
  - eapply single_added; [exact Hs| |exact Hd|exact Hc|].
    + intros id' Ho. destruct (v_lbs (net_view n) !! id') as [lb|] eqn:E; [|done].
      destruct (Hno id'). apply owned_belongs; [done|]. rewrite E. by eexists.
    + destruct HID as [|[HID Hne]]; [by left|right]. destruct Hsv as [|[<- ?]]; [congruence|done].
Qed.

(** There is at most the one it created. *)
Lemma finish_missing_ok s lbs t n stored :
  v_lbs (net_view n) = lbs → single s lbs → held (t_work t) = None → task_ok s lbs t →
  let st := finish t n in single (patched stored t st s) (slbs st).
Proof.
  intros <- Hs Hw [_ Hok]. rewrite Hw in Hok. destruct Hok as [Hno Hbase]. by apply finish_missing_single.
Qed.

(** ** Steps *)

(** The identifier stays once there is one. *)
Definition keeps_identifier (o o' : overlap) : Prop :=
  getLoadBalancerID (o_svc o) ≠ "" → getLoadBalancerID (o_svc o') = getLoadBalancerID (o_svc o).

Lemma overlap_ok_begun o st1 e' others' :
  overlap_ok o → slbs st1 = olbs o →
  (∀ t, e' = Some t → o_ensure o = Some t ∨ task_ok (o_svc o) (olbs o) t) →
  (∀ t, t ∈ others' → t ∈ o_others o ∨ is_Some (held (t_work t)) ∧ task_ok (o_svc o) (olbs o) t) →
  overlap_ok (Overlap (lb_net st1) (o_svc o) e' others').
Proof.
  intros Hok Hv He Ho. apply (overlap_ok_change o); fold (lview st1); rewrite ?Hv; try done. by apply Hok.
Qed.

Lemma overlap_ok_held o t id stored e' others' :
  let st := finish t (o_net o) in
  overlap_ok o → task_ok (o_svc o) (olbs o) t → held (t_work t) = Some id →
  (∀ t', e' = Some t' → o_ensure o = Some t') → (∀ t', t' ∈ others' → t' ∈ o_others o) →
  let o' := Overlap (lb_net st) (patched stored t st (o_svc o)) e' others' in overlap_ok o' ∧ keeps_identifier o o'.
Proof.
  intros st Hok Ht Hw He Ho.
  destruct (finish_held_ok (o_svc o) (olbs o) t (o_net o) id stored) as (Hs & Hc & Hb & Hid); try done.
  { by apply Hok. }
  split; [|exact Hid]. apply (overlap_ok_change o); try done; auto.
Qed.

(** Whoever found none is alone: the others would hold one. *)
Lemma overlap_ok_missing o t stored :
  let st := finish t (o_net o) in
  overlap_ok o → o_ensure o = Some t → held (t_work t) = None →
  let o' := Overlap (lb_net st) (patched stored t st (o_svc o)) None (o_others o) in
  overlap_ok o' ∧ keeps_identifier o o'.
Proof.
  intros st [Hs He Ho] Hen Hw. pose proof (He t Hen) as Ht.
  pose proof (finish_missing_ok (o_svc o) (olbs o) t (o_net o) stored eq_refl Hs Hw Ht) as Hs'.
  destruct Ht as [_ Ht]. rewrite Hw in Ht. destruct Ht as [Hno _]. split.
  - split; [exact Hs'|done|]. destruct (o_others o) as [|t' others]; [done|].
    apply Forall_cons_1 in Ho as [[[id Hid] [_ Ht']] _]. rewrite Hid in Ht'. destruct Ht' as [Hb _].
    by destruct (Hno id).
  - intros Hne. destruct (Hno (getLoadBalancerID (o_svc o))). right. split_and!; [done..|]. by apply Hs.
Qed.

Lemma overlap_step_ok o o' : overlap_ok o → overlap_step o o' → overlap_ok o' ∧ keeps_identifier o o'.
Proof.
  intros Hok Hstep. pose proof Hok as [Hs He Ho]. rewrite Forall_forall in Ho.
  destruct Hstep as [o nodes t st1 Hen Hf Hb|o nodes t st1 Hf Hb|o t st1 Hf Hb|o t stored st Hen
    |o l1 t l2 stored st Ho'|o s Hc|o n' Hu].
  - apply begin_ensure_ok in Hb as [Hv Ht]; [|done..]. split; [|done]. apply overlap_ok_begun; auto.
  - apply begin_update_ok in Hb as [Hv Ht]; [|done]. split; [|done]. apply overlap_ok_begun; auto.
    intros t' [Hin|]%elem_of_app; [right; by apply Ht, option_list_elem|by left].
  - apply begin_get_ok in Hb as [Hv Ht]; [|done]. split; [|done]. apply overlap_ok_begun; auto.
    intros t' [Hin|]%elem_of_app; [right; by apply Ht, option_list_elem|by left].
  - destruct (held (t_work t)) as [id|] eqn:Hw; [|by apply overlap_ok_missing].
    apply (overlap_ok_held o t id); auto. done.
  - destruct (Ho t) as [[id Hw] Ht]; [rewrite Ho'; set_solver|].
    apply (overlap_ok_held o t id); auto. intros t'. rewrite Ho'. set_solver.
  - split; [|intros _; apply Hc]. apply (overlap_ok_change o); auto; [by eapply single_ext|apply Hc|].
    intros id. by apply belongs_ext.
  - split; [|done]. assert (service_ok Live (o_svc o) (v_lbs (net_view n'))) as Hs'%service_ok_live.
    { eapply undisturbed_ok; [done|]. by apply service_ok_single. }
    apply (overlap_ok_change o); auto. intros id. split; [by eapply undisturbed_belongs|].
    intros Hb. apply Hu; [by apply Hu|done].
Qed.

(** C5. Overlapping calls keep one load balancer per Service.  While
    EnsureLoadBalancer is on its way for a Service, any number of
    UpdateLoadBalancer and GetLoadBalancer calls may run for it too; between the
    look-up of a call and its write the others may look up, write and patch; the
    Service may be edited, its names and identifier annotation apart; others may
    use the account, as long as they neither take the Service's names nor delete
    or rename its load balancer; any call to the API, listings included, may
    fail within its laws (writes being atomic), and every patch may be lost.
    From a state with at most one load balancer for the Service, which is the
    annotated one, and exists, if the Service is annotated, and no call on its
    way, none of this ever yields a second one, and the identifier the Service
    is annotated with never changes again. *)
Theorem overlapping_calls_keep_one o o' :
  single (o_svc o) (olbs o) → o_ensure o = None → o_others o = [] → rtc overlap_step o o' →
  at_most_one (belongs (o_svc o') (olbs o'))
  ∧ (getLoadBalancerID (o_svc o) ≠ "" →
     getLoadBalancerID (o_svc o') = getLoadBalancerID (o_svc o)
     ∧ is_Some (olbs o' !! getLoadBalancerID (o_svc o))).
Proof.
  intros Hs He Ho Hr. assert (overlap_ok o' ∧ keeps_identifier o o') as [Hok Hid].
  { assert (overlap_ok o) as Hok by (split; [done|by rewrite He|by rewrite Ho]). clear Hs He Ho.
    induction Hr as [|o o1 o' Hstep _ IH]; [by split; [|intros ?]|].
    destruct (overlap_step_ok _ _ Hok Hstep) as [Hok1 Hid1]. destruct (IH Hok1) as [? Hid2].
    split; [done|]. intros Hne. rewrite Hid2; auto. by rewrite Hid1. }
  split; [by apply single_belongs, ok_single|]. intros Hne. split; [by apply Hid|].
  rewrite <- Hid by done. apply (ok_single o' Hok). by rewrite Hid.
Qed.
End Overlap.
