(* ===== verification/LBWorkers.v ===== *)
(** * The workers of a cluster

    [LBCluster] and [LBOverlap] together: many Services, and calls that overlap,
    for one Service and for several, deletions included.  For each Service the
    service controller has at most one of EnsureLoadBalancer and
    EnsureLoadBalancerDeleted on its way, and any number of UpdateLoadBalancer and
    GetLoadBalancer; a call may even outlive its Service.  The account of
    [LBCluster] is kept under every interleaving. *)

From stdpp Require Import base gmap strings list relations.
From Stdlib Require Import ZArith Lia.
From S2P Require Import Prelude GoStd Types Annotations Nodes Api Rules Requests LoadBalancers LBFacts ApiLaws LBSpec LBLifecycle LBCluster LBOverlap.
#[local] Open Scope Z_scope.

(** A call on its way: one of those in [LBOverlap], or EnsureLoadBalancerDeleted
    that has found the load balancer to delete. *)
Inductive call_in_flight :=
| Syncing (t : task)
| Removing (id : string).

(** The load balancer that it has found. *)
Definition holds (c : call_in_flight) : option string :=
  match c with
  | Syncing t => held (t_work t)
  | Removing id => Some id
  end.

(** The names that it may write. *)
Definition names (c : call_in_flight) : list string :=
  match c with
  | Syncing t => candidates (t_svc t)
  | Removing _ => []
  end.

(* ------------------------------------------------------------------ *)
(** ** What holds between the parts of a call *)

(** A Service and the load balancers before and after a step, as the calls for
    it see them: it keeps its names and what it has; once it is to be deleted,
    its load balancer may vanish, and then it has none. *)
Record follows (p : phase) (s : Service.t) (lbs : gmap string LoadBalancer.t)
    (p' : phase) (s' : Service.t) (lbs' : gmap string LoadBalancer.t) : Prop := {
  fo_names : candidates s' = candidates s;
  fo_phase : p = Deleting → p' = Deleting;
  fo_had id : belongs s' lbs' id → belongs s lbs id;
  fo_keeps id : belongs s lbs id →
    belongs s' lbs' id ∨ p' = Deleting ∧ lbs' !! id = None ∧ ∀ id', ¬ belongs s' lbs' id';
}.

Lemma follows_refl p s lbs : follows p s lbs p s lbs.
Proof. split; auto. Qed.

Lemma follows_undisturbed p s lbs lbs' : weak s lbs → undisturbed p s lbs lbs' → follows p s lbs p s lbs'.
Proof.
  intros Hw Hu. split; [done|done|intros id; by eapply undisturbed_belongs|]. intros id Hb.
  destruct (lbs' !! id) as [lb|] eqn:E; [left; apply Hu; [by rewrite E|done]|]. destruct p.
  - destruct Hu as [_ Hu]. destruct (Hu eq_refl id Hb). congruence.
  - right. split_and!; [done..|]. intros id' Hb'. pose proof (belongs_exists _ _ _ Hb') as [lb' Hlb'].
    apply (undisturbed_belongs Deleting s lbs) in Hb'; [|done].
    rewrite (weak_belongs s lbs Hw id' id Hb' Hb) in Hlb'. congruence.
Qed.

Lemma follows_edited p s lbs p' s' : same_claim s s' → (p = Deleting → p' = Deleting) → follows p s lbs p' s' lbs.
Proof.
  intros Hc Hp. split; [apply Hc|done|intros id; by rewrite (belongs_ext s s')|].
  intros id Hb. left. by rewrite (belongs_ext s s').
Qed.

(** What a call relies on: nobody else has the load balancer it found or takes
    its names, and its Service, if there is one, has that load balancer; a call
    that found none is right still. *)
Definition call_ok (svcs : gmap string (Service.t * phase)) (lbs : gmap string LoadBalancer.t)
    (k : string) (c : call_in_flight) : Prop :=
  match holds c with
  | Some id =>
      (∀ k' s' p', svcs !! k' = Some (s', p') → k' ≠ k →
         ¬ belongs s' lbs id ∧ ∀ n, n ∈ names c → n ∉ candidates s')
      ∧ (∀ s p, svcs !! k = Some (s, p) →
           names c ⊆ candidates s
           ∧ (belongs s lbs id ∨ p = Deleting ∧ lbs !! id = None ∧ ∀ id', ¬ belongs s lbs id'))
      ∧ match c with Syncing t => getLoadBalancerID (t_svc t) = id | Removing _ => True end
  | None =>
      ∃ s p, svcs !! k = Some (s, p) ∧ names c ⊆ candidates s
        ∧ getLoadBalancerID s = "" ∧ (∀ id, ¬ belongs s lbs id)
        ∧ match c with Syncing t => t_svc t = t_base t | Removing _ => True end
  end.

(** It may go on relying on that. *)
Lemma call_ok_mono svcs lbs svcs' lbs' k c :
  call_ok svcs lbs k c →
  (∀ id, holds c = Some id → is_Some (lbs' !! id) → is_Some (lbs !! id)) →
  (∀ k' s' p', svcs' !! k' = Some (s', p') → k' ≠ k →
     ∃ s p, svcs !! k' = Some (s, p) ∧ candidates s' = candidates s
       ∧ ∀ id, belongs s' lbs' id → belongs s lbs id ∨ lbs !! id = None) →
  (∀ s' p', svcs' !! k = Some (s', p') → ∃ s p, svcs !! k = Some (s, p) ∧ follows p s lbs p' s' lbs'
     ∧ (holds c = None → getLoadBalancerID s' = getLoadBalancerID s)) →
  (holds c = None → is_Some (svcs' !! k)) →
  call_ok svcs' lbs' k c.
Proof.
  unfold call_ok. intros Hc Hnew Hoth Hown Hex. destruct (holds c) as [id|].
  - destruct Hc as (H1 & H2 & H3). split_and!; [| |done].
    + intros k' s' p' Hk' Hne. destruct (Hoth k' s' p' Hk' Hne) as (s & p & Hk & Hcd & Hb). rewrite Hcd.
      destruct (H1 k' s p Hk Hne) as [Hnb Hn]. split; [|done]. intros Hb'.
      destruct (Hb id Hb') as [?|Hnone]; [done|]. destruct (Hnew id eq_refl); [|congruence].
      by eapply belongs_exists.
    + intros s' p' Hk'. destruct (Hown s' p' Hk') as (s & p & Hk & Hf & _).
      destruct (H2 s p Hk) as [Hn Hb]. rewrite (fo_names _ _ _ _ _ _ Hf). split; [done|].
      destruct Hb as [Hb|(Hp & Hgone & Hno)]; [by apply Hf|right]. split_and!.
      * by apply Hf.
      * destruct (lbs' !! id) eqn:E; [|done]. destruct (Hnew id eq_refl); [by rewrite E|congruence].
      * intros id' Hb'. eapply Hno, Hf, Hb'.
  - destruct Hc as (s0 & p0 & Hk0 & Hn & Hid & Hno & Hb). destruct (Hex eq_refl) as [[s' p'] Hk'].
    destruct (Hown s' p' Hk') as (s & p & Hk & Hf & Hid'). rewrite Hk in Hk0. injection Hk0 as -> ->.
    exists s', p'. split_and!; [done| | | |done].
    + by rewrite (fo_names _ _ _ _ _ _ Hf).
    + by rewrite Hid'.
    + intros id Hb'. eapply Hno, Hf, Hb'.
Qed.

(** ** One load balancer is written *)

(** The write of a call: only [id] changes, it stays or stays gone, and keeps its
    name or takes one of [ns]. *)
Record writes (id : string) (ns : list string) (lbs lbs' : gmap string LoadBalancer.t) : Prop := {
  wr_only : delete id lbs' = delete id lbs;
  wr_stays : is_Some (lbs !! id) ↔ is_Some (lbs' !! id);
  wr_name lb' : lbs' !! id = Some lb' →
    (∃ lb, lbs !! id = Some lb ∧ lb.(LoadBalancer.Name) = lb'.(LoadBalancer.Name))
    ∨ lb'.(LoadBalancer.Name) ∈ ns;
}.

Lemma writes_ne id ns lbs lbs' id' : writes id ns lbs lbs' → id' ≠ id → lbs' !! id' = lbs !! id'.
Proof.
  intros Hw Hne. rewrite <- (lookup_delete_ne lbs id), <- (lookup_delete_ne lbs' id) by done.
  by rewrite (wr_only _ _ _ _ Hw).
Qed.

Lemma writes_exists id ns lbs lbs' id' : writes id ns lbs lbs' → is_Some (lbs' !! id') ↔ is_Some (lbs !! id').
Proof.
  intros Hw. destruct (decide (id' = id)) as [->|Hne]; [symmetry; apply Hw|].
  by rewrite (writes_ne _ _ _ _ _ Hw Hne).
Qed.

Lemma writes_undisturbed p s id ns lbs lbs' :
  writes id ns lbs lbs' → ¬ belongs s lbs id → (∀ n, n ∈ ns → n ∉ candidates s) → undisturbed p s lbs lbs'.
Proof.
  intros Hw Hnb Hap. assert (Hid : ¬ belongs s lbs' id).
  { intros [(lb' & Hlb' & Hin)|(Hne & Heq & Hex)].
    - destruct (wr_name _ _ _ _ Hw lb' Hlb') as [(lb & Hlb & Hn)|Hn]; [|by apply (Hap _ Hn)].
      apply Hnb. left. exists lb. split; [done|]. by rewrite Hn.
    - apply Hnb. right. split_and!; [done..|]. by apply Hw. }
  split.
  - intros id' _. destruct (decide (id' = id)) as [->|Hne]; [tauto|].
    unfold belongs, named. by rewrite (writes_ne _ _ _ _ _ Hw Hne).
  - intros _ id' Hb. apply (writes_exists _ _ _ _ _ Hw). by eapply belongs_exists.
Qed.

(** For the Service it is about: it has what it had. *)
Lemma writes_own p s s' id ns lbs lbs' :
  writes id ns lbs lbs' → service_ok p s lbs → ns ⊆ candidates s →
  belongs s lbs id ∨ p = Deleting ∧ lbs !! id = None ∧ (∀ id', ¬ belongs s lbs id') →
  candidates s' = candidates s → getLoadBalancerID s' = getLoadBalancerID s ∨ getLoadBalancerID s' = id →
  service_ok p s' lbs' ∧ ∀ id', belongs s' lbs' id' ↔ belongs s lbs id'.
Proof.
  intros Hw [Hwk Hl] Hns Hb Hc HID. destruct Hb as [Hb|(-> & Hgone & Hno)].
  - destruct (only_written s s' lbs lbs' id) as (H1 & H2 & H3 & _); try done.
    + apply Hw.
    + apply Hw. by eapply belongs_exists.
    + intros lb' Hlb'. destruct (wr_name _ _ _ _ Hw lb' Hlb') as [?|Hn]; [by left|right]. by apply Hns.
    + split; [by apply service_ok_single|]. intros id'. by rewrite H1, H2.
  - assert (lbs' = lbs) as ->.
    { apply map_eq. intros id'. destruct (decide (id' = id)) as [->|Hne]; [|by eapply writes_ne].
      rewrite Hgone. destruct (lbs' !! id) eqn:E; [|done]. destruct (wr_stays _ _ _ _ Hw) as [_ Hst].
      destruct Hst; [by rewrite E|congruence]. }
    assert (Hno' : ∀ id', ¬ belongs s' lbs id').
    { intros id' [Hn|(Hne & -> & Hex)].
      - apply (Hno id'). left. by apply (named_ext s s').
      - destruct HID as [HID|HID]; rewrite HID in *; [|rewrite Hgone in Hex; by destruct Hex].
        apply (Hno (getLoadBalancerID s)). right. by split_and!. }
    split; [|intros id'; split; intros Hb; [by destruct (Hno' id')|by destruct (Hno id')]].
    split; [|done]. split; [intros id1 id2 Hn1; destruct (Hno' id1); by left|].
    intros _ id' Hn. destruct (Hno' id'). by left.
Qed.

(** ** One load balancer is added *)

(** What was there is as it was, what is new has one of the names [ns]. *)
Record extends (ns : list string) (lbs lbs' : gmap string LoadBalancer.t) : Prop := {
  ex_old id : is_Some (lbs !! id) → lbs' !! id = lbs !! id;
  ex_name id lb : lbs' !! id = Some lb → lbs !! id = None → lb.(LoadBalancer.Name) ∈ ns;
}.

Lemma extends_belongs ns lbs lbs' s id :
  extends ns lbs lbs' → is_Some (lbs !! id) → belongs s lbs' id ↔ belongs s lbs id.
Proof. intros He Hex. unfold belongs, named. by rewrite (ex_old _ _ _ He id Hex). Qed.

Lemma extends_undisturbed p s ns lbs lbs' :
  extends ns lbs lbs' → (∀ n, n ∈ ns → n ∉ candidates s) →
  (is_Some (lbs' !! getLoadBalancerID s) → is_Some (lbs !! getLoadBalancerID s)) → undisturbed p s lbs lbs'.
Proof.
  intros He Hap Hfr. split.
  - intros id Hex. destruct (lbs !! id) as [lb|] eqn:E; [apply (extends_belongs ns); [done|by rewrite E]|].
    split; [|intros [? ?]%belongs_exists; congruence]. intros [(lb & Hlb & Hin)|(_ & -> & _)].
    + destruct (Hap _ (ex_name _ _ _ He id lb Hlb E) Hin).
    + destruct (Hfr Hex). congruence.
  - intros _ id Hb%belongs_exists. by rewrite (ex_old _ _ _ He id Hb).
Qed.

(** For the Service it is about, which had none: it has what is new. *)
Lemma extends_own s s' ns lbs lbs' id :
  extends ns lbs lbs' → ns ⊆ candidates s → (∀ id', ¬ belongs s lbs id') → candidates s' = candidates s →
  getLoadBalancerID s' = getLoadBalancerID s ∨ lbs !! getLoadBalancerID s' = None → is_Some (lbs' !! id) →
  belongs s' lbs' id ↔ belongs s lbs id ∨ lbs !! id = None.
Proof.
  intros He Hns Hno Hc HID [lb Hlb]. split.
  - intros Hb. destruct (lbs !! id) as [lb0|] eqn:E; [exfalso|by right].
    apply (extends_belongs ns lbs) in Hb; [|done|by rewrite E].
    destruct Hb as [Hn|(Hne & -> & Hex)]; [apply (Hno id); left; by apply (named_ext s s')|].
    destruct HID as [HID|?]; [|congruence]. apply (Hno (getLoadBalancerID s')). right. by split_and!.
  - intros [Hb|Hnone]; [by destruct (Hno id)|]. left. exists lb. split; [done|]. rewrite Hc. apply Hns.
    by eapply (ex_name _ _ _ He).
Qed.

#[local] Set Default Proof Using "Type*".

Section Workers.
Context {R : Type}.
Context `{!GodoPaging, !GodoLoadBalancers R, !GodoCertificates R, !GodoDroplets R, !Kube R, !IPNets}.
Context `{!ApiLaws R, !AtomicWrites R}.
Variables (unicode_ToLower : string → string) (fuel : nat) (l : loadBalancers.t).

Abbreviation slbs st := (v_lbs (lview st)).

(** ** Deletion in two parts *)

(** Up to and with the look-up: the call is over, or goes on to delete. *)
Definition begin_delete (st : lbst R) : (result unit + string) * lbst R :=
  match getDisownLB (lb_svc st) with
  | Ok true => (inl (Ok tt), st)
  | Ok false =>
      match on_net (retrieveLoadBalancer fuel (lb_svc st)) st with
      | (Ok (Some lb), st1) => (inr lb.(LoadBalancer.ID), st1)
      | (Ok None, st1) => (inl Panic, st1)
      | (Err (ErrSentinel errLBNotFound), st1) => (inl (Ok tt), st1)
      | (Err err, st1) => (inl (Err err), st1)
      | (Panic, st1) => (inl Panic, st1)
      | (NoFuel, st1) => (inl NoFuel, st1)
      end
  | Err err => (inl (Err err), st)
  | Panic => (inl Panic, st)
  | NoFuel => (inl NoFuel, st)
  end.

Definition finish_delete (id : string) : M (net R) unit :=
  rp ← call (EvLBDelete id) (LoadBalancers_Delete id);
  match rp.(rerr) with
  | Some e => if is_404 rp then mret tt else throw (Errorf "failed to delete load-balancer: %s" [AErr e])
  | None => mret tt
  end.

Lemma delete_split st :
  EnsureLoadBalancerDeleted fuel st
  = match begin_delete st with
    | (inl r, st1) => (r, st1)
    | (inr id, st1) => on_net (finish_delete id) st1
    end.
Proof.
  unfold EnsureLoadBalancerDeleted, begin_delete, service, pure, mbind, M_bind, attempt. simpl.
  destruct (getDisownLB _) as [[]| | |]; try done.
  destruct (on_net _ st) as [[[lb|]|[[]| | | | | | |]| |] st1]; try done. simpl.
  unfold on_net, zoom, finish_delete, mbind, M_bind, call. simpl.
  destruct (LoadBalancers_Delete _ _) as [rp r']. simpl. by destruct (rerr rp); [destruct (is_404 rp)|].
Qed.

Lemma begin_delete_spec st r st1 :
  enough_fuel fuel (lb_net st) → begin_delete st = (r, st1) →
  slbs st1 = slbs st
  ∧ match r with
    | inr id => owned (lb_svc st) (slbs st) id ∧ is_Some (slbs st !! id)
    | inl (Ok _) => getDisownLB (lb_svc st) = Ok true ∨ ∀ id, owned (lb_svc st) (slbs st) id → slbs st !! id = None
    | inl _ => True
    end.
Proof.
  intros Hf. unfold begin_delete.
  destruct (getDisownLB _) as [[]| | |]; try (by intros [= <- <-]; split; [|auto]).
  pose proof (same_on_net _ (same_view_retrieve fuel (lb_svc st)) st) as Hv.
  destruct (on_net _ st) as [r1 st2] eqn:Er. apply on_net_inv in Er as [Er _].
  apply (retrieve_spec _ _ _ _ _ Hf) in Er. unfold same in Hv. simpl in Hv.
  destruct r1 as [p|e| |]; [| |done..].
  - destruct Er as (lb & -> & Hlb & Ho). intros [= <- <-]. rewrite Hv. split; [done|]. split; [done|].
    exists lb. exact Hlb.
  - destruct Er as [[-> Hno]|Hne]; [intros [= <- <-]; rewrite Hv; split; auto|].
    destruct e as [[]| | | | | | |]; try discriminate Hne; intros [= <- <-]; by rewrite Hv.
Qed.

Lemma finish_delete_spec id (n : net R) r n' :
  finish_delete id n = (r, n') →
  (v_lbs (net_view n') = v_lbs (net_view n) ∨ v_lbs (net_view n') = delete id (v_lbs (net_view n)))
  ∧ (r = Ok () → v_lbs (net_view n') !! id = None).
Proof.
  unfold finish_delete, call, mbind, M_bind, net_view.
  pose proof (delete_atomic id (remote n)) as Ha. pose proof (delete_ok id (remote n)) as Hok.
  pose proof (delete_404 id (remote n)) as H404. destruct (LoadBalancers_Delete _ _) as [rp r']. simpl in *.
  destruct (rerr rp); [destruct (is_404 rp)|]; intros [= <- <-]; simpl; auto. by split.
Qed.

(** ** The system *)

Record workers := Workers {
  w_net : net R;
  w_svcs : gmap string (Service.t * phase);
  w_foreign : string → Prop;
  w_jobs : gmap string call_in_flight;             (** the worker for Services *)
  w_others : list (string * task);                 (** the worker for nodes, and readers *)
}.

Definition cluster_of (w : workers) : cluster := Cluster (w_net w) (w_svcs w) (w_foreign w).
Definition wlbs (w : workers) : gmap string LoadBalancer.t := v_lbs (net_view (w_net w)).

Definition in_flight (w : workers) (k : string) (c : call_in_flight) : Prop :=
  w_jobs w !! k = Some c ∨ ∃ t, c = Syncing t ∧ (k, t) ∈ w_others w.

(** The API does not give out an identifier again that a Service or a call still
    carries. *)
Definition never_reissued (w : workers) (lbs' : gmap string LoadBalancer.t) : Prop :=
  fresh_ids (cluster_of w) lbs'
  ∧ ∀ k c id, in_flight w k c → holds c = Some id → is_Some (lbs' !! id) → is_Some (wlbs w !! id).

(** The Service [k] as the patch of [t] leaves it, if it exists still. *)
Definition patch_stored (stored : bool) (t : task) (st : lbst R) (k : string)
    (svcs : gmap string (Service.t * phase)) : gmap string (Service.t * phase) :=
  alter (λ sp, (patched stored t st sp.1, sp.2)) k svcs.

Inductive workers_step : relation workers :=
(** Services appear; none of their names or load balancers is in another's use. *)
| w_created w k s :
    w_svcs w !! k = None → single s (wlbs w) → (∀ c, ¬ in_flight w k c) →
    (∀ k' s' p, w_svcs w !! k' = Some (s', p) →
       apart s s' ∧ ∀ id, belongs s (wlbs w) id → ¬ belongs s' (wlbs w) id) →
    (∀ k' c id, in_flight w k' c → holds c = Some id →
       ¬ belongs s (wlbs w) id ∧ ∀ n, n ∈ names c → n ∉ candidates s) →
    workers_step w (Workers (w_net w) (<[k := (s, Live)]> (w_svcs w)) (w_foreign w) (w_jobs w) (w_others w))
| w_edited w k s s' p :
    w_svcs w !! k = Some (s, p) → same_claim s s' →
    workers_step w (Workers (w_net w) (<[k := (s', p)]> (w_svcs w)) (w_foreign w) (w_jobs w) (w_others w))
| w_marked w k s :
    w_svcs w !! k = Some (s, Live) →
    workers_step w (Workers (w_net w) (<[k := (s, Deleting)]> (w_svcs w)) (w_foreign w) (w_jobs w) (w_others w))
(** Calls begin with their look-up. *)
| w_ensure_begins w k s nodes t st1 :
    w_svcs w !! k = Some (s, Live) → w_jobs w !! k = None → enough_fuel fuel (w_net w) →
    begin_ensure fuel l nodes (LBState (w_net w) s) = (t, st1) →
    workers_step w (Workers (lb_net st1) (w_svcs w) (w_foreign w)
      (partial_alter (λ _, Syncing <$> t) k (w_jobs w)) (w_others w))
| w_update_begins w k s p nodes t st1 :
    w_svcs w !! k = Some (s, p) → enough_fuel fuel (w_net w) →
    begin_update fuel nodes (LBState (w_net w) s) = (t, st1) →
    workers_step w (Workers (lb_net st1) (w_svcs w) (w_foreign w) (w_jobs w)
      ((pair k <$> option_list t) ++ w_others w))
| w_get_begins w k s p t st1 :
    w_svcs w !! k = Some (s, p) → enough_fuel fuel (w_net w) →
    begin_get fuel (LBState (w_net w) s) = (t, st1) →
    workers_step w (Workers (lb_net st1) (w_svcs w) (w_foreign w) (w_jobs w)
      ((pair k <$> option_list t) ++ w_others w))
| w_delete_begins w k s id st1 :
    w_svcs w !! k = Some (s, Deleting) → w_jobs w !! k = None → enough_fuel fuel (w_net w) →
    begin_delete (LBState (w_net w) s) = (inr id, st1) →
    workers_step w (Workers (lb_net st1) (w_svcs w) (w_foreign w) (<[k := Removing id]> (w_jobs w)) (w_others w))
(** A deletion that is over at once: the Service goes, or is retried. *)
| w_delete_nothing w k s st1 :
    w_svcs w !! k = Some (s, Deleting) → w_jobs w !! k = None → enough_fuel fuel (w_net w) →
    begin_delete (LBState (w_net w) s) = (inl (Ok tt), st1) →
    workers_step w (Workers (lb_net st1) (delete k (w_svcs w))
      (λ id, w_foreign w id ∨ released s (wlbs w) id) (w_jobs w) (w_others w))
| w_delete_fails w k s r st1 :
    w_svcs w !! k = Some (s, Deleting) → w_jobs w !! k = None → enough_fuel fuel (w_net w) →
    begin_delete (LBState (w_net w) s) = (inl r, st1) → r ≠ Ok tt →
    workers_step w (Workers (lb_net st1) (w_svcs w) (w_foreign w) (w_jobs w) (w_others w))
(** Calls end with their write, and the patch is stored or lost. *)
| w_job_ends w k t stored :
    let st := finish unicode_ToLower fuel l t (w_net w) in
    w_jobs w !! k = Some (Syncing t) → never_reissued w (slbs st) →
    workers_step w (Workers (lb_net st) (patch_stored stored t st k (w_svcs w)) (w_foreign w)
      (delete k (w_jobs w)) (w_others w))
| w_other_ends w l1 k t l2 stored :
    let st := finish unicode_ToLower fuel l t (w_net w) in
    w_others w = l1 ++ (k, t) :: l2 →
    workers_step w (Workers (lb_net st) (patch_stored stored t st k (w_svcs w)) (w_foreign w)
      (w_jobs w) (l1 ++ l2))
| w_removed w k s id n' :
    w_svcs w !! k = Some (s, Deleting) → w_jobs w !! k = Some (Removing id) →
    finish_delete id (w_net w) = (Ok tt, n') →
    workers_step w (Workers n' (delete k (w_svcs w)) (w_foreign w) (delete k (w_jobs w)) (w_others w))
| w_removal_fails w k s id r n' :
    w_svcs w !! k = Some (s, Deleting) → w_jobs w !! k = Some (Removing id) →
    finish_delete id (w_net w) = (r, n') → r ≠ Ok tt →
    workers_step w (Workers n' (w_svcs w) (w_foreign w) (delete k (w_jobs w)) (w_others w))
(** Others keep off the names and load balancers of the Services. *)
| w_others_act w n' :
    let lbs' := v_lbs (net_view n') in
    (∀ k s p, w_svcs w !! k = Some (s, p) → undisturbed p s (wlbs w) lbs') → never_reissued w lbs' →
    workers_step w (Workers n' (w_svcs w)
      (λ id, w_foreign w id ∨ wlbs w !! id = None ∧ is_Some (lbs' !! id)) (w_jobs w) (w_others w)).

(** ** The invariant *)

Record working (w : workers) : Prop := {
  wk_accounted : accounted (cluster_of w);
  wk_calls k c : in_flight w k c → call_ok (w_svcs w) (wlbs w) k c;
  wk_others k t : (k, t) ∈ w_others w → is_Some (held (t_work t));
  wk_alone k c t : w_jobs w !! k = Some c → holds c = None → (k, t) ∉ w_others w;
}.

Lemma wk_ok w k s p : working w → w_svcs w !! k = Some (s, p) → service_ok p s (wlbs w).
Proof. intros Hw. exact (acc_ok _ (wk_accounted w Hw) k s p). Qed.

Lemma wk_weak w k s p : working w → w_svcs w !! k = Some (s, p) → weak s (wlbs w).
Proof. intros Hw Hk. by destruct (wk_ok w k s p Hw Hk). Qed.

(** Calls for another Service than [k], which a step was about. *)
Lemma calls_elsewhere w svcs' lbs' k k0 c :
  working w → call_ok (w_svcs w) (wlbs w) k0 c → k0 ≠ k →
  (∀ k', k' ≠ k → svcs' !! k' = w_svcs w !! k') →
  (∀ k' s p, w_svcs w !! k' = Some (s, p) → k' ≠ k → undisturbed p s (wlbs w) lbs') →
  (∀ s' p', svcs' !! k = Some (s', p') → ∃ s p, w_svcs w !! k = Some (s, p) ∧ candidates s' = candidates s
     ∧ ∀ id, belongs s' lbs' id → belongs s (wlbs w) id ∨ wlbs w !! id = None) →
  (∀ id, holds c = Some id → is_Some (lbs' !! id) → is_Some (wlbs w !! id)) →
  call_ok svcs' lbs' k0 c.
Proof.
  intros Hw Hc Hk0 Hsame Hu Hk Hnew. apply (call_ok_mono (w_svcs w) (wlbs w)); [done|done| | |].
  - intros k' s' p' Hk' Hne. destruct (decide (k' = k)) as [->|Hne']; [by apply (Hk s' p')|].
    rewrite Hsame in Hk' by done. exists s', p'. split_and!; [done..|]. intros id Hb. left.
    eapply undisturbed_belongs; eauto.
  - intros s' p' Hk'. rewrite Hsame in Hk' by done. exists s', p'. split_and!; [done| |done].
    apply follows_undisturbed; [by eapply wk_weak|eauto].
  - intros Hh. rewrite Hsame by done. unfold call_ok in Hc. rewrite Hh in Hc.
    destruct Hc as (s & p & -> & _). by eexists.
Qed.

(** Calls for the Service itself. *)
Lemma calls_here w svcs' lbs' k c :
  working w → call_ok (w_svcs w) (wlbs w) k c →
  (∀ k', k' ≠ k → svcs' !! k' = w_svcs w !! k') →
  (∀ k' s p, w_svcs w !! k' = Some (s, p) → k' ≠ k → undisturbed p s (wlbs w) lbs') →
  (∀ s' p', svcs' !! k = Some (s', p') → ∃ s p, w_svcs w !! k = Some (s, p) ∧ follows p s (wlbs w) p' s' lbs'
     ∧ (holds c = None → getLoadBalancerID s' = getLoadBalancerID s)) →
  (∀ id, holds c = Some id → is_Some (lbs' !! id) → is_Some (wlbs w !! id)) →
  (holds c = None → is_Some (svcs' !! k)) →
  call_ok svcs' lbs' k c.
Proof.
  intros Hw Hc Hsame Hu Hk Hnew Hex. apply (call_ok_mono (w_svcs w) (wlbs w)); try done.
  intros k' s' p' Hk' Hne. rewrite Hsame in Hk' by done. exists s', p'. split_and!; [done..|].
  intros id Hb. left. eapply undisturbed_belongs; eauto.
Qed.

(** ** Beginnings *)

(** Look-ups change nothing that calls rely on. *)
Lemma working_looked w st1 jobs' others' :
  working w → slbs st1 = wlbs w →
  (∀ k c, jobs' !! k = Some c → w_jobs w !! k = Some c
     ∨ w_jobs w !! k = None ∧ call_ok (w_svcs w) (wlbs w) k c
       ∧ (holds c = None → ∀ t, (k, t) ∉ others')) →
  (∀ k t, (k, t) ∈ others' → (k, t) ∈ w_others w
     ∨ is_Some (held (t_work t)) ∧ call_ok (w_svcs w) (wlbs w) k (Syncing t)) →
  (∀ k c t, w_jobs w !! k = Some c → holds c = None → (k, t) ∉ others') →
  working (Workers (lb_net st1) (w_svcs w) (w_foreign w) jobs' others').
Proof.
  intros Hw Hv Hj Ho Hal. pose proof Hw as [Hacc Hcalls Hoth Halone].
  assert (Hvn : v_lbs (net_view (lb_net st1)) = wlbs w) by done.
  split; unfold cluster_of, wlbs; simpl; rewrite ?Hvn.
  - destruct Hacc as [A1 A2 A3 A4]. split; unfold clbs in *; simpl in *; rewrite ?Hvn; done.
  - intros k c [Hjk|(t & -> & Hin)].
    + destruct (Hj k c Hjk) as [?|(_ & ? & _)]; [|done]. apply Hcalls. by left.
    + destruct (Ho k t Hin) as [?|[_ ?]]; [|done]. apply Hcalls. right. eauto.
  - intros k t Hin. destruct (Ho k t Hin) as [?|[? _]]; [by eapply Hoth|done].
  - intros k c t Hjk Hh. destruct (Hj k c Hjk) as [Hjk'|(_ & _ & ?)]; [by eapply Hal|auto].
Qed.

(** A task that begins with what [LBOverlap] shows of it. *)
Lemma task_call_ok w k s p t :
  working w → w_svcs w !! k = Some (s, p) → task_ok s (wlbs w) t →
  (held (t_work t) = None → getLoadBalancerID s = "") → call_ok (w_svcs w) (wlbs w) k (Syncing t).
Proof.
  intros Hw Hk [Hc Ht] Hid. unfold call_ok. simpl. destruct (held (t_work t)) as [id|].
  - destruct Ht as [Hb Hidt]. split_and!; [| |done].
    + intros k' s' p' Hk' Hne. split.
      * intros Hb'. by apply (acc_unshared _ (wk_accounted w Hw) k s p k' s' p' id).
      * rewrite Hc. by apply (acc_apart _ (wk_accounted w Hw) k s p k' s' p').
    + intros s' p' Hk'. rewrite Hk in Hk'. injection Hk' as <- <-. rewrite Hc. by split; [|left].
  - destruct Ht as [Hno Hbase]. exists s, p. rewrite Hc. split_and!; auto.
Qed.

(** While a call is about to create, nothing is found for its Service. *)
Lemma missing_finds_none w k s p c t :
  working w → w_jobs w !! k = Some c → holds c = None → w_svcs w !! k = Some (s, p) →
  is_Some (held (t_work t)) → ¬ task_ok s (wlbs w) t.
Proof.
  intros Hw Hj Hh Hk [id Hid] [_ Ht]. rewrite Hid in Ht. destruct Ht as [Hb _].
  pose proof (wk_calls w Hw k c (or_introl Hj)) as Hc. unfold call_ok in Hc. rewrite Hh in Hc.
  destruct Hc as (s' & p' & Hk' & _ & _ & Hno & _). rewrite Hk in Hk'. injection Hk' as <- <-. by apply (Hno id).
Qed.

Lemma working_found w k s p t st1 :
  working w → w_svcs w !! k = Some (s, p) → slbs st1 = wlbs w →
  (∀ t', t = Some t' → is_Some (held (t_work t')) ∧ task_ok s (wlbs w) t') →
  working (Workers (lb_net st1) (w_svcs w) (w_foreign w) (w_jobs w) ((pair k <$> option_list t) ++ w_others w)).
Proof.
  intros Hw Hk Hv Ht.
  assert (Hnew : ∀ k' t', (k', t') ∈ pair k <$> option_list t →
    k' = k ∧ is_Some (held (t_work t')) ∧ task_ok s (wlbs w) t').
  { intros k' t' (t0 & [= -> ->] & Hin)%list_elem_of_fmap. split; [done|]. by apply Ht, option_list_elem. }
  apply working_looked; [done|done|by left| |].
  - intros k' t' [Hin|?]%elem_of_app; [right|by left]. destruct (Hnew k' t' Hin) as (-> & Hh & Hok).
    split; [done|]. eapply task_call_ok; [done..|]. intros Hn. rewrite Hn in Hh. by destruct Hh.
  - intros k' c t' Hj Hh [Hin|Hin]%elem_of_app; [|by eapply wk_alone].
    destruct (Hnew k' t' Hin) as (-> & Hh' & Hok). by eapply missing_finds_none.
Qed.

Lemma working_ensure w k s t st1 :
  working w → w_svcs w !! k = Some (s, Live) → w_jobs w !! k = None → slbs st1 = wlbs w →
  (∀ t', t = Some t' → task_ok s (wlbs w) t') →
  working (Workers (lb_net st1) (w_svcs w) (w_foreign w) (partial_alter (λ _, Syncing <$> t) k (w_jobs w)) (w_others w)).
Proof.
  intros Hw Hk Hj Hv Ht. pose proof (service_ok_live _ _ (wk_ok w k s Live Hw Hk)) as Hs.
  apply working_looked; [done|done| |by left|by apply wk_alone].
  intros k' c. destruct (decide (k' = k)) as [->|Hne].
  2:{ rewrite lookup_partial_alter_ne by done. by left. }
  rewrite lookup_partial_alter_eq. intros (t' & -> & ->)%fmap_Some. right. specialize (Ht t' eq_refl).
  assert (Hnone : held (t_work t') = None → getLoadBalancerID s = "" ∧ ∀ id, ¬ belongs s (wlbs w) id).
  { intros Hh. destruct Ht as [_ Ht]. rewrite Hh in Ht. destruct Ht as [Hno _]. split; [|done].
    destruct (decide (getLoadBalancerID s = "")) as [|Hne]; [done|]. destruct (Hno (getLoadBalancerID s)).
    right. split_and!; [done..|]. by apply Hs. }
  split_and!; [done|eapply task_call_ok; [done..|]; apply Hnone|].
  intros Hh t0 Hin. destruct (Hnone Hh) as [_ Hno]. destruct (wk_others w Hw k t0 Hin) as [id Hid].
  pose proof (wk_calls w Hw k (Syncing t0) (or_intror (ex_intro _ t0 (conj eq_refl Hin)))) as Hc.
  unfold call_ok in Hc. simpl in Hc. rewrite Hid in Hc. destruct Hc as (_ & Hc & _).
  destruct (Hc s Live Hk) as [_ [Hb|[? _]]]; [by apply (Hno id)|done].
Qed.

Lemma working_removing w k s p id st1 :
  working w → w_svcs w !! k = Some (s, p) → w_jobs w !! k = None → slbs st1 = wlbs w →
  belongs s (wlbs w) id →
  working (Workers (lb_net st1) (w_svcs w) (w_foreign w) (<[k := Removing id]> (w_jobs w)) (w_others w)).
Proof.
  intros Hw Hk Hj Hv Hb. apply working_looked; [done|done| |by left|by apply wk_alone].
  intros k' c [[<- <-]|[_ ?]]%lookup_insert_Some; [right|by left]. split_and!; [done| |done].
  unfold call_ok. simpl. split_and!; [| |done].
  - intros k' s' p' Hk' Hne. split; [|by intros ? ?%not_elem_of_nil].
    intros Hb'. by apply (acc_unshared _ (wk_accounted w Hw) k s p k' s' p' id).
  - intros s' p' Hk'. rewrite Hk in Hk'. injection Hk' as <- <-. split; [set_solver|by left].
Qed.

(** ** Steps of one Service *)

(** A step about the Service [k] that begins no call. *)
Lemma working_step w n' svcs' foreign' jobs' others' k :
  let w' := Workers n' svcs' foreign' jobs' others' in
  working w → accounted (cluster_of w') → jobs' ⊆ w_jobs w → (∀ x, x ∈ others' → x ∈ w_others w) →
  (∀ k', k' ≠ k → svcs' !! k' = w_svcs w !! k') →
  (∀ k' s p, w_svcs w !! k' = Some (s, p) → k' ≠ k → undisturbed p s (wlbs w) (wlbs w')) →
  (∀ s' p', svcs' !! k = Some (s', p') → ∃ s p, w_svcs w !! k = Some (s, p) ∧ candidates s' = candidates s
     ∧ ∀ id, belongs s' (wlbs w') id → belongs s (wlbs w) id ∨ wlbs w !! id = None) →
  (∀ c, in_flight w' k c →
     (∀ s' p', svcs' !! k = Some (s', p') → ∃ s p, w_svcs w !! k = Some (s, p)
        ∧ follows p s (wlbs w) p' s' (wlbs w') ∧ (holds c = None → getLoadBalancerID s' = getLoadBalancerID s))
     ∧ (holds c = None → is_Some (svcs' !! k))) →
  (∀ k0 c id, in_flight w' k0 c → holds c = Some id → is_Some (wlbs w' !! id) → is_Some (wlbs w !! id)) →
  working w'.
Proof.
  intros w' Hw Hacc Hj Ho Hsame Hu Hk Hown Hnew. split; [done| | |]; simpl.
  - intros k0 c Hin. assert (call_ok (w_svcs w) (wlbs w) k0 c) as Hc.
    { apply (wk_calls w Hw). destruct Hin as [Hjk|(t & -> & Hin)]; simpl in *.
      - left. by eapply lookup_weaken.
      - right. eauto. }
    destruct (decide (k0 = k)) as [->|Hne]; [|by eapply calls_elsewhere; eauto].
    destruct (Hown c Hin) as [Hf Hx]. by eapply calls_here; eauto.
  - intros k0 t Hin. eapply (wk_others w Hw); eauto.
  - intros k0 c t Hjk Hh Hin. eapply (wk_alone w Hw); [eapply lookup_weaken|..]; eauto.
Qed.

(** The Service is edited or marked. *)
Lemma working_edited w k s p s1 p1 :
  working w → w_svcs w !! k = Some (s, p) → same_claim s s1 → (p1 = Live → p = Live) →
  working (Workers (w_net w) (<[k := (s1, p1)]> (w_svcs w)) (w_foreign w) (w_jobs w) (w_others w)).
Proof.
  intros Hw Hk Hc Hp. assert (p = Deleting → p1 = Deleting) as Hp' by (intros ->; destruct p1; [discriminate (Hp eq_refl)|reflexivity]).
  apply (working_step w) with (k := k); try done; simpl.
  - by apply (accounted_service (cluster_of w) k s p s1 p1 (wk_accounted w Hw)).
  - intros k' Hne. by rewrite lookup_insert_ne.
  - intros k' s' p' _ _. apply undisturbed_refl.
  - intros s' p'. rewrite lookup_insert_eq. intros [= <- <-]. exists s, p. split_and!; [done|apply Hc|].
    intros id Hb. left. by apply (belongs_ext s s1).
  - intros c _. rewrite lookup_insert_eq. split; [|by eexists]. intros s' p' [= <- <-]. exists s, p.
    split_and!; [done|by apply follows_edited|intros _; apply Hc].
Qed.

Lemma working_created w k s :
  working w → w_svcs w !! k = None → single s (wlbs w) → (∀ c, ¬ in_flight w k c) →
  (∀ k' s' p, w_svcs w !! k' = Some (s', p) →
     apart s s' ∧ ∀ id, belongs s (wlbs w) id → ¬ belongs s' (wlbs w) id) →
  (∀ k' c id, in_flight w k' c → holds c = Some id →
     ¬ belongs s (wlbs w) id ∧ ∀ n, n ∈ names c → n ∉ candidates s) →
  working (Workers (w_net w) (<[k := (s, Live)]> (w_svcs w)) (w_foreign w) (w_jobs w) (w_others w)).
Proof.
  intros Hw Hk Hs Hno Hother Hcalls. destruct Hw as [Hacc Hc Hoth Hal]. split; [|simpl|exact Hoth|exact Hal].
  - by apply (accounted_created (cluster_of w)).
  - intros k0 c Hin. specialize (Hc k0 c Hin). specialize (Hcalls k0 c).
    assert (k0 ≠ k) as Hne by (intros ->; by apply (Hno c)). unfold wlbs at 1. simpl. fold (wlbs w).
    unfold call_ok in *. rewrite lookup_insert_ne by done. destruct (holds c) as [id|]; [|done].
    destruct Hc as (H1 & H2 & H3). split_and!; [|done|done].
    intros k' s' p' [[<- [= <- <-]]|[_ Hk']]%lookup_insert_Some Hne'; [by apply Hcalls|by eapply H1].
Qed.

(** ** Ends *)

Lemma finish_writes t n id :
  held (t_work t) = Some id → getLoadBalancerID (t_svc t) = id →
  let st := finish unicode_ToLower fuel l t n in
  writes id (candidates (t_svc t)) (v_lbs (net_view n)) (slbs st) ∧ getLoadBalancerID (lb_svc st) = id.
Proof.
  intros Hh Hid. destruct (finish_held unicode_ToLower fuel l t n id Hh Hid) as (Hd & Hex & Hid').
  destruct (finish_renames unicode_ToLower fuel l t n) as [_ Hn]. split; [|done]. split; [done|done|].
  intros lb'. apply Hn.
Qed.

Lemma patch_stored_ne stored t st k svcs k' : k' ≠ k → patch_stored stored t st k svcs !! k' = svcs !! k'.
Proof. intros Hne. by apply lookup_alter_ne. Qed.

Lemma patch_stored_eq stored t st k svcs :
  patch_stored stored t st k svcs !! k = (λ sp, (patched stored t st sp.1, sp.2)) <$> svcs !! k.
Proof. apply lookup_alter_eq. Qed.

Lemma patch_stored_insert stored t st k svcs s p :
  svcs !! k = Some (s, p) → patch_stored stored t st k svcs = <[k := (patched stored t st s, p)]> svcs.
Proof.
  intros Hk. apply map_eq. intros k'. destruct (decide (k' = k)) as [->|Hne].
  - by rewrite patch_stored_eq, Hk, lookup_insert_eq.
  - by rewrite patch_stored_ne, lookup_insert_ne.
Qed.

Lemma patch_stored_gone stored t st k svcs : svcs !! k = None → patch_stored stored t st k svcs = svcs.
Proof.
  intros Hk. apply map_eq. intros k'. destruct (decide (k' = k)) as [->|Hne].
  - by rewrite patch_stored_eq, Hk.
  - by rewrite patch_stored_ne.
Qed.

(** The write of a call that outlived its Service, or a step of others that adds
    nothing. *)
Lemma accounted_shrunk c n' :
  let lbs' := v_lbs (net_view n') in
  accounted c → (∀ k s p, c_svcs c !! k = Some (s, p) → undisturbed p s (clbs c) lbs') →
  (∀ id, is_Some (lbs' !! id) → is_Some (clbs c !! id)) →
  accounted (Cluster n' (c_svcs c) (c_foreign c)).
Proof.
  intros lbs' Ha Hu Hsub. destruct (accounted_others c n' Ha Hu) as [A1 A2 A3 A4]. split; [exact A1|exact A2|exact A3|].
  intros id Hex. destruct (A4 id Hex) as [[?|[Hnone _]]|?]; [by left| |by right].
  destruct (Hsub id Hex). congruence.
Qed.

(** A call that found the load balancer has none beside it that found none. *)
Lemma held_beside w k t c :
  working w → in_flight w k (Syncing t) → is_Some (held (t_work t)) → in_flight w k c → is_Some (holds c).
Proof.
  intros Hw Ht Hh Hc. destruct (holds c) eqn:E; [by eexists|exfalso].
  destruct Hc as [Hj|(t' & -> & Hin)].
  - destruct Ht as [Hj'|(t' & [= ->] & Hin)]; [|by eapply (wk_alone w Hw)].
    rewrite Hj in Hj'. injection Hj' as ->. simpl in E. rewrite E in Hh. by destruct Hh.
  - apply (wk_others w Hw) in Hin as [??]. simpl in E. congruence.
Qed.

Lemma working_held w k t id stored jobs' others' :
  let st := finish unicode_ToLower fuel l t (w_net w) in
  working w → in_flight w k (Syncing t) → held (t_work t) = Some id →
  jobs' ⊆ w_jobs w → (∀ x, x ∈ others' → x ∈ w_others w) →
  working (Workers (lb_net st) (patch_stored stored t st k (w_svcs w)) (w_foreign w) jobs' others').
Proof.
  intros st Hw Hin Hh Hj Ho. pose proof (wk_calls w Hw k _ Hin) as Hc. unfold call_ok in Hc. simpl in Hc.
  rewrite Hh in Hc. destruct Hc as (Hoth & Hown & Hid).
  destruct (finish_writes t (w_net w) id Hh Hid) as [Hwr Hid']. fold st in Hwr, Hid'.
  assert (Hu : ∀ k' s p, w_svcs w !! k' = Some (s, p) → k' ≠ k → undisturbed p s (wlbs w) (slbs st)).
  { intros k' s p Hk' Hne. destruct (Hoth k' s p Hk' Hne). by eapply writes_undisturbed. }
  assert (Hme : ∀ s p, w_svcs w !! k = Some (s, p) →
    let s' := patched stored t st s in
    candidates s' = candidates s ∧ service_ok p s' (slbs st)
    ∧ ∀ id', belongs s' (slbs st) id' ↔ belongs s (wlbs w) id').
  { intros s p Hk. destruct (Hown s p Hk) as [Hns Hb]. destruct (patched_claim stored t st s) as [Hc HID].
    split; [done|]. eapply writes_own; [exact Hwr|by eapply wk_ok|done|exact Hb|done|].
    destruct HID as [|[-> _]]; auto. }
  apply (working_step w) with (k := k); try done; simpl.
  - unfold cluster_of. simpl. destruct (w_svcs w !! k) as [[s p]|] eqn:Hk.
    + destruct (Hme s p eq_refl) as (Hc & Hok & Hb). rewrite (patch_stored_insert _ _ _ _ _ s p Hk).
      apply (accounted_change (cluster_of w) (lb_net st) k s p _ p (wk_accounted w Hw)); try done.
      intros id' Hex. rewrite (Hb id'). split; [by left|]. intros [?|Hnone]; [done|].
      apply (writes_exists _ _ _ _ _ Hwr) in Hex as [lb Hlb]. unfold clbs in Hnone. simpl in Hnone. congruence.
    + rewrite patch_stored_gone by done. apply (accounted_shrunk (cluster_of w)); [by apply wk_accounted| |].
      * intros k' s p Hk'. apply (Hu k' s p); [done|]. intros ->. simpl in Hk'. congruence.
      * intros id'. apply (writes_exists _ _ _ _ _ Hwr).
  - intros k' Hne. by apply patch_stored_ne.
  - intros s' p'. rewrite patch_stored_eq. intros ([s p] & Hk & [= -> ->])%fmap_Some. exists s, p.
    destruct (Hme s p Hk) as (? & _ & Hb). split_and!; [done..|]. intros id' Hb'. left. by apply Hb.
  - intros c Hin'. assert (is_Some (holds c)) as [idc Hidc].
    { apply (held_beside w k t); [done|done|by eexists|]. destruct Hin' as [Hjk|(t' & -> & ?)]; simpl in *.
      - left. by eapply lookup_weaken.
      - right. eauto. }
    split; [|by rewrite Hidc]. intros s' p'. rewrite patch_stored_eq.
    intros ([s p] & Hk & [= -> ->])%fmap_Some. exists s, p. destruct (Hme s p Hk) as (Hc & _ & Hb).
    split_and!; [done| |by rewrite Hidc].
    split; [done|done|intros id'; apply Hb|intros id' ?; left; by apply Hb].
  - intros k0 c id' _ _. apply (writes_exists _ _ _ _ _ Hwr).
Qed.

(** What a call that found none adds. *)
Lemma finish_extends t n :
  held (t_work t) = None →
  extends (candidates (t_svc t)) (v_lbs (net_view n)) (slbs (finish unicode_ToLower fuel l t n)).
Proof.
  intros Hh. split.
  - intros id [lb Hlb]. destruct (finish_missing unicode_ToLower fuel l t n Hh) as [[-> _]|(id1 & Hd & _)]; [done|].
    rewrite Hlb. rewrite <- Hd in Hlb. by apply lookup_delete_Some in Hlb as [_ ?].
  - intros id lb Hlb Hnone. destruct (finish_renames unicode_ToLower fuel l t n) as [_ Hn].
    destruct (Hn id lb Hlb) as [(lb0 & Hlb0 & _)|?]; [congruence|done].
Qed.

Lemma missing_ID t n stored s :
  held (t_work t) = None → t_svc t = t_base t →
  let s1 := patched stored t (finish unicode_ToLower fuel l t n) s in
  getLoadBalancerID s1 = getLoadBalancerID s ∨ v_lbs (net_view n) !! getLoadBalancerID s1 = None.
Proof.
  intros Hh Hbase s1. unfold s1.
  destruct (patched_claim stored t (finish unicode_ToLower fuel l t n) s) as [_ [?|[-> Hne]]]; [by left|right].
  destruct (finish_missing unicode_ToLower fuel l t n Hh) as [[_ Hs]|(id1 & Hd & [Hs|[-> _]])]; [congruence..|].
  rewrite <- Hd. apply lookup_delete_eq.
Qed.

Lemma working_missing w k t stored :
  let st := finish unicode_ToLower fuel l t (w_net w) in
  working w → w_jobs w !! k = Some (Syncing t) → held (t_work t) = None → never_reissued w (slbs st) →
  working (Workers (lb_net st) (patch_stored stored t st k (w_svcs w)) (w_foreign w) (delete k (w_jobs w)) (w_others w)).
Proof.
  intros st Hw Hj Hh [Hfs Hfc]. pose proof (wk_calls w Hw k _ (or_introl Hj)) as Hc. unfold call_ok in Hc.
  simpl in Hc. rewrite Hh in Hc. destruct Hc as (s & p & Hk & Hns & HID & Hno & Hbase).
  pose proof (finish_extends t (w_net w) Hh) as He. fold st in He.
  destruct (patched_claim stored t st s) as [Hc _]. set (s1 := patched stored t st s) in *.
  assert (Hs1 : single s1 (slbs st)).
  { apply finish_missing_single; try done. destruct (wk_weak w k s p Hw Hk) as [H1 H2].
    split; [done|]. by rewrite HID. }
  assert (Hu : ∀ k' s' p', w_svcs w !! k' = Some (s', p') → k' ≠ k → undisturbed p' s' (wlbs w) (slbs st)).
  { intros k' s' p' Hk' Hne. eapply extends_undisturbed; [exact He| |by apply (Hfs k' s' p')].
    intros n Hn%Hns. by apply (acc_apart _ (wk_accounted w Hw) k s p k' s' p' Hk Hk' (not_eq_sym Hne)). }
  assert (Hb1 : ∀ id, is_Some (slbs st !! id) → belongs s1 (slbs st) id ↔ belongs s (wlbs w) id ∨ wlbs w !! id = None).
  { intros id. apply (extends_own s s1 _ _ _ id He Hns Hno Hc). by apply (missing_ID t (w_net w) stored s Hh Hbase). }
  apply (working_step w) with (k := k); simpl.
  - done.
  - unfold cluster_of. simpl. rewrite (patch_stored_insert _ _ _ _ _ s p Hk).
    apply (accounted_change (cluster_of w) (lb_net st) k s p s1 p (wk_accounted w Hw)); try done.
    by apply service_ok_single.
  - apply delete_subseteq.
  - done.
  - intros k' Hne. by apply patch_stored_ne.
  - exact Hu.
  - intros s' p'. rewrite patch_stored_eq, Hk. intros [= <- <-]. exists s, p. split_and!; [done..|].
    intros id Hb. apply Hb1; [by eapply belongs_exists|done].
  - intros c [Hjk|(t' & -> & Hin)]; simpl in *; [by rewrite lookup_delete_eq in Hjk|].
    by destruct (wk_alone w Hw k (Syncing t) t' Hj Hh).
  - intros k0 c id Hin. apply (Hfc k0 c id). destruct Hin as [Hjk|?]; [left|by right]. simpl in Hjk.
    by apply lookup_delete_Some in Hjk as [_ ?].
Qed.

(** ** Deletions and others *)

(** A deletion disturbs only live Services that have the load balancer. *)
Lemma removal_undisturbed p s id lbs lbs' :
  lbs' = lbs ∨ lbs' = delete id lbs → p = Deleting ∨ ¬ belongs s lbs id → undisturbed p s lbs lbs'.
Proof.
  intros [->| ->] Hp; [apply undisturbed_refl|]. split.
  - intros id' Hex. destruct (decide (id' = id)) as [->|Hne]; [rewrite lookup_delete_eq in Hex; by destruct Hex|].
    unfold belongs, named. by rewrite lookup_delete_ne.
  - intros -> id' Hb. destruct Hp as [|Hn]; [done|]. rewrite lookup_delete_ne; [by eapply belongs_exists|].
    by intros ->.
Qed.

(** The load balancers change, the Services do not. *)
Lemma working_undisturbed w n' foreign' jobs' others' :
  working w → accounted (Cluster n' (w_svcs w) foreign') →
  jobs' ⊆ w_jobs w → (∀ x, x ∈ others' → x ∈ w_others w) →
  (∀ k s p, w_svcs w !! k = Some (s, p) → undisturbed p s (wlbs w) (v_lbs (net_view n'))) →
  (∀ k c id, in_flight w k c → holds c = Some id → is_Some (v_lbs (net_view n') !! id) → is_Some (wlbs w !! id)) →
  working (Workers n' (w_svcs w) foreign' jobs' others').
Proof.
  intros Hw Hacc Hj Ho Hu Hnew. apply (working_step w) with (k := ""); try done; simpl.
  - intros k' s p Hk' _. exact (Hu k' s p Hk').
  - intros s' p' Hk. exists s', p'. split_and!; [done..|]. intros id Hb. left. eapply undisturbed_belongs; [|exact Hb].
    by apply (Hu "" s' p').
  - intros c Hin. split.
    + intros s' p' Hk. exists s', p'. split_and!; [done| |done].
      apply follows_undisturbed; [by eapply wk_weak|by apply (Hu "" s' p')].
    + intros Hh. assert (in_flight w "" c) as Hin'.
      { destruct Hin as [Hjk|(t & -> & Hin)]; [left; by eapply lookup_weaken|right; eauto]. }
      pose proof (wk_calls w Hw "" c Hin') as Hc. unfold call_ok in Hc. rewrite Hh in Hc.
      destruct Hc as (s & p & -> & _). by eexists.
  - intros k0 c id Hin. apply (Hnew k0 c id). destruct Hin as [Hjk|(t & -> & Hin)]; simpl in *.
    + left. by eapply lookup_weaken.
    + right. eauto.
Qed.

(** The Service goes. *)
Lemma working_gone w k s p foreign' :
  working w → w_svcs w !! k = Some (s, p) → (∀ id, w_foreign w id → foreign' id) →
  (∀ id, belongs s (wlbs w) id → foreign' id) → (∀ c, w_jobs w !! k = Some c → is_Some (holds c)) →
  working (Workers (w_net w) (delete k (w_svcs w)) foreign' (w_jobs w) (w_others w)).
Proof.
  intros Hw Hk Hf Hb Hj. apply (working_step w) with (k := k); try done; simpl.
  - by apply (accounted_gone (cluster_of w) k s p foreign' (wk_accounted w Hw)).
  - intros k' Hne. by apply lookup_delete_ne.
  - intros k' s' p' _ _. apply undisturbed_refl.
  - intros s' p'. by rewrite lookup_delete_eq.
  - intros c Hin. split; [intros s' p'; by rewrite lookup_delete_eq|]. intros Hh.
    assert (is_Some (holds c)) as [??]; [|congruence].
    destruct Hin as [Hjk|(t & -> & Hin)]; [by apply Hj|]. by apply (wk_others w Hw k).
Qed.

Lemma working_removal w k s id r n' :
  working w → w_svcs w !! k = Some (s, Deleting) → w_jobs w !! k = Some (Removing id) →
  finish_delete id (w_net w) = (r, n') →
  let w' := Workers n' (w_svcs w) (w_foreign w) (delete k (w_jobs w)) (w_others w) in
  working w' ∧ (r = Ok tt → ∀ id', ¬ belongs s (wlbs w') id').
Proof.
  intros Hw Hk Hj Hr. apply finish_delete_spec in Hr as [Hl Hgone].
  pose proof (wk_calls w Hw k _ (or_introl Hj)) as Hc. unfold call_ok in Hc. simpl in Hc.
  destruct Hc as (Hoth & Hown & _). destruct (Hown s Deleting Hk) as [_ Hb].
  assert (Hu : ∀ k' s' p', w_svcs w !! k' = Some (s', p') → undisturbed p' s' (wlbs w) (v_lbs (net_view n'))).
  { intros k' s' p' Hk'. apply (removal_undisturbed p' s' id); [done|].
    destruct (decide (k' = k)) as [->|Hne]; [left; congruence|right]. by apply (Hoth k' s' p'). }
  assert (Hsub : ∀ id', is_Some (v_lbs (net_view n') !! id') → is_Some (wlbs w !! id')).
  { intros id' Hex. destruct Hl as [Hl|Hl]; rewrite Hl in Hex; [done|].
    destruct Hex as [lb [_ Hlb]%lookup_delete_Some]. by exists lb. }
  split.
  - apply working_undisturbed; [done| |apply delete_subseteq|done|done|auto].
    by apply (accounted_shrunk (cluster_of w)); [apply wk_accounted|..].
  - intros Hok id' Hb'. pose proof Hb' as [lb Hlb]%belongs_exists.
    apply (undisturbed_belongs Deleting s (wlbs w)) in Hb'; [|by apply (Hu k)].
    destruct Hb as [Hb|(_ & _ & Hno)]; [|by apply (Hno id')].
    rewrite (weak_belongs s (wlbs w) (wk_weak w k s Deleting Hw Hk) id' id Hb' Hb) in Hlb.
    unfold wlbs in Hlb. simpl in Hlb. rewrite (Hgone Hok) in Hlb. done.
Qed.

(** ** Every step *)

(** Nothing changes that is seen: for look-ups that end a call. *)
Lemma working_still w st1 :
  working w → slbs st1 = wlbs w →
  working (Workers (lb_net st1) (w_svcs w) (w_foreign w) (w_jobs w) (w_others w)).
Proof. intros Hw Hv. apply working_looked; try done; [by left..|]. apply (wk_alone w Hw). Qed.

Lemma begun_delete w k s r st1 :
  working w → w_svcs w !! k = Some (s, Deleting) → enough_fuel fuel (w_net w) →
  begin_delete (LBState (w_net w) s) = (r, st1) →
  slbs st1 = wlbs w
  ∧ match r with
    | inr id => belongs s (wlbs w) id
    | inl (Ok _) => getDisownLB s = Ok true ∨ ∀ id, ¬ belongs s (wlbs w) id
    | inl _ => True
    end.
Proof.
  intros Hw Hk Hf [Hv Hr]%begin_delete_spec; [|done]. split; [done|].
  destruct r as [[[]| | |]|id]; try done.
  - destruct Hr as [?|Hno]; [by left|right]. intros id Hb. pose proof Hb as [lb Hlb]%belongs_exists.
    apply belongs_owned in Hb; [|by eapply wk_weak]. apply Hno in Hb. unfold wlbs in Hlb.
    unfold lview in Hb. simpl in Hb. congruence.
  - destruct Hr as [Ho Hex]. by apply owned_belongs.
Qed.

Lemma working_workers_step w w' : working w → workers_step w w' → working w'.
Proof.
  intros Hw Hstep.
  destruct Hstep as [w k s Hk Hs Hno Ho Hc|w k s s' p Hk Hc|w k s Hk|w k s nodes t st1 Hk Hj Hf Hb
    |w k s p nodes t st1 Hk Hf Hb|w k s p t st1 Hk Hf Hb|w k s id st1 Hk Hj Hf Hb|w k s st1 Hk Hj Hf Hb
    |w k s r st1 Hk Hj Hf Hb _|w k t stored st Hj Hfr|w l1 k t l2 stored st Ho|w k s id n' Hk Hj Hr
    |w k s id r n' Hk Hj Hr _|w n' lbs' Hu Hfr].
  - by apply working_created.
  - by eapply working_edited.
  - by eapply working_edited.
  - apply begin_ensure_ok in Hb as [Hv Ht]; [|done|by apply service_ok_live; eapply wk_ok].
    by apply (working_ensure w k s).
  - apply begin_update_ok in Hb as [Hv Ht]; [|done]. by apply (working_found w k s p).
  - apply begin_get_ok in Hb as [Hv Ht]; [|done]. by apply (working_found w k s p).
  - destruct (begun_delete w k s (inr id) st1 Hw Hk Hf Hb) as [Hv Hbl]. by apply (working_removing w k s Deleting).
  - destruct (begun_delete w k s (inl (Ok tt)) st1 Hw Hk Hf Hb) as [Hv Hr].
    apply (working_gone _ k s Deleting _ (working_still w st1 Hw Hv)); simpl; [done|by left| |by rewrite Hj].
    intros id Hbl. unfold wlbs at 1 in Hbl. simpl in Hbl. fold (lview st1) in Hbl. rewrite Hv in Hbl.
    right. destruct Hr as [Hd|Hno]; [done|]. by destruct (Hno id).
  - destruct (begun_delete w k s (inl r) st1 Hw Hk Hf Hb) as [Hv _]. by apply working_still.
  - destruct (held (t_work t)) as [id|] eqn:Hh; [|by apply working_missing].
    apply (working_held w k t id); [done|by left|done|apply delete_subseteq|done].
  - destruct (wk_others w Hw k t) as [id Hid]; [rewrite Ho, elem_of_app; right; left|].
    apply (working_held w k t id); [done| |done|done|].
    + right. exists t. split; [done|]. rewrite Ho, elem_of_app. right. left.
    + intros x. rewrite Ho, !elem_of_app, elem_of_cons. tauto.
  - destruct (working_removal w k s id (Ok tt) n' Hw Hk Hj Hr) as [Hw' Hno].
    apply (working_gone _ k s Deleting _ Hw'); simpl; [done|done| |].
    + intros id' Hb. by destruct (Hno eq_refl id').
    + intros c. by rewrite lookup_delete_eq.
  - by destruct (working_removal w k s id r n' Hw Hk Hj Hr).
  - apply working_undisturbed; [done| |done|done|done|apply Hfr].
    by apply (accounted_others (cluster_of w) n' (wk_accounted w Hw)).
Qed.

(** The cluster before its first Service, with no call on its way. *)
Definition workers_initial (w : workers) : Prop :=
  cluster_initial (cluster_of w) ∧ w_jobs w = ∅ ∧ w_others w = [].

Lemma workers_initial_working w : workers_initial w → working w.
Proof.
  intros (Hi & Hj & Ho). assert (∀ k c, ¬ in_flight w k c) as Hno.
  { intros k c [H1|(t & _ & H1)]; [by rewrite Hj in H1|]. rewrite Ho in H1. by apply not_elem_of_nil in H1. }
  split; [by apply cluster_initial_accounted| | |].
  - intros k c Hin. by destruct (Hno k c).
  - intros k t Hin. destruct (Hno k (Syncing t)). right. eauto.
  - intros k c t Hjk. destruct (Hno k c). by left.
Qed.

(** C7. The load balancers of a cluster stay accounted for while calls overlap.
    Start with no Service of type LoadBalancer.  Services are created, edited
    and marked for deletion; for each, one EnsureLoadBalancer or
    EnsureLoadBalancerDeleted at a time and any number of UpdateLoadBalancer and
    GetLoadBalancer are on their way, for all Services at once; anything of this
    may happen between the look-up and the write of a call, also that its
    Service goes.  Any call to the API, a listing too, may fail within its laws,
    and patches may be lost.  Assumed are: the names of Services are apart and a
    new Service finds at most one load balancer of its names, none in another's
    use; edits keep what names the load balancer; others neither take these
    names nor rename a Service's load balancer, nor delete that of a live one;
    writes are atomic and identifiers are not given out again while in use.
    Then at all times no Service has two load balancers, no load balancer
    belongs to two Services, and every load balancer belongs to a Service that
    still exists, was not made for one, or was given up by one that disowned it. *)
Theorem workers_accounted w w' :
  workers_initial w → rtc workers_step w w' →
  (∀ k s p, w_svcs w' !! k = Some (s, p) → at_most_one (belongs s (wlbs w')))
  ∧ (∀ k1 s1 p1 k2 s2 p2 id, w_svcs w' !! k1 = Some (s1, p1) → w_svcs w' !! k2 = Some (s2, p2) →
       belongs s1 (wlbs w') id → belongs s2 (wlbs w') id → k1 = k2)
  ∧ (∀ id, is_Some (wlbs w' !! id) →
       w_foreign w' id ∨ ∃ k s p, w_svcs w' !! k = Some (s, p) ∧ belongs s (wlbs w') id).
Proof.
  intros Hi Hr. assert (working w') as Hw.
  { apply workers_initial_working in Hi. induction Hr as [|w w1 w' Hs _ IH]; [done|].
    apply IH. by eapply working_workers_step. }
  destruct (wk_accounted w' Hw) as [Hok Hap Hun Hor]. split_and!; [| |exact Hor].
  - intros k s p Hk. apply weak_belongs. by destruct (Hok k s p Hk).
  - intros k1 s1 p1 k2 s2 p2 id H1 H2 Hb1 Hb2. destruct (decide (k1 = k2)) as [|Hne]; [done|].
    by destruct (Hun k1 s1 p1 k2 s2 p2 id H1 H2 Hne Hb1).
Qed.
End Workers.
