(* ===== verification/Termination.v ===== *)
(** * Termination

    The only unbounded loops of the load-balancer code are the paging loops.
    With fuel for the pages the API serves, no method runs out of it. *)

From S2P Require Import Prelude GoStd Types Annotations Nodes Api Rules Requests LoadBalancers ApiLaws LBSpec.
From stdpp Require Import base gmap strings list.
From Stdlib Require Import ZArith Lia.
#[local] Open Scope Z_scope.

(** ** Pure code *)

Lemma ends_Atoi s : ends (strconv.Atoi s).
Proof. unfold strconv.Atoi. solve_ends. Qed.
Lemma ends_ParseUint s : ends (strconv.ParseUint s).
Proof. unfold strconv.ParseUint. solve_ends. Qed.
Lemma ends_ParseBool s : ends (strconv.ParseBool s).
Proof. unfold strconv.ParseBool. solve_ends. Qed.
#[export] Hint Resolve ends_Atoi ends_ParseUint ends_ParseBool : ends.

Lemma ends_atoi_all l : ends (atoi_all l).
Proof. induction l; simpl; solve_ends. Qed.
#[export] Hint Resolve ends_atoi_all : ends.

Lemma ends_getPorts s k : ends (getPorts s k).
Proof. unfold getPorts. solve_ends. Qed.
Lemma ends_flag s k f : ends (flag_annotation s k f).
Proof. unfold flag_annotation, getBool. solve_ends. Qed.
Lemma ends_atoi_annotation s k d f : ends (atoi_annotation s k d f).
Proof. unfold atoi_annotation. solve_ends. Qed.
#[export] Hint Resolve ends_getPorts ends_flag ends_atoi_annotation : ends.
(** The getters that are one of these by definition. *)
#[export] Hint Extern 2 (ends _) =>
  first [apply ends_getPorts | apply ends_flag | apply ends_atoi_annotation] : ends.

Lemma ends_dropletID p : ends (dropletIDFromProviderID p).
Proof. unfold dropletIDFromProviderID. solve_ends. Qed.
#[export] Hint Resolve ends_dropletID : ends.

Lemma ends_provider_droplets nodes : ends (provider_droplets nodes).
Proof. induction nodes; simpl; solve_ends. Qed.

Lemma ends_find_hc_port s p l : ends (find_hc_port s p l).
Proof. induction l; simpl; solve_ends. Qed.
Lemma ends_first_tcp_port l : ends (first_tcp_port l).
Proof. induction l; simpl; solve_ends. Qed.
#[export] Hint Resolve ends_provider_droplets ends_find_hc_port ends_first_tcp_port : ends.

Lemma ends_buildHealthCheck s : ends (buildHealthCheck s).
Proof. unfold buildHealthCheck, healthCheckPort, healthCheckProtocol. solve_ends. Qed.

Lemma ends_port_rules po c t ports : ends (port_rules po c t ports).
Proof.
  induction ports; simpl; unfold buildForwardingRule, buildTLSForwardingRule; solve_ends.
Qed.
Lemma ends_regional_rules ports : ends (buildRegionalNetworkForwardingRule ports).
Proof. induction ports; simpl; solve_ends. Qed.
Lemma ends_ParseIPNets `{!IPNets} specs keys : ends (ParseIPNets specs keys).
Proof. revert keys. induction specs; intros keys; simpl; solve_ends. Qed.
#[export] Hint Resolve ends_buildHealthCheck ends_port_rules ends_regional_rules ends_ParseIPNets : ends.

Lemma ends_getType s d : ends (getType s d).
Proof. unfold getType. solve_ends. Qed.
Lemma ends_getNetwork s : ends (getNetwork s).
Proof. unfold getNetwork. solve_ends. Qed.
Lemma ends_getNetworkStack s t n ns : ends (getNetworkStack s t n ns).
Proof. unfold getNetworkStack. solve_ends. Qed.
Lemma ends_getProtocol s : ends (getProtocol s).
Proof. unfold getProtocol. solve_ends. Qed.
Lemma ends_getHTTP3Port s : ends (getHTTP3Port s).
Proof. unfold getHTTP3Port. solve_ends. Qed.
Lemma ends_buildStickySessions s : ends (buildStickySessions s).
Proof.
  unfold buildStickySessions, getStickySessionsCookieName, getStickySessionsCookieTTL. solve_ends.
Qed.
Lemma ends_getSizeSlug s : ends (getSizeSlug s).
Proof. unfold getSizeSlug. solve_ends. Qed.
Lemma ends_getSizeUnit s : ends (getSizeUnit s).
Proof. unfold getSizeUnit. solve_ends. Qed.
Lemma ends_getHttpIdleTimeoutSeconds s : ends (getHttpIdleTimeoutSeconds s).
Proof. unfold getHttpIdleTimeoutSeconds. solve_ends. Qed.
Lemma ends_buildFirewall `{!IPNets} s : ends (buildFirewall s).
Proof. unfold buildFirewall, getSourceRangeRules. solve_ends. Qed.
Lemma ends_CurrentPage `{!GodoPaging} l : ends (CurrentPage l).
Proof. unfold CurrentPage. solve_ends. Qed.
#[export] Hint Resolve ends_getType ends_getNetwork ends_getNetworkStack ends_getProtocol
  ends_getHTTP3Port ends_buildStickySessions ends_getSizeSlug ends_getSizeUnit
  ends_getHttpIdleTimeoutSeconds ends_buildFirewall ends_CurrentPage : ends.

Lemma ends_prepareNodes l s nodes : ends (prepareNodesForLBSync l s nodes).
Proof. unfold prepareNodesForLBSync, classifyServiceNodes. solve_ends. Qed.
Lemma ends_retryIfPending s p1 p2 : ends (retryIfNodesPendingInit s p1 p2).
Proof. unfold retryIfNodesPendingInit. solve_ends. Qed.
#[export] Hint Resolve ends_prepareNodes ends_retryIfPending : ends.

(** ** Effectful code *)

(** From a state that satisfies [I], [m] does not run out of fuel. *)
Definition halts {S A} (I : S → Prop) (m : M S A) : Prop := ∀ s, I s → ends (m s).1.

Section Halts.
Context {S : Type} (I : S → Prop).

Lemma halts_ret {A} (a : A) : halts I (mret a). Proof. done. Qed.
Lemma halts_throw {A} e : halts I (throw (A := A) e). Proof. done. Qed.
Lemma halts_panic {A} : halts I (panic (A := A)). Proof. done. Qed.
Lemma halts_pure {A} (r : result A) : ends r → halts I (pure r). Proof. by intros ? s _. Qed.
Lemma halts_deref {A} (p : option A) : halts I (deref p). Proof. by destruct p. Qed.
Lemma halts_attempt {A} (m : M S A) : halts I m → halts I (attempt m).
Proof. intros Hm s Hs. specialize (Hm s Hs). unfold attempt. by destruct (m s) as [[]]. Qed.
Lemma halts_on_err {A} f (m : M S A) : halts I m → halts I (on_err f m).
Proof. intros Hm s Hs. specialize (Hm s Hs). unfold on_err. by destruct (m s) as [[]]. Qed.

(** [I] holds again after code that stays within a relation that keeps it. *)
Lemma halts_bind {A B} (Rl : relation S) (m : M S A) (f : A → M S B) :
  (∀ s s', Rl s s' → I s → I s') → within Rl m →
  halts I m → (∀ a, halts I (f a)) → halts I (m ≫= f).
Proof.
  intros HI Hw Hm Hf s Hs. specialize (Hm s Hs). specialize (Hw s). unfold mbind, M_bind.
  destruct (m s) as [[a|e| |] s']; simpl in *; try done. apply Hf. by eapply HI.
Qed.

(** The continuation halts from every state. *)
Lemma halts_bind_last {A B} (m : M S A) (f : A → M S B) :
  halts I m → (∀ a, halts (λ _, True) (f a)) → halts I (m ≫= f).
Proof.
  intros Hm Hf s Hs. specialize (Hm s Hs). unfold mbind, M_bind.
  destruct (m s) as [[a|e| |] s']; simpl in *; try done. by apply Hf.
Qed.
End Halts.

Lemma halts_mono {S A} (I J : S → Prop) (m : M S A) : (∀ s, J s → I s) → halts I m → halts J m.
Proof. intros HIJ Hm s Hs. auto. Qed.

Lemma halts_call {R A} I ev (f : R → A * R) : halts I (call ev f).
Proof. intros s _. unfold call. by destruct (f (remote s)). Qed.

#[export] Hint Resolve halts_ret halts_throw halts_panic halts_pure halts_deref halts_attempt
  halts_on_err halts_call : ends.

Section Methods.
Context {R : Type}.
Context `{!GodoPaging, !GodoLoadBalancers R, !GodoCertificates R, !GodoDroplets R, !Kube R, !IPNets}.
Context `{!ApiLaws R}.
Variable fuel : nat.

(** Fuel for the pages of load balancers and of droplets. *)
Definition fuelled (v : remote_view) : Prop :=
  (length (v_lb_pages v) ≤ fuel)%nat ∧ (length (v_droplet_pages v) ≤ fuel)%nat.
Definition net_fuelled (n : net R) : Prop := fuelled (net_view n).
Definition lb_fuelled (st : lbst R) : Prop := fuelled (lview st).

Lemma net_fuelled_same (n n' : net R) : same net_view n n' → net_fuelled n → net_fuelled n'.
Proof. unfold same, net_fuelled. by intros ->. Qed.
Lemma lb_fuelled_same (st st' : lbst R) : same lview st st' → lb_fuelled st → lb_fuelled st'.
Proof. unfold same, lb_fuelled. by intros ->. Qed.

Ltac solve_halts :=
  repeat first
    [ solve [auto with ends]
    | apply halts_pure; solve_ends
    | apply (halts_bind _ (same net_view)); [exact net_fuelled_same|solve [solve_within]| |intros ?]
    | apply (halts_bind _ (same lview)); [exact lb_fuelled_same|solve [solve_within]| |intros ?]
    | apply halts_bind_last; [|intros ?]
    | apply halts_on_err
    | apply halts_attempt
    | case_match ].

Lemma halts_allLoadBalancerList : halts net_fuelled (allLoadBalancerList (R := R) fuel).
Proof.
  intros n [Hf _]. destruct (allLoadBalancerList fuel n) as [r n'] eqn:E.
  apply lb_listing in E; [|done]. by destruct r.
Qed.

Lemma halts_allDropletList :
  halts net_fuelled (allDropletList (λ p, call (R := R) (EvDropletList p) (Droplets_List p)) fuel).
Proof.
  intros n [_ Hf]. destruct (allDropletList _ fuel n) as [r n'] eqn:E.
  apply droplet_listing in E; [|done]. by destruct r.
Qed.
Hint Resolve halts_allLoadBalancerList halts_allDropletList : ends.

Lemma halts_findCertificateID s : halts net_fuelled (findCertificateID (R := R) s).
Proof. unfold findCertificateID. solve_halts. Qed.
Hint Resolve halts_findCertificateID : ends.

Lemma halts_retrieve s : halts net_fuelled (retrieveLoadBalancer (R := R) fuel s).
Proof.
  assert (within (same net_view) (allLoadBalancerList (R := R) fuel)).
  { unfold allLoadBalancerList. solve_within. }
  unfold retrieveLoadBalancer, findLoadBalancerByID. solve_halts.
Qed.

Lemma halts_buildForwardingRules s : halts net_fuelled (buildForwardingRules (R := R) s).
Proof. unfold buildForwardingRules, buildHTTP3ForwardingRule. solve_halts. Qed.
Hint Resolve halts_retrieve halts_buildForwardingRules : ends.

Lemma halts_emit s reason msg : halts net_fuelled (emitServiceEvent (R := R) s reason msg).
Proof. apply halts_call. Qed.
Hint Resolve halts_emit : ends.

Lemma halts_build l s nodes ids : halts net_fuelled (buildLoadBalancerRequest (R := R) fuel l s nodes ids).
Proof.
  assert (Hr : within (same net_view) (buildForwardingRules (R := R) s)).
  { unfold buildForwardingRules, buildHTTP3ForwardingRule. solve_within. }
  assert (Hd : within (same net_view)
    (allDropletList (λ p, call (R := R) (EvDropletList p) (Droplets_List p)) fuel)).
  { unfold allDropletList. solve_within. }
  unfold buildLoadBalancerRequest, buildLoadBalancerRequestWithNodeState, nodesToDropletIDs.
  solve_halts.
Qed.

Hint Resolve halts_build : ends.

Lemma halts_on_net {A} I (m : M (net R) A) : halts I m → halts (λ st, I (lb_net st)) (on_net m).
Proof. intros Hm st Hst. specialize (Hm _ Hst). unfold on_net, zoom. by destruct (m (lb_net st)). Qed.

Lemma halts_on_net_any {A} (m : M (net R) A) : halts (λ _, True) m → halts (λ _, True) (on_net m).
Proof. apply (halts_on_net (λ _, True)). Qed.

Lemma halts_on_net_call {A} I ev (f : R → A * R) : halts I (on_net (call ev f)).
Proof. intros st _. unfold on_net, zoom, call. by destruct (f _). Qed.

Lemma halts_service I : halts I (service (R := R)).
Proof. done. Qed.
Lemma halts_annotate I k v : halts I (annotate (R := R) k v).
Proof. done. Qed.
Hint Resolve halts_on_net halts_on_net_any halts_on_net_call halts_service halts_annotate : ends.

Lemma halts_patchService cur upd : halts (λ _, True) (patchService (R := R) cur upd).
Proof. unfold patchService. solve_halts. Qed.
Hint Resolve halts_patchService : ends.

Lemma halts_Patch base err : halts (λ _, True) (Patch (R := R) base err).
Proof. unfold Patch. solve_halts. Qed.

Lemma halts_with_patcher {A} I (m : M (lbst R) A) : halts I m → halts I (with_patcher m).
Proof.
  intros Hm st Hst. specialize (Hm st Hst). unfold with_patcher, patch_result.
  destruct (m st) as [r st1]. simpl in Hm.
  pose proof (halts_Patch (lb_svc st) (match r with Err e => Some e | _ => None end) st1 ltac:(done)) as HP.
  destruct (Patch _ _ st1) as [[[]| | |] st2]; destruct r; done.
Qed.

Lemma halts_error_is_404 I e : halts I (error_is_404 (R := R) e).
Proof. destruct e as [| | | | |[]| |]; done. Qed.
Hint Resolve halts_error_is_404 : ends.

Lemma halts_recordCert a b : halts (λ _, True) (recordUpdatedLetsEncryptCert (R := R) a b).
Proof. unfold recordUpdatedLetsEncryptCert. solve_halts. Qed.

Lemma halts_any {A} I (m : M (lbst R) A) : halts (λ _, True) m → halts I m.
Proof. by apply halts_mono. Qed.

Lemma halts_finish lower lb p1 p2 : halts (λ _, True) (finishEnsure (R := R) lower lb p1 p2).
Proof. unfold finishEnsure. solve_halts. Qed.

Lemma halts_retrieveAndAnnotate : halts lb_fuelled (retrieveAndAnnotateLoadBalancer (R := R) fuel).
Proof. unfold retrieveAndAnnotateLoadBalancer. solve_halts. apply (halts_on_net net_fuelled). auto with ends. Qed.

Lemma halts_build_lb f l s nodes ids :
  halts lb_fuelled (on_net (on_err f (buildLoadBalancerRequest (R := R) fuel l s nodes ids))).
Proof. apply (halts_on_net net_fuelled). auto with ends. Qed.
Hint Resolve halts_retrieveAndAnnotate halts_build_lb : ends.

Lemma halts_updateLoadBalancer l lb nodes : halts lb_fuelled (updateLoadBalancer (R := R) fuel l lb nodes).
Proof.
  assert (∀ a b, halts lb_fuelled (recordUpdatedLetsEncryptCert (R := R) a b)).
  { intros a b. apply halts_any, halts_recordCert. }
  assert (∀ s, halts lb_fuelled (on_net (findCertificateID (R := R) s))).
  { intros s. apply (halts_on_net net_fuelled). auto with ends. }
  unfold updateLoadBalancer. solve_halts.
Qed.

Lemma halts_ensureExisting lower l nodes pending lb :
  halts lb_fuelled (ensureExisting (R := R) lower fuel l nodes pending lb).
Proof.
  pose proof halts_updateLoadBalancer. pose proof (halts_finish lower).
  unfold ensureExisting. solve_halts.
Qed.

Lemma halts_ensureMissing lower l nodes pending e :
  halts lb_fuelled (ensureMissing (R := R) lower fuel l nodes pending e).
Proof.
  pose proof (halts_finish lower). unfold ensureMissing, createLoadBalancer. solve_halts.
Qed.
Hint Resolve halts_with_patcher halts_updateLoadBalancer halts_ensureExisting halts_ensureMissing : ends.

Lemma halts_Get : halts lb_fuelled (GetLoadBalancer (R := R) fuel).
Proof. apply halts_with_patcher. solve_halts. Qed.

Lemma halts_Ensure lower l nodes : halts lb_fuelled (EnsureLoadBalancer (R := R) lower fuel l nodes).
Proof.
  unfold EnsureLoadBalancer. solve_halts. apply halts_with_patcher. solve_halts.
Qed.

Lemma halts_Update l nodes : halts lb_fuelled (UpdateLoadBalancer (R := R) fuel l nodes).
Proof.
  unfold UpdateLoadBalancer. solve_halts. apply halts_with_patcher. solve_halts.
Qed.

Lemma halts_Deleted : halts lb_fuelled (EnsureLoadBalancerDeleted (R := R) fuel).
Proof.
  assert (∀ s, halts lb_fuelled (on_net (retrieveLoadBalancer (R := R) fuel s))).
  { intros s. apply (halts_on_net net_fuelled). auto with ends. }
  unfold EnsureLoadBalancerDeleted. solve_halts.
Qed.
End Methods.

(* ================================================================== *)
(** * Properties *)

(** C8. Termination: against an API whose listings are paged with correct
    links, fuel for the pages is enough; none of the four methods of the
    load-balancer interface runs out of it, whatever the API answers to the
    other calls. *)
Theorem load_balancer_methods_terminate `{!GodoPaging, !GodoLoadBalancers R, !GodoCertificates R,
    !GodoDroplets R, !Kube R, !IPNets, !ApiLaws R} lower fuel l nodes (st : lbst R) :
  lb_fuelled fuel st →
  (GetLoadBalancer fuel st).1 ≠ NoFuel
  ∧ (EnsureLoadBalancer lower fuel l nodes st).1 ≠ NoFuel
  ∧ (UpdateLoadBalancer fuel l nodes st).1 ≠ NoFuel
  ∧ (EnsureLoadBalancerDeleted fuel st).1 ≠ NoFuel.
Proof.
  intros Hst.
  split_and!; [apply halts_Get | apply halts_Ensure | apply halts_Update | apply halts_Deleted]; done.
Qed.
