(* ===== verification/NoPanic.v ===== *)
(** * The load-balancer methods do not panic

    The only panic in the code that reads a Service and builds its load-balancer
    request is that of [getType] for a default type that is neither of the two
    types; the methods also dereference what the API answers.  With a valid
    default, neither the annotations of a Service nor its nodes make
    [buildLoadBalancerRequest] panic, whatever the API answers; and against an API
    that keeps [ApiLaws] and reports errors with their response, none of the four
    methods panics. *)

From stdpp Require Import base gmap strings list.
From Stdlib Require Import ZArith Lia.
From S2P Require Import Prelude GoStd Types Annotations Nodes Api Rules Requests LoadBalancers LBFacts LBProps ApiLaws LBSpec.
#[local] Open Scope Z_scope.

(** ** Pure code *)

Definition calm {A} (r : result A) : Prop := r ≠ Panic.

Section Calm.
Context {A B : Type}.
Lemma calm_Ok (a : A) : calm (Ok a). Proof. done. Qed.
Lemma calm_Err e : calm (A := A) (Err e). Proof. done. Qed.
Lemma calm_NoFuel : calm (A := A) NoFuel. Proof. done. Qed.
Lemma calm_of_sum (r : A + error) : calm (of_sum r). Proof. by destruct r. Qed.
Lemma calm_map_err f (r : result A) : calm r → calm (map_err f r). Proof. by destruct r. Qed.
Lemma calm_fmap (f : A → B) (r : result A) : calm r → calm (f <$> r). Proof. by destruct r. Qed.
Lemma calm_absurd (r : result A) : r = Panic → calm r → calm (A := B) Panic.
Proof. by intros ->. Qed.
Lemma calm_bind (r : result A) (f : A → result B) : calm r → (∀ a, calm (f a)) → calm (r ≫= f).
Proof. intros Hr Hf. by destruct r; [apply Hf|..]. Qed.
End Calm.

Create HintDb calm discriminated.
#[export] Hint Resolve calm_Ok calm_Err calm_NoFuel calm_of_sum calm_map_err calm_fmap : calm.

(** Follow the code; a call that is not taken apart has its lemma. *)
Ltac solve_calm :=
  repeat first
    [ solve [auto with calm]
    | apply calm_bind; [|intros ?]
    | apply calm_map_err
    | apply calm_fmap
    | match goal with H : _ = Panic |- calm Panic => apply (calm_absurd _ H) end
    | case_match ].

Lemma calm_Atoi s : calm (strconv.Atoi s).
Proof. unfold strconv.Atoi. solve_calm. Qed.
Lemma calm_ParseUint s : calm (strconv.ParseUint s).
Proof. unfold strconv.ParseUint. solve_calm. Qed.
Lemma calm_ParseBool s : calm (strconv.ParseBool s).
Proof. unfold strconv.ParseBool. solve_calm. Qed.
#[export] Hint Resolve calm_Atoi calm_ParseUint calm_ParseBool : calm.

Lemma calm_atoi_all l : calm (atoi_all l).
Proof. induction l; simpl; solve_calm. Qed.
#[export] Hint Resolve calm_atoi_all : calm.

Lemma calm_getPorts s k : calm (getPorts s k).
Proof. unfold getPorts. solve_calm. Qed.
Lemma calm_flag s k f : calm (flag_annotation s k f).
Proof. unfold flag_annotation, getBool. solve_calm. Qed.
Lemma calm_atoi_annotation s k d f : calm (atoi_annotation s k d f).
Proof. unfold atoi_annotation. solve_calm. Qed.
#[export] Hint Extern 2 (calm _) =>
  first [apply calm_getPorts | apply calm_flag | apply calm_atoi_annotation] : calm.

Lemma calm_dropletID p : calm (dropletIDFromProviderID p).
Proof. unfold dropletIDFromProviderID. solve_calm. Qed.
#[export] Hint Resolve calm_dropletID : calm.

Lemma calm_provider_droplets nodes : calm (provider_droplets nodes).
Proof. induction nodes; simpl; solve_calm. Qed.
Lemma calm_find_hc_port s p l : calm (find_hc_port s p l).
Proof. induction l; simpl; solve_calm. Qed.
Lemma calm_first_tcp_port l : calm (first_tcp_port l).
Proof. induction l; simpl; solve_calm. Qed.
Lemma calm_port_rules po c t ports : calm (port_rules po c t ports).
Proof. induction ports; simpl; unfold buildForwardingRule, buildTLSForwardingRule; solve_calm. Qed.
Lemma calm_regional_rules ports : calm (buildRegionalNetworkForwardingRule ports).
Proof. induction ports; simpl; solve_calm. Qed.
Lemma calm_ParseIPNets `{!IPNets} specs keys : calm (ParseIPNets specs keys).
Proof. revert keys. induction specs; intros keys; simpl; solve_calm. Qed.
Lemma calm_getNetworkStack s t n ns : calm (getNetworkStack s t n ns).
Proof. unfold getNetworkStack. solve_calm. Qed.
#[export] Hint Resolve calm_provider_droplets calm_find_hc_port calm_first_tcp_port calm_port_rules
  calm_regional_rules calm_ParseIPNets calm_getNetworkStack : calm.

Lemma calm_getNetwork s : calm (getNetwork s).
Proof. unfold getNetwork. solve_calm. Qed.
Lemma calm_getType s d : valid_default d → calm (getType s d).
Proof. by apply getType_no_panic. Qed.
Lemma calm_CurrentPage `{!GodoPaging} l : calm (CurrentPage l).
Proof. unfold CurrentPage. solve_calm. Qed.
#[export] Hint Resolve calm_getNetwork calm_getType calm_CurrentPage : calm.

(** ** Effectful code *)

Definition steady {S A} (m : M S A) : Prop := ∀ s, calm (m s).1.

Lemma steady_bind {S A B} (m : M S A) (f : A → M S B) :
  steady m → (∀ a, steady (f a)) → steady (m ≫= f).
Proof.
  intros Hm Hf s. specialize (Hm s). unfold mbind, M_bind. destruct (m s) as [[]]; try done. apply Hf.
Qed.
Lemma steady_ret {S A} (a : A) : steady (S := S) (mret a). Proof. done. Qed.
Lemma steady_throw {S A} e : steady (S := S) (throw (A := A) e). Proof. done. Qed.
Lemma steady_nofuel {S A} : steady (S := S) (nofuel (A := A)). Proof. done. Qed.
Lemma steady_pure {S A} (r : result A) : calm r → steady (S := S) (pure r). Proof. by intros ? s. Qed.
Lemma steady_on_err {S A} f (m : M S A) : steady m → steady (on_err f m).
Proof. intros Hm s. specialize (Hm s). unfold on_err. by destruct (m s) as [[]]. Qed.
Lemma steady_attempt {S A} (m : M S A) : steady m → steady (attempt m).
Proof. intros Hm s. specialize (Hm s). unfold attempt. by destruct (m s) as [[]]. Qed.
Lemma steady_call {R A} ev (f : R → A * R) : steady (call ev f).
Proof. intros s. unfold call. by destruct (f _). Qed.
#[export] Hint Resolve steady_ret steady_throw steady_nofuel steady_call steady_on_err steady_attempt : calm.

Ltac solve_steady :=
  repeat first
    [ solve [auto with calm]
    | apply steady_pure; solve [solve_calm]
    | apply steady_bind; [|intros ?]
    | apply steady_on_err
    | apply steady_attempt
    | case_match ].

Lemma steady_all_pages `{!GodoPaging} {S A} nr (lf : Z → M S (reply (list A))) fuel page acc :
  (∀ p, steady (lf p)) → steady (all_pages nr lf fuel page acc).
Proof. intros Hlf. revert page acc. induction fuel; intros page acc; simpl; solve_steady. Qed.

Section Requests.
Context {R : Type}.
Context `{!GodoPaging, !GodoLoadBalancers R, !GodoCertificates R, !GodoDroplets R, !Kube R, !IPNets}.
Variable fuel : nat.

Lemma steady_findCertificateID s : steady (findCertificateID (R := R) s).
Proof. unfold findCertificateID. solve_steady. Qed.
Hint Resolve steady_findCertificateID : calm.

Lemma steady_buildForwardingRules s : steady (buildForwardingRules (R := R) s).
Proof.
  unfold buildForwardingRules, buildHTTP3ForwardingRule, getProtocol, getHTTP3Port, getHTTPPorts, getHTTPSPorts,
    getHTTP2Ports. solve_steady.
Qed.
Hint Resolve steady_buildForwardingRules : calm.

Lemma steady_withNodeState s d ns :
  valid_default d → steady (buildLoadBalancerRequestWithNodeState (R := R) s d ns).
Proof.
  intros Hd. unfold buildLoadBalancerRequestWithNodeState, buildHealthCheck, healthCheckPort, healthCheckProtocol,
    buildStickySessions, getStickySessionsCookieName, getStickySessionsCookieTTL, getSizeSlug, getSizeUnit,
    getHttpIdleTimeoutSeconds, buildFirewall, getSourceRangeRules. solve_steady.
Qed.

Lemma steady_buildLoadBalancerRequest l s nodes ids :
  valid_default l.(loadBalancers.defaultLBType) →
  steady (buildLoadBalancerRequest (R := R) fuel l s nodes ids).
Proof.
  intros Hd. pose proof (λ ns, steady_withNodeState s _ ns Hd).
  unfold buildLoadBalancerRequest, nodesToDropletIDs, allDropletList, emitServiceEvent.
  solve_steady. apply steady_all_pages. auto with calm.
Qed.
End Requests.

(** ** Methods *)

(** An error response of the certificate API has its response. *)
Class ErrorResponses (R : Type) `{!GodoCertificates R} := {
  cert_error_response id r msg : rerr (Certificates_Get id r).1 ≠ Some (ErrorResponse None msg);
}.

Section Methods.
Context {R : Type}.
Context `{!GodoPaging, !GodoLoadBalancers R, !GodoCertificates R, !GodoDroplets R, !Kube R, !IPNets}.
Context `{!ApiLaws R, !ErrorResponses R}.
Variable fuel : nat.
Variable lower : string → string.

Lemma steady_on_net {A} (m : M (net R) A) : steady m → steady (on_net m).
Proof. intros Hm st. specialize (Hm (lb_net st)). unfold on_net, zoom. by destruct (m (lb_net st)). Qed.
Lemma steady_service : steady (service (R := R)). Proof. done. Qed.
Lemma steady_annotate k v : steady (annotate (R := R) k v). Proof. done. Qed.
Hint Resolve steady_on_net steady_service steady_annotate steady_findCertificateID : calm.

(** After a call the answer is one that the service gives. *)
Lemma steady_answer {A B} ev (f : R → A * R) (k : A → M (lbst R) B) :
  (∀ r, steady (k (f r).1)) → steady (on_net (call ev f) ≫= k).
Proof.
  intros Hk st. unfold mbind, M_bind, on_net, zoom, call. specialize (Hk (remote (lb_net st))).
  destruct (f _) as [a r']. apply Hk.
Qed.

Lemma steady_error_is_404 e : (∀ msg, e ≠ ErrorResponse None msg) → steady (error_is_404 (R := R) e).
Proof. intros He. destruct e as [| | | | |[] msg| |]; try done. by destruct (He msg). Qed.

Lemma steady_recordCert a b : steady (recordUpdatedLetsEncryptCert (R := R) a b).
Proof.
  assert (Hc : ∀ id r e, rerr (Certificates_Get id r).1 = Some e → steady (error_is_404 (R := R) e)).
  { intros id r e He. apply steady_error_is_404. intros msg ->. by eapply cert_error_response. }
  unfold recordUpdatedLetsEncryptCert. case_match; [|done]. apply steady_answer. intros r.
  destruct (rerr (Certificates_Get a r).1) as [e|] eqn:He.
  { apply steady_bind; [by eapply Hc|]. intros []; solve_steady. }
  destruct (cert_get_ok a r He) as [-> [c ->]]. simpl. apply steady_bind; [done|]. intros c'.
  case_match; [done|]. apply steady_answer. intros r'.
  destruct (rerr (Certificates_Get b r').1) as [e|] eqn:He'.
  { apply steady_bind; [by eapply Hc|]. intros []; solve_steady. }
  destruct (cert_get_ok b r' He') as [-> [c2 ->]]. solve_steady.
Qed.
Hint Resolve steady_recordCert : calm.

Lemma steady_updateLoadBalancer l lb nodes :
  valid_default l.(loadBalancers.defaultLBType) → steady (updateLoadBalancer fuel l lb nodes).
Proof.
  intros Hd. pose proof (λ s nodes ids, steady_buildLoadBalancerRequest fuel l s nodes ids Hd).
  unfold updateLoadBalancer. solve_steady.
Qed.

(** An update that succeeds answers a load balancer. *)
Lemma update_answers l lb nodes st p pend st' :
  updateLoadBalancer fuel l lb nodes st = (Ok (p, pend), st') → is_Some p.
Proof.
  unfold updateLoadBalancer. intros Hu. inv_lb. destruct a4 as [req pend']. inv_lb.
  destruct (rerr _) eqn:Hrerr; inv_lb. simplify_eq.
  match goal with H : call _ _ _ = _ |- _ => apply call_inv in H as (rp & [= <-] & Hupd & _) end.
  pose proof (update_ok (LoadBalancer.ID lb) req (remote (lb_net s4))) as Hok. rewrite Hupd in Hok.
  destruct (Hok Hrerr) as (lb' & Hval & _). simpl in Hval. by exists lb'.
Qed.

Lemma steady_create req : steady (createLoadBalancer (R := R) req).
Proof.
  unfold createLoadBalancer. apply steady_bind; [done|]. intros s. cbv zeta. apply steady_answer. intros r.
  match goal with |- context [LoadBalancers_Create ?q r] => pose proof (create_ok q r) as Hok;
    destruct (LoadBalancers_Create q r) as [rp r'] end. simpl in *.
  destruct (rerr rp); [done|]. destruct (Hok eq_refl) as (lb & -> & _). done.
Qed.

Lemma steady_finish lb p1 p2 : steady (finishEnsure (R := R) lower lb p1 p2).
Proof. unfold finishEnsure, retryIfNodesPendingInit. solve_steady. Qed.

Lemma steady_patchService cur upd : steady (patchService (R := R) cur upd).
Proof. unfold patchService. solve_steady. Qed.
Hint Resolve steady_patchService : calm.

Lemma calm_patch_result {A} base (r : result A) (st : lbst R) : calm r → calm (patch_result base r st).1.
Proof.
  intros Hr. assert (HP : ∀ err, steady (Patch (R := R) base err)).
  { intros err. unfold Patch. solve_steady. }
  unfold patch_result. destruct r as [a|e| |]; try done.
  - specialize (HP None st). by destruct (Patch _ _ st) as [[[]| | |] st'].
  - specialize (HP (Some e) st). by destruct (Patch _ _ st) as [[[]| | |] st'].
Qed.

Lemma calm_with_patcher {A} (m : M (lbst R) A) st : calm (m st).1 → calm (with_patcher m st).1.
Proof. intros Hm. unfold with_patcher. destruct (m st) as [r st1]. by apply calm_patch_result. Qed.

Lemma calm_prepare l s nodes :
  valid_default l.(loadBalancers.defaultLBType) → calm (prepareNodesForLBSync l s nodes).
Proof. intros Hd. unfold prepareNodesForLBSync, classifyServiceNodes. solve_calm. Qed.

Section Calls.
Variables (l : loadBalancers.t) (nodes : list Node.t) (st : lbst R).
Hypothesis Hd : valid_default l.(loadBalancers.defaultLBType).
Hypothesis Hf : enough_fuel fuel (lb_net st).

Lemma calm_retrieve : calm (retrieveAndAnnotateLoadBalancer fuel st).1.
Proof.
  rewrite retrieveAndAnnotate_run. destruct (retrieveLoadBalancer fuel _ _) as [r n1] eqn:E.
  apply (retrieve_spec _ _ _ _ _ Hf) in E. destruct r as [p|e| |]; try done. by destruct E as (lb & -> & _).
Qed.

Lemma calm_Get : calm (GetLoadBalancer fuel st).1.
Proof.
  apply calm_with_patcher. unfold mbind, M_bind, attempt. pose proof calm_retrieve as Hr.
  destruct (retrieveAndAnnotateLoadBalancer fuel st) as [[lb|[]| |] st1]; try done; by case_match.
Qed.

Lemma steady_ensureExisting pending lb : steady (ensureExisting lower fuel l nodes pending lb).
Proof.
  unfold ensureExisting. apply steady_bind; [done|]. intros s. apply steady_bind.
  { by apply steady_on_net, steady_on_err, steady_buildLoadBalancerRequest. }
  intros _ st1. pose proof (steady_updateLoadBalancer l lb nodes Hd st1) as Hu. unfold mbind, M_bind.
  destruct (updateLoadBalancer fuel l lb nodes st1) as [[[p pend]| | |] st2] eqn:E; try done.
  destruct (update_answers _ _ _ _ _ _ _ E) as [lb' ->]. apply steady_finish.
Qed.

Lemma steady_ensureMissing pending : steady (ensureMissing lower fuel l nodes pending (ErrSentinel errLBNotFound)).
Proof.
  unfold ensureMissing. apply steady_bind; [done|]. intros s. apply steady_bind.
  { by apply steady_on_net, steady_on_err, steady_buildLoadBalancerRequest. }
  intros [req pnr]. apply steady_bind; [apply steady_create|]. intros lb. apply steady_finish.
Qed.

Lemma calm_Ensure : calm (EnsureLoadBalancer lower fuel l nodes st).1.
Proof.
  unfold EnsureLoadBalancer, service, pure, mbind, M_bind. simpl.
  assert (Hg : calm (getDisownLB (lb_svc st))) by (unfold getDisownLB; solve_calm).
  destruct (getDisownLB _) as [[]| | |]; try done. apply calm_with_patcher.
  unfold mbind, M_bind, attempt. pose proof (calm_prepare l (lb_svc st) nodes Hd) as Hp. simpl.
  destruct (prepareNodesForLBSync _ _ _) as [pending| | |]; try done. pose proof calm_retrieve as Hr.
  destruct (retrieveAndAnnotateLoadBalancer fuel st) as [[lb|e| |] st1] eqn:Er; try done.
  - apply steady_ensureExisting.
  - apply retrieveAndAnnotate_Err in Er as (_ & _ & He); [|done].
    destruct He as [[-> _]| ->]; [|done]. apply steady_ensureMissing.
Qed.

Lemma calm_Update : calm (UpdateLoadBalancer fuel l nodes st).1.
Proof.
  unfold UpdateLoadBalancer, service, pure, mbind, M_bind. simpl.
  assert (Hg : calm (getDisownLB (lb_svc st))) by (unfold getDisownLB; solve_calm).
  destruct (getDisownLB _) as [[]| | |]; try done. apply calm_with_patcher. pose proof calm_retrieve as Hr.
  destruct (retrieveAndAnnotateLoadBalancer fuel st) as [[lb| | |] st1]; try done.
  pose proof (calm_prepare l (lb_svc st1) nodes Hd) as Hp.
  destruct (prepareNodesForLBSync _ _ _) as [pending| | |]; try done.
  pose proof (steady_updateLoadBalancer l lb nodes Hd st1) as Hu.
  destruct (updateLoadBalancer fuel l lb nodes st1) as [[[p pend]| | |] st2]; try done.
  unfold retryIfNodesPendingInit. simpl. by case_bool_decide.
Qed.

Lemma calm_Deleted : calm (EnsureLoadBalancerDeleted fuel st).1.
Proof.
  unfold EnsureLoadBalancerDeleted, service, pure, attempt, mbind, M_bind. simpl.
  assert (Hg : calm (getDisownLB (lb_svc st))) by (unfold getDisownLB; solve_calm).
  destruct (getDisownLB _) as [[]| | |]; try done.
  destruct (on_net _ st) as [r st1] eqn:Er. apply on_net_inv in Er as [Er _].
  apply (retrieve_spec _ _ _ _ _ Hf) in Er. destruct r as [p|e| |]; [|by repeat case_match|done..].
  destruct Er as (lb & -> & _). simpl. unfold on_net, zoom, call.
  destruct (LoadBalancers_Delete _ _) as [rp r']. by repeat case_match.
Qed.
End Calls.
End Methods.
