(* ===== verification/Instances.v ===== *)
(** * Instances

    [droplets.go]: the [InstancesV2] interface, which tells the node controllers
    whether the droplet of a node exists, whether it is shut down, and what its
    metadata is.  A node without a provider ID is looked up by name; any other
    node by the droplet ID in its provider ID. *)

From S2P Require Import Prelude GoStd Types Annotations Nodes Api Rules.
From stdpp Require Import base gmap strings list.
From Stdlib Require Import ZArith Lia.
#[local] Open Scope Z_scope.

(** [godo.DropletsService]: the calls of this component. *)
Class GodoDropletLookup (R : Type) := {
  Droplets_Get : Z → R → reply (option Droplet.t) * R;
  Droplets_ListByName : string → Z → R → reply (list Droplet.t) * R;
}.

Definition dropletShutdownStatus : string := "off".

(** [cloudprovider.InstanceMetadata]: the fields the code sets. *)
Module InstanceMetadata.
Record t := mk {
  ProviderID : string;
  InstanceType : string;
  Region : string;
  NodeAddresses : list NodeAddress.t;
}.
End InstanceMetadata.

(** The test of the loop of [dropletByName]: the name of the droplet or one of
    its addresses. *)
Definition droplet_matches (nodeName : string) (droplet : Droplet.t) : bool :=
  let is_name (addr : result string) :=
    match addr with Ok ip => str_eqb ip nodeName | _ => false end in
  str_eqb droplet.(Droplet.Name) nodeName
  || is_name (PrivateIPv4 droplet) || is_name (PublicIPv4 droplet) || is_name (PublicIPv6 droplet).

Section Instances.
Context {R : Type} `{!GodoPaging, !GodoDropletLookup R}.
Variable fuel : nat.

(** [dropletByID]; its callers read the droplet only when there is no error. *)
Definition dropletByID (id : Z) : M (net R) (option Droplet.t) :=
  rp ← call (EvDropletGet id) (Droplets_Get id);
  match rp.(rerr) with
  | Some e => throw e
  | None => mret rp.(rval)
  end.

Definition dropletByName (nodeName : string) : M (net R) Droplet.t :=
  droplets ← allDropletList
    (λ page, call (EvDropletListByName nodeName page) (Droplets_ListByName nodeName page)) fuel;
  match list_find (λ d, droplet_matches nodeName d = true) droplets with
  | Some (_, droplet) => mret droplet
  | None => throw (ErrSentinel InstanceNotFound)
  end.

(** The droplet ID of a node, with the error all three methods return. *)
Definition node_droplet_id (node : Node.t) : M (net R) Z :=
  on_err (λ e, Errorf "determining droplet ID from providerID: %s" [AErr e])
    (pure (dropletIDFromProviderID node.(Node.ProviderID))).

(** A [*godo.ErrorResponse] without a [Response] is dereferenced. *)
Definition InstanceExists (node : Node.t) : M (net R) bool :=
  dropletID ← node_droplet_id node;
  droplet ← attempt (dropletByID dropletID);
  match droplet with
  | inl _ => mret true
  | inr (ErrorResponse None _) => panic
  | inr (ErrorResponse (Some code) msg) =>
      if negb (code =? StatusNotFound)
      then throw (Errorf "error checking if instance exists: %s" [AErr (ErrorResponse (Some code) msg)])
      else mret false
  | inr e => throw (Errorf "unexpected error type %T from godo: %s" [AErr e; AErr e])
  end.

(** The droplet of a node by its ID. *)
Definition node_droplet (node : Node.t) (dropletID : Z) : M (net R) Droplet.t :=
  droplet ← on_err (λ e, Errorf "getting droplet by ID: %s: " [AErr e]) (dropletByID dropletID);
  match droplet with
  | None => throw (Errorf "droplet %d for node %s does not exist" [AInt dropletID; AStr node.(Node.Name)])
  | Some droplet => mret droplet
  end.

Definition InstanceShutdown (node : Node.t) : M (net R) bool :=
  dropletID ← node_droplet_id node;
  droplet ← node_droplet node dropletID;
  mret (str_eqb droplet.(Droplet.Status) dropletShutdownStatus).

Definition InstanceMetadata (node : Node.t) : M (net R) InstanceMetadata.t :=
  '(dropletID, droplet) ←
    (if str_eqb node.(Node.ProviderID) "" then
       droplet ← on_err (λ e, Errorf "getting droplet by name: %s" [AErr e])
                   (dropletByName node.(Node.Name));
       mret (droplet.(Droplet.ID), droplet)
     else
       dropletID ← node_droplet_id node;
       droplet ← node_droplet node dropletID;
       mret (dropletID, droplet));
  nodeAddrs ← on_err (λ e, Errorf "getting node addresses of droplet %d for node %s: %s"
                             [AInt dropletID; AStr node.(Node.Name); AErr e])
                (pure (nodeAddresses droplet));
  region ← deref droplet.(Droplet.RegionSlug);
  mret (InstanceMetadata.mk (providerIDPrefix +:+ strconv.Itoa dropletID)
          droplet.(Droplet.SizeSlug) region nodeAddrs).
End Instances.

(* ================================================================== *)
(** * Facts *)

(** What the look-ups rely on: the listing by name is served in pages, changes
    nothing, and every droplet in it can be got by its ID. *)
Class DropletLaws (R : Type) `{!GodoPaging, !GodoDropletLookup R} := {
  named : string → R → list (list Droplet.t);
  named_served name r : serves (Droplets_ListByName name) (named name r) r;
  named_nonempty name r : named name r ≠ [];
  named_got name r d : d ∈ concat (named name r) → is_int64 d.(Droplet.ID)
    ∧ ∃ resp, Droplets_Get d.(Droplet.ID) r = (Reply (Some d) resp None, r);
}.

Section InstanceFacts.
Context {R : Type} `{!GodoPaging, !GodoDropletLookup R}.
Variable fuel : nat.

Lemma dropletByName_Ok `{!DropletLaws R} name (s s' : net R) d :
  (length (named name (remote s)) ≤ fuel)%nat →
  dropletByName fuel name s = (Ok d, s') →
  remote s' = remote s ∧ d ∈ concat (named name (remote s)) ∧ droplet_matches name d = true.
Proof.
  intros Hf. destruct s as [r tr]. unfold dropletByName, allDropletList, mbind, M_bind.
  rewrite (all_pages_complete (Droplets_ListByName name) _ (EvDropletListByName name) (named name r));
    [|apply named_served|apply named_nonempty|done].
  destruct (list_find _ _) as [[i d']|] eqn:E; intros Heq; inv_ok.
  apply list_find_Some in E as (Hl & Hm & _). split_and!; [done| |done]. by eapply list_elem_of_lookup_2.
Qed.

(** A droplet that can be got by its ID, through any provider ID that names it. *)
Lemma node_droplet_got node d resp (s : net R) :
  Droplets_Get d.(Droplet.ID) (remote s) = (Reply (Some d) resp None, remote s) →
  node_droplet node d.(Droplet.ID) s = (Ok d, Net (remote s) (trace s ++ [EvDropletGet d.(Droplet.ID)])).
Proof.
  intros Hg. unfold node_droplet, dropletByID, on_err, call, mbind, M_bind. by rewrite Hg.
Qed.

Lemma node_droplet_id_got node id (s : net R) :
  is_int64 id → node.(Node.ProviderID) = providerID id → node_droplet_id node s = (Ok id, s).
Proof.
  intros Hid Hp. unfold node_droplet_id, on_err, pure. by rewrite Hp, dropletID_providerID.
Qed.

Lemma providerID_nonempty id : str_eqb (providerID id) "" = false.
Proof. done. Qed.
End InstanceFacts.

(* ================================================================== *)
(** * Properties *)

Definition set_ProviderID (pid : string) (n : Node.t) : Node.t :=
  Node.mk n.(Node.Name) n.(Node.Labels) pid n.(Node.Taints) n.(Node.Conditions) n.(Node.Addresses).

Section Properties.
Context {R : Type} `{!GodoPaging, !GodoDropletLookup R}.

(** C33. A node is reported gone, which makes the node controller delete it,
    exactly when its provider ID names a droplet and the API answers that very
    droplet with a 404 error; every other error, a malformed provider ID
    included, is returned as an error and never as an absence. *)
Theorem instance_gone_iff_404 node (s : net R) :
  let '(r, s') := InstanceExists node s in
  (r = Ok false ↔ ∃ id msg, dropletIDFromProviderID node.(Node.ProviderID) = Ok id
     ∧ rerr (Droplets_Get id (remote s)).1 = Some (ErrorResponse (Some StatusNotFound) msg))
  ∧ (r = Ok true ↔ ∃ id, dropletIDFromProviderID node.(Node.ProviderID) = Ok id
     ∧ rerr (Droplets_Get id (remote s)).1 = None)
  ∧ (is_ok (dropletIDFromProviderID node.(Node.ProviderID)) = false → is_ok r = false ∧ s' = s).
Proof.
  unfold InstanceExists, node_droplet_id, dropletByID, attempt, on_err, call, pure, mbind, M_bind.
  destruct (dropletIDFromProviderID (Node.ProviderID node)) as [id|e| |]; simpl;
    [|split_and!; [split; [done|intros (? & ? & [=] & _)]|split; [done|intros (? & [=] & _)]|done]..].
  destruct (Droplets_Get id (remote s)) as [rp r'] eqn:Eg. destruct (rerr rp) as [e|] eqn:Ee; simpl.
  2:{ split_and!; [| |done].
      - split; [done|]. intros (? & ? & [= <-] & Hc). rewrite Eg in Hc. simpl in Hc. congruence.
      - split; [|done]. intros _. exists id. by rewrite Eg. }
  destruct e as [| | | | |[code|] msg| |]; simpl;
    try (split_and!; [split; [done|intros (? & ? & [= <-] & Hc)]|split; [done|intros (? & [= <-] & Hc)]|done];
         rewrite Eg in Hc; simpl in Hc; congruence).
  destruct (code =? StatusNotFound) eqn:Ec; simpl; (split_and!; [| |done]).
  - apply Z.eqb_eq in Ec as ->. split; [|done]. intros _. exists id, msg. by rewrite Eg.
  - split; [done|]. intros (? & [= <-] & Hc). rewrite Eg in Hc. simpl in Hc. congruence.
  - split; [done|]. intros (? & ? & [= <-] & Hc). rewrite Eg in Hc. simpl in Hc.
    rewrite Ee in Hc. injection Hc as -> _. done.
  - split; [done|]. intros (? & [= <-] & Hc). rewrite Eg in Hc. simpl in Hc. congruence.
Qed.

(** C34. Metadata is stable: what [InstanceMetadata] says of a node looked up by
    name describes one droplet that goes by that name or address; once the node
    carries the provider ID it was given, the look-up by ID answers the same
    metadata, the instance exists, and the shutdown state is that droplet's. *)
Theorem metadata_survives_provider_id `{!DropletLaws R} fuel node (s s' : net R) md :
  node.(Node.ProviderID) = "" →
  (length (named node.(Node.Name) (remote s)) ≤ fuel)%nat →
  InstanceMetadata fuel node s = (Ok md, s') →
  let node' := set_ProviderID md.(InstanceMetadata.ProviderID) node in
  ∃ d, d ∈ concat (named node.(Node.Name) (remote s)) ∧ droplet_matches node.(Node.Name) d = true
    ∧ md.(InstanceMetadata.ProviderID) = providerID d.(Droplet.ID)
    ∧ (InstanceMetadata fuel node' s').1 = Ok md
    ∧ (InstanceExists node' s').1 = Ok true
    ∧ (InstanceShutdown node' s').1 = Ok (bool_decide (d.(Droplet.Status) = dropletShutdownStatus)).
Proof.
  intros Hpid Hf Hmd. unfold InstanceMetadata in Hmd. rewrite Hpid, str_eqb_refl in Hmd. inv_ok.
  rename a0 into d. destruct (dropletByName_Ok _ _ _ _ _ Hf Hm0) as (Hr & Hin & Hmatch).
  destruct (named_got _ _ _ Hin) as (Hid & resp & Hget). rewrite <- Hr in Hget.
  destruct (Droplet.RegionSlug d) as [region|] eqn:Ereg; [|done]. simpl in Hm1. inv_ok.
  intros node'. exists d. fold (providerID (Droplet.ID d)) in node' |- *.
  pose proof (node_droplet_id_got node' _ s' Hid eq_refl) as Hnid.
  pose proof (node_droplet_got node' d resp s' Hget) as Hnd.
  split_and!; [done..| | |].
  - unfold InstanceMetadata. change (Node.ProviderID node') with (providerID (Droplet.ID d)).
    rewrite providerID_nonempty. unfold mbind, M_bind. rewrite Hnid, Hnd. simpl.
    unfold on_err, pure. rewrite Hm. simpl. by rewrite Ereg.
  - unfold InstanceExists, mbind, M_bind. rewrite Hnid.
    unfold attempt, dropletByID, call, mbind, M_bind. by rewrite Hget.
  - unfold InstanceShutdown, mbind, M_bind. by rewrite Hnid, Hnd.
Qed.
End Properties.
