(* ===== verification/Resources.v ===== *)
(** * Resource tagging

    [resources.go]: the resources controller, which periodically tags the load
    balancers of the cluster's Services with the cluster ID.  The ticker that
    calls [syncTags] is in [Syncer.v]. *)

From S2P Require Import Prelude GoStd Types Annotations Nodes Api Rules Requests LoadBalancers.
From stdpp Require Import base gmap strings list.
From Stdlib Require Import ZArith Lia.
#[local] Open Scope Z_scope.

(** [godo.TagsService]; the tag that a creation answers is not read. *)
Class GodoTags (R : Type) := {
  Tags_Create : string → R → reply unit * R;
  Tags_TagResources : string → list string → R → reply unit * R;
}.

(** The error of [tagResources]: [tagMissingError] or the one of the call. *)
Inductive tag_error :=
| tagMissingError (e : error)
| tagCallError (e : error).

Definition tag_error_text (e : tag_error) : error :=
  match e with tagMissingError e => e | tagCallError e => e end.

Definition is_tagMissing (e : option tag_error) : bool :=
  match e with Some (tagMissingError _) => true | _ => false end.

(** The IDs of the resources collected for the LoadBalancer Services; all have
    the load-balancer resource type. *)
Definition collect_resources (lbSvcs : list Service.t) (lbs : list LoadBalancer.t) : list string :=
  filter (λ id, id ≠ "") ((λ svc, findLoadBalancerID svc lbs) <$> lbSvcs).

Section Resources.
Context {R : Type} `{!GodoPaging, !GodoLoadBalancers R, !GodoTags R}.
Variable fuel : nat.

Definition tagResources (clusterID : string) (res : list string) : M (net R) (option tag_error) :=
  let tag := buildK8sTag clusterID in
  rp ← call (EvTagResources tag res) (Tags_TagResources tag res);
  if is_404 rp then mret (Some (tagMissingError (Errorf "tag %q does not exist" [AStr tag])))
  else mret (tagCallError <$> rp.(rerr)).

(** The end of [syncTags]: the first attempt, the creation of a missing tag and
    the second attempt. *)
Definition tag_collected (clusterID : string) (res : list string) : M (net R) unit :=
  let tag := buildK8sTag clusterID in
  err ← tagResources clusterID res;
  err ← (if is_tagMissing err then
           rp ← call (EvTagCreate tag) (Tags_Create tag);
           match rp.(rerr) with
           | Some e => throw (Errorf "failed to create tag %q: %s" [AStr tag; AErr e])
           | None => tagResources clusterID res
           end
         else mret err);
  match err with
  | Some e => throw (Errorf "failed to tag LB resource(s) %v with tag %q: %s"
                       [AStrs res; AStr tag; AErr (tag_error_text e)])
  | None => mret tt
  end.

(** [svcs] is what the lister answers. *)
Definition syncTags (clusterID : string) (svcs : list Service.t + error) : M (net R) unit :=
  svcs ← on_err (λ e, Errorf "failed to list services: %s" [AErr e]) (pure (of_sum svcs));
  let lbSvcs := filter (λ svc, svc.(Service.Type_) = ServiceTypeLoadBalancer) svcs in
  if bool_decide (lbSvcs = []) then mret tt
  else
    lbs ← on_err (λ e, Errorf "failed to list load-balancers: %s" [AErr e]) (allLoadBalancerList fuel);
    let res := collect_resources lbSvcs lbs in
    if bool_decide (res = []) then mret tt
    else tag_collected clusterID res.

(** What one tick does: [Run] starts the syncer only for a cluster with an ID. *)
Definition sync_tick (clusterID : string) (svcs : list Service.t + error) : M (net R) unit :=
  if str_eqb clusterID "" then mret tt else syncTags clusterID svcs.
End Resources.

(* ================================================================== *)
(** * Facts *)

(** What tagging relies on: a tagging call that succeeds has tagged every
    resource it names. *)
Class TagLaws (R : Type) `{!GodoTags R} := {
  tagged : R → string → string → Prop;
  tags_applied tag ids r : rerr (Tags_TagResources tag ids r).1 = None →
    ∀ id, id ∈ ids → tagged (Tags_TagResources tag ids r).2 tag id;
}.

(** How resources come to be tagged: at once; or, exactly when the answer is that
    the tag does not exist, after its creation in a second and last attempt.  The
    calls, whether they succeeded, and the remote state then. *)
Inductive tagging {R} `{!GodoTags R} (tag : string) (res : list string) (r : R) : list event → bool → R → Prop :=
| tagging_once rp r1 :
    Tags_TagResources tag res r = (rp, r1) → status rp ≠ Some 404 →
    tagging tag res r [EvTagResources tag res] (bool_decide (rerr rp = None)) r1
| tagging_not_created rp r1 rpc r2 :
    Tags_TagResources tag res r = (rp, r1) → status rp = Some 404 →
    Tags_Create tag r1 = (rpc, r2) → rerr rpc ≠ None →
    tagging tag res r [EvTagResources tag res; EvTagCreate tag] false r2
| tagging_again rp r1 rpc r2 rp2 r3 :
    Tags_TagResources tag res r = (rp, r1) → status rp = Some 404 →
    Tags_Create tag r1 = (rpc, r2) → rerr rpc = None →
    Tags_TagResources tag res r2 = (rp2, r3) →
    tagging tag res r [EvTagResources tag res; EvTagCreate tag; EvTagResources tag res]
      (bool_decide (status rp2 ≠ Some 404 ∧ rerr rp2 = None)) r3.

Section ResourceFacts.
Context {R : Type} `{!GodoPaging, !GodoLoadBalancers R, !GodoTags R}.
Variable fuel : nat.

Lemma tagResources_run clusterID res (n : net R) :
  let tag := buildK8sTag clusterID in
  let '(rp, r') := Tags_TagResources tag res (remote n) in
  tagResources clusterID res n
  = (Ok (if is_404 rp then Some (tagMissingError (Errorf "tag %q does not exist" [AStr tag]))
         else tagCallError <$> rerr rp), Net r' (trace n ++ [EvTagResources tag res])).
Proof.
  intros tag. unfold tagResources, call, mbind, M_bind. fold tag.
  destruct (Tags_TagResources tag res (remote n)) as [rp r']. by destruct (is_404 rp).
Qed.

(** The code tags that way, and reports the success. *)
Lemma tag_collected_run clusterID res (n : net R) :
  let tag := buildK8sTag clusterID in
  let '(r, n') := tag_collected clusterID res n in
  (∃ writes, trace n' = trace n ++ writes ∧ tagging tag res (remote n) writes (is_ok r) (remote n'))
  ∧ r ≠ Panic ∧ r ≠ NoFuel.
Proof.
  intros tag. unfold tag_collected, mbind, M_bind. fold tag.
  pose proof (tagResources_run clusterID res n) as H1. simpl in H1. fold tag in H1.
  destruct (Tags_TagResources tag res (remote n)) as [rp1 r1] eqn:E1. rewrite H1.
  unfold is_404 in *. case_bool_decide as H404; simpl.
  2:{ pose proof (tagging_once tag res (remote n) rp1 r1 E1 H404) as Ht.
      destruct (rerr rp1); simpl; (split; [by eexists|done]). }
  unfold call. simpl. destruct (Tags_Create tag r1) as [rpc r2] eqn:Ec. destruct (rerr rpc) as [e|] eqn:Er; simpl.
  { split; [|done]. eexists. rewrite <- app_assoc. split; [done|].
    eapply tagging_not_created; [done|done|done|by rewrite Er]. }
  match goal with |- context [tagResources clusterID res ?m] => set (n2 := m) end.
  pose proof (tagResources_run clusterID res n2) as H2. simpl in H2. fold tag in H2.
  destruct (Tags_TagResources tag res r2) as [rp2 r3] eqn:E2. rewrite H2.
  pose proof (tagging_again tag res (remote n) rp1 r1 rpc r2 rp2 r3 E1 H404 Ec Er E2) as Ht.
  unfold is_404. destruct (decide (status rp2 = Some StatusNotFound)) as [H4|H4].
  - rewrite (bool_decide_true (status rp2 = _)) by done. rewrite bool_decide_false in Ht by tauto.
    split; [|done]. eexists. by rewrite <- !app_assoc.
  - rewrite (bool_decide_false (status rp2 = _)) by done.
    destruct (rerr rp2); simpl; (split; [|done]); eexists; rewrite <- !app_assoc; (split; [done|]).
    + by rewrite bool_decide_false in Ht by (by intros [_ ?]).
    + by rewrite bool_decide_true in Ht.
Qed.

(** Success means that the resources carry the tag. *)
Lemma tagging_tagged `{!TagLaws R} tag res (r : R) writes r' id :
  tagging tag res r writes true r' → id ∈ res → tagged r' tag id.
Proof.
  intros Ht Hid. remember true as ok eqn:Hok. destruct Ht as [rp r1 E1 _| |rp r1 rpc r2 rp2 r3 _ _ _ _ E2]; [|done|].
  - apply bool_decide_eq_true in Hok. pose proof (tags_applied tag res r) as Ha. rewrite E1 in Ha. by apply Ha.
  - apply bool_decide_eq_true in Hok as [_ Hok]. pose proof (tags_applied tag res r2) as Ha. rewrite E2 in Ha.
    by apply Ha.
Qed.

Lemma collect_resources_elem svcs lbs svc :
  svc ∈ svcs → svc.(Service.Type_) = ServiceTypeLoadBalancer → findLoadBalancerID svc lbs ≠ "" →
  findLoadBalancerID svc lbs
    ∈ collect_resources (filter (λ svc, svc.(Service.Type_) = ServiceTypeLoadBalancer) svcs) lbs.
Proof.
  intros Hin Ht Hid. unfold collect_resources. apply list_elem_of_filter. split; [done|].
  apply list_elem_of_fmap. exists svc. split; [done|]. by apply list_elem_of_filter.
Qed.
End ResourceFacts.

(* ================================================================== *)
(** * Properties *)

(** C36. Tag synchronisation: with the load balancers served in pages that the
    fuel covers, it ends.  Where there is something to tag, it makes after the
    listing exactly the calls that tag it, with the tag created and the tagging
    repeated, both once, exactly when the first answer is that the tag does not
    exist, and it succeeds exactly when these calls did; where there is nothing
    it makes no such call and succeeds.  On success every LoadBalancer Service
    whose load balancer is known, by annotation or by name, has it tagged with
    the cluster's tag. *)
Theorem sync_tags_establishes `{!GodoPaging, !GodoLoadBalancers R, !GodoTags R, !TagLaws R}
    fuel clusterID svcs pages (n : net R) :
  serves LoadBalancers_List pages (remote n) → pages ≠ [] → (length pages ≤ fuel)%nat →
  let tag := buildK8sTag clusterID in
  let res := collect_resources (filter (λ svc, svc.(Service.Type_) = ServiceTypeLoadBalancer) svcs)
               (concat pages) in
  let '(r, n') := syncTags fuel clusterID (inl svcs) n in
  (∃ lists writes, trace n' = trace n ++ lists ++ writes
     ∧ lists ∈ [[]; EvLBList <$> seqZ 1 (Z.of_nat (length pages))]
     ∧ if decide (res = []) then writes = [] ∧ r = Ok ()
       else tagging tag res (remote n) writes (is_ok r) (remote n'))
  ∧ match r with
    | Ok _ => ∀ svc, svc ∈ svcs → svc.(Service.Type_) = ServiceTypeLoadBalancer →
        findLoadBalancerID svc (concat pages) ≠ "" →
        tagged (remote n') tag (findLoadBalancerID svc (concat pages))
    | Err _ => True
    | _ => False
    end.
Proof.
  intros Hs Hne Hf tag res. unfold syncTags, on_err, pure, mbind, M_bind. simpl.
  pose proof (collect_resources_elem svcs (concat pages)) as Hc. fold res in Hc.
  case_bool_decide as Hl; simpl.
  { assert (res = []) as Hres by (unfold res; by rewrite Hl). rewrite Hres in Hc |- *. split.
    - exists [], []. rewrite !app_nil_r. split_and!; [done|set_solver|done].
    - intros svc Hin Ht Hid. specialize (Hc svc Hin Ht Hid). set_solver. }
  destruct n as [r0 tr]. unfold allLoadBalancerList.
  rewrite (all_pages_complete LoadBalancers_List _ EvLBList pages r0 tr fuel Hs Hne Hf). simpl.
  set (lists := EvLBList <$> seqZ 1 (Z.of_nat (length pages))). fold res.
  case_bool_decide as Hres; simpl.
  { rewrite Hres in Hc |- *. split.
    - exists lists, []. rewrite app_nil_r. split_and!; [done|set_solver|done].
    - intros svc Hin Ht Hid. specialize (Hc svc Hin Ht Hid). set_solver. }
  pose proof (tag_collected_run clusterID res (Net r0 (tr ++ lists))) as Hrun. simpl in Hrun. fold tag in Hrun.
  destruct (tag_collected clusterID res (Net r0 (tr ++ lists))) as [r n'].
  destruct Hrun as [(writes & Ht & Hw) [Hp Hnf]]. split.
  - exists lists, writes. rewrite Ht, <- app_assoc, decide_False by done. split_and!; [done|set_solver|done].
  - destruct r; try done. intros svc Hin Hty Hid. eapply tagging_tagged; [exact Hw|auto].
Qed.
