(* ===== verification/Region.v ===== *)
(** * The region of the cluster

    [metadata.go]: the region comes from the environment, checked against the
    regions of the API, or else from the droplet's metadata service. *)

From S2P Require Import Prelude GoStd Types Annotations Nodes Api Rules.
From stdpp Require Import base gmap strings list.
From Stdlib Require Import ZArith Lia.
#[local] Open Scope Z_scope.

(** [godo.RegionsService]; of a region only the slug is read. *)
Module Region.
Record t := mk { Slug : string }.
End Region.

#[export] Instance Region_eq_dec : EqDecision Region.t.
Proof. solve_decision. Defined.

Class GodoRegions (R : Type) := {
  Regions_List : Z → R → reply (list Region.t) * R;
}.

(** [http.Get] and the reading of the body: an error, or a status code with the
    body or the error that reading it ends in. *)
Class Metadata (R : Type) := {
  HTTP_Get : string → R → (Z * (string + error) + error) * R;
}.

Definition dropletRegionMetadataURL : string := "http://169.254.169.254/metadata/v1/region".
Definition StatusOK : Z := 200.

Section Region.
Context {R : Type} `{!GodoPaging, !GodoRegions R, !Metadata R}.
Variable fuel : nat.

(** The loop of [listAllRegions], from page [page] with the regions so far. *)
Fixpoint region_pages (fuel : nat) (page : Z) (acc : list Region.t) : M (net R) (list Region.t) :=
  match fuel with
  | O => nofuel
  | S fuel' =>
      rp ← call (EvRegionList page) (Regions_List page);
      match rp.(rerr) with
      | Some e => throw (Errorf "regions list request failed: %s" [AErr e])
      | None =>
          match rp.(rresp) with
          | None => throw (ErrNew "regions list request returned no response")
          | Some resp =>
              let acc := acc ++ rp.(rval) in
              match resp.(Response.Links) with
              | None => mret acc
              | Some links =>
                  if IsLastPage links then mret acc
                  else
                    page ← on_err (λ e, Errorf "failed to get current page number in pagination: %s" [AErr e])
                             (pure (CurrentPage links));
                    region_pages fuel' (page + 1) acc
              end
          end
      end
  end.

Definition listAllRegions : M (net R) (list Region.t) := region_pages fuel 1 [].

Definition isValidRegion (region : string) : M (net R) bool :=
  regions ← listAllRegions;
  mret (existsb (λ reg, str_eqb reg.(Region.Slug) region) regions).

Definition httpGet (url : string) : M (net R) string :=
  resp ← call (EvHTTPGet url) (HTTP_Get url);
  match resp with
  | inr e => throw e
  | inl (code, body) =>
      if negb (code =? StatusOK)
      then throw (Errorf "droplet metadata returned non-200 status code: %d" [AInt code])
      else pure (of_sum body)
  end.

(** [region] is the value of the environment variable REGION. *)
Definition dropletRegion (region : string) : M (net R) string :=
  if str_eqb region "" then httpGet dropletRegionMetadataURL
  else
    validRegion ← on_err (λ e, Errorf "failed to determine if region is valid: %s" [AErr e])
                    (isValidRegion region);
    if negb validRegion then throw (Errorf "invalid region specified: %s" [AStr region])
    else mret region.
End Region.

(* ================================================================== *)
(** * Facts *)

Section RegionFacts.
Context {R : Type} `{!GodoPaging, !GodoRegions R, !Metadata R}.

(** The loop is the paging loop of the other listings, with its own errors. *)
Lemma region_pages_all_pages fuel page acc (n n' : net R) l :
  all_pages "regions list request returned no response"
    (λ p, call (EvRegionList p) (Regions_List p)) fuel page acc n = (Ok l, n') →
  region_pages fuel page acc n = (Ok l, n').
Proof.
  revert page acc n. induction fuel as [|fuel IH]; intros page acc n; simpl; [done|].
  unfold mbind, M_bind, call at 1 3. destruct (Regions_List page (remote n)) as [rp r'].
  destruct (rerr rp); [done|]. destruct (rresp rp) as [resp|]; [|done].
  destruct (Response.Links resp) as [links|]; [|done]. destruct (IsLastPage links); [done|].
  unfold on_err, pure. destruct (CurrentPage links); simpl; try done. apply IH.
Qed.

Lemma listAllRegions_complete fuel pages r tr :
  serves Regions_List pages r → pages ≠ [] → (length pages ≤ fuel)%nat →
  listAllRegions fuel (Net r tr)
  = (Ok (concat pages), Net r (tr ++ (EvRegionList <$> seqZ 1 (Z.of_nat (length pages))))).
Proof. intros Hs Hne Hf. apply region_pages_all_pages. by apply all_pages_complete. Qed.

Lemma existsb_region region regions :
  existsb (λ reg, str_eqb reg.(Region.Slug) region) regions = true ↔ Region.mk region ∈ regions.
Proof.
  rewrite existsb_exists. setoid_rewrite <- list_elem_of_In. split.
  - intros ([slug] & Hin & E). simpl in E. reflect_eqb. by subst.
  - intros Hin. exists (Region.mk region). split; [done|]. apply str_eqb_refl.
Qed.
End RegionFacts.

(* ================================================================== *)
(** * Properties *)

(** The configured region is accepted exactly when the API lists it: with the
    regions served in pages that the fuel covers, a region from the environment
    is returned unchanged if it is in the listing and is an error otherwise,
    whatever page it is on; the metadata service is not asked. *)
Theorem configured_region_checked {R} `{!GodoPaging, !GodoRegions R, !Metadata R}
    fuel region pages (n : net R) :
  region ≠ "" → serves Regions_List pages (remote n) → pages ≠ [] → (length pages ≤ fuel)%nat →
  dropletRegion fuel region n
  = (if bool_decide (Region.mk region ∈ concat pages) then Ok region
     else Err (Errorf "invalid region specified: %s" [AStr region]),
     Net (remote n) (trace n ++ (EvRegionList <$> seqZ 1 (Z.of_nat (length pages))))).
Proof.
  intros Hr Hs Hne Hf. destruct n as [r tr]. unfold dropletRegion.
  rewrite (proj2 (str_eqb_false region _)) by done. unfold isValidRegion, on_err, mbind, M_bind.
  rewrite (listAllRegions_complete fuel pages r tr Hs Hne Hf). simpl.
  destruct (existsb _ _) eqn:E; simpl.
  - apply existsb_region in E. by rewrite bool_decide_true.
  - rewrite bool_decide_false; [done|]. intros Hin%existsb_region. congruence.
Qed.
