(* ===== verification/Admission.v ===== *)
(** * Admission of load-balancer Services

    [lb_service_admission_handler.go]: the webhook that validates LoadBalancer
    Services by sending the request the controller would send, marked as
    validation only.  Logging is not modelled. *)

From S2P Require Import Prelude GoStd Types Annotations Nodes Api Rules Requests LoadBalancers Termination Region.
From stdpp Require Import base gmap strings list.
From Stdlib Require Import ZArith Lia.
#[local] Open Scope Z_scope.

Definition StatusBadRequest : Z := 400.
Definition StatusInternalServerError : Z := 500.

(** [admission.Request]: the raw object and, on an update, the raw old one. *)
Module AdmissionRequest.
Record t := mk { Object : string; OldObject : option string }.
End AdmissionRequest.

(** [admission.Decoder] *)
Class Decoder := {
  Decode : string → Service.t + error;
}.

(** [admission.Response]: the constructor functions of the library, which differ
    in the verdict and the status code.  A formatted message keeps its parts. *)
Inductive response :=
| Allowed (message : error)
| Denied (message : error)
| Errored (code : Z) (err : error).

Definition allowed (resp : response) : bool :=
  match resp with Allowed _ => true | _ => false end.

(** [LBServiceAdmissionHandler] *)
Module LBServiceAdmissionHandler.
Record t := mk {
  region : string;
  clusterID : string;
  vpcID : string;
  defaultLBType : string;
}.
End LBServiceAdmissionHandler.

Definition NewLBServiceAdmissionHandler (defaultLBType : string) : LBServiceAdmissionHandler.t :=
  LBServiceAdmissionHandler.mk "" "" "" defaultLBType.

Definition WithVPCID (vpcID : string) (h : LBServiceAdmissionHandler.t) : LBServiceAdmissionHandler.t :=
  LBServiceAdmissionHandler.mk h.(LBServiceAdmissionHandler.region) h.(LBServiceAdmissionHandler.clusterID)
    vpcID h.(LBServiceAdmissionHandler.defaultLBType).

Definition WithClusterID (clusterID : string) (h : LBServiceAdmissionHandler.t)
    : LBServiceAdmissionHandler.t :=
  LBServiceAdmissionHandler.mk h.(LBServiceAdmissionHandler.region) clusterID
    h.(LBServiceAdmissionHandler.vpcID) h.(LBServiceAdmissionHandler.defaultLBType).

(** The region is looked up from the environment's REGION or the metadata. *)
Definition WithRegion `{!GodoPaging, !GodoRegions R, !Metadata R} (fuel : nat) (env_region : string)
    (h : LBServiceAdmissionHandler.t) : M (net R) LBServiceAdmissionHandler.t :=
  region ← dropletRegion fuel env_region;
  mret (LBServiceAdmissionHandler.mk region h.(LBServiceAdmissionHandler.clusterID)
          h.(LBServiceAdmissionHandler.vpcID) h.(LBServiceAdmissionHandler.defaultLBType)).

(** The fields that the handler sets on the request. *)
Definition set_validation (h : LBServiceAdmissionHandler.t) (r : LoadBalancerRequest.t)
    : LoadBalancerRequest.t :=
  let clusterID := h.(LBServiceAdmissionHandler.clusterID) in
  LoadBalancerRequest.mk r.(LoadBalancerRequest.Name) r.(LoadBalancerRequest.Algorithm)
    h.(LBServiceAdmissionHandler.region) r.(LoadBalancerRequest.SizeSlug) r.(LoadBalancerRequest.SizeUnit)
    r.(LoadBalancerRequest.Type_) r.(LoadBalancerRequest.ForwardingRules)
    r.(LoadBalancerRequest.HealthCheck) r.(LoadBalancerRequest.StickySessions)
    r.(LoadBalancerRequest.DropletIDs)
    (if negb (str_eqb clusterID "") then [buildK8sTag clusterID] else r.(LoadBalancerRequest.Tags))
    r.(LoadBalancerRequest.RedirectHttpToHttps) r.(LoadBalancerRequest.EnableProxyProtocol)
    r.(LoadBalancerRequest.EnableBackendKeepalive) h.(LBServiceAdmissionHandler.vpcID)
    r.(LoadBalancerRequest.VPCSubnetUUID) r.(LoadBalancerRequest.DisableLetsEncryptDNSRecords)
    true r.(LoadBalancerRequest.HTTPIdleTimeoutSeconds) r.(LoadBalancerRequest.Firewall)
    r.(LoadBalancerRequest.Network) r.(LoadBalancerRequest.NetworkStack) r.(LoadBalancerRequest.IP).

(** [cmp.Equal] on requests: equality of all fields.  The lists of a request
    are nil exactly when they are empty, so that both count as one value. *)
Definition requests_equal (r1 r2 : LoadBalancerRequest.t) : bool := bool_decide (r1 = r2).

Definition mapGodoRespToAdmissionResp {A} (rp : reply A) : response :=
  match rp.(rerr), status rp with
  | None, _ => Allowed (ErrNew "valid load balancer definition")
  | Some e, None =>
      Errored StatusInternalServerError (Errorf "failed to get a response from DO API: %s" [AErr e])
  | Some e, Some code =>
      if code <? 400 then Allowed (ErrNew "valid load balancer definition")
      else if code <? 500 then Denied (Errorf "invalid load balancer definition: %s" [AErr e])
      else Allowed (Errorf "received unexpected status code (%d) from DO API, allowing to prevent blocking: %s"
                      [AInt code; AErr e])
  end.

Section Handler.
Context {R : Type}.
Context `{!GodoLoadBalancers R, !GodoCertificates R, !Decoder}.
(** The map orders met while the requests of the new and of the old Service are
    built. *)
Variables (nets oldNets : IPNets).

Definition handler_request (nets : IPNets) (h : LBServiceAdmissionHandler.t) (svc : Service.t)
    : M (net R) LoadBalancerRequest.t :=
  lbReq ← on_err (λ e, Errorf "failed to build base load balancer request: %s" [AErr e])
            (buildLoadBalancerRequest_admission svc h.(LBServiceAdmissionHandler.defaultLBType));
  mret (set_validation h lbReq).

Definition validateCreate (lbReq : LoadBalancerRequest.t) : M (net R) response :=
  rp ← call (EvLBCreate lbReq) (LoadBalancers_Create lbReq);
  mret (mapGodoRespToAdmissionResp rp).

Definition validateUpdate (h : LBServiceAdmissionHandler.t) (oldObject lbID : string)
    (lbReq : LoadBalancerRequest.t) : M (net R) response :=
  match Decode oldObject with
  | inr e => mret (Errored StatusBadRequest (Errorf "failed to decode old object: %s" [AErr e]))
  | inl oldSvc =>
      oldReq ← attempt (handler_request oldNets h oldSvc);
      if match oldReq with inl oldReq => requests_equal oldReq lbReq | inr _ => false end
      then mret (Allowed (ErrNew "new service has irrelevant changes"))
      else
        let reqLbID := if str_eqb lbID "" then svc_val oldSvc annDOLoadBalancerID else lbID in
        if str_eqb reqLbID "" then validateCreate lbReq
        else
          rp ← call (EvLBUpdate reqLbID lbReq) (LoadBalancers_Update reqLbID lbReq);
          mret (mapGodoRespToAdmissionResp rp)
  end.

Definition handle (h : LBServiceAdmissionHandler.t) (req : AdmissionRequest.t) : M (net R) response :=
  match Decode req.(AdmissionRequest.Object) with
  | inr e => mret (Errored StatusInternalServerError (Errorf "failed to decode admission request: %s" [AErr e]))
  | inl svc =>
      if negb (str_eqb svc.(Service.Type_) ServiceTypeLoadBalancer)
      then mret (Allowed (ErrNew "allowing service that is not a load balancer"))
      else if negb (bool_decide (svc.(Service.DeletionTimestamp) = None))
      then mret (Allowed (ErrNew "allowing service that is being deleted"))
      else
        let lbID := svc_val svc annDOLoadBalancerID in
        lbReq ← attempt (handler_request nets h svc);
        match lbReq with
        | inr e => mret (Denied (Errorf "failed to build DO API request: %s" [AErr e]))
        | inl lbReq =>
            match req.(AdmissionRequest.OldObject) with
            | Some oldObject => validateUpdate h oldObject lbID lbReq
            | None => validateCreate lbReq
            end
        end
  end.
End Handler.

(* ================================================================== *)
(** * Facts *)

(** The only calls made while a request is built look certificates up. *)
Definition cert_event (ev : event) : Prop :=
  match ev with EvCertListByName _ => True | _ => False end.

(** The answer to the call that validates, made in remote state [r0]. *)
Definition validation_answer {R} `{!GodoLoadBalancers R} (w : list event) (r0 : R)
    : option (reply (option LoadBalancer.t)) :=
  match w with
  | [EvLBCreate req] => Some (LoadBalancers_Create req r0).1
  | [EvLBUpdate id req] => Some (LoadBalancers_Update id req r0).1
  | _ => None
  end.

(** A call that cannot change anything, for the cluster of the handler. *)
Definition validates (h : LBServiceAdmissionHandler.t) (w : list event) : Prop :=
  match w with
  | [] => True
  | [EvLBCreate req] | [EvLBUpdate _ req] =>
      req.(LoadBalancerRequest.ValidateOnly) = true
      ∧ req.(LoadBalancerRequest.Region) = h.(LBServiceAdmissionHandler.region)
      ∧ req.(LoadBalancerRequest.VPCUUID) = h.(LBServiceAdmissionHandler.vpcID)
  | _ => False
  end.

(** The API objects: an error without response, or with a client-error status. *)
Definition rejects {A} (rp : reply A) : Prop :=
  rerr rp ≠ None ∧ (status rp = None ∨ ∃ code, status rp = Some code ∧ 400 ≤ code < 500).

Lemma mapGodo_blocks {A} (rp : reply A) :
  allowed (mapGodoRespToAdmissionResp rp) = false → rejects rp.
Proof.
  unfold mapGodoRespToAdmissionResp, rejects. destruct (rerr rp) as [e|]; [|done].
  destruct (status rp) as [code|]; [|by eauto]. destruct (code <? 400) eqn:E4; [done|].
  destruct (code <? 500) eqn:E5; [|done]. intros _. split; [done|]. right. exists code.
  split; [done|]. lia.
Qed.

Section HandlerFacts.
Context {R : Type}.
Context `{!GodoLoadBalancers R, !GodoCertificates R, !Decoder}.

Lemma emits_handler_request (nets : IPNets) h svc : emits (R := R) cert_event (handler_request nets h svc).
Proof.
  unfold handler_request, buildLoadBalancerRequest_admission, buildLoadBalancerRequestWithNodeState,
    buildForwardingRules, buildHTTP3ForwardingRule, findCertificateID. solve_emits; done.
Qed.

Lemma halts_handler_request (nets : IPNets) h svc :
  halts (λ _ : net R, True) (handler_request nets h svc).
Proof.
  unfold handler_request, buildLoadBalancerRequest_admission, buildLoadBalancerRequestWithNodeState,
    buildForwardingRules, buildHTTP3ForwardingRule, findCertificateID.
  repeat first
    [ solve [auto with ends]
    | apply halts_pure; solve_ends
    | apply halts_bind_last; [|intros ?]
    | apply halts_on_err
    | case_match ].
Qed.

(** How the handler may end from [n]: certificates are looked up, then at most
    one validating call is made; a Service is blocked only for a reason in the
    request itself, [U], or because the API rejects it. *)
Definition decided (h : LBServiceAdmissionHandler.t) (U : Prop) (n : net R)
    (run : result response * net R) : Prop :=
  ∃ evs w r0, trace run.2 = trace n ++ evs ++ w ∧ Forall cert_event evs ∧ validates h w
    ∧ match run.1 with
      | Ok resp => allowed resp = false → U ∨ ∃ rp, validation_answer w r0 = Some rp ∧ rejects rp
      | Panic => True
      | _ => False
      end.

Lemma decided_ret h U n resp : (allowed resp = false → U) → decided h U n (Ok resp, n).
Proof.
  intros HU. exists [], [], (remote n). rewrite !app_nil_r. split_and!; [done..|].
  simpl. intros Hb. left. auto.
Qed.

Lemma decided_after h U n evs run n1 :
  trace n1 = trace n ++ evs → Forall cert_event evs → decided h U n1 run → decided h U n run.
Proof.
  intros Ht Hevs (evs' & w & r0 & Ht' & Hevs' & Hw & Hr). exists (evs ++ evs'), w, r0.
  rewrite Ht', Ht, <- !app_assoc. split_and!; try done. by apply Forall_app.
Qed.

Lemma decided_call h U n ev (f : R → reply (option LoadBalancer.t) * R) :
  validates h [ev] → validation_answer [ev] (remote n) = Some (f (remote n)).1 →
  decided h U n ((rp ← call ev f; mret (mapGodoRespToAdmissionResp rp)) n).
Proof.
  intros Hv Ha. exists [], [ev], (remote n). unfold call, mbind, M_bind.
  destruct (f (remote n)) as [rp r']. simpl in *. split_and!; [done..|].
  intros Hb. right. exists rp. split; [done|]. by apply mapGodo_blocks.
Qed.

(** A request of the handler validates only. *)
Lemma handler_request_Ok nets h svc (n : net R) req n' :
  handler_request nets h svc n = (Ok req, n') →
  validates h [EvLBCreate req] ∧ ∀ id, validates h [EvLBUpdate id req].
Proof. unfold handler_request. intros Hb. inv_ok. done. Qed.

Lemma decided_create h U n req :
  validates h [EvLBCreate req] → decided h U n (validateCreate req n).
Proof. intros Hv. by apply decided_call. Qed.

(** Building a request, as a step of the handler. *)
Lemma decided_build nets h svc U n (k : LoadBalancerRequest.t + error → M (net R) response) :
  (∀ req n1, handler_request nets h svc n = (Ok req, n1) → decided h U n1 (k (inl req) n1)) →
  (∀ e n1, handler_request nets h svc n = (Err e, n1) → decided h U n1 (k (inr e) n1)) →
  decided h U n ((req ← attempt (handler_request nets h svc); k req) n).
Proof.
  intros Hok Herr. destruct (emits_handler_request nets h svc n) as (evs & Ht & Hevs).
  pose proof (halts_handler_request nets h svc n I) as Hend.
  unfold attempt, mbind, M_bind.
  destruct (handler_request nets h svc n) as [[req|e| |] n1] eqn:E; simpl in *;
    [eapply decided_after; eauto..| |done].
  exists evs, [], (remote n). rewrite app_nil_r. by split_and!.
Qed.

Lemma decided_update oldNets h old id req U n :
  validates h [EvLBCreate req] → (∀ id, validates h [EvLBUpdate id req]) →
  ((∃ e, Decode old = inr e) → U) →
  decided h U n (validateUpdate oldNets h old id req n).
Proof.
  intros Hc Hu HU. unfold validateUpdate. destruct (Decode old) as [svc|e].
  2:{ apply decided_ret. intros _. apply HU. by exists e. }
  apply decided_build; [intros r n1 _|intros e n1 _];
    repeat case_match; try (by apply decided_ret); try (by apply decided_create);
    apply decided_call; done.
Qed.
End HandlerFacts.

(* ================================================================== *)
(** * Properties *)

(** What is wrong with the request itself: an object that cannot be decoded, or
    a Service for which no load-balancer request can be built. *)
Definition invalid_request {R} `{!GodoCertificates R, !Decoder} (nets : IPNets)
    (h : LBServiceAdmissionHandler.t) (req : AdmissionRequest.t) (n : net R) : Prop :=
  (∃ e, Decode req.(AdmissionRequest.Object) = inr e)
  ∨ (∃ old e, req.(AdmissionRequest.OldObject) = Some old ∧ Decode old = inr e)
  ∨ ∃ svc e, Decode req.(AdmissionRequest.Object) = inl svc ∧ (handler_request nets h svc n).1 = Err e.

(** C35. The admission handler only validates: besides looking certificates up it
    makes at most one load-balancer call, marked as validation only and for the
    cluster's region and VPC.  It blocks a Service only for a reason in the
    request itself or because the API rejects that call with a client error or
    without any response; a server error never blocks.  Services that are not
    load balancers, or are being deleted, pass without any call. *)
Theorem admission_only_validates {R} `{!GodoLoadBalancers R, !GodoCertificates R, !Decoder}
    nets oldNets h req (n : net R) :
  decided h (invalid_request nets h req n) n (handle nets oldNets h req n)
  ∧ ∀ svc, Decode req.(AdmissionRequest.Object) = inl svc →
      svc.(Service.Type_) ≠ ServiceTypeLoadBalancer ∨ svc.(Service.DeletionTimestamp) ≠ None →
      ∃ m, handle nets oldNets h req n = (Ok (Allowed m), n).
Proof.
  unfold handle, invalid_request. destruct (Decode (AdmissionRequest.Object req)) as [svc|e] eqn:Ed.
  2:{ split; [|done]. apply decided_ret. eauto. }
  destruct (str_eqb (Service.Type_ svc) ServiceTypeLoadBalancer) eqn:Et; reflect_eqb; simpl.
  2:{ split; [by apply decided_ret|]. intros ? [= <-] _. by eexists. }
  case_bool_decide as Hdel; simpl.
  2:{ split; [by apply decided_ret|]. intros ? [= <-] _. by eexists. }
  split; [|intros ? [= <-]; tauto].
  apply decided_build; [intros r n1 Hr|intros e n1 He].
  - apply handler_request_Ok in Hr as [Hc Hu]. destruct (AdmissionRequest.OldObject req) as [old|] eqn:Eo.
    + apply decided_update; [done..|]. intros [e He]. right. left. eauto.
    + by apply decided_create.
  - apply decided_ret. intros _. right. right. exists svc, e. by rewrite He.
Qed.
