(* ===== verification/FwRules.v ===== *)
(** * Firewall rules

    [firewall_controller_print.go], [firewall_controller_diff.go] and the rule
    computation of [firewall_controller.go]: the rendering of rules, the
    comparison of firewalls, and the request that the Services of a cluster
    call for. *)

From S2P Require Import Prelude GoStd Types Annotations.
From stdpp Require Import base gmap strings list sorting.
From Stdlib Require Import ZArith Lia.
#[local] Open Scope Z_scope.

(* ------------------------------------------------------------------ *)
(** ** godo types *)

(** [godo.Sources] and [godo.Destinations] have the same fields.  A nil slice
    and an empty one are the same list: everything here treats them alike. *)
Module Endpoints.
Record t := mk {
  Addresses : list string;
  Tags : list string;
  DropletIDs : list Z;
  LoadBalancerUIDs : list string;
  KubernetesIDs : list string;
}.
End Endpoints.

(** [godo.InboundRule] (with its [Sources]) and [godo.OutboundRule] (with its
    [Destinations]). *)
Module FwRule.
Record t := mk {
  Protocol : string;
  PortRange : string;
  Peers : option Endpoints.t;
  Action : string;
}.
End FwRule.

(** [godo.Firewall] and [godo.FirewallRequest] with the fields the code reads or
    sets. *)
Module Firewall.
Record t := mk {
  ID : string;
  Name : string;
  InboundRules : list FwRule.t;
  OutboundRules : list FwRule.t;
  Tags : list string;
}.
End Firewall.

Module FirewallRequest.
Record t := mk {
  Name : string;
  InboundRules : list FwRule.t;
  OutboundRules : list FwRule.t;
  Tags : list string;
}.
End FirewallRequest.

(* ------------------------------------------------------------------ *)
(** ** sort.SliceStable and string order *)

(** [a < b] on Go strings. *)
Definition str_lt (a b : string) : bool := negb (bool_decide (String.le b a)).

Section SliceStable.
Context {A : Type} (less : A → A → bool).

Fixpoint insert_stable (x : A) (l : list A) : list A :=
  match l with
  | [] => [x]
  | y :: l' => if less y x then y :: insert_stable x l' else x :: y :: l'
  end.

(** Elements that are not ordered by [less] keep their relative order. *)
Definition SliceStable (l : list A) : list A := foldr insert_stable [] l.
End SliceStable.

(* ------------------------------------------------------------------ *)
(** ** Printing *)

Definition missingFirewallLabel : string := "<n/a>".
Definition ruleOpeningToken : string := "<".
Definition ruleClosingToken : string := ">".

(** [%s] of a [[]string]. *)
Definition sprint_strings (l : list string) : string := "[" +:+ strings.Join l " " +:+ "]".

Definition sanitizePortRange (pr : string) : string :=
  if str_eqb pr "" || str_eqb pr "all" then "0" else pr.

Definition printInboundRule (r : FwRule.t) : string :=
  let portRange := sanitizePortRange r.(FwRule.PortRange) in
  let rule := ruleOpeningToken +:+ "Proto:" +:+ r.(FwRule.Protocol) +:+ " PortRange:" +:+ portRange in
  let rule :=
    match r.(FwRule.Peers) with
    | None => rule
    | Some src =>
        let rule := if negb (bool_decide (src.(Endpoints.Addresses) = []))
                    then rule +:+ " AddrSources:" +:+ sprint_strings src.(Endpoints.Addresses)
                    else rule in
        if negb (bool_decide (src.(Endpoints.LoadBalancerUIDs) = []))
        then rule +:+ " LoadBalancerUIDsSources:" +:+ sprint_strings src.(Endpoints.LoadBalancerUIDs)
        else rule
    end in
  rule +:+ ruleClosingToken.

Definition printOutboundRule (r : FwRule.t) : string :=
  let portRange := sanitizePortRange r.(FwRule.PortRange) in
  let rule := ruleOpeningToken +:+ "Proto:" +:+ r.(FwRule.Protocol) +:+ " PortRange:" +:+ portRange in
  let rule :=
    match r.(FwRule.Peers) with
    | None => rule
    | Some dst => rule +:+ " AddrDestinations:" +:+ sprint_strings dst.(Endpoints.Addresses)
    end in
  rule +:+ ruleClosingToken.

Definition printInboundRules (l : list FwRule.t) : string :=
  strings.Join (sort.Strings (printInboundRule <$> l)) " ".
Definition printOutboundRules (l : list FwRule.t) : string :=
  strings.Join (sort.Strings (printOutboundRule <$> l)) " ".

Definition printFirewallParts (name : string) (inboundRules outboundRules : list FwRule.t)
    (tags : list string) : string :=
  strings.Join ["Name:" +:+ name;
                "inRules:[" +:+ printInboundRules inboundRules +:+ "]";
                "outRules:[" +:+ printOutboundRules outboundRules +:+ "]";
                "Tags:" +:+ sprint_strings tags] " ".

Definition printRelevantFirewallParts (fw : option Firewall.t) : string :=
  match fw with
  | None => missingFirewallLabel
  | Some fw => printFirewallParts fw.(Firewall.Name) fw.(Firewall.InboundRules)
                 fw.(Firewall.OutboundRules) fw.(Firewall.Tags)
  end.

Definition printRelevantFirewallRequestParts (fr : option FirewallRequest.t) : string :=
  match fr with
  | None => missingFirewallLabel
  | Some fr => printFirewallParts fr.(FirewallRequest.Name) fr.(FirewallRequest.InboundRules)
                 fr.(FirewallRequest.OutboundRules) fr.(FirewallRequest.Tags)
  end.

(* ------------------------------------------------------------------ *)
(** ** Comparison *)

Module comparableFirewall.
Record t := mk {
  Name : string;
  InboundRules : list FwRule.t;
  OutboundRules : list FwRule.t;
  Tags : list string;
}.
End comparableFirewall.

Definition compFirewallFromFirewall (fw : Firewall.t) : comparableFirewall.t :=
  comparableFirewall.mk fw.(Firewall.Name) fw.(Firewall.InboundRules) fw.(Firewall.OutboundRules)
    fw.(Firewall.Tags).

Definition compFirewallFromFirewallRequest (fr : FirewallRequest.t) : comparableFirewall.t :=
  comparableFirewall.mk fr.(FirewallRequest.Name) fr.(FirewallRequest.InboundRules)
    fr.(FirewallRequest.OutboundRules) fr.(FirewallRequest.Tags).

(** How [cmp.Diff] compares two rules under the options: port ranges through
    the mapper, of the sources or destinations only addresses and load
    balancers, everything else exactly. *)
Definition ruleEqual (r1 r2 : FwRule.t) : bool :=
  str_eqb r1.(FwRule.Protocol) r2.(FwRule.Protocol)
  && str_eqb (sanitizePortRange r1.(FwRule.PortRange)) (sanitizePortRange r2.(FwRule.PortRange))
  && str_eqb r1.(FwRule.Action) r2.(FwRule.Action)
  && match r1.(FwRule.Peers), r2.(FwRule.Peers) with
     | None, None => true
     | Some e1, Some e2 =>
         bool_decide (e1.(Endpoints.Addresses) = e2.(Endpoints.Addresses))
         && bool_decide (e1.(Endpoints.LoadBalancerUIDs) = e2.(Endpoints.LoadBalancerUIDs))
     | _, _ => false
     end.

Fixpoint rulesEqual (l1 l2 : list FwRule.t) : bool :=
  match l1, l2 with
  | [], [] => true
  | r1 :: l1', r2 :: l2' => ruleEqual r1 r2 && rulesEqual l1' l2'
  | _, _ => false
  end.

(** [cmpopts.SortSlices] with the rendering as the key. *)
Definition sort_by (print : FwRule.t → string) (l : list FwRule.t) : list FwRule.t :=
  SliceStable (λ r1 r2, str_lt (print r1) (print r2)) l.

(** The equality; the text of the difference is only logged. *)
Definition compFirewallsEqual (cf1 cf2 : option comparableFirewall.t) : bool :=
  match cf1, cf2 with
  | None, None => true
  | Some cf1, Some cf2 =>
      str_eqb cf1.(comparableFirewall.Name) cf2.(comparableFirewall.Name)
      && rulesEqual (sort_by printInboundRule cf1.(comparableFirewall.InboundRules))
           (sort_by printInboundRule cf2.(comparableFirewall.InboundRules))
      && rulesEqual (sort_by printOutboundRule cf1.(comparableFirewall.OutboundRules))
           (sort_by printOutboundRule cf2.(comparableFirewall.OutboundRules))
      && bool_decide (cf1.(comparableFirewall.Tags) = cf2.(comparableFirewall.Tags))
  | _, _ => false
  end.

Definition firewallRequestEqual (fw : option Firewall.t) (fr : option FirewallRequest.t) : bool :=
  compFirewallsEqual (compFirewallFromFirewall <$> fw) (compFirewallFromFirewallRequest <$> fr).

Definition firewallsEqual (fw1 fw2 : option Firewall.t) : bool :=
  compFirewallsEqual (compFirewallFromFirewall <$> fw1) (compFirewallFromFirewall <$> fw2).

(* ------------------------------------------------------------------ *)
(** ** The request a set of Services calls for *)

Definition annotationDOFirewallManaged : string := "kubernetes.digitalocean.com/firewall-managed".

Definition everywhere : Endpoints.t := Endpoints.mk ["0.0.0.0/0"; "::/0"] [] [] [] [].

Definition allowAllOutboundRules : list FwRule.t :=
  [FwRule.mk "tcp" "all" (Some everywhere) "";
   FwRule.mk "udp" "all" (Some everywhere) "";
   FwRule.mk "icmp" "" (Some everywhere) ""].

Definition isManaged (s : Service.t) : result bool :=
  '(val, found) ← getBool s.(Service.Annotations) annotationDOFirewallManaged;
  Ok (negb found || val).

(** The fields of [firewallManager] that the request depends on. *)
Module firewallManager.
Record t := mk {
  workerFirewallName : string;
  workerFirewallTags : list string;
  defaultLBType : string;
}.
End firewallManager.

(** The firewall protocol of a service port; any other one is skipped. *)
Definition fw_protocol (p : ServicePort.t) : option string :=
  if str_eqb p.(ServicePort.Protocol) ProtocolTCP then Some "tcp"
  else if str_eqb p.(ServicePort.Protocol) ProtocolUDP then Some "udp"
  else None.

(** The rule of one port of a NodePort service. *)
Definition node_port_rule (p : ServicePort.t) : option FwRule.t :=
  if p.(ServicePort.NodePort) =? 0 then None
  else
    protocol ← fw_protocol p;
    Some (FwRule.mk protocol (strconv.Itoa p.(ServicePort.NodePort)) (Some everywhere) "").

(** [portProtocol].  [sources] is a pointer in Go, and the map of ports compares
    pointers: each one is freshly allocated, so that two keys with sources are
    never the same, whatever they point to. *)
Module portProtocol.
Record t := mk { port : Z; protocol : string; sources : option Endpoints.t }.
End portProtocol.

#[export] Instance Endpoints_eq_dec : EqDecision Endpoints.t.
Proof. solve_decision. Defined.
#[export] Instance FwRule_eq_dec : EqDecision FwRule.t.
Proof. solve_decision. Defined.
#[export] Instance portProtocol_eq_dec : EqDecision portProtocol.t.
Proof. solve_decision. Defined.

(** [loadBalancerPorts[pp] = struct{}{}]: the keys in insertion order. *)
Definition add_port (ports : list portProtocol.t) (pp : portProtocol.t) : list portProtocol.t :=
  match pp.(portProtocol.sources) with
  | Some _ => ports ++ [pp]
  | None => if bool_decide (pp ∈ ports) then ports else ports ++ [pp]
  end.

(** The keys of a REGIONAL_NETWORK EXTERNAL load balancer: its health-check
    port, open to the load balancer when that is known, and its ports. *)
Definition health_key (s : Service.t) (hcp : Z) : portProtocol.t :=
  let id := svc_val s annDOLoadBalancerID in
  portProtocol.mk hcp "tcp"
    (if negb (str_eqb id "") then Some (Endpoints.mk [] [] [] [id] []) else None).

Definition service_keys (s : Service.t) : list portProtocol.t :=
  omap (λ p, protocol ← fw_protocol p; Some (portProtocol.mk p.(ServicePort.Port) protocol None))
    s.(Service.Ports).

Definition managed_or_unknown (s : Service.t) : bool :=
  match isManaged s with Ok managed => managed | _ => true end.

(** One turn of the loop over the services. *)
Definition service_step (fm : firewallManager.t) (s : Service.t)
    (acc : list FwRule.t * list portProtocol.t) : result (list FwRule.t * list portProtocol.t) :=
  let '(rules, ports) := acc in
  if str_eqb s.(Service.Type_) ServiceTypeNodePort then
    if negb (managed_or_unknown s) then Ok acc
    else Ok (rules ++ omap node_port_rule s.(Service.Ports), ports)
  else if str_eqb s.(Service.Type_) ServiceTypeLoadBalancer then
    lbType ← map_err (λ e, Errorf "failed to get load balancer type for service %s/%s: %v"
                       [AStr s.(Service.Namespace); AStr s.(Service.Name); AErr e])
               (getType s fm.(firewallManager.defaultLBType));
    lbNetwork ← map_err (λ e, Errorf "failed to get load balancer network for service %s/%s: %v"
                          [AStr s.(Service.Namespace); AStr s.(Service.Name); AErr e])
                  (getNetwork s);
    if str_eqb lbType LoadBalancerTypeRegionalNetwork && str_eqb lbNetwork LoadBalancerNetworkTypeExternal
    then
      let '(_, hcp) := healthCheckPathAndPort s in
      if hcp =? 0 then Ok acc
      else Ok (rules, foldl add_port (add_port ports (health_key s hcp)) (service_keys s))
    else Ok acc
  else Ok acc.

Fixpoint services_loop (fm : firewallManager.t) (l : list Service.t)
    (acc : list FwRule.t * list portProtocol.t) : result (list FwRule.t * list portProtocol.t) :=
  match l with
  | [] => Ok acc
  | s :: l' => acc ← service_step fm s acc; services_loop fm l' acc
  end.

Definition port_rule (p : portProtocol.t) : FwRule.t :=
  FwRule.mk p.(portProtocol.protocol) (strconv.Itoa p.(portProtocol.port))
    (Some (default everywhere p.(portProtocol.sources))) "".

(** The order of [sort.SliceStable]: protocol, then port range, as strings. *)
Definition rule_less (r1 r2 : FwRule.t) : bool :=
  if str_eqb r1.(FwRule.Protocol) r2.(FwRule.Protocol)
  then str_lt r1.(FwRule.PortRange) r2.(FwRule.PortRange)
  else str_lt r1.(FwRule.Protocol) r2.(FwRule.Protocol).

(** [order] is the order in which Go ranges over the map of ports. *)
Definition createReconciledFirewallRequest (order : list portProtocol.t → list portProtocol.t)
    (fm : firewallManager.t) (serviceList : list Service.t) : result FirewallRequest.t :=
  '(nodePortInboundRules, loadBalancerPorts) ← services_loop fm serviceList ([], []);
  let rules := nodePortInboundRules ++ (port_rule <$> order loadBalancerPorts) in
  Ok (FirewallRequest.mk fm.(firewallManager.workerFirewallName) (SliceStable rule_less rules)
        allowAllOutboundRules fm.(firewallManager.workerFirewallTags)).

(* ================================================================== *)
(** * Facts *)

(** ** Stable sorting *)

Section SliceStableFacts.
Context {A : Type} (less : A → A → bool).

Lemma insert_stable_perm x l : insert_stable less x l ≡ₚ x :: l.
Proof.
  induction l as [|y l IH]; simpl; [done|]. case_match; [|done]. rewrite IH. apply Permutation_swap.
Qed.

Lemma SliceStable_perm l : SliceStable less l ≡ₚ l.
Proof. induction l as [|x l IH]; simpl; [done|]. by rewrite insert_stable_perm, IH. Qed.

(** Sorted: no element is less than the one before it. *)
Lemma SliceStable_sorted l :
  (∀ x y, less x y = true → less y x = false) →
  Sorted (λ x y, less y x = false) (SliceStable less l).
Proof.
  intros Has. induction l as [|x l IH]; simpl; [constructor|].
  induction IH as [|y l' Hs IHs Hd]; simpl; [repeat constructor|].
  destruct (less y x) eqn:E; [|by repeat constructor].
  constructor; [done|]. destruct l' as [|z l']; simpl; [constructor; auto|].
  apply HdRel_inv in Hd. case_match; constructor; auto.
Qed.
End SliceStableFacts.

Lemma str_lt_asym a b : str_lt a b = true → str_lt b a = false.
Proof.
  unfold str_lt. rewrite negb_true_iff, negb_false_iff, bool_decide_eq_false, bool_decide_eq_true.
  intros Hn. by destruct (total String.le a b).
Qed.

Lemma str_lt_false a b : str_lt b a = false ↔ String.le a b.
Proof. unfold str_lt. by rewrite negb_false_iff, bool_decide_eq_true. Qed.

Lemma rule_less_asym x y : rule_less x y = true → rule_less y x = false.
Proof.
  unfold rule_less. destruct (str_eqb (FwRule.Protocol x) (FwRule.Protocol y)) eqn:E; reflect_eqb.
  - rewrite E, str_eqb_refl. apply str_lt_asym.
  - rewrite (proj2 (str_eqb_false (FwRule.Protocol y) (FwRule.Protocol x))) by congruence.
    apply str_lt_asym.
Qed.

Lemma sort_by_perm print l : sort_by print l ≡ₚ l.
Proof. apply SliceStable_perm. Qed.

(** Sorting by a string key puts the keys in the one sorted order they have. *)
Lemma sort_by_keys print l : print <$> sort_by print l = sort.Strings (print <$> l).
Proof.
  apply (StronglySorted_unique String.le).
  - apply Sorted_StronglySorted; [apply _|]. unfold sort_by.
    pose proof (SliceStable_sorted (λ r1 r2, str_lt (print r1) (print r2)) l
      (λ x y, str_lt_asym (print x) (print y))) as Hs.
    induction Hs as [|x l' Hs IH Hd]; simpl; constructor; [done|].
    destruct Hd as [|y l'' Hy]; simpl; constructor. by apply str_lt_false.
  - apply StronglySorted_merge_sort; apply _.
  - rewrite Strings_perm. apply fmap_Permutation, SliceStable_perm.
Qed.

(** ** The comparison *)

Lemma ruleEqual_refl r : ruleEqual r r = true.
Proof.
  unfold ruleEqual. rewrite !str_eqb_refl. destruct (FwRule.Peers r); [|done].
  by rewrite !bool_decide_true.
Qed.

Lemma ruleEqual_iff r1 r2 :
  ruleEqual r1 r2 = true ↔
    r1.(FwRule.Protocol) = r2.(FwRule.Protocol)
    ∧ sanitizePortRange r1.(FwRule.PortRange) = sanitizePortRange r2.(FwRule.PortRange)
    ∧ r1.(FwRule.Action) = r2.(FwRule.Action)
    ∧ (λ e, (e.(Endpoints.Addresses), e.(Endpoints.LoadBalancerUIDs))) <$> r1.(FwRule.Peers)
      = (λ e, (e.(Endpoints.Addresses), e.(Endpoints.LoadBalancerUIDs))) <$> r2.(FwRule.Peers).
Proof.
  unfold ruleEqual. rewrite !andb_true_iff. unfold str_eqb. rewrite !bool_decide_eq_true.
  destruct (FwRule.Peers r1) as [e1|], (FwRule.Peers r2) as [e2|]; simpl;
    rewrite ?andb_true_iff, ?bool_decide_eq_true; split; intros; destruct_and?; simplify_eq; try done;
    split_and!; congruence.
Qed.

#[export] Instance ruleEqual_equivalence : Equivalence (λ r1 r2, ruleEqual r1 r2 = true).
Proof.
  split.
  - intros r. apply ruleEqual_refl.
  - intros r1 r2. rewrite !ruleEqual_iff. naive_solver.
  - intros r1 r2 r3. rewrite !ruleEqual_iff. intros (?&?&?&?) (?&?&?&?). split_and!; congruence.
Qed.

Lemma rulesEqual_Forall2 l1 l2 : rulesEqual l1 l2 = true ↔ Forall2 (λ r1 r2, ruleEqual r1 r2 = true) l1 l2.
Proof.
  revert l2. induction l1 as [|r1 l1 IH]; intros [|r2 l2]; simpl.
  - by split.
  - split; [done|]. by inversion 1.
  - split; [done|]. by inversion 1.
  - rewrite andb_true_iff, IH. split; [by intros []; constructor|by inversion 1].
Qed.

(** Firewalls as the comparison sees them. *)
Definition same_firewall (cf1 cf2 : option comparableFirewall.t) : Prop := compFirewallsEqual cf1 cf2 = true.

#[export] Instance same_firewall_equivalence : Equivalence same_firewall.
Proof.
  unfold same_firewall, compFirewallsEqual. split.
  - intros [cf|]; [|done]. rewrite !andb_true_iff, str_eqb_refl, !rulesEqual_Forall2.
    rewrite bool_decide_true by done. by split_and!; try reflexivity.
  - intros [cf1|] [cf2|]; try done. rewrite !andb_true_iff, !rulesEqual_Forall2. unfold str_eqb.
    rewrite !bool_decide_eq_true. intros [[[? ?] ?] ?]. split_and!; try done; by symmetry.
  - intros [cf1|] [cf2|] [cf3|]; try done. rewrite !andb_true_iff, !rulesEqual_Forall2. unfold str_eqb.
    rewrite !bool_decide_eq_true. intros [[[? ?] ?] ?] [[[? ?] ?] ?]. split_and!; try congruence; by etrans.
Qed.

Lemma firewallsEqual_sym fw1 fw2 : firewallsEqual fw1 fw2 = true → firewallsEqual fw2 fw1 = true.
Proof. apply (Equivalence_Symmetric (R := same_firewall)). Qed.

Lemma firewallsEqual_trans fw1 fw2 fw3 :
  firewallsEqual fw1 fw2 = true → firewallsEqual fw2 fw3 = true → firewallsEqual fw1 fw3 = true.
Proof. apply (Equivalence_Transitive (R := same_firewall)). Qed.

Lemma firewallRequestEqual_trans fw1 fw2 fr :
  firewallsEqual fw1 fw2 = true → firewallRequestEqual fw2 fr = true → firewallRequestEqual fw1 fr = true.
Proof. apply (Equivalence_Transitive (R := same_firewall)). Qed.

(** Rule lists that are permutations of each other compare equal, when rules
    that render alike are alike. *)
Lemma sort_by_equal print l1 l2 :
  l1 ≡ₚ l2 →
  (∀ r1 r2, r1 ∈ l1 → r2 ∈ l1 → print r1 = print r2 → ruleEqual r1 r2 = true) →
  rulesEqual (sort_by print l1) (sort_by print l2) = true.
Proof.
  intros HP Hinj. apply rulesEqual_Forall2.
  assert (Hk : print <$> sort_by print l1 = print <$> sort_by print l2).
  { rewrite !sort_by_keys. apply Strings_canonical. by rewrite HP. }
  apply Forall2_same_length_lookup_2.
  { by rewrite <- !(length_fmap print), Hk. }
  intros i r1 r2 H1 H2. apply Hinj.
  - apply list_elem_of_lookup_2 in H1. by rewrite sort_by_perm in H1.
  - apply list_elem_of_lookup_2 in H2. by rewrite sort_by_perm, <- HP in H2.
  - assert (Hl : (print <$> sort_by print l1) !! i = (print <$> sort_by print l2) !! i) by by rewrite Hk.
    rewrite !list_lookup_fmap, H1, H2 in Hl. by simplify_eq/=.
Qed.

(** ** The rules of the Services *)

(** The Service calls for the rule, in terms of the helpers of the code;
    [calls_for] below says it without them. *)
Definition opens (fm : firewallManager.t) (s : Service.t) (r : FwRule.t) : Prop :=
  s.(Service.Type_) = ServiceTypeNodePort ∧ managed_or_unknown s = true
    ∧ (∃ p protocol, p ∈ s.(Service.Ports) ∧ p.(ServicePort.NodePort) ≠ 0 ∧ fw_protocol p = Some protocol
         ∧ r = FwRule.mk protocol (strconv.Itoa p.(ServicePort.NodePort)) (Some everywhere) "")
  ∨ s.(Service.Type_) = ServiceTypeLoadBalancer
    ∧ getType s fm.(firewallManager.defaultLBType) = Ok LoadBalancerTypeRegionalNetwork
    ∧ getNetwork s = Ok LoadBalancerNetworkTypeExternal
    ∧ (r = port_rule (health_key s (healthCheckPathAndPort s).2)
       ∨ ∃ p protocol, p ∈ s.(Service.Ports) ∧ fw_protocol p = Some protocol
           ∧ r = FwRule.mk protocol (strconv.Itoa p.(ServicePort.Port)) (Some everywhere) "").

(** The rules collected so far. *)
Definition collected (acc : list FwRule.t * list portProtocol.t) : list FwRule.t :=
  acc.1 ++ (port_rule <$> acc.2).

Lemma healthCheckPort_nonzero s : (healthCheckPathAndPort s).2 ≠ 0.
Proof.
  unfold healthCheckPathAndPort, GetServiceHealthCheckPathPort.
  destruct (negb (NeedsHealthCheck s)); [done|].
  destruct (Service.HealthCheckNodePort s =? 0) eqn:E; [done|]. simpl. by apply Z.eqb_neq.
Qed.

Lemma add_port_elem ports pp q : q ∈ add_port ports pp ↔ q ∈ ports ∨ q = pp.
Proof.
  unfold add_port. destruct (portProtocol.sources pp); [set_solver|].
  case_bool_decide; set_solver.
Qed.

Lemma add_ports_elem ports l q : q ∈ foldl add_port ports l ↔ q ∈ ports ∨ q ∈ l.
Proof.
  revert ports. induction l as [|pp l IH]; intros ports; simpl; [set_solver|].
  rewrite IH, add_port_elem. set_solver.
Qed.

Lemma service_keys_elem s q :
  q ∈ service_keys s ↔ ∃ p protocol, p ∈ s.(Service.Ports) ∧ fw_protocol p = Some protocol
                                     ∧ q = portProtocol.mk p.(ServicePort.Port) protocol None.
Proof.
  unfold service_keys. rewrite list_elem_of_omap. split.
  - intros (p & Hp & Hq). destruct (fw_protocol p) eqn:E; simplify_eq/=. eauto.
  - intros (p & protocol & Hp & Hf & ->). exists p. by rewrite Hf.
Qed.

Lemma node_port_rules_elem s r :
  r ∈ omap node_port_rule s.(Service.Ports) ↔
    ∃ p protocol, p ∈ s.(Service.Ports) ∧ p.(ServicePort.NodePort) ≠ 0 ∧ fw_protocol p = Some protocol
      ∧ r = FwRule.mk protocol (strconv.Itoa p.(ServicePort.NodePort)) (Some everywhere) "".
Proof.
  rewrite list_elem_of_omap. unfold node_port_rule. split.
  - intros (p & Hp & Hq). destruct (ServicePort.NodePort p =? 0) eqn:E; [done|]. reflect_eqb.
    destruct (fw_protocol p) eqn:E2; simplify_eq/=. eauto 10.
  - intros (p & protocol & Hp & Hn & Hf & ->). exists p. split; [done|].
    by rewrite (proj2 (Z.eqb_neq _ _) Hn), Hf.
Qed.

Lemma opens_NodePort fm s r :
  s.(Service.Type_) = ServiceTypeNodePort →
  opens fm s r ↔ managed_or_unknown s = true ∧ r ∈ omap node_port_rule s.(Service.Ports).
Proof.
  intros Ht. unfold opens. rewrite node_port_rules_elem, Ht. split; [|by intros [? ?]; left].
  by intros [(_ & ? & ?)|[[=] _]].
Qed.

Lemma opens_LoadBalancer fm s r :
  s.(Service.Type_) = ServiceTypeLoadBalancer →
  opens fm s r ↔
    getType s fm.(firewallManager.defaultLBType) = Ok LoadBalancerTypeRegionalNetwork
    ∧ getNetwork s = Ok LoadBalancerNetworkTypeExternal
    ∧ ∃ pp, (pp = health_key s (healthCheckPathAndPort s).2 ∨ pp ∈ service_keys s) ∧ r = port_rule pp.
Proof.
  intros Ht. unfold opens. rewrite Ht. split.
  - intros [[[=] _]|(_ & H1 & H2 & Hr)]. split_and!; [done..|].
    destruct Hr as [->|(p & protocol & Hp & Hf & ->)]; [by eauto|].
    exists (portProtocol.mk (ServicePort.Port p) protocol None). split; [|done].
    right. apply service_keys_elem. eauto.
  - intros (H1 & H2 & pp & Hpp & ->). right. split_and!; [done..|].
    destruct Hpp as [->|(p & protocol & Hp & Hf & ->)%service_keys_elem]; [by left|right; by eauto].
Qed.

Lemma opens_other fm s r :
  s.(Service.Type_) ≠ ServiceTypeNodePort → s.(Service.Type_) ≠ ServiceTypeLoadBalancer → ¬ opens fm s r.
Proof. by intros H1 H2 [[? _]|[? _]]. Qed.

Lemma service_step_spec fm s acc :
  match service_step fm s acc with
  | Ok acc' => ∀ r, r ∈ collected acc' ↔ r ∈ collected acc ∨ opens fm s r
  | Err _ => s.(Service.Type_) = ServiceTypeLoadBalancer
             ∧ ((∃ e, getType s fm.(firewallManager.defaultLBType) = Err e) ∨ ∃ e, getNetwork s = Err e)
  | Panic => ¬ valid_default fm.(firewallManager.defaultLBType)
  | NoFuel => False
  end.
Proof.
  destruct acc as [rules ports]. unfold service_step, collected.
  destruct (str_eqb (Service.Type_ s) ServiceTypeNodePort) eqn:E1; reflect_eqb.
  { destruct (managed_or_unknown s) eqn:Em; simpl; intros r; rewrite opens_NodePort, Em by done;
      rewrite ?elem_of_app; intuition congruence. }
  destruct (str_eqb (Service.Type_ s) ServiceTypeLoadBalancer) eqn:E2; reflect_eqb.
  2:{ intros r. pose proof (opens_other fm s r E1 E2). tauto. }
  destruct (getType s _) as [ty|e| |] eqn:Et; simpl.
  2:{ split; [done|]. left. by exists e. }
  2:{ intros Hv. by apply (getType_no_panic s) in Hv. }
  2:{ unfold getType in Et. by repeat case_match. }
  destruct (getNetwork s) as [net|e| |] eqn:En; simpl.
  2:{ split; [done|]. right. by exists e. }
  2-3: unfold getNetwork in En; by repeat case_match.
  destruct (str_eqb ty _ && str_eqb net _) eqn:E3.
  - apply andb_true_iff in E3 as [Ety Enet]. reflect_eqb. subst ty net.
    destruct (healthCheckPathAndPort s) as [path hcp] eqn:Eh.
    pose proof (healthCheckPort_nonzero s) as Hnz. rewrite Eh in Hnz. simpl in Hnz.
    rewrite (proj2 (Z.eqb_neq _ _) Hnz). intros r. simpl.
    rewrite opens_LoadBalancer, Et, En, Eh by done. rewrite !elem_of_app, !list_elem_of_fmap. simpl.
    setoid_rewrite add_ports_elem. setoid_rewrite add_port_elem. naive_solver.
  - intros r. rewrite opens_LoadBalancer, Et, En by done. split; [by left|].
    intros [?|([= ->] & [= ->] & _)]; [done|]. by rewrite !str_eqb_refl in E3.
Qed.

Lemma services_loop_spec fm l acc :
  match services_loop fm l acc with
  | Ok acc' => ∀ r, r ∈ collected acc' ↔ r ∈ collected acc ∨ ∃ s, s ∈ l ∧ opens fm s r
  | Err _ => ∃ s, s ∈ l ∧ s.(Service.Type_) = ServiceTypeLoadBalancer
             ∧ ((∃ e, getType s fm.(firewallManager.defaultLBType) = Err e) ∨ ∃ e, getNetwork s = Err e)
  | Panic => ¬ valid_default fm.(firewallManager.defaultLBType)
  | NoFuel => False
  end.
Proof.
  revert acc. induction l as [|s l IH]; intros acc; simpl.
  { intros r. split; [by left|]. intros [?|(s & []%not_elem_of_nil & _)]. done. }
  pose proof (service_step_spec fm s acc) as Hs. destruct (service_step fm s acc) as [acc'|e| |]; simpl; try done.
  - specialize (IH acc'). destruct (services_loop fm l acc') as [acc''|e| |]; simpl; try done.
    + intros r. rewrite IH, Hs. setoid_rewrite elem_of_cons. naive_solver.
    + destruct IH as (s' & ? & ?). exists s'. split; [by right|done].
  - exists s. split; [left|done].
Qed.

(** A LoadBalancer Service is only passed with a valid default type. *)
Lemma services_loop_default fm l acc acc' s :
  services_loop fm l acc = Ok acc' → s ∈ l → s.(Service.Type_) = ServiceTypeLoadBalancer →
  valid_default fm.(firewallManager.defaultLBType).
Proof.
  revert acc. induction l as [|s' l IH]; intros acc; simpl; [by intros _ ?%not_elem_of_nil|].
  destruct (service_step fm s' acc) as [acc1| | |] eqn:Es; simpl; try done.
  intros Hl [->|Hin]%elem_of_cons Hlb; [|by eapply IH].
  unfold service_step in Es. destruct acc as [rules ports]. rewrite Hlb in Es. simpl in Es.
  unfold getType in Es. unfold valid_default.
  destruct (str_eqb (firewallManager.defaultLBType fm) LoadBalancerTypeRegional) eqn:E1; [reflect_eqb; by left|].
  destruct (str_eqb (firewallManager.defaultLBType fm) LoadBalancerTypeRegionalNetwork) eqn:E2; [reflect_eqb; by right|].
  by rewrite orb_true_r in Es.
Qed.

(** ** Rules that render alike are alike *)

Definition space : Ascii.ascii := Ascii.ascii_of_nat 32.

Lemma rev_digits_no_space fuel n : space ∉ strconv.rev_digits fuel n.
Proof.
  revert n. induction fuel as [|fuel IH]; intros n; simpl; [apply not_elem_of_nil|].
  rewrite not_elem_of_cons. split.
  - intros E. assert (Hm : (n mod 10 < 10)%N) by (apply N.mod_lt; lia).
    apply (f_equal Ascii.N_of_ascii) in E. rewrite (Ascii.N_ascii_embedding (48 + n mod 10)) in E by lia.
    change (Ascii.N_of_ascii space) with 32%N in E. clear Hm IH. revert E. generalize (n mod 10)%N. intros x Hx. lia.
  - case_match; [apply not_elem_of_nil|apply IH].
Qed.

Lemma rev_perm {A} (l : list A) : rev l ≡ₚ l.
Proof. symmetry. apply Permutation_rev. Qed.

Lemma Itoa_no_space z : space ∉ bytes (strconv.Itoa z).
Proof.
  unfold strconv.Itoa. rewrite bytes_of_bytes.
  assert (Hd : ∀ n, space ∉ strconv.digits_of n).
  { intros n. unfold strconv.digits_of. rewrite rev_perm. apply rev_digits_no_space. }
  case_match; [|apply Hd]. rewrite not_elem_of_cons. split; [by vm_compute|apply Hd].
Qed.

Lemma sanitize_no_space z : space ∉ bytes (sanitizePortRange (strconv.Itoa z)).
Proof.
  unfold sanitizePortRange. case_match; [|apply Itoa_no_space]. vm_compute. set_solver.
Qed.

Lemma app_space_inj (l1 l2 t1 t2 : list Ascii.ascii) :
  space ∉ l1 → space ∉ l2 → l1 ++ space :: t1 = l2 ++ space :: t2 → l1 = l2 ∧ t1 = t2.
Proof.
  revert l2. induction l1 as [|c l1 IH]; intros [|d l2] H1 H2 E; simplify_eq/=.
  - done.
  - by rewrite not_elem_of_cons in H2; destruct H2.
  - by rewrite not_elem_of_cons in H1; destruct H1.
  - rewrite not_elem_of_cons in H1, H2. destruct (IH l2) as [-> ->]; naive_solver.
Qed.

(** The shape of a rule computed from Services. *)
Definition computed (r : FwRule.t) : Prop :=
  r.(FwRule.Protocol) ∈ ["tcp"; "udp"] ∧ (∃ z, r.(FwRule.PortRange) = strconv.Itoa z)
  ∧ r.(FwRule.Action) = ""
  ∧ (r.(FwRule.Peers) = Some everywhere ∨ ∃ id, r.(FwRule.Peers) = Some (Endpoints.mk [] [] [] [id] [])).

(** What follows the port in the rendering. *)
Definition peers_text (r : FwRule.t) : list Ascii.ascii :=
  match r.(FwRule.Peers) with
  | Some (Endpoints.mk [] _ _ [id] _) => bytes "LoadBalancerUIDsSources:[" ++ bytes id ++ bytes "]>"
  | _ => bytes "AddrSources:[0.0.0.0/0 ::/0]>"
  end.

Lemma print_computed r :
  computed r →
  bytes (printInboundRule r)
  = bytes "<Proto:" ++ bytes r.(FwRule.Protocol) ++ bytes " PortRange:"
    ++ bytes (sanitizePortRange r.(FwRule.PortRange)) ++ space :: peers_text r.
Proof.
  intros (_ & _ & _ & Hp). unfold printInboundRule, peers_text.
  destruct r as [proto range peers action]. simpl in *.
  destruct Hp as [->|[id ->]]; simpl; unfold ruleOpeningToken, ruleClosingToken, sprint_strings;
    simpl; rewrite !bytes_app, <- !app_assoc; done.
Qed.

Lemma print_computed_inj r1 r2 :
  computed r1 → computed r2 → printInboundRule r1 = printInboundRule r2 → ruleEqual r1 r2 = true.
Proof.
  intros H1 H2 E. apply (f_equal bytes) in E. rewrite !print_computed in E by done.
  destruct H1 as (Hp1 & [z1 Hz1] & Ha1 & Hs1), H2 as (Hp2 & [z2 Hz2] & Ha2 & Hs2).
  apply app_inv_head in E.
  assert (FwRule.Protocol r1 = FwRule.Protocol r2 ∧
    bytes (sanitizePortRange (FwRule.PortRange r1)) ++ space :: peers_text r1
    = bytes (sanitizePortRange (FwRule.PortRange r2)) ++ space :: peers_text r2) as [Hp Et].
  { rewrite !elem_of_cons in Hp1, Hp2.
    destruct Hp1 as [Hp1|[Hp1|[]%not_elem_of_nil]], Hp2 as [Hp2|[Hp2|[]%not_elem_of_nil]];
      rewrite Hp1, Hp2 in *; simpl in E; simplify_eq; done. }
  rewrite Hz1, Hz2 in Et. apply app_space_inj in Et as [Eport Etext]; [|apply sanitize_no_space..].
  apply ruleEqual_iff. split_and!; [done| |congruence|].
  - rewrite Hz1, Hz2. rewrite <- (of_bytes_bytes (sanitizePortRange _)), Eport. apply of_bytes_bytes.
  - unfold peers_text in Etext.
    destruct Hs1 as [Hs1|[id1 Hs1]], Hs2 as [Hs2|[id2 Hs2]]; rewrite Hs1, Hs2 in *; simpl in *;
      [done|discriminate|discriminate|]. simplify_eq.
    apply app_inv_tail in Etext. simpl. do 3 f_equal.
    by rewrite <- (of_bytes_bytes id1), Etext, of_bytes_bytes.
Qed.

Lemma fw_protocol_Some p protocol : fw_protocol p = Some protocol → protocol ∈ ["tcp"; "udp"].
Proof. unfold fw_protocol. repeat case_match; intros; simplify_eq; set_solver. Qed.

Lemma opens_computed fm s r : opens fm s r → computed r.
Proof.
  assert (Hport : ∀ p protocol z, fw_protocol p = Some protocol →
    computed (FwRule.mk protocol (strconv.Itoa z) (Some everywhere) "")).
  { intros p protocol z Hf. unfold computed. simpl. split_and!; eauto. by eapply fw_protocol_Some. }
  intros [(_ & _ & p & protocol & _ & _ & Hf & ->)|(_ & _ & _ & [->|(p & protocol & _ & Hf & ->)])]; [by eauto| |by eauto].
  unfold computed, port_rule, health_key. simpl. split_and!; [set_solver|eauto|done|].
  destruct (negb _); simpl; eauto.
Qed.

Lemma createReconciled_Ok order fm services req :
  createReconciledFirewallRequest order fm services = Ok req →
  ∃ rules ports, services_loop fm services ([], []) = Ok (rules, ports)
    ∧ req.(FirewallRequest.InboundRules)
      = SliceStable rule_less (rules ++ (port_rule <$> order ports))
    ∧ req.(FirewallRequest.Name) = fm.(firewallManager.workerFirewallName)
    ∧ req.(FirewallRequest.OutboundRules) = allowAllOutboundRules
    ∧ req.(FirewallRequest.Tags) = fm.(firewallManager.workerFirewallTags).
Proof.
  unfold createReconciledFirewallRequest.
  destruct (services_loop fm services ([], [])) as [[rules ports]|e| |]; simpl; try done.
  intros [= <-]. by exists rules, ports.
Qed.

(** The rules of a request, whatever the map order. *)
Lemma createReconciled_rules order fm services req :
  (∀ l, order l ≡ₚ l) →
  createReconciledFirewallRequest order fm services = Ok req →
  ∀ r, r ∈ req.(FirewallRequest.InboundRules) ↔ ∃ s, s ∈ services ∧ opens fm s r.
Proof.
  intros Ho Hc r. apply createReconciled_Ok in Hc as (rules & ports & Hl & -> & _).
  pose proof (services_loop_spec fm services ([], [])) as Hs. rewrite Hl in Hs.
  rewrite SliceStable_perm, Ho. rewrite <- (or_False (∃ s, _)). specialize (Hs r).
  unfold collected in Hs. simpl in Hs. rewrite Hs. split.
  - intros [[]%not_elem_of_nil|?]; by left.
  - intros [?|[]]. by right.
Qed.

Lemma createReconciled_Panic order fm services :
  createReconciledFirewallRequest order fm services = Panic → ¬ valid_default fm.(firewallManager.defaultLBType).
Proof.
  intros E. pose proof (services_loop_spec fm services ([], [])) as Hs.
  unfold createReconciledFirewallRequest in E.
  by destruct (services_loop fm services ([], [])) as [[]| | |]; simplify_eq/=.
Qed.

(** Requests for the same Services compare equal, whatever the map orders. *)
Lemma createReconciled_orders order1 order2 fm services req1 req2 :
  (∀ l, order1 l ≡ₚ l) → (∀ l, order2 l ≡ₚ l) →
  createReconciledFirewallRequest order1 fm services = Ok req1 →
  createReconciledFirewallRequest order2 fm services = Ok req2 →
  same_firewall (Some (compFirewallFromFirewallRequest req1)) (Some (compFirewallFromFirewallRequest req2)).
Proof.
  intros Ho1 Ho2 H1 H2. pose proof (createReconciled_rules _ _ _ _ Ho1 H1) as Hr.
  apply createReconciled_Ok in H1 as (rules & ports & Hl1 & Hi1 & Hn1 & Hout1 & Ht1).
  apply createReconciled_Ok in H2 as (? & ? & Hl2 & Hi2 & Hn2 & Hout2 & Ht2).
  rewrite Hl1 in Hl2. simplify_eq. unfold same_firewall. simpl.
  rewrite Hn1, Hn2, Ht1, Ht2, str_eqb_refl, Hout1, Hout2.
  rewrite !andb_true_iff. split_and!; [done| |by vm_compute|by apply bool_decide_true].
  apply sort_by_equal.
  - rewrite Hi1, Hi2, !SliceStable_perm, Ho1, Ho2. done.
  - intros r1 r2 Hr1 Hr2. apply Hr in Hr1 as (? & _ & ?%opens_computed).
    apply Hr in Hr2 as (? & _ & ?%opens_computed). by apply print_computed_inj.
Qed.

Lemma firewallRequestEqual_orders order1 order2 fm services req1 req2 fw :
  (∀ l, order1 l ≡ₚ l) → (∀ l, order2 l ≡ₚ l) →
  createReconciledFirewallRequest order1 fm services = Ok req1 →
  createReconciledFirewallRequest order2 fm services = Ok req2 →
  firewallRequestEqual fw (Some req1) = true → firewallRequestEqual fw (Some req2) = true.
Proof.
  intros Ho1 Ho2 H1 H2 He.
  apply (Equivalence_Transitive (R := same_firewall) _ (Some (compFirewallFromFirewallRequest req1)));
    [exact He|].
  exact (createReconciled_orders _ _ _ _ _ _ Ho1 Ho2 H1 H2).
Qed.

(** ** What Services call for *)

Definition everyone : Endpoints.t := Endpoints.mk ["0.0.0.0/0"; "::/0"] [] [] [] [].
Definition open_to (peers : Endpoints.t) (protocol : string) (port : Z) : FwRule.t :=
  FwRule.mk protocol (strconv.Itoa port) (Some peers) "".

(** The transport protocol of a port that the firewall can open. *)
Inductive transport (p : ServicePort.t) : string → Prop :=
| transport_tcp : p.(ServicePort.Protocol) = "TCP" → transport p "tcp"
| transport_udp : p.(ServicePort.Protocol) = "UDP" → transport p "udp".

(** Only an annotation that reads as false takes a Service out of management. *)
Definition unmanaged (s : Service.t) : Prop :=
  svc_get s "kubernetes.digitalocean.com/firewall-managed"
    ∈ [Some "0"; Some "f"; Some "F"; Some "false"; Some "FALSE"; Some "False"].

(** A load balancer that passes packets through to the nodes. *)
Definition network_lb (dflt : string) (s : Service.t) : Prop :=
  s.(Service.Type_) = "LoadBalancer"
  ∧ (svc_val s annDOType = "REGIONAL_NETWORK" ∨ svc_val s annDOType = "" ∧ dflt = "REGIONAL_NETWORK")
  ∧ svc_val s annDONetwork ∈ [""; "EXTERNAL"].

(** Its health checks go to the node port reserved for them, or to kube-proxy. *)
Definition check_port (s : Service.t) : Z :=
  if decide (s.(Service.ExternalTrafficPolicy) = "Local" ∧ s.(Service.HealthCheckNodePort) ≠ 0)
  then s.(Service.HealthCheckNodePort) else 10256.

Inductive calls_for (dflt : string) (s : Service.t) : FwRule.t → Prop :=
| calls_node_port p protocol :
    s.(Service.Type_) = "NodePort" → ¬ unmanaged s →
    p ∈ s.(Service.Ports) → transport p protocol → p.(ServicePort.NodePort) ≠ 0 →
    calls_for dflt s (open_to everyone protocol p.(ServicePort.NodePort))
| calls_port p protocol :
    network_lb dflt s → p ∈ s.(Service.Ports) → transport p protocol →
    calls_for dflt s (open_to everyone protocol p.(ServicePort.Port))
| calls_check_any :
    network_lb dflt s → svc_val s annDOLoadBalancerID = "" →
    calls_for dflt s (open_to everyone "tcp" (check_port s))
| calls_check id :
    network_lb dflt s → svc_val s annDOLoadBalancerID = id → id ≠ "" →
    calls_for dflt s (open_to (Endpoints.mk [] [] [] [id] []) "tcp" (check_port s)).

(** A LoadBalancer Service whose type or network annotation has no meaning. *)
Definition misconfigured (s : Service.t) : Prop :=
  s.(Service.Type_) = "LoadBalancer"
  ∧ (svc_val s annDOType ∉ [""; "REGIONAL"; "REGIONAL_NETWORK"]
     ∨ svc_val s annDONetwork ∉ [""; "EXTERNAL"; "INTERNAL"]).

(** By protocol, then by port, as strings. *)
Definition rule_le (r1 r2 : FwRule.t) : Prop :=
  String.le r1.(FwRule.Protocol) r2.(FwRule.Protocol)
  ∧ (r1.(FwRule.Protocol) = r2.(FwRule.Protocol) → String.le r1.(FwRule.PortRange) r2.(FwRule.PortRange)).

Lemma outbound_open protocol :
  protocol ∈ ["tcp"; "udp"; "icmp"] →
  ∃ r, r ∈ allowAllOutboundRules ∧ r.(FwRule.Protocol) = protocol ∧ r.(FwRule.PortRange) ∈ ["all"; ""]
       ∧ r.(FwRule.Peers) = Some everyone.
Proof.
  intros Hp. apply list_elem_of_lookup in Hp as [i Hi].
  assert (Hl : FwRule.Protocol <$> allowAllOutboundRules !! i = Some protocol).
  { by rewrite <- list_lookup_fmap. }
  destruct (allowAllOutboundRules !! i) as [r|] eqn:Er; simplify_eq/=. apply list_elem_of_lookup_2 in Er.
  exists r. split; [done|]. split; [done|]. clear Hi. revert r Er.
  apply Forall_forall. repeat constructor; set_solver.
Qed.

Lemma Sorted_weaken {A} (R1 R2 : A → A → Prop) l : (∀ x y, R1 x y → R2 x y) → Sorted R1 l → Sorted R2 l.
Proof.
  intros HR. induction 1 as [|x l Hs IH Hd]; constructor; [done|]. destruct Hd; constructor; auto.
Qed.

Lemma rule_less_le r1 r2 : rule_less r2 r1 = false → rule_le r1 r2.
Proof.
  unfold rule_less, rule_le. destruct (str_eqb _ _) eqn:E; reflect_eqb; intros Hlt; apply str_lt_false in Hlt.
  - rewrite E. by split.
  - split; [done|]. congruence.
Qed.

Lemma transport_fw_protocol p protocol : transport p protocol ↔ fw_protocol p = Some protocol.
Proof.
  unfold fw_protocol. split.
  - intros []; match goal with H : ServicePort.Protocol p = _ |- _ => rewrite H end; done.
  - destruct (str_eqb _ ProtocolTCP) eqn:E1; [intros [= <-]; reflect_eqb; by constructor|].
    destruct (str_eqb _ ProtocolUDP) eqn:E2; [intros [= <-]; reflect_eqb; by constructor|done].
Qed.

Lemma managed_unless s : managed_or_unknown s = true ↔ ¬ unmanaged s.
Proof.
  unfold managed_or_unknown, isManaged, getBool, unmanaged, annotationDOFirewallManaged.
  match goal with |- context [ann_get ?a ?k] => destruct (ann_get a k) as [v|] end; simpl; [|split; [intros _; set_solver|done]].
  unfold strconv.ParseBool.
  destruct (bool_decide (v ∈ ["1"; "t"; "T"; "true"; "TRUE"; "True"])) eqn:E1; simpl.
  { apply bool_decide_eq_true in E1. split; [intros _|done]. set_solver. }
  destruct (bool_decide (v ∈ ["0"; "f"; "F"; "false"; "FALSE"; "False"])) eqn:E2; simpl.
  - apply bool_decide_eq_true in E2. split; [done|]. intros Hn. destruct Hn. set_solver.
  - apply bool_decide_eq_false in E2. split; [intros _|done]. set_solver.
Qed.

Lemma getType_network s dflt :
  valid_default dflt →
  getType s dflt = Ok LoadBalancerTypeRegionalNetwork ↔
    svc_val s annDOType = "REGIONAL_NETWORK" ∨ svc_val s annDOType = "" ∧ dflt = "REGIONAL_NETWORK".
Proof.
  intros Hd. unfold getType.
  replace (str_eqb dflt "" || _) with false by (by destruct Hd as [-> | ->]). simpl.
  destruct (str_eqb (svc_val s annDOType) "") eqn:E0; reflect_eqb.
  { rewrite E0. split; [intros [= ->]; by right|]. intros [H|[_ ->]]; [discriminate H|done]. }
  destruct (str_eqb (svc_val s annDOType) LoadBalancerTypeRegional) eqn:E1; reflect_eqb; simpl.
  { rewrite E1. split; [done|]. intros [H|[H _]]; discriminate H. }
  destruct (str_eqb (svc_val s annDOType) LoadBalancerTypeRegionalNetwork) eqn:E2; reflect_eqb; simpl.
  { rewrite E2. split; [by left|done]. }
  split; [done|]. intros [H|[H _]]; [by destruct E2|by destruct E0].
Qed.

Lemma getNetwork_external s :
  getNetwork s = Ok LoadBalancerNetworkTypeExternal ↔ svc_val s annDONetwork ∈ [""; "EXTERNAL"].
Proof.
  unfold getNetwork. destruct (str_eqb (svc_val s annDONetwork) "") eqn:E0; reflect_eqb.
  { rewrite E0. split; [set_solver|done]. }
  destruct (str_eqb (svc_val s annDONetwork) LoadBalancerNetworkTypeExternal) eqn:E1; reflect_eqb; simpl.
  { rewrite E1. split; [set_solver|done]. }
  assert (svc_val s annDONetwork ∉ [""; "EXTERNAL"]) as Hn by (rewrite !not_elem_of_cons; auto using not_elem_of_nil).
  destruct (str_eqb (svc_val s annDONetwork) LoadBalancerNetworkTypeInternal) eqn:E2; reflect_eqb; simpl;
    (split; [|done]); [by rewrite E2; intros [=]|done].
Qed.

Lemma misconfigured_fails dflt s :
  s.(Service.Type_) = ServiceTypeLoadBalancer →
  (∃ e, getType s dflt = Err e) ∨ (∃ e, getNetwork s = Err e) → misconfigured s.
Proof.
  intros Ht Hor. split; [done|]. rewrite !not_elem_of_cons. destruct Hor as [[e Hty]|[e Hnet]]; [left|right].
  - unfold getType in Hty. destruct (str_eqb dflt "" || _); [done|]. cbv zeta in Hty.
    destruct (str_eqb _ "") eqn:E0; [done|]. destruct (_ || _) eqn:E1; [done|].
    apply orb_false_iff in E1 as [E1 E2]. reflect_eqb. auto using not_elem_of_nil.
  - unfold getNetwork in Hnet. cbv zeta in Hnet.
    destruct (str_eqb _ "") eqn:E0; [done|]. destruct (_ || _) eqn:E1; [done|].
    apply orb_false_iff in E1 as [E1 E2]. reflect_eqb. auto using not_elem_of_nil.
Qed.

Lemma network_lb_iff dflt s :
  valid_default dflt →
  network_lb dflt s ↔ s.(Service.Type_) = ServiceTypeLoadBalancer
    ∧ getType s dflt = Ok LoadBalancerTypeRegionalNetwork ∧ getNetwork s = Ok LoadBalancerNetworkTypeExternal.
Proof.
  intros Hd. unfold network_lb. rewrite getNetwork_external, getType_network by done. done.
Qed.

Lemma check_port_eq s : s.(Service.Type_) = ServiceTypeLoadBalancer → check_port s = (healthCheckPathAndPort s).2.
Proof.
  intros Ht. unfold check_port, healthCheckPathAndPort, GetServiceHealthCheckPathPort, NeedsHealthCheck,
    RequestsOnlyLocalTraffic. rewrite Ht. simpl.
  destruct (str_eqb (Service.ExternalTrafficPolicy s) _) eqn:E; reflect_eqb; simpl.
  - destruct (Z.eqb_spec (Service.HealthCheckNodePort s) 0) as [Ez|Ez]; simpl.
    + rewrite decide_False; [done|]. tauto.
    + by rewrite decide_True.
  - rewrite decide_False; [done|]. by intros [? _].
Qed.

Lemma opens_calls_for fm s r :
  (s.(Service.Type_) = ServiceTypeLoadBalancer → valid_default fm.(firewallManager.defaultLBType)) →
  opens fm s r ↔ calls_for fm.(firewallManager.defaultLBType) s r.
Proof.
  intros Hd. split.
  - intros [(Ht & Hm & p & protocol & Hp & Hn & Hf & ->)|(Ht & Hty & Hnet & Hr)].
    { apply calls_node_port; [done|by apply managed_unless|done|by apply transport_fw_protocol|done]. }
    assert (Hlb : network_lb (firewallManager.defaultLBType fm) s) by (apply network_lb_iff; auto).
    destruct Hr as [->|(p & protocol & Hp & Hf & ->)].
    + unfold port_rule, health_key. simpl. rewrite <- check_port_eq by done.
      destruct (str_eqb (svc_val s annDOLoadBalancerID) "") eqn:E; reflect_eqb; simpl;
        [by apply calls_check_any|by apply calls_check].
    + apply calls_port; [done..|]. by apply transport_fw_protocol.
  - intros Hc. assert (Hlb : network_lb (firewallManager.defaultLBType fm) s →
      s.(Service.Type_) = ServiceTypeLoadBalancer
      ∧ getType s fm.(firewallManager.defaultLBType) = Ok LoadBalancerTypeRegionalNetwork
      ∧ getNetwork s = Ok LoadBalancerNetworkTypeExternal).
    { intros Hn. apply network_lb_iff; [|done]. apply Hd. apply Hn. }
    destruct Hc as [p protocol Ht Hm Hp Htr Hn|p protocol Hn Hp Htr|Hn Hid|id Hn Hid Hne].
    + left. split_and!; [done|by apply managed_unless|]. exists p, protocol.
      by split_and!; [..|apply transport_fw_protocol|].
    + destruct (Hlb Hn) as (? & ? & ?). right. split_and!; [done..|]. right. exists p, protocol.
      by split_and!; [|apply transport_fw_protocol|].
    + destruct (Hlb Hn) as (? & ? & ?). right. split_and!; [done..|]. left. unfold port_rule, health_key. simpl.
      by rewrite Hid, check_port_eq.
    + destruct (Hlb Hn) as (? & ? & ?). right. split_and!; [done..|]. left. unfold port_rule, health_key. simpl.
      rewrite Hid, check_port_eq by done. by rewrite (proj2 (str_eqb_false id "")).
Qed.

(** ** What the comparison should tell *)

(** Port ranges that mean the same ports. *)
Definition same_ports (pr1 pr2 : string) : Prop :=
  pr1 = pr2 ∨ pr1 ∈ [""; "all"; "0"] ∧ pr2 ∈ [""; "all"; "0"].

Definition same_peers (e1 e2 : option Endpoints.t) : Prop :=
  match e1, e2 with
  | None, None => True
  | Some e1, Some e2 => e1.(Endpoints.Addresses) = e2.(Endpoints.Addresses)
                        ∧ e1.(Endpoints.LoadBalancerUIDs) = e2.(Endpoints.LoadBalancerUIDs)
  | _, _ => False
  end.

Definition same_rule (r1 r2 : FwRule.t) : Prop :=
  r1.(FwRule.Protocol) = r2.(FwRule.Protocol) ∧ same_ports r1.(FwRule.PortRange) r2.(FwRule.PortRange)
  ∧ r1.(FwRule.Action) = r2.(FwRule.Action) ∧ same_peers r1.(FwRule.Peers) r2.(FwRule.Peers).

(** The rules can be paired off. *)
Definition same_rules (l1 l2 : list FwRule.t) : Prop := ∃ l, l ≡ₚ l2 ∧ Forall2 same_rule l1 l.

Definition same_parts (fw1 fw2 : Firewall.t) : Prop :=
  fw1.(Firewall.Name) = fw2.(Firewall.Name) ∧ fw1.(Firewall.Tags) = fw2.(Firewall.Tags)
  ∧ same_rules fw1.(Firewall.InboundRules) fw2.(Firewall.InboundRules)
  ∧ same_rules fw1.(Firewall.OutboundRules) fw2.(Firewall.OutboundRules).

(** Rules that are rendered alike are alike. *)
Definition told_apart (fw : Firewall.t) : Prop :=
  (∀ r1 r2, r1 ∈ fw.(Firewall.InboundRules) → r2 ∈ fw.(Firewall.InboundRules) →
     printInboundRule r1 = printInboundRule r2 → same_rule r1 r2)
  ∧ ∀ r1 r2, r1 ∈ fw.(Firewall.OutboundRules) → r2 ∈ fw.(Firewall.OutboundRules) →
     printOutboundRule r1 = printOutboundRule r2 → same_rule r1 r2.

Lemma same_ports_sanitize pr1 pr2 : same_ports pr1 pr2 ↔ sanitizePortRange pr1 = sanitizePortRange pr2.
Proof.
  assert (Hs : ∀ pr, sanitizePortRange pr = if decide (pr ∈ [""; "all"; "0"]) then "0" else pr).
  { intros pr. unfold sanitizePortRange, str_eqb. repeat case_bool_decide; simpl; case_decide; set_solver. }
  assert (H0 : "0" ∈ [""; "all"; "0"]) by set_solver.
  unfold same_ports. rewrite !Hs. repeat case_decide; split; intuition (congruence || (exfalso; congruence)).
Qed.

Lemma same_rule_iff r1 r2 : same_rule r1 r2 ↔ ruleEqual r1 r2 = true.
Proof.
  rewrite ruleEqual_iff. unfold same_rule, same_peers. rewrite same_ports_sanitize.
  destruct (FwRule.Peers r1) as [e1|], (FwRule.Peers r2) as [e2|]; simpl;
    split; intros (? & ? & ? & He); split_and!; try done; try congruence.
  destruct He as [-> ->]. done.
Qed.

(** Rules that are the same are rendered alike. *)
Lemma same_rule_print r1 r2 :
  same_rule r1 r2 → printInboundRule r1 = printInboundRule r2 ∧ printOutboundRule r1 = printOutboundRule r2.
Proof.
  intros (Hp & Hr & _ & He). apply same_ports_sanitize in Hr.
  unfold printInboundRule, printOutboundRule. rewrite Hp, Hr. unfold same_peers in He.
  destruct (FwRule.Peers r1) as [e1|], (FwRule.Peers r2) as [e2|]; try done. by destruct He as [-> ->].
Qed.

Lemma sorted_same_rules print l1 l2 :
  rulesEqual (sort_by print l1) (sort_by print l2) = true → same_rules l1 l2.
Proof.
  intros Hf%rulesEqual_Forall2.
  destruct (Permutation_Forall2 (sort_by_perm print l1) Hf) as (l & HP & HF).
  exists l. split; [by rewrite <- HP, sort_by_perm|]. eapply Forall2_impl; [exact HF|].
  intros r1 r2. by rewrite same_rule_iff.
Qed.

Lemma same_rules_sorted print l1 l2 :
  (∀ r1 r2, same_rule r1 r2 → print r1 = print r2) →
  (∀ r1 r2, r1 ∈ l1 → r2 ∈ l1 → print r1 = print r2 → same_rule r1 r2) →
  same_rules l1 l2 → rulesEqual (sort_by print l1) (sort_by print l2) = true.
Proof.
  intros Hpr Hin (l & HP & HF). apply rulesEqual_Forall2.
  assert (Hk : print <$> sort_by print l1 = print <$> sort_by print l2).
  { rewrite !sort_by_keys. apply Strings_canonical. rewrite <- HP.
    assert (print <$> l1 = print <$> l) as ->; [|done]. clear -Hpr HF.
    induction HF as [|r1 r2 l1 l Hr _ IH]; [done|]. rewrite !fmap_cons, IH. f_equal. auto. }
  apply Forall2_same_length_lookup_2.
  { by rewrite <- !(length_fmap print), Hk. }
  intros i r1 r2 H1 H2.
  assert (He : print r1 = print r2).
  { assert (Hl : (print <$> sort_by print l1) !! i = (print <$> sort_by print l2) !! i) by by rewrite Hk.
    rewrite !list_lookup_fmap, H1, H2 in Hl. by simplify_eq/=. }
  apply list_elem_of_lookup_2 in H1, H2. rewrite sort_by_perm in H1, H2. rewrite <- HP in H2.
  apply list_elem_of_lookup in H2 as [k Hk2]. destruct (Forall2_lookup_r _ _ _ _ _ HF Hk2) as (r & Hr & Hs).
  apply list_elem_of_lookup_2 in Hr. assert (Hs' : same_rule r1 r) by (apply Hin; [done..|]; rewrite He; symmetry; auto).
  apply same_rule_iff in Hs, Hs'. exact (Equivalence_Transitive (R := λ a b, ruleEqual a b = true) _ _ _ Hs' Hs).
Qed.

Lemma firewallsEqual_same_parts fw1 fw2 :
  firewallsEqual (Some fw1) (Some fw2) = true → same_parts fw1 fw2.
Proof.
  unfold firewallsEqual. simpl. rewrite !andb_true_iff. unfold str_eqb. rewrite !bool_decide_eq_true.
  intros [[[Hn Hi] Ho] Ht]. split_and!; [done|done|by eapply sorted_same_rules..].
Qed.

Lemma same_parts_firewallsEqual fw1 fw2 :
  told_apart fw1 → same_parts fw1 fw2 → firewallsEqual (Some fw1) (Some fw2) = true.
Proof.
  intros [Hti Hto] (Hn & Ht & Hi & Ho). unfold firewallsEqual. simpl. rewrite !andb_true_iff.
  rewrite Hn, Ht, str_eqb_refl, bool_decide_true by done. split_and!; [done| | |done];
    (apply same_rules_sorted; [|done|done]); intros r1 r2 Hr; apply (same_rule_print r1 r2 Hr).
Qed.

(* ================================================================== *)
(** * Properties *)

(** C28. The firewall request opens exactly what the Services call for: every
    TCP or UDP node port of a NodePort Service to everyone, unless the
    annotation reads as false; for an external REGIONAL_NETWORK load balancer
    its ports to everyone and its health-check port to the load balancer, or to
    everyone while that is not known.  The rules are sorted by protocol and
    port, outbound traffic stays open, and name and tags are the configured
    ones.  The computation fails only for a LoadBalancer Service with a type or
    network annotation that has no meaning, and panics only for an invalid
    default type. *)
Theorem reconciled_rules order fm services :
  (∀ l, order l ≡ₚ l) →
  match createReconciledFirewallRequest order fm services with
  | Ok req =>
      (∀ r, r ∈ req.(FirewallRequest.InboundRules) ↔
         ∃ s, s ∈ services ∧ calls_for fm.(firewallManager.defaultLBType) s r)
      ∧ Sorted rule_le req.(FirewallRequest.InboundRules)
      ∧ (∀ protocol, protocol ∈ ["tcp"; "udp"; "icmp"] → ∃ r, r ∈ req.(FirewallRequest.OutboundRules)
           ∧ r.(FwRule.Protocol) = protocol ∧ r.(FwRule.PortRange) ∈ ["all"; ""]
           ∧ r.(FwRule.Peers) = Some everyone)
      ∧ req.(FirewallRequest.Name) = fm.(firewallManager.workerFirewallName)
      ∧ req.(FirewallRequest.Tags) = fm.(firewallManager.workerFirewallTags)
  | Err _ => ∃ s, s ∈ services ∧ misconfigured s
  | Panic => ¬ valid_default fm.(firewallManager.defaultLBType)
  | NoFuel => False
  end.
Proof.
  intros Ho. destruct (createReconciledFirewallRequest order fm services) as [req|e| |] eqn:E.
  { pose proof (createReconciled_Ok _ _ _ _ E) as (rules & ports & Hl & Hr & Hn & Hout & Ht).
    split_and!; [| | |done|done].
    - intros r. rewrite (createReconciled_rules _ _ _ _ Ho E). split; intros (s & Hs & Hc); exists s;
        (split; [done|]); apply (opens_calls_for fm); try done; intros Hlb; by eapply services_loop_default.
    - rewrite Hr. eapply Sorted_weaken; [exact rule_less_le|]. apply SliceStable_sorted, rule_less_asym.
    - rewrite Hout. apply outbound_open. }
  all: pose proof (services_loop_spec fm services ([], [])) as Hs;
    unfold createReconciledFirewallRequest in E;
    destruct (services_loop fm services ([], [])) as [[]| | |]; simplify_eq/=; try done.
  destruct Hs as (s & Hin & Hlb & Hf). exists s. split; [done|]. by eapply misconfigured_fails.
Qed.

(** C37. The firewall request does not depend on Go's map order as far as the
    comparison can tell: whatever orders two computations for the same Services
    meet, a firewall that holds the one request compares equal to the other, so
    that no spurious update follows. *)
Theorem reconciled_request_order_insensitive order1 order2 fm services req1 req2 id :
  (∀ l, order1 l ≡ₚ l) → (∀ l, order2 l ≡ₚ l) →
  createReconciledFirewallRequest order1 fm services = Ok req1 →
  createReconciledFirewallRequest order2 fm services = Ok req2 →
  firewallRequestEqual
    (Some (Firewall.mk id req1.(FirewallRequest.Name) req1.(FirewallRequest.InboundRules)
             req1.(FirewallRequest.OutboundRules) req1.(FirewallRequest.Tags)))
    (Some req2) = true.
Proof.
  intros Ho1 Ho2 H1 H2. exact (createReconciled_orders _ _ _ _ _ _ Ho1 Ho2 H1 H2).
Qed.

(** C38. The comparison of firewalls ignores the identifier and is an equivalence
    relation.  It is sound: firewalls that compare equal have the same name and
    tags, and their rules can be paired off so that paired rules have the same
    protocol, ports (the empty range, all and 0 meaning all ports), action, and
    the same addresses and load balancers on the other side.  And it is complete
    for firewalls in which rules that are rendered alike are alike: then any
    such pairing, in whatever order the rules are listed, compares equal. *)
Theorem firewall_comparison_sound fw1 fw2 :
  (firewallsEqual (Some fw1) (Some fw2) = true → same_parts fw1 fw2)
  ∧ (told_apart fw1 → same_parts fw1 fw2 → firewallsEqual (Some fw1) (Some fw2) = true)
  ∧ firewallsEqual (Some fw1) (Some fw1) = true
  ∧ (firewallsEqual (Some fw1) (Some fw2) = true →
     firewallsEqual (Some fw2) (Some fw1) = true
     ∧ ∀ fw3, firewallsEqual (Some fw2) fw3 = true → firewallsEqual (Some fw1) fw3 = true).
Proof.
  split_and!.
  - apply firewallsEqual_same_parts.
  - apply same_parts_firewallsEqual.
  - apply (Equivalence_Reflexive (R := same_firewall)).
  - intros Heq. split; [by apply firewallsEqual_sym|]. intros fw3. by apply firewallsEqual_trans.
Qed.
