(* ===== verification/FwController.v ===== *)
(** * The firewall controller

    [firewall_controller.go], [firewall_controller_cache.go], the firewall
    listing of [common.go] and the counters of [metrics.go]: the cache of the
    public access firewall, the manager that talks to the API, and the
    controller that reconciles the firewall with the cluster's Services.

    The state holds the remote side, the calls made so far, the cache, the
    counters incremented and the operations on the work queue, in order. *)

From S2P Require Import Prelude GoStd Types Annotations Nodes Api Rules FwRules.
From stdpp Require Import base gmap strings list.
From Stdlib Require Import ZArith Lia.
#[local] Open Scope Z_scope.

(** [godo.FirewallsService] *)
Class GodoFirewalls (R : Type) := {
  Firewalls_Get : string → R → reply (option Firewall.t) * R;
  Firewalls_List : Z → R → reply (list Firewall.t) * R;
  Firewalls_Create : FirewallRequest.t → R → reply (option Firewall.t) * R;
  Firewalls_Update : string → FirewallRequest.t → R → reply (option Firewall.t) * R;
}.

Inductive fw_event :=
| EvFwGet (id : string)
| EvFwList (page : Z)
| EvFwCreate (req : FirewallRequest.t)
| EvFwUpdate (id : string) (req : FirewallRequest.t).

(** [firewallCache]; its mutex makes each operation one step. *)
Module firewallCache.
Record t := mk { firewall : option Firewall.t; isSet : bool }.
End firewallCache.

(** The counters of [metrics.go] with the labels they are incremented for. *)
Inductive metric :=
| apiOperationsTotal (operation result http_response_code : string)
| reconcilesTotal (result error_type : string)
| resourceSyncsTotal (result : string).

(** The operations on the rate-limited work queue. *)
Inductive queue_op :=
| QAdd (key : string)
| QAddRateLimited (key : string)
| QForget (key : string)
| QDone (key : string).

Record fwst (R : Type) := FwState {
  fw_remote : R;
  fw_calls : list fw_event;
  fw_cache : firewallCache.t;
  fw_metrics : list metric;
  fw_queue : list queue_op;
}.
Arguments FwState {R} _ _ _ _ _.
Arguments fw_remote {R} _.
Arguments fw_calls {R} _.
Arguments fw_cache {R} _.
Arguments fw_metrics {R} _.
Arguments fw_queue {R} _.

Definition queueKey : string := "service".
Definition firewallOperationGetByID : string := "get_by_id".
Definition firewallOperationGetByList : string := "get_by_list".
Definition firewallOperationCreate : string := "create".
Definition firewallOperationUpdate : string := "update".

Section Primitives.
Context {R : Type}.

Definition fcall {A} (ev : fw_event) (f : R → A * R) : M (fwst R) A := λ s,
  let '(a, r') := f s.(fw_remote) in
  (Ok a, FwState r' (s.(fw_calls) ++ [ev]) s.(fw_cache) s.(fw_metrics) s.(fw_queue)).

Definition set_cache (c : firewallCache.t) (s : fwst R) : fwst R :=
  FwState s.(fw_remote) s.(fw_calls) c s.(fw_metrics) s.(fw_queue).
Definition observe (m : metric) (s : fwst R) : fwst R :=
  FwState s.(fw_remote) s.(fw_calls) s.(fw_cache) (s.(fw_metrics) ++ [m]) s.(fw_queue).
Definition enqueue (q : queue_op) (s : fwst R) : fwst R :=
  FwState s.(fw_remote) s.(fw_calls) s.(fw_cache) s.(fw_metrics) (s.(fw_queue) ++ [q]).
End Primitives.

(** [(fc *firewallCache) getCachedFirewall] and [updateCache]. *)
Definition getCachedFirewall (c : firewallCache.t) : option Firewall.t * bool :=
  (c.(firewallCache.firewall), c.(firewallCache.isSet)).

Definition updateCache (currentFirewall : option Firewall.t) (c : firewallCache.t) : firewallCache.t :=
  if negb (firewallsEqual c.(firewallCache.firewall) currentFirewall)
  then firewallCache.mk currentFirewall true
  else firewallCache.mk c.(firewallCache.firewall) true.

Section Manager.
Context {R : Type} `{!GodoPaging, !GodoFirewalls R}.
Variable fuel : nat.

(** [filterFirewallList], from page [page].  A nil response is dereferenced when
    no firewall of the page matches. *)
Fixpoint filter_pages (matchExpectedFirewallName : Firewall.t → bool) (fuel : nat) (page : Z)
    : M (fwst R) (reply (option Firewall.t)) :=
  match fuel with
  | O => nofuel
  | S fuel' =>
      rp ← fcall (EvFwList page) (Firewalls_List page);
      match rp.(rerr) with
      | Some e => mret (Reply None rp.(rresp) (Some e))
      | None =>
          match list_find (λ fw, matchExpectedFirewallName fw = true) rp.(rval) with
          | Some (_, fw) => mret (Reply (Some fw) rp.(rresp) None)
          | None =>
              match rp.(rresp) with
              | None => panic
              | Some resp =>
                  match resp.(Response.Links) with
                  | None => mret (Reply None (Some resp) None)
                  | Some links =>
                      if IsLastPage links then mret (Reply None (Some resp) None)
                      else
                        page ← attempt (pure (CurrentPage links));
                        match page with
                        | inl page => filter_pages matchExpectedFirewallName fuel' (page + 1)
                        | inr e => mret (Reply None None (Some e))
                        end
                  end
              end
          end
      end
  end.

Definition filterFirewallList (matchExpectedFirewallName : Firewall.t → bool)
    : M (fwst R) (reply (option Firewall.t)) := filter_pages matchExpectedFirewallName fuel 1.

(** The counter is incremented by a deferred function, also when [f] panics. *)
Definition executeInstrumentedFirewallOperation (fwOp : string)
    (f : M (fwst R) (reply (option Firewall.t))) : M (fwst R) (reply (option Firewall.t)) := λ s,
  match f s with
  | (Ok rp, s') =>
      let result := match rp.(rerr) with Some _ => "failed" | None => "succeeded" end in
      let code := match rp.(rresp) with
                  | Some resp => strconv.Itoa resp.(Response.StatusCode)
                  | None => ""
                  end in
      (Ok rp, observe (apiOperationsTotal fwOp result code) s')
  | (Panic, s') => (Panic, observe (apiOperationsTotal fwOp "succeeded" "") s')
  | r => r
  end.

Definition executeInstrumentedFirewallOperationGetByID (fwID : string) :=
  executeInstrumentedFirewallOperation firewallOperationGetByID
    (fcall (EvFwGet fwID) (Firewalls_Get fwID)).

Definition executeInstrumentedFirewallOperationGetByList (fm : firewallManager.t) :=
  executeInstrumentedFirewallOperation firewallOperationGetByList
    (filterFirewallList (λ fw, str_eqb fw.(Firewall.Name) fm.(firewallManager.workerFirewallName))).

Definition executeInstrumentedFirewallOperationCreate (fr : FirewallRequest.t) :=
  executeInstrumentedFirewallOperation firewallOperationCreate
    (fcall (EvFwCreate fr) (Firewalls_Create fr)).

Definition executeInstrumentedFirewallOperationUpdate (fwID : string) (fr : FirewallRequest.t) :=
  executeInstrumentedFirewallOperation firewallOperationUpdate
    (fcall (EvFwUpdate fwID fr) (Firewalls_Update fwID fr)).

Definition cached : M (fwst R) (option Firewall.t) := λ s,
  (Ok (getCachedFirewall s.(fw_cache)).1, s).

(** The look-up by the identifier of the cached firewall, if there is one. *)
Definition get_by_cached_id : M (fwst R) (option Firewall.t) :=
  fw ← cached;
  match fw with
  | None => mret None
  | Some fw =>
      rp ← executeInstrumentedFirewallOperationGetByID fw.(Firewall.ID);
      match rp.(rerr) with
      | Some e =>
          if negb (is_404 rp) then throw (Errorf "could not get firewall: %v" [AErr e])
          else mret rp.(rval)
      | None => match rp.(rresp) with None => panic | Some _ => mret rp.(rval) end
      end
  end.

Definition get_firewall (fm : firewallManager.t) : M (fwst R) (option Firewall.t) :=
  fw ← get_by_cached_id;
  match fw with
  | Some fw => mret (Some fw)
  | None =>
      rp ← executeInstrumentedFirewallOperationGetByList fm;
      match rp.(rerr) with
      | Some e => throw (Errorf "failed to retrieve list of firewalls from DO API: %v" [AErr e])
      | None => mret rp.(rval)
      end
  end.

(** The deferred cache update runs unless an error is returned; during a panic
    the result variable still holds the firewall that was cached. *)
Definition Get (fm : firewallManager.t) : M (fwst R) (option Firewall.t) := λ s,
  match get_firewall fm s with
  | (Ok fw, s') => (Ok fw, set_cache (updateCache fw s'.(fw_cache)) s')
  | (Panic, s') =>
      (Panic, set_cache (updateCache (getCachedFirewall s.(fw_cache)).1 s'.(fw_cache)) s')
  | r => r
  end.

Definition GetPreferFromCache (fm : firewallManager.t) : M (fwst R) (option Firewall.t) := λ s,
  let '(fw, isSet) := getCachedFirewall s.(fw_cache) in
  if isSet : bool then (Ok fw, s) else Get fm s.

Definition createFirewall (fr : FirewallRequest.t) : M (fwst R) (reply (option Firewall.t)) :=
  executeInstrumentedFirewallOperationCreate fr.
Definition updateFirewall (fwID : string) (fr : FirewallRequest.t)
    : M (fwst R) (reply (option Firewall.t)) := executeInstrumentedFirewallOperationUpdate fwID fr.

(** The body of [Set], with the firewall the deferred function caches. *)
Definition create_step (fr : FirewallRequest.t) : M (fwst R) (option Firewall.t) :=
  rp ← createFirewall fr;
  match rp.(rerr) with
  | Some e => throw (Errorf "failed to create firewall: %v" [AErr e])
  | None => mret rp.(rval)
  end.

Definition set_firewall (fwID : string) (fr : FirewallRequest.t) : M (fwst R) (option Firewall.t) :=
  if negb (str_eqb fwID "") then
    rp ← updateFirewall fwID fr;
    match rp.(rerr) with
    | None => mret rp.(rval)
    | Some e =>
        if negb (is_404 rp) then throw (Errorf "failed to update firewall: %v" [AErr e])
        else create_step fr
    end
  else create_step fr.

Definition Set_ (fwID : string) (fr : FirewallRequest.t) : M (fwst R) unit := λ s,
  match set_firewall fwID fr s with
  | (Ok fw, s') => (Ok tt, set_cache (updateCache fw s'.(fw_cache)) s')
  | (Err e, s') => (Err e, s')
  | (Panic, s') => (Panic, s')
  | (NoFuel, s') => (NoFuel, s')
  end.

(* ------------------------------------------------------------------ *)
(** ** The controller *)

(** [order] is the map order of the rule computation, [serviceList] what the
    lister answers. *)
Definition ensureReconciledFirewall (order : list portProtocol.t → list portProtocol.t)
    (fm : firewallManager.t) (serviceList : list Service.t + error) : M (fwst R) bool :=
  serviceList ← on_err (λ e, Errorf "failed to list services: %v" [AErr e]) (pure (of_sum serviceList));
  fr ← on_err (λ e, Errorf "failed to create reconciled firewall request: %v" [AErr e])
         (pure (createReconciledFirewallRequest order fm serviceList));
  fw ← on_err (λ e, Errorf "failed to get firewall (preferred from cache): %v" [AErr e])
         (GetPreferFromCache fm);
  if firewallRequestEqual fw (Some fr) then mret true
  else
    let fwID := match fw with None => "" | Some fw => fw.(Firewall.ID) end in
    on_err (λ e, Errorf "failed to set firewall: %v" [AErr e]) (Set_ fwID fr);;
    mret false.

(** [ctxErr] says whether the context was done by the time of the check. *)
Definition ensureReconciledFirewallInstrumented (order : list portProtocol.t → list portProtocol.t)
    (ctxErr : bool) (fm : firewallManager.t) (serviceList : list Service.t + error)
    : M (fwst R) unit := λ s,
  match ensureReconciledFirewall order fm serviceList s with
  | (Ok skipped, s') =>
      (Ok tt, observe (reconcilesTotal (if skipped : bool then "skipped" else "reconciled") "") s')
  | (Err e, s') =>
      (Err e, observe (reconcilesTotal "failed" (if ctxErr then "timeout" else "generic")) s')
  | (Panic, s') => (Panic, observe (reconcilesTotal "reconciled" "") s')
  | (NoFuel, s') => (NoFuel, s')
  end.

Definition syncResource (ctxErr : bool) (fm : firewallManager.t) : M (fwst R) unit := λ s,
  match Get fm s with
  | (Ok _, s') => (Ok tt, observe (resourceSyncsTotal "updated") (enqueue (QAdd queueKey) s'))
  | (Err e, s') => (Err e, observe (resourceSyncsTotal (if ctxErr then "canceled" else "failed")) s')
  | (Panic, s') => (Panic, observe (resourceSyncsTotal "updated") s')
  | (NoFuel, s') => (NoFuel, s')
  end.

(** [key, quit] is the answer of [queue.Get]. *)
Definition processNextItem (order : list portProtocol.t → list portProtocol.t) (ctxErr : bool)
    (fm : firewallManager.t) (serviceList : list Service.t + error) (key : string) (quit : bool)
    : M (fwst R) bool := λ s,
  if quit then (Ok false, s)
  else
    match ensureReconciledFirewallInstrumented order ctxErr fm serviceList s with
    | (Ok _, s') => (Ok true, enqueue (QDone key) (enqueue (QForget key) s'))
    | (Err _, s') => (Ok true, enqueue (QDone key) (enqueue (QAddRateLimited key) s'))
    | (Panic, s') => (Panic, enqueue (QDone key) s')
    | (NoFuel, s') => (NoFuel, s')
    end.

(** The handlers that [NewFirewallController] registers for added, updated and
    deleted Services. *)
Definition service_changed : M (fwst R) unit := λ s, (Ok tt, enqueue (QAdd queueKey) s).
End Manager.

(* ================================================================== *)
(** * Facts *)

(** Creations and updates answer the firewall they were asked for. *)
Class FirewallLaws (R : Type) `{!GodoFirewalls R} := {
  fw_create_ok req r : rerr (Firewalls_Create req r).1 = None →
    firewallRequestEqual (rval (Firewalls_Create req r).1) (Some req) = true;
  fw_update_ok id req r : rerr (Firewalls_Update id req r).1 = None →
    firewallRequestEqual (rval (Firewalls_Update id req r).1) (Some req) = true;
}.

Lemma updateCache_equal fw c : firewallsEqual (updateCache fw c).(firewallCache.firewall) fw = true.
Proof.
  unfold updateCache. destruct (firewallsEqual (firewallCache.firewall c) fw) eqn:E; simpl; [done|].
  apply (Equivalence_Reflexive (R := same_firewall)).
Qed.

Lemma updateCache_set fw c : (updateCache fw c).(firewallCache.isSet) = true.
Proof. unfold updateCache. by case_match. Qed.

Section ControllerFacts.
Context {R : Type} `{!GodoPaging, !GodoFirewalls R}.
Variable fuel : nat.

(** The API part of a method leaves cache and queue alone. *)
Definition same_local : relation (fwst R) := same (λ s, (fw_cache s, fw_queue s)).
#[local] Instance same_local_preorder : PreOrder same_local := same_preorder _.

Lemma same_local_fcall {A} ev (f : R → A * R) : within same_local (fcall ev f).
Proof. intros s. unfold fcall. by destruct (f _). Qed.

Lemma same_local_filter_pages name k page : within same_local (filter_pages name k page).
Proof.
  revert page. induction k as [|k IH]; intros page; simpl; [auto with go typeclass_instances|].
  apply within_bind; [apply _|apply same_local_fcall|intros rp].
  repeat (case_match; try solve [auto with go typeclass_instances]).
  apply within_bind; [apply _|auto with go typeclass_instances|].
  intros [p|e]; auto with go typeclass_instances.
Qed.

Lemma same_local_instrumented op f :
  within same_local f → within same_local (executeInstrumentedFirewallOperation (R := R) op f).
Proof.
  intros Hf s. specialize (Hf s). unfold executeInstrumentedFirewallOperation.
  destruct (f s) as [[rp|e| |] s']; done.
Qed.

Lemma same_local_cached : within same_local cached.
Proof. done. Qed.

Hint Resolve same_local_fcall same_local_filter_pages same_local_instrumented same_local_cached : go.

Lemma same_local_get_firewall fm : within same_local (get_firewall fuel fm).
Proof.
  unfold get_firewall, get_by_cached_id, executeInstrumentedFirewallOperationGetByID,
    executeInstrumentedFirewallOperationGetByList, filterFirewallList. solve_within.
Qed.

Lemma same_local_set_firewall fwID fr : within same_local (set_firewall fwID fr).
Proof.
  unfold set_firewall, create_step, updateFirewall, createFirewall,
    executeInstrumentedFirewallOperationUpdate, executeInstrumentedFirewallOperationCreate. solve_within.
Qed.

Lemma instrumented_fcall op ev (f : R → reply (option Firewall.t) * R) s :
  ∃ s', executeInstrumentedFirewallOperation op (fcall ev f) s = (Ok (f (fw_remote s)).1, s')
    ∧ fw_remote s' = (f (fw_remote s)).2 ∧ fw_calls s' = fw_calls s ++ [ev]
    ∧ fw_cache s' = fw_cache s ∧ fw_queue s' = fw_queue s.
Proof.
  unfold executeInstrumentedFirewallOperation, fcall. destruct (f (fw_remote s)) as [rp r'].
  eexists. split; [done|]. done.
Qed.

Lemma create_step_run `{!FirewallLaws R} fr (s : fwst R) :
  let '(r, s') := create_step fr s in
  fw_calls s' = fw_calls s ++ [EvFwCreate fr]
  ∧ match r with
    | Ok fw => firewallRequestEqual fw (Some fr) = true
    | Err _ => True
    | _ => False
    end.
Proof.
  unfold create_step, createFirewall, executeInstrumentedFirewallOperationCreate, mbind, M_bind.
  destruct (instrumented_fcall firewallOperationCreate (EvFwCreate fr) (Firewalls_Create fr) s)
    as (s' & -> & _ & Hc & _).
  pose proof (fw_create_ok fr (fw_remote s)) as Hok.
  destruct (rerr (Firewalls_Create fr (fw_remote s)).1); simpl; auto.
Qed.

Lemma set_firewall_run `{!FirewallLaws R} fwID fr (s : fwst R) :
  let '(r, s') := set_firewall fwID fr s in
  let upd := (Firewalls_Update fwID fr (fw_remote s)).1 in
  fw_calls s' = fw_calls s ++
    (if decide (fwID = "") then [EvFwCreate fr]
     else EvFwUpdate fwID fr ::
       (if is_404 upd && negb (bool_decide (rerr upd = None)) then [EvFwCreate fr] else []))
  ∧ match r with
    | Ok fw => firewallRequestEqual fw (Some fr) = true
    | Err _ => True
    | _ => False
    end.
Proof.
  unfold set_firewall. destruct (str_eqb fwID "") eqn:E; reflect_eqb; simpl.
  { rewrite decide_True by done. apply create_step_run. }
  rewrite decide_False by done.
  unfold updateFirewall, executeInstrumentedFirewallOperationUpdate, mbind, M_bind.
  destruct (instrumented_fcall firewallOperationUpdate (EvFwUpdate fwID fr) (Firewalls_Update fwID fr) s)
    as (s1 & -> & _ & Hc & _).
  pose proof (fw_update_ok fwID fr (fw_remote s)) as Hok.
  set (upd := (Firewalls_Update fwID fr (fw_remote s)).1) in *.
  destruct (rerr upd) as [e|] eqn:Er.
  2:{ rewrite bool_decide_true by done. rewrite andb_false_r. simpl. auto. }
  rewrite bool_decide_false by done. rewrite andb_true_r. destruct (is_404 upd); simpl; [|done].
  pose proof (create_step_run fr s1) as Hcr. destruct (create_step fr s1) as [r s2].
  destruct Hcr as [-> Hr]. by rewrite Hc, <- app_assoc.
Qed.

Lemma GetPreferFromCache_Ok fm (s : fwst R) fw s' :
  GetPreferFromCache fuel fm s = (Ok fw, s') →
  (fw_cache s').(firewallCache.isSet) = true ∧ fw_queue s' = fw_queue s
  ∧ firewallsEqual (fw_cache s').(firewallCache.firewall) fw = true.
Proof.
  unfold GetPreferFromCache, getCachedFirewall.
  destruct (firewallCache.isSet (fw_cache s)) eqn:E.
  - intros [= <- <-]. split_and!; [done..|]. apply (Equivalence_Reflexive (R := same_firewall)).
  - unfold Get. pose proof (same_local_get_firewall fm s) as Hl. unfold same_local, same in Hl.
    destruct (get_firewall fuel fm s) as [[fw'|e| |] s1]; intros Heq; simplify_eq/=.
    split_and!; [apply updateCache_set|congruence|apply updateCache_equal].
Qed.

Lemma ensureReconciled_Ok `{!FirewallLaws R} order fm services (s : fwst R) skipped s' :
  ensureReconciledFirewall fuel order fm (inl services) s = (Ok skipped, s') →
  ∃ req, createReconciledFirewallRequest order fm services = Ok req
    ∧ (fw_cache s').(firewallCache.isSet) = true
    ∧ firewallRequestEqual (fw_cache s').(firewallCache.firewall) (Some req) = true.
Proof.
  unfold ensureReconciledFirewall. intros He. inv_ok. simplify_eq/=.
  match goal with H : createReconciledFirewallRequest _ _ _ = Ok ?x |- _ => exists x; split; [done|] end.
  match goal with H : GetPreferFromCache _ _ _ = _ |- _ => apply GetPreferFromCache_Ok in H as (Hset & _ & Heq) end.
  destruct (firewallRequestEqual _ _) eqn:Er; inv_ok.
  - split; [done|]. by eapply firewallRequestEqual_trans.
  - match goal with H : Set_ ?id ?fr ?st = _ |- _ =>
      unfold Set_ in H; pose proof (set_firewall_run id fr st) as Hrun;
      destruct (set_firewall id fr st) as [[fw'|e| |] s1]; simplify_eq/= end.
    destruct Hrun as [_ Hfw]. split; [apply updateCache_set|].
    eapply firewallRequestEqual_trans; [apply updateCache_equal|done].
Qed.

Lemma ensureReconciled_skips order fm services (s : fwst R) req :
  createReconciledFirewallRequest order fm services = Ok req →
  (fw_cache s).(firewallCache.isSet) = true →
  firewallRequestEqual (fw_cache s).(firewallCache.firewall) (Some req) = true →
  ensureReconciledFirewall fuel order fm (inl services) s = (Ok true, s).
Proof.
  intros Hreq Hset Heq.
  unfold ensureReconciledFirewall, on_err, pure, mbind, M_bind, GetPreferFromCache, getCachedFirewall.
  simpl. rewrite Hreq. simpl. rewrite Hset. simpl. by rewrite Heq.
Qed.

Lemma first_match_app {A} (P : A → Prop) `{!∀ x, Decision (P x)} (l1 l2 : list A) :
  snd <$> list_find P (l1 ++ l2)
  = match list_find P l1 with Some (_, x) => Some x | None => snd <$> list_find P l2 end.
Proof.
  destruct (list_find P l1) as [[i x]|] eqn:E.
  - by rewrite (list_find_app_l _ _ _ _ _ E).
  - rewrite (list_find_app_r _ _ _ E). by destruct (list_find P l2) as [[]|].
Qed.

(** The search through the pages from page [i] on. *)
Lemma filter_pages_from matches pages r i k (s : fwst R) :
  serves Firewalls_List pages r → (i < length pages)%nat → (length pages - i ≤ k)%nat →
  fw_remote s = r →
  ∃ rp s', filter_pages matches k (Z.of_nat i + 1) s = (Ok rp, s') ∧ fw_remote s' = r
    ∧ rerr rp = None ∧ is_Some (rresp rp)
    ∧ rval rp = snd <$> list_find (λ fw, matches fw = true) (concat (drop i pages)).
Proof.
  intros Hs. revert i s. induction k as [|k IH]; intros i s Hi Hk Hr; [lia|].
  destruct (lookup_lt_is_Some_2 pages i Hi) as [objs Hobjs].
  destruct (Hs i objs Hobjs) as (code & links & Hcall & Hlinks).
  rewrite (drop_S _ _ _ Hobjs). simpl. unfold mbind, M_bind, fcall. rewrite Hr, Hcall. simpl.
  rewrite first_match_app. destruct (list_find _ objs) as [[j fw]|]; simpl.
  { do 2 eexists. split; [done|]. by split_and!. }
  destruct (decide (S i = length pages)) as [Hlast|Hnl].
  - unfold page_links in Hlinks. rewrite decide_True in Hlinks by done.
    rewrite (drop_ge pages (S i)) by lia. simpl.
    destruct links as [l|]; [rewrite (Hlinks l eq_refl)|]; (do 2 eexists; split; [done|]); by split_and!.
  - destruct (page_links_current _ _ _ Hnl Hlinks) as (l & -> & -> & Hcur).
    unfold attempt, pure. rewrite Hcur.
    replace (Z.of_nat i + 1 + 1) with (Z.of_nat (S i) + 1) by lia.
    match goal with |- context [filter_pages matches k _ ?st] =>
      destruct (IH (S i) st) as (rp & s' & Hf & Hr' & He & Hp & Hv); [lia|lia|done|] end.
    exists rp, s'. by split_and!.
Qed.

(** Reconciliation leaves the queue alone. *)
Lemma ensureReconciled_queue order fm services (s : fwst R) :
  fw_queue (ensureReconciledFirewall fuel order fm services s).2 = fw_queue s.
Proof.
  assert (HG : within (same fw_queue) (GetPreferFromCache fuel fm)).
  { intros st. unfold GetPreferFromCache, getCachedFirewall, same. case_match; [done|].
    unfold Get. pose proof (same_local_get_firewall fm st) as Hl. unfold same_local, same in Hl.
    destruct (get_firewall fuel fm st) as [[]]; simpl in *; congruence. }
  assert (HS : ∀ id fr, within (same fw_queue) (Set_ id fr)).
  { intros id fr st. unfold Set_, same. pose proof (same_local_set_firewall id fr st) as Hl.
    unfold same_local, same in Hl. destruct (set_firewall id fr st) as [[]]; simpl in *; congruence. }
  assert (within (same fw_queue) (ensureReconciledFirewall fuel order fm services)) as Hw.
  { unfold ensureReconciledFirewall. solve_within. }
  apply Hw.
Qed.
End ControllerFacts.

Lemma createReconciled_any_order order1 order2 fm services req1 :
  createReconciledFirewallRequest order1 fm services = Ok req1 →
  ∃ req2, createReconciledFirewallRequest order2 fm services = Ok req2.
Proof.
  unfold createReconciledFirewallRequest. destruct (services_loop _ _ _) as [[]| | |]; simpl; eauto; done.
Qed.

(* ================================================================== *)
(** * Properties *)

Section Properties.
Context {R : Type} `{!GodoPaging, !GodoFirewalls R}.
Variable fuel : nat.

(** C30. Setting the firewall: without an identifier it is created; with one it
    is updated, and created again exactly when the update fails with 404; these
    are all the calls.  On success the cache holds a firewall that compares
    equal to the request; on failure the cache is as before. *)
Theorem set_updates_or_recreates `{!FirewallLaws R} fwID fr (s : fwst R) :
  let '(r, s') := Set_ fwID fr s in
  let upd := (Firewalls_Update fwID fr (fw_remote s)).1 in
  fw_calls s' = fw_calls s ++
    (if decide (fwID = "") then [EvFwCreate fr]
     else EvFwUpdate fwID fr ::
       (if is_404 upd && negb (bool_decide (rerr upd = None)) then [EvFwCreate fr] else []))
  ∧ match r with
    | Ok _ => firewallRequestEqual (fw_cache s').(firewallCache.firewall) (Some fr) = true
              ∧ (fw_cache s').(firewallCache.isSet) = true
    | Err _ => fw_cache s' = fw_cache s
    | _ => False
    end.
Proof.
  pose proof (set_firewall_run fwID fr s) as Hrun.
  pose proof (same_local_set_firewall fwID fr s) as Hl. unfold Set_.
  destruct (set_firewall fwID fr s) as [r s'] eqn:E. destruct Hrun as [Hc Hr]. simpl in Hl.
  destruct r as [fw|e| |]; simpl in *; [| |done..].
  - split; [done|]. split; [|apply updateCache_set].
    eapply firewallRequestEqual_trans; [apply updateCache_equal|done].
  - split; [done|]. unfold same_local, same in Hl. congruence.
Qed.

(** C29. A reconciliation that succeeds settles: as long as the Services stay the
    same, the next one finds the cached firewall equal to the request, whatever
    the map order, and is skipped without any call or change. *)
Theorem reconcile_settles `{!FirewallLaws R} order1 order2 fm services (s s' : fwst R) skipped :
  (∀ l, order1 l ≡ₚ l) → (∀ l, order2 l ≡ₚ l) →
  ensureReconciledFirewall fuel order1 fm (inl services) s = (Ok skipped, s') →
  ensureReconciledFirewall fuel order2 fm (inl services) s' = (Ok true, s').
Proof.
  intros Ho1 Ho2 He. apply (ensureReconciled_Ok fuel) in He as (req1 & Hreq1 & Hset & Heq).
  destruct (createReconciled_any_order order1 order2 _ _ _ Hreq1) as [req2 Hreq2].
  apply (ensureReconciled_skips fuel order2 fm services s' req2 Hreq2 Hset).
  exact (firewallRequestEqual_orders order1 order2 _ _ _ _ _ Ho1 Ho2 Hreq1 Hreq2 Heq).
Qed.

(** The firewall search terminates and is complete: when the service splits
    its firewalls into pages with correct links, [filterFirewallList] answers
    the first one that matches, in the order of the listing, and none exactly
    when none matches, as soon as the fuel covers the pages. *)
Theorem firewall_search_complete matches pages r (s : fwst R) :
  serves Firewalls_List pages r → pages ≠ [] → (length pages ≤ fuel)%nat → fw_remote s = r →
  ∃ rp s', filterFirewallList fuel matches s = (Ok rp, s') ∧ fw_remote s' = r ∧ rerr rp = None
    ∧ rval rp = snd <$> list_find (λ fw, matches fw = true) (concat pages).
Proof.
  intros Hs Hne Hf Hr. destruct pages as [|p0 pages]; [done|].
  destruct (filter_pages_from matches (p0 :: pages) r 0 fuel s) as (rp & s' & He & Hr' & Hn & _ & Hv);
    [done|simpl in *; lia..|done|]. eauto 10.
Qed.

(** A worker item: when the queue is not shutting down, a failed
    reconciliation puts the key back with rate limiting and a successful one
    clears its history; the key is marked done afterwards in both cases; one
    reconciliation is counted, with the result it had; the worker goes on. *)
Theorem worker_item_retried_on_failure order ctxErr fm services key (s : fwst R) :
  let '(r, s') := ensureReconciledFirewall fuel order fm services s in
  processNextItem fuel order ctxErr fm services key true s = (Ok false, s)
  ∧ match r with
    | Ok skipped =>
        processNextItem fuel order ctxErr fm services key false s
        = (Ok true, FwState (fw_remote s') (fw_calls s') (fw_cache s')
            (fw_metrics s' ++ [reconcilesTotal (if skipped : bool then "skipped" else "reconciled") ""])
            (fw_queue s ++ [QForget key; QDone key]))
    | Err _ =>
        processNextItem fuel order ctxErr fm services key false s
        = (Ok true, FwState (fw_remote s') (fw_calls s') (fw_cache s')
            (fw_metrics s' ++ [reconcilesTotal "failed" (if ctxErr then "timeout" else "generic")])
            (fw_queue s ++ [QAddRateLimited key; QDone key]))
    | _ => True
    end.
Proof.
  pose proof (ensureReconciled_queue fuel order fm services s) as Hq.
  unfold processNextItem, ensureReconciledFirewallInstrumented.
  destruct (ensureReconciledFirewall fuel order fm services s) as [r s']. simpl in Hq.
  split; [done|]. destruct r as [skipped|e| |]; simpl; [| |done..];
    unfold enqueue, observe; simpl; by rewrite Hq, <- app_assoc.
Qed.

(** The cache never notices a change of identifier: updating it with a
    firewall that compares equal to the cached one keeps the cached one, with
    its identifier; any other firewall replaces it.  When a firewall was
    replaced by one with the same name, rules and tags, the cache therefore goes
    on naming the old one. *)
Theorem cache_keeps_equal_firewall fw c :
  (updateCache fw c).(firewallCache.isSet) = true
  ∧ (updateCache fw c).(firewallCache.firewall)
    = (if firewallsEqual c.(firewallCache.firewall) fw then c.(firewallCache.firewall) else fw)
  ∧ ∀ id fw0, c.(firewallCache.firewall) = Some fw0 →
      (updateCache (Some (Firewall.mk id fw0.(Firewall.Name) fw0.(Firewall.InboundRules)
                            fw0.(Firewall.OutboundRules) fw0.(Firewall.Tags))) c)
        .(firewallCache.firewall) = Some fw0.
Proof.
  split; [apply updateCache_set|]. unfold updateCache. split; [by destruct (firewallsEqual _ fw)|].
  intros id fw0 Hc. rewrite Hc.
  assert (firewallsEqual (Some fw0) (Some (Firewall.mk id (Firewall.Name fw0) (Firewall.InboundRules fw0)
    (Firewall.OutboundRules fw0) (Firewall.Tags fw0))) = true) as ->; [|done].
  apply (Equivalence_Reflexive (R := same_firewall)).
Qed.
End Properties.
