(* ===== verification/Metrics.v ===== *)
(** * Metrics

    [metrics.go]: the counters and histograms of the firewall controller with
    their label names, and their registration by [serveMetrics] of [cloud.go].
    The Prometheus library panics when two collectors of one name are
    registered, when a histogram's buckets do not increase, and when a vector is
    used with other labels than it declares; none of this happens here. *)

From stdpp Require Import base gmap strings list.
From Stdlib Require Import ZArith QArith Lia.
From S2P Require Import Prelude GoStd Types Annotations FwController.
#[local] Open Scope Z_scope.

(** [prometheus.CounterVec] and [prometheus.HistogramVec]: the full name, the
    label names and, for a histogram, the upper bounds of its buckets. *)
Module Vec.
Record t := mk { Namespace : string; Name : string; labels : list string; Buckets : option (list Q) }.
End Vec.

Definition full_name (v : Vec.t) : string := v.(Vec.Namespace) +:+ "_" +:+ v.(Vec.Name).

(** [prometheus.LinearBuckets] *)
Definition LinearBuckets (start width : Q) (count : nat) : list Q :=
  (λ i, Qred (start + inject_Z (Z.of_nat i) * width)) <$> seq 0 count.

Definition apiOperationDurationWidth : Q := 45 # 10.
Definition resourceSyncDurationWidth : Q := 15.
Definition reconcileDurationWidth : Q := 15.

Definition apiOperationDuration : Vec.t :=
  Vec.mk "firewall" "api_operation_duration_seconds" ["operation"; "result"; "http_response_code"]
    (Some (LinearBuckets 1 apiOperationDurationWidth 21)).
Definition apiOperationsTotal_vec : Vec.t :=
  Vec.mk "firewall" "api_operations_total" ["operation"; "result"; "http_response_code"] None.
Definition resourceSyncDuration : Vec.t :=
  Vec.mk "firewall" "resource_sync_duration_seconds" ["result"]
    (Some (LinearBuckets 1 resourceSyncDurationWidth 21)).
Definition resourceSyncsTotal_vec : Vec.t := Vec.mk "firewall" "resource_syncs_total" ["result"] None.
Definition reconcileDuration : Vec.t :=
  Vec.mk "firewall" "reconcile_duration_seconds" ["result"; "error_type"]
    (Some (LinearBuckets 1 reconcileDurationWidth 21)).
Definition reconcilesTotal_vec : Vec.t := Vec.mk "firewall" "reconciles_total" ["result"; "error_type"] None.

(** [metrics] *)
Module metrics.
Record t := mk {
  host : string;
  apiOperationDuration : Vec.t;
  apiOperationsTotal : Vec.t;
  resourceSyncDuration : Vec.t;
  resourceSyncsTotal : Vec.t;
  reconcileDuration : Vec.t;
  reconcilesTotal : Vec.t;
}.
End metrics.

Definition newMetrics (host : string) : metrics.t :=
  metrics.mk host apiOperationDuration apiOperationsTotal_vec resourceSyncDuration resourceSyncsTotal_vec
    reconcileDuration reconcilesTotal_vec.

(** [MustRegister] on the registry of names. *)
Definition MustRegister (registry : gset string) (v : Vec.t) : result (gset string) :=
  if bool_decide (full_name v ∈ registry) then Panic else Ok ({[full_name v]} ∪ registry).

(** The registrations of [serveMetrics], in order. *)
Definition register_all (registry : gset string) : result (gset string) :=
  r ← MustRegister registry apiOperationDuration;
  r ← MustRegister r apiOperationsTotal_vec;
  r ← MustRegister r resourceSyncDuration;
  r ← MustRegister r resourceSyncsTotal_vec;
  r ← MustRegister r reconcileDuration;
  MustRegister r reconcilesTotal_vec.

(** [prometheus.Labels] of what the controller observes, as its code builds them,
    and the vectors it observes: the duration, then the counter. *)
Definition labels_of (m : metric) : gmap string string :=
  match m with
  | apiOperationsTotal op result code =>
      {["operation" := op; "result" := result; "http_response_code" := code]}
  | reconcilesTotal result error_type => {["result" := result; "error_type" := error_type]}
  | resourceSyncsTotal result => {["result" := result]}
  end.

Definition vecs_of (ms : metrics.t) (m : metric) : list Vec.t :=
  match m with
  | apiOperationsTotal _ _ _ => [ms.(metrics.apiOperationDuration); ms.(metrics.apiOperationsTotal)]
  | reconcilesTotal _ _ => [ms.(metrics.reconcileDuration); ms.(metrics.reconcilesTotal)]
  | resourceSyncsTotal _ => [ms.(metrics.resourceSyncDuration); ms.(metrics.resourceSyncsTotal)]
  end.

(** [With]: the label values in the order of the declared names. *)
Definition With (v : Vec.t) (ls : gmap string string) : result (list string) :=
  if bool_decide (dom ls = list_to_set v.(Vec.labels)) then Ok (omap (λ n, ls !! n) v.(Vec.labels)) else Panic.

(* ================================================================== *)
(** * Facts *)

Fixpoint increasing (l : list Q) : bool :=
  match l with
  | x :: (y :: _) as l' => negb (Qle_bool y x) && increasing l'
  | _ => true
  end.

(** Registration succeeds on a registry that has none of the names yet. *)
Lemma register_all_ok registry :
  Forall (λ v, full_name v ∉ registry)
    [apiOperationDuration; apiOperationsTotal_vec; resourceSyncDuration; resourceSyncsTotal_vec;
     reconcileDuration; reconcilesTotal_vec] →
  is_ok (register_all registry) = true.
Proof.
  rewrite !Forall_cons. intros (H1 & H2 & H3 & H4 & H5 & H6 & _). unfold register_all, MustRegister.
  repeat (rewrite bool_decide_false by
    (rewrite ?elem_of_union, ?elem_of_singleton; intros Hin; repeat destruct Hin as [Hin|Hin]; done); simpl).
  done.
Qed.

(** Whatever the controller observes, both vectors take its labels. *)
Lemma With_observed host m : Forall (λ v, is_ok (With v (labels_of m)) = true) (vecs_of (newMetrics host) m).
Proof.
  destruct m; simpl; repeat constructor; unfold With; simpl;
    rewrite bool_decide_true; try done; rewrite ?dom_insert_L, ?dom_singleton_L, ?dom_empty_L; set_solver.
Qed.

(** The buckets of a vector increase and reach beyond [d]. *)
Definition buckets_reach (v : Vec.t) (d : Q) : bool :=
  match v.(Vec.Buckets) with
  | Some bs => increasing bs && match last bs with Some top => Qle_bool d top | None => false end
  | None => false
  end.

(** The durations of the comments: 90 seconds for an API operation, 300 for a
    sync and for a reconcile. *)
Lemma buckets_ok :
  buckets_reach apiOperationDuration 90 && buckets_reach resourceSyncDuration 300
  && buckets_reach reconcileDuration 300 = true.
Proof. reflexivity. Qed.
