(* ===== verification/Cloud.v ===== *)
(** * Set-up

    [cloud.go]: the cloud provider built from the environment ([newCloud]) and
    what it starts ([Initialize]); [health.go]: the health check of the debug
    server; [cmd/digitalocean-cloud-controller-manager-admission-server/main.go]:
    the admission server built from the same environment. *)

From stdpp Require Import base gmap strings list.
From Stdlib Require Import ZArith Lia Ascii.
From S2P Require Import Prelude GoStd Types Annotations Nodes Api Rules Requests LoadBalancers LBFacts ApiLaws LBSpec NoPanic Region Admission Resources FwRules FwController Metrics.
#[local] Open Scope Z_scope.

Definition ProviderName : string := "digitalocean".
Definition doAccessTokenEnv : string := "DO_ACCESS_TOKEN".
Definition doOverrideAPIURLEnv : string := "DO_OVERRIDE_URL".
Definition doClusterIDEnv : string := "DO_CLUSTER_ID".
Definition doClusterVPCIDEnv : string := "DO_CLUSTER_VPC_ID".
Definition debugAddrEnv : string := "DEBUG_ADDR".
Definition metricsAddrEnv : string := "METRICS_ADDR".
Definition publicAccessFirewallNameEnv : string := "PUBLIC_ACCESS_FIREWALL_NAME".
Definition publicAccessFirewallTagsEnv : string := "PUBLIC_ACCESS_FIREWALL_TAGS".
Definition regionEnv : string := "REGION".
Definition doAPIRateLimitQPSEnv : string := "DO_API_RATE_LIMIT_QPS".
Definition defaultLBTypeEnv : string := "DEFAULT_LB_TYPE".

(* ------------------------------------------------------------------ *)
(** ** [net.SplitHostPort] *)

Definition IndexByte (l : list ascii) (c : ascii) : option nat := fst <$> list_find (λ x, x = c) l.

Definition LastIndexByte (l : list ascii) (c : ascii) : option nat :=
  (λ i, (length l - S i)%nat) <$> IndexByte (rev l) c.

(** [*net.AddrError] *)
Definition AddrError (why addr : string) : error := Errorf "address %s: %s" [AStr addr; AStr why].

Definition missingPort : string := "missing port in address".
Definition tooManyColons : string := "too many colons in address".

(** The checks that follow once the host is known: no bracket from positions [j]
    and [k] on. *)
Definition split_port (hostport : string) (host : list ascii) (i j k : nat) : result (string * string) :=
  let l := bytes hostport in
  match IndexByte (drop j l) "["%char, IndexByte (drop k l) "]"%char with
  | Some _, _ => Err (AddrError "unexpected '[' in address" hostport)
  | None, Some _ => Err (AddrError "unexpected ']' in address" hostport)
  | None, None => Ok (of_bytes host, of_bytes (drop (S i) l))
  end.

Definition SplitHostPort (hostport : string) : result (string * string) :=
  let l := bytes hostport in
  match LastIndexByte l ":"%char with
  | None => Err (AddrError missingPort hostport)
  | Some i =>
      if bool_decide (head l = Some "["%char) then
        match IndexByte l "]"%char with
        | None => Err (AddrError "missing ']' in address" hostport)
        | Some end_ =>
            if (S end_ =? length l)%nat then Err (AddrError missingPort hostport)
            else if (S end_ =? i)%nat then split_port hostport (take (end_ - 1) (drop 1 l)) i 1 (S end_)
            else if bool_decide (l !! S end_ = Some ":"%char) then Err (AddrError tooManyColons hostport)
            else Err (AddrError missingPort hostport)
        end
      else
        let host := take i l in
        match IndexByte host ":"%char with
        | Some _ => Err (AddrError tooManyColons hostport)
        | None => split_port hostport host i 0 0
        end
  end.

(* ------------------------------------------------------------------ *)
(** ** The client *)

(** Floating-point numbers: only parsed and handed to the client. *)
Class Floats := {
  float64 : Type;
  ParseFloat : string → float64 + error;
}.

(** [godo.ClientOpt]: the options in use. *)
Inductive ClientOpt `{!Floats} :=
| SetBaseURL (url : string)
| SetUserAgent (ua : string)
| SetStaticRateLimit (qps : float64).

(** [godo.New] applies the options and may refuse them; the authentication
    carries the token. *)
Class GodoClient `{!Floats} := {
  godo_New : string → list ClientOpt → option error;
}.

(* ------------------------------------------------------------------ *)
(** ** The cloud *)

Module publicAccessFirewall.
Record t := mk { name : string; tags : list string }.
End publicAccessFirewall.

(** [resources], without the clients. *)
Module resources.
Record t := mk { clusterID : string; clusterVPCID : string; firewall : publicAccessFirewall.t }.
End resources.

Definition newResources (clusterID clusterVPCID : string) (fw : publicAccessFirewall.t) : resources.t :=
  resources.mk clusterID clusterVPCID fw.

Definition newLoadBalancers (r : resources.t) (region defaultLBType : string) : loadBalancers.t :=
  loadBalancers.mk region r.(resources.clusterID) r.(resources.clusterVPCID) defaultLBType.

(** [instances]: the region; its resources are those of the cloud. *)
Module instances.
Record t := mk { region : string; resources : resources.t }.
End instances.

Definition newInstances (r : resources.t) (region : string) : instances.t := instances.mk region r.

(** [cloud]: [httpServer] is the address of the debug server. *)
Module cloud.
Record t := mk {
  instances_ : instances.t;
  loadbalancers : loadBalancers.t;
  metrics : metrics.t;
  defaultLBType : string;
  resources_ : resources.t;
  httpServer : option string;
}.
End cloud.

(** The type of load balancers unless the environment names a valid one. *)
Definition default_lb_type (lbType : string) : string :=
  if str_eqb lbType LoadBalancerTypeRegional || str_eqb lbType LoadBalancerTypeRegionalNetwork
  then lbType else LoadBalancerTypeRegionalNetwork.

Definition required (name : string) : error :=
  Errorf "environment variable %q is required when managing firewalls" [AStr name].

Section Cloud.
Context {R : Type} `{!GodoPaging, !GodoRegions R, !Metadata R, !Floats, !GodoClient}.
Variable fuel : nat.
(** [os.Getenv]: an unset variable is empty. *)
Variable Getenv : string → string.

Definition nonempty (s : string) : bool := negb (str_eqb s "").

Definition rate_limit_opts : result (list ClientOpt) :=
  let qpsRaw := Getenv doAPIRateLimitQPSEnv in
  if nonempty qpsRaw then
    qps ← map_err (λ e, Errorf "failed to parse value from environment variable %s: %s"
                          [AStr doAPIRateLimitQPSEnv; AErr e]) (of_sum (ParseFloat qpsRaw));
    Ok [SetStaticRateLimit qps]
  else Ok [].

(** The address of the metrics server; an unset one stays empty. *)
Definition metrics_addr : result string :=
  let metricsAddr := Getenv metricsAddrEnv in
  if nonempty metricsAddr then
    '(addrHost, addrPort) ←
      map_err (λ e, Errorf "environment variable %q requires host and port in the format <host>:<port> when exposing metrics: %v"
                      [AStr metricsAddr; AErr e]) (SplitHostPort metricsAddr);
    Ok (addrHost +:+ ":" +:+ addrPort)
  else Ok "".

Definition newCloud (version : string) : M (net R) cloud.t :=
  let token := Getenv doAccessTokenEnv in
  let overrideURL := Getenv doOverrideAPIURLEnv in
  let opts := if nonempty overrideURL then [SetBaseURL overrideURL] else [] in
  let version := if nonempty version then version else "dev" in
  let opts := opts ++ [SetUserAgent ("digitalocean-cloud-controller-manager/" +:+ version)] in
  if negb (nonempty token) then throw (Errorf "environment variable %q is required" [AStr doAccessTokenEnv])
  else
    rate ← pure rate_limit_opts;
    match godo_New token (opts ++ rate) with
    | Some e => throw (Errorf "failed to create godo client: %s" [AErr e])
    | None =>
        region ← on_err (λ e, Errorf "failed to determine region: %v" [AErr e])
                   (dropletRegion fuel (Getenv regionEnv));
        let clusterID := Getenv doClusterIDEnv in
        let clusterVPCID := Getenv doClusterVPCIDEnv in
        let firewallName := Getenv publicAccessFirewallNameEnv in
        let firewallTags := Getenv publicAccessFirewallTagsEnv in
        if negb (nonempty firewallName) && nonempty firewallTags then throw (required publicAccessFirewallNameEnv)
        else if nonempty firewallName && negb (nonempty firewallTags) then throw (required publicAccessFirewallTagsEnv)
        else
          let tags := strings.Split firewallTags ","%char in
          let resources := newResources clusterID clusterVPCID (publicAccessFirewall.mk firewallName tags) in
          let debugAddr := Getenv debugAddrEnv in
          let httpServer := if nonempty debugAddr then Some debugAddr else None in
          addr ← pure metrics_addr;
          let defaultLBType := default_lb_type (Getenv defaultLBTypeEnv) in
          mret (cloud.mk (newInstances resources region) (newLoadBalancers resources region defaultLBType)
                  (newMetrics addr) defaultLBType resources httpServer)
    end.

(** What [Initialize] starts, each in its own goroutine; the worker and the sync
    of the firewall controller share an empty cache. *)
Inductive activity :=
| ResourcesControllerRun (clusterID : string)
| serveDebug (addr : option string)
| serveMetrics (addr : string)
| runWorker (fm : firewallManager.t) (cache : firewallCache.t)
| FirewallControllerRun (fm : firewallManager.t).

Definition Initialize (c : cloud.t) : list activity :=
  let r := c.(cloud.resources_) in
  let fw := r.(resources.firewall) in
  [ResourcesControllerRun r.(resources.clusterID); serveDebug c.(cloud.httpServer); serveMetrics c.(cloud.metrics).(metrics.host)]
  ++ (if str_eqb fw.(publicAccessFirewall.name) "" then []
      else
        let fm := firewallManager.mk fw.(publicAccessFirewall.name) fw.(publicAccessFirewall.tags)
                    c.(cloud.defaultLBType) in
        [runWorker fm (firewallCache.mk None false); FirewallControllerRun fm]).

(* ------------------------------------------------------------------ *)
(** ** The admission server *)

Definition getGodoClient : result unit :=
  let token := Getenv doAccessTokenEnv in
  if negb (nonempty token) then Err (Errorf "environment variable %q is required" [AStr doAccessTokenEnv])
  else
    let overrideURL := Getenv doOverrideAPIURLEnv in
    match godo_New token (if nonempty overrideURL then [SetBaseURL overrideURL] else []) with
    | Some e => Err (Errorf "failed to initialize client: %s" [AErr e])
    | None => Ok tt
    end.

(** [startAdmissionServer] up to the registration of the handler. *)
Definition startAdmissionServer : M (net R) LBServiceAdmissionHandler.t :=
  on_err (λ e, Errorf "failed to get godo client: %s" [AErr e]) (pure getGodoClient);;
  let defaultLBType := default_lb_type (Getenv defaultLBTypeEnv) in
  let h := NewLBServiceAdmissionHandler defaultLBType in
  h ← on_err (λ e, Errorf "failed to inject region into lb service admission handler: %w" [AWrap e])
        (WithRegion fuel (Getenv regionEnv) h);
  let h := WithClusterID (Getenv doClusterIDEnv) h in
  mret (WithVPCID (Getenv doClusterVPCIDEnv) h).
End Cloud.

(** The interface methods of [cloud] answer their parts; the ones that Kubernetes
    need not call answer [false]. *)
Definition LoadBalancer (c : cloud.t) : loadBalancers.t * bool := (c.(cloud.loadbalancers), true).
Definition InstancesV2 (c : cloud.t) : instances.t * bool := (c.(cloud.instances_), true).
(** No implementation of the interface: [nil, false]. *)
Definition nil_interface : option Empty_set * bool := (None, false).
Definition Instances_ (c : cloud.t) : option Empty_set * bool := nil_interface.
Definition Zones (c : cloud.t) : option Empty_set * bool := nil_interface.
Definition Clusters (c : cloud.t) : option Empty_set * bool := nil_interface.
Definition Routes (c : cloud.t) : option Empty_set * bool := nil_interface.
Definition HasClusterID (c : cloud.t) : bool := false.

(* ------------------------------------------------------------------ *)
(** ** Health *)

(** [godo.AccountService] *)
Class GodoAccount (R : Type) := {
  Account_Get : R → option error * R;
}.

(** [ServeHTTP] of the health checker: the status code and the body written. *)
Definition ServeHTTP `{!GodoAccount R} (r : R) : (Z * option error) * R :=
  let '(err, r') := Account_Get r in
  match err with
  | Some e => ((StatusInternalServerError, Some (Errorf "health check failed: %s" [AErr e])), r')
  | None => ((StatusOK, None), r')
  end.

(* ================================================================== *)
(** * Facts *)

(** ** Addresses *)

Lemma IndexByte_None l c : IndexByte l c = None ↔ c ∉ l.
Proof.
  unfold IndexByte. rewrite fmap_None, list_find_None, Forall_forall. split; [|intros H x Hx ->; done].
  intros H Hc. by apply (H c Hc).
Qed.

Lemma IndexByte_app l1 l2 c : c ∉ l1 → IndexByte (l1 ++ c :: l2) c = Some (length l1).
Proof.
  intros Hn. unfold IndexByte. induction l1 as [|x l1 IH]; simpl; [by rewrite decide_True|].
  apply not_elem_of_cons in Hn as [Hx Hn]. rewrite decide_False by done.
  specialize (IH Hn). destruct (list_find _ _) as [[]|]; naive_solver.
Qed.

Lemma LastIndexByte_app l1 l2 c : c ∉ l2 → LastIndexByte (l1 ++ c :: l2) c = Some (length l1).
Proof.
  intros Hn. unfold LastIndexByte. rewrite rev_app_distr. simpl. rewrite <- app_assoc. simpl.
  rewrite IndexByte_app by (by rewrite list_elem_of_In, <- in_rev, <- list_elem_of_In).
  simpl. f_equal. rewrite length_app, length_rev. simpl. lia.
Qed.

(** Cutting at the first or at the last occurrence. *)
Lemma IndexByte_Some l c i :
  IndexByte l c = Some i → ∃ l1 l2, l = l1 ++ c :: l2 ∧ (c ∉ l1) ∧ i = length l1.
Proof.
  intros Hi. destruct (decide (c ∈ l)) as [Hc|Hc%IndexByte_None]; [|congruence].
  apply list_elem_of_split_l in Hc as (l1 & l2 & -> & Hn). rewrite IndexByte_app in Hi by done.
  naive_solver.
Qed.

Lemma LastIndexByte_Some l c i :
  LastIndexByte l c = Some i → ∃ l1 l2, l = l1 ++ c :: l2 ∧ (c ∉ l2) ∧ i = length l1.
Proof.
  intros Hi. destruct (decide (c ∈ l)) as [Hc|Hc].
  - apply list_elem_of_split_r in Hc as (l1 & l2 & -> & Hn). rewrite LastIndexByte_app in Hi by done.
    naive_solver.
  - unfold LastIndexByte in Hi. rewrite (proj2 (IndexByte_None _ _)) in Hi; [done|].
    by rewrite list_elem_of_In, <- in_rev, <- list_elem_of_In.
Qed.

Lemma drop_app_cons {A} (l1 l2 : list A) x : drop (S (length l1)) (l1 ++ x :: l2) = l2.
Proof. induction l1; simpl; [by rewrite drop_0|done]. Qed.

(** A text without brackets. *)
Definition unbracketed (s : string) : Prop := ("["%char ∉ bytes s) ∧ "]"%char ∉ bytes s.

Lemma split_port_Ok hostport host i j k h p :
  split_port hostport host i j k = Ok (h, p) →
  h = of_bytes host ∧ p = of_bytes (drop (S i) (bytes hostport))
  ∧ ("["%char ∉ drop j (bytes hostport)) ∧ "]"%char ∉ drop k (bytes hostport).
Proof.
  unfold split_port. destruct (IndexByte (drop j _) _) eqn:E1; [done|].
  destruct (IndexByte (drop k _) _) eqn:E2; [done|]. apply IndexByte_None in E1, E2. naive_solver.
Qed.

(** The parts have no brackets left, and the port has no colon. *)
Lemma SplitHostPort_parts hostport h p :
  SplitHostPort hostport = Ok (h, p) → unbracketed h ∧ unbracketed p ∧ ":"%char ∉ bytes p.
Proof.
  unfold SplitHostPort. destruct (LastIndexByte _ _) as [i|] eqn:Ei; [|done].
  apply LastIndexByte_Some in Ei as (l1 & l2 & El & Hn & ->). case_bool_decide as Hhd.
  - destruct (IndexByte _ "]"%char) as [e|] eqn:Ee; [|done].
    apply IndexByte_Some in Ee as (m1 & m2 & Em & Hm & ->).
    destruct (_ =? length (bytes hostport))%nat; [done|].
    destruct (_ =? length l1)%nat eqn:E; [|by case_bool_decide]. apply Nat.eqb_eq in E.
    intros (-> & -> & Hj & Hk)%split_port_Ok. unfold unbracketed. rewrite !bytes_of_bytes.
    rewrite El, drop_app_cons. rewrite Em, drop_app_cons in Hk.
    destruct m1 as [|b m1]; rewrite Em in Hhd; [done|]. simplify_eq/=.
    rewrite <- El, Em. rewrite Em in Hj. simpl in *. rewrite drop_0 in *.
    rewrite Nat.sub_0_r, take_app_length.
    assert (m2 = ":"%char :: l2) as ->; [|set_solver].
    rewrite Em in El. rewrite (cons_middle _ m1), app_assoc, app_comm_cons in El.
    apply app_inj_1 in El as [_ ?]; [done|]. simpl. rewrite length_app. simpl. lia.
  - destruct (IndexByte _ ":"%char) eqn:Ec; [done|].
    intros (-> & -> & Hj & Hk)%split_port_Ok. rewrite !drop_0 in *.
    unfold unbracketed. rewrite !bytes_of_bytes. rewrite El in *.
    rewrite take_app_length, drop_app_cons. set_solver.
Qed.

(** Parts joined by a colon split again unless the host has a colon itself. *)
Lemma SplitHostPort_join h p :
  unbracketed h → unbracketed p → ":"%char ∉ bytes p →
  SplitHostPort (h +:+ ":" +:+ p)
  = if bool_decide (":"%char ∈ bytes h) then Err (AddrError tooManyColons (h +:+ ":" +:+ p))
    else Ok (h, p).
Proof.
  intros [Hh1 Hh2] [Hp1 Hp2] Hp. unfold SplitHostPort, split_port. rewrite bytes_app.
  change (bytes (":" +:+ p)) with (":"%char :: bytes p). rewrite LastIndexByte_app by done.
  rewrite bool_decide_false by (destruct (bytes h); [done|set_solver]).
  rewrite take_app_length, drop_app_cons, drop_0. case_bool_decide as Hc.
  - destruct (IndexByte _ ":"%char) eqn:E; [done|]. by apply IndexByte_None in E.
  - rewrite !(proj2 (IndexByte_None _ _)) by set_solver. by rewrite !of_bytes_bytes.
Qed.

(** ** What set-up establishes *)

Lemma default_lb_type_valid t : valid_default (default_lb_type t).
Proof.
  unfold default_lb_type, valid_default.
  destruct (str_eqb t LoadBalancerTypeRegional) eqn:E1; [left; by reflect_eqb|].
  destruct (str_eqb t LoadBalancerTypeRegionalNetwork) eqn:E2; [right; by reflect_eqb|by right].
Qed.

Section CloudFacts.
Context {R : Type} `{!GodoPaging, !GodoRegions R, !Metadata R, !Floats, !GodoClient}.
Variables (fuel : nat) (Getenv : string → string).

(** A configured region is returned as it is. *)
Lemma dropletRegion_configured env (n n' : net R) region :
  env ≠ "" → dropletRegion fuel env n = (Ok region, n') → region = env.
Proof.
  intros He. unfold dropletRegion. rewrite (proj2 (str_eqb_false env "")) by done.
  intros Hb. inv_ok. destruct (negb _); by inv_ok.
Qed.

(** A cloud is built from its environment and the region. *)
Lemma newCloud_Ok version (n n' : net R) c :
  newCloud fuel Getenv version n = (Ok c, n') →
  ∃ region addr,
    let fw := publicAccessFirewall.mk (Getenv publicAccessFirewallNameEnv)
                (strings.Split (Getenv publicAccessFirewallTagsEnv) ","%char) in
    let res := resources.mk (Getenv doClusterIDEnv) (Getenv doClusterVPCIDEnv) fw in
    let ty := default_lb_type (Getenv defaultLBTypeEnv) in
    c = cloud.mk (instances.mk region res)
          (loadBalancers.mk region (Getenv doClusterIDEnv) (Getenv doClusterVPCIDEnv) ty) (newMetrics addr) ty res
          (if nonempty (Getenv debugAddrEnv) then Some (Getenv debugAddrEnv) else None)
    ∧ Getenv doAccessTokenEnv ≠ ""
    ∧ (∃ r, dropletRegion fuel (Getenv regionEnv) n = (Ok region, r))
    ∧ metrics_addr Getenv = Ok addr
    ∧ (Getenv publicAccessFirewallNameEnv = "" ↔ Getenv publicAccessFirewallTagsEnv = "").
Proof.
  unfold newCloud. intros Hb.
  destruct (nonempty (Getenv doAccessTokenEnv)) eqn:Et; simpl in Hb; inv_ok.
  destruct (godo_New _ _); inv_ok.
  destruct (negb (nonempty (Getenv publicAccessFirewallNameEnv)) && _) eqn:E1; inv_ok.
  destruct (nonempty (Getenv publicAccessFirewallNameEnv) && _) eqn:E2; inv_ok.
  eexists _, _. split_and!; [done| |by eexists|done|]; unfold nonempty in *; reflect_eqb; [done|].
  destruct (str_eqb (Getenv publicAccessFirewallNameEnv) "") eqn:En,
    (str_eqb (Getenv publicAccessFirewallTagsEnv) "") eqn:Eg; simpl in *; try done; by reflect_eqb.
Qed.

Lemma startAdmissionServer_Ok (n n' : net R) h :
  startAdmissionServer fuel Getenv n = (Ok h, n') →
  ∃ region r, dropletRegion fuel (Getenv regionEnv) n = (Ok region, r)
    ∧ h = LBServiceAdmissionHandler.mk region (Getenv doClusterIDEnv) (Getenv doClusterVPCIDEnv)
            (default_lb_type (Getenv defaultLBTypeEnv)).
Proof.
  unfold startAdmissionServer, WithRegion. intros Hb. inv_ok. unfold WithVPCID, WithClusterID. simpl. eauto.
Qed.
End CloudFacts.

#[local] Arguments strings.Split : simpl never.

Lemma Split_empty s sep : strings.Split s sep = [""] ↔ s = "".
Proof.
  split; [|by intros ->]. unfold strings.Split. destruct s as [|a s]; [done|]. simpl.
  case_bool_decide; [|by destruct (strings.split_bytes _ _)]. simpl.
  destruct (strings.split_bytes _ _) eqn:E; [|done]. by apply split_bytes_nonempty in E.
Qed.

(* ================================================================== *)
(** * Properties *)

(** The parts of a cloud agree, its default type is one that load balancers may
    have, and a firewall has a name exactly when it has tags. *)
Definition wellformed (c : cloud.t) : Prop :=
  let res := c.(cloud.resources_) in
  let fw := res.(resources.firewall) in
  valid_default c.(cloud.defaultLBType)
  ∧ c.(cloud.loadbalancers) = newLoadBalancers res c.(cloud.instances_).(instances.region) c.(cloud.defaultLBType)
  ∧ c.(cloud.instances_).(instances.resources) = res
  ∧ (fw.(publicAccessFirewall.name) = "" ↔ fw.(publicAccessFirewall.tags) = [""]).

Lemma newCloud_wellformed {R} `{!GodoPaging, !GodoRegions R, !Metadata R, !Floats, !GodoClient}
    fuel Getenv version (n n' : net R) c :
  newCloud fuel Getenv version n = (Ok c, n') → wellformed c.
Proof.
  intros (region & addr & -> & _ & _ & _ & Hfw)%newCloud_Ok. unfold wellformed. simpl.
  split_and!; [apply default_lb_type_valid|done..|]. etrans; [exact Hfw|]. symmetry. apply Split_empty.
Qed.

(** The firewall managers that are started. *)
Definition managers (acts : list activity) : list firewallManager.t :=
  omap (λ a, match a with runWorker fm _ | FirewallControllerRun fm => Some fm | _ => None end) acts.


(** The address of the metrics server is the configured one taken apart and
    joined again: it splits into the same host and port, unless the host has a
    colon; such an address, an IPv6 one written in brackets, loses its brackets
    and is no address any more. *)
Theorem metrics_address_roundtrip Getenv addr :
  Getenv metricsAddrEnv ≠ "" → metrics_addr Getenv = Ok addr →
  ∃ host port, SplitHostPort (Getenv metricsAddrEnv) = Ok (host, port)
    ∧ addr = host +:+ ":" +:+ port
    ∧ SplitHostPort addr
      = if bool_decide (":"%char ∈ bytes host) then Err (AddrError tooManyColons addr) else Ok (host, port).
Proof.
  intros He. unfold metrics_addr, nonempty. rewrite (proj2 (str_eqb_false _ "")) by done. simpl.
  intros Hb. inv_ok. destruct a as [host port]. inv_ok. exists host, port. split_and!; [done..|].
  apply SplitHostPort_parts in Hm as (? & ? & ?). by apply SplitHostPort_join.
Qed.
