(* ===== verification/Startup.v ===== *)
(** * The processes

    [cmd/digitalocean-cloud-controller-manager/main.go] with the registration of
    the provider ([init] of [cloud.go]) and the look-up of registered providers
    ([cloudprovider/plugins.go]); [main] of the admission server; and the HTTP
    servers for debugging and metrics that [Initialize] starts. *)

From stdpp Require Import base gmap strings list relations.
From Stdlib Require Import ZArith Lia.
From S2P Require Import Prelude GoStd Types Annotations Nodes Api Rules Requests LoadBalancers Region Admission Resources FwRules FwController Metrics Cloud.
#[local] Open Scope Z_scope.

(** A call that returns, or ends the process with a status and a message. *)
Inductive proc (A : Type) :=
| Returns (a : A)
| Exits (code : Z) (msg : error).
Arguments Returns {A} a.
Arguments Exits {A} code msg.

(** [klog.Fatalf] *)
Definition Fatalf {A} (format : string) (args : list earg) : proc A := Exits 255 (Errorf format args).

(** The provider's part of the flags: [--cloud-provider] and [--cloud-config]. *)
Module CloudProviderConfiguration.
Record t := mk { Name : string; CloudConfigFile : string }.
End CloudProviderConfiguration.

(** [options.CloudControllerManagerOptions], the fields that [main] sets. *)
Module Options.
Record t := mk { CloudProvider : CloudProviderConfiguration.t; SkipInClusterLookup : bool }.
End Options.

(** [k8s.io/cloud-provider/app]: default options, the configuration that the
    command completes from the options and its arguments unless they only ask for
    the version or for help, and the controllers, which run with the cloud until
    they are stopped, fail, or end the process. *)
Class ControllerApp (R : Type) := {
  NewCloudControllerManagerOptions : result Options.t;
  complete_config : Options.t → result (proc CloudProviderConfiguration.t);
  app_Run : cloud.t → M (net R) (proc (option error));
}.

(** Files that can be opened. *)
Class Files := { os_Open : string → option error }.

Section Process.
Context {R : Type} `{!GodoPaging, !GodoRegions R, !Metadata R, !Floats, !GodoClient, !ControllerApp R, !Files}.
Variable fuel : nat.
Variable Getenv : string → string.
Variable version : string.

(* ------------------------------------------------------------------ *)
(** ** Providers *)

(** A factory; the configuration it is given is not used. *)
Definition Factory : Type := M (net R) cloud.t.

Definition externalCloudProvider : string := "external".
Definition IsExternal (name : string) : bool := str_eqb name externalCloudProvider.

Definition RegisterCloudProvider (name : string) (f : Factory) (providers : gmap string Factory)
    : proc (gmap string Factory) :=
  match providers !! name with
  | Some _ => Fatalf "Cloud provider %q was registered twice" [AStr name]
  | None => Returns (<[name := f]> providers)
  end.

Definition IsCloudProvider (name : string) (providers : gmap string Factory) : bool :=
  bool_decide (is_Some (providers !! name)).

Definition GetCloudProvider (name : string) (providers : gmap string Factory) : M (net R) (option cloud.t) :=
  match providers !! name with
  | None => mret None
  | Some f => c ← f; mret (Some c)
  end.

(** A failure to open the configuration ends the process; any other is an error. *)
Definition InitCloudProvider (providers : gmap string Factory) (name configFilePath : string)
    : M (net R) (proc (option cloud.t)) :=
  if str_eqb name "" then mret (Returns None)
  else if IsExternal name then mret (Returns None)
  else
    let get :=
      c ← on_err (λ e, Errorf "could not init cloud provider %q: %v" [AStr name; AErr e])
            (GetCloudProvider name providers);
      match c with
      | None => throw (Errorf "unknown cloud provider %q" [AStr name])
      | Some c => mret (Returns (Some c))
      end in
    if negb (str_eqb configFilePath "") then
      match os_Open configFilePath with
      | Some e => mret (Fatalf "Couldn't open cloud provider configuration %s: %#v" [AStr configFilePath; AErr e])
      | None => get
      end
    else get.

(** [init] of the package [do] *)
Definition init (providers : gmap string Factory) : proc (gmap string Factory) :=
  RegisterCloudProvider ProviderName (newCloud fuel Getenv version) providers.

(* ------------------------------------------------------------------ *)
(** ** The controller manager *)

Definition doInitializer (providers : gmap string Factory) (cloudConfig : CloudProviderConfiguration.t)
    : M (net R) (proc cloud.t) :=
  r ← attempt (InitCloudProvider providers cloudConfig.(CloudProviderConfiguration.Name)
                 cloudConfig.(CloudProviderConfiguration.CloudConfigFile));
  match r with
  | inr err => mret (Fatalf "Cloud provider could not be initialized: %v" [AErr err])
  | inl (Exits code msg) => mret (Exits code msg)
  | inl (Returns None) => mret (Fatalf "Cloud provider is nil" [])
  | inl (Returns (Some cloud)) => mret (Returns cloud)
  end.

(** [RunE] of the command: the configuration, the cloud, the controllers. *)
Definition Execute (opts : Options.t) (cloudInitializer : CloudProviderConfiguration.t → M (net R) (proc cloud.t))
    : M (net R) (proc (option error)) :=
  match complete_config opts with
  | Ok (Exits code msg) => mret (Exits code msg)
  | Ok (Returns completedConfig) =>
      c ← cloudInitializer completedConfig;
      match c with
      | Exits code msg => mret (Exits code msg)
      | Returns cloud => app_Run cloud
      end
  | Err e => mret (Returns (Some e))
  | Panic => panic
  | NoFuel => nofuel
  end.

(** The status and, unless it is 0, what is printed or logged last. *)
Definition exit_of (r : proc (option error)) : Z * option error :=
  match r with
  | Exits code msg => (code, Some msg)
  | Returns (Some err) => (1, Some (Errorf "error: %v" [AErr err]))
  | Returns None => (0, None)
  end.

Definition main (providers : gmap string Factory) : M (net R) (Z * option error) :=
  match NewCloudControllerManagerOptions with
  | Ok opts =>
      let opts := Options.mk
        (CloudProviderConfiguration.mk ProviderName opts.(Options.CloudProvider).(CloudProviderConfiguration.CloudConfigFile))
        true in
      r ← Execute opts (doInitializer providers); mret (exit_of r)
  | Err err => mret (1, Some (Errorf "failed to construct options: %v" [AErr err]))
  | Panic => panic
  | NoFuel => nofuel
  end.

(** The process: package initialisation, then [main]. *)
Definition controller_manager : M (net R) (Z * option error) :=
  match init ∅ with
  | Exits code msg => mret (code, Some msg)
  | Returns providers => main providers
  end.

(* ------------------------------------------------------------------ *)
(** ** The admission server *)

(** [Start] of the webhook server returns when it is stopped or fails. *)
Definition serveAdmission (server_Start : LBServiceAdmissionHandler.t → option error) : M (net R) unit :=
  h ← startAdmissionServer fuel Getenv;
  match server_Start h with
  | Some err => throw (Errorf "failed to serve webhook server: %s" [AErr err])
  | None => mret tt
  end.

Definition admission_server (server_Start : LBServiceAdmissionHandler.t → option error)
    : M (net R) (Z * option error) :=
  r ← attempt (serveAdmission server_Start);
  match r with
  | inl _ => mret (0, None)
  | inr err => mret (1, Some (Errorf "failed to start admission server: %s" [AErr err]))
  end.
End Process.

(* ------------------------------------------------------------------ *)
(** ** The Kubernetes client *)

(** The field [kclient] of [resources], which the load balancers, the resources
    controller and the firewall controller share: [None] is nil, and a client is
    known by the name it was asked for.  [newResources] leaves it nil. *)
Module ResourcesController.
Record t := mk { kclient : option string; resources : resources.t }.
End ResourcesController.

(** The controller, and the shared field as it is then. *)
Definition NewResourcesController (r : resources.t) (client : string) : ResourcesController.t * option string :=
  (ResourcesController.mk (Some client) r, Some client).

(** [Initialize] with its clients: what it leaves in the field, and what it
    starts with which client. *)
Definition initialize_clients (c : cloud.t) (kclient : option string) : option string * list (activity * option string) :=
  let clientset := "do-shared-informers" in
  let '(res, kclient) := NewResourcesController c.(cloud.resources_) clientset in
  (kclient, (λ a, (a, match a with
                      | ResourcesControllerRun _ => res.(ResourcesController.kclient)
                      | _ => kclient
                      end)) <$> Initialize c).

(* ------------------------------------------------------------------ *)
(** ** The HTTP servers *)

(** What [ListenAndServe] returns: [http.ErrServerClosed] after a shut-down, or
    another error; it never returns [nil]. *)
Inductive serve_error :=
| ErrServerClosed
| ServeFailed (err : error).

(** [http.Server.ListenAndServe]: the address listened on. *)
Definition listen_addr (addr : string) : string := if str_eqb addr "" then ":http" else addr.

(** [http.Handle] on the patterns of the default mux. *)
Definition http_Handle (mux : gset string) (pattern : string) : result (gset string) :=
  if bool_decide (pattern ∈ mux) then Panic else Ok ({[pattern]} ∪ mux).

(** [cloud.serveMetrics]: the handler, the registrations, and the server until it
    ends; what was logged, with the mux and the registry. *)
Definition run_serveMetrics (ListenAndServe : string → serve_error) (c : cloud.t) (mux registry : gset string)
    : result (gset string * gset string * list error) :=
  mux ← http_Handle mux "/metrics";
  registry ← register_all registry;
  Ok (mux, registry,
      match ListenAndServe (listen_addr c.(cloud.metrics).(metrics.host)) with
      | ErrServerClosed => []
      | ServeFailed err => [Errorf "Metrics server has not been configured: %s" [AErr err]]
      end).

(** [cloud.serveDebug]: a goroutine that serves, one that waits for [stop] and
    shuts the server down. *)
Module debugServer.
Inductive waiter := Waiting | ShuttingDown | Finished.
Record t := mk {
  serving : bool;  (** [ListenAndServe] has not returned *)
  waiter_ : waiter;
  logs : list error;
}.
End debugServer.

(** Without an address the method returns at once. *)
Definition run_serveDebug (httpServer : option string) : debugServer.t :=
  match httpServer with
  | None => debugServer.mk false debugServer.Finished []
  | Some _ => debugServer.mk true debugServer.Waiting []
  end.

Inductive debug_step : relation debugServer.t :=
(** The server fails, *)
| debug_failed w logs err :
    debug_step (debugServer.mk true w logs)
      (debugServer.mk false w (logs ++ [Errorf "Debug server failed: %s" [AErr err]]))
(** or returns because it was shut down. *)
| debug_closed w logs : w ≠ debugServer.Waiting →
    debug_step (debugServer.mk true w logs) (debugServer.mk false w logs)
(** [stop] is closed; *)
| debug_stop b logs :
    debug_step (debugServer.mk b debugServer.Waiting logs) (debugServer.mk b debugServer.ShuttingDown logs)
(** [Shutdown] returns, within its ten seconds. *)
| debug_shutdown b logs err :
    debug_step (debugServer.mk b debugServer.ShuttingDown logs)
      (debugServer.mk b debugServer.Finished
         (logs ++ option_list ((λ e, Errorf "Failed to shut down debug server: %s" [AErr e]) <$> err))).

(* ================================================================== *)
(** * Facts *)

(** Whatever the field held, [Initialize] starts everything with one client, sets
    it for the methods called later, and starts what it started without clients. *)
Lemma initialize_clients_agree c kclient :
  ∃ client, initialize_clients c kclient = (Some client, (λ a, (a, Some client)) <$> Initialize c).
Proof.
  exists "do-shared-informers". unfold initialize_clients, NewResourcesController. f_equal.
  apply list_fmap_ext. intros _ a _. by destruct a.
Qed.

(** What is left of the debug server: each goroutine moves only forward. *)
Definition debug_left (s : debugServer.t) : nat :=
  (if s.(debugServer.serving) then 1 else 0)
  + match s.(debugServer.waiter_) with
    | debugServer.Waiting => 2
    | debugServer.ShuttingDown => 1
    | debugServer.Finished => 0
    end.

(** Once stopped and shut down the server is gone, after three steps at most;
    what fails is logged, and nothing else is. *)
Lemma debug_server_ends addr k s :
  nsteps debug_step k (run_serveDebug addr) s →
  (k + debug_left s = debug_left (run_serveDebug addr))%nat
  ∧ ((∀ s', ¬ debug_step s s') → s.(debugServer.serving) = false ∧ s.(debugServer.waiter_) = debugServer.Finished)
  ∧ (length s.(debugServer.logs) ≤ k)%nat.
Proof.
  intros Hk. assert (Hinv : (k + debug_left s = debug_left (run_serveDebug addr)
    ∧ length s.(debugServer.logs) ≤ k + length (run_serveDebug addr).(debugServer.logs))%nat).
  { induction Hk as [s|k s s1 s2 Hs _ [IH1 IH2]]; [done|].
    destruct Hs as [w logs err|w logs Hw|b logs|b logs err]; unfold debug_left in *; simpl in *;
      rewrite ?length_app in *; simpl in *; try destruct b; try destruct err; simpl in *; lia. }
  destruct Hinv as [H1 H2]. split; [done|]. split.
  - intros Hstuck. destruct s as [[] [] logs]; simpl.
    1-3: by edestruct Hstuck; apply (debug_failed _ _ (ErrOther "")).
    + by edestruct Hstuck; apply debug_stop.
    + by edestruct Hstuck; apply (debug_shutdown _ _ None).
    + done.
  - destruct addr; simpl in H2; lia.
Qed.

Section Properties.
Context {R : Type} `{!GodoPaging, !GodoRegions R, !Metadata R, !Floats, !GodoClient, !ControllerApp R, !Files}.
Variable fuel : nat.
Variable Getenv : string → string.
Variable version : string.

(** Without an address for the metrics, they are served at the HTTP port of every
    interface. *)
Lemma metrics_listen_unset (n n' : net R) c :
  newCloud fuel Getenv version n = (Ok c, n') → Getenv metricsAddrEnv = "" →
  listen_addr c.(cloud.metrics).(metrics.host) = ":http".
Proof.
  intros (region & addr & -> & _ & _ & Ha & _)%newCloud_Ok He. unfold metrics_addr in Ha. rewrite He in Ha.
  simpl in Ha. injection Ha as <-. reflexivity.
Qed.

(** The configuration of the process: the default options, for this provider,
    with the arguments. *)
Definition configured : result (proc CloudProviderConfiguration.t) :=
  opts ← NewCloudControllerManagerOptions;
  complete_config (Options.mk
    (CloudProviderConfiguration.mk ProviderName opts.(Options.CloudProvider).(CloudProviderConfiguration.CloudConfigFile))
    true).

(** It names this provider and a configuration file that can be read, if any. *)
Definition usable (cfg : CloudProviderConfiguration.t) : bool :=
  let file := cfg.(CloudProviderConfiguration.CloudConfigFile) in
  str_eqb cfg.(CloudProviderConfiguration.Name) ProviderName
  && (str_eqb file "" || match os_Open file with None => true | Some _ => false end).

Definition registered : gmap string Factory := {[ProviderName := newCloud fuel Getenv version]}.

Lemma init_registers : init fuel Getenv version ∅ = Returns registered.
Proof. done. Qed.

(** The cloud of a usable configuration; no other yields one. *)
Lemma doInitializer_usable cfg n :
  usable cfg = true →
  doInitializer registered cfg n =
    match newCloud fuel Getenv version n with
    | (Ok c, n1) => (Ok (Returns c), n1)
    | (Err e, n1) =>
        (Ok (Fatalf "Cloud provider could not be initialized: %v"
           [AErr (Errorf "could not init cloud provider %q: %v" [AStr ProviderName; AErr e])]), n1)
    | (Panic, n1) => (Panic, n1)
    | (NoFuel, n1) => (NoFuel, n1)
    end.
Proof.
  destruct cfg as [name file]. unfold usable. simpl. rewrite andb_true_iff, orb_true_iff. intros [Hn Hf].
  apply str_eqb_true in Hn as ->. unfold doInitializer, InitCloudProvider, GetCloudProvider, registered. simpl.
  rewrite lookup_singleton_eq. unfold attempt, on_err, mbind, M_bind, mret, M_ret.
  destruct (str_eqb file ""); simpl; [|destruct Hf as [?|Hf]; [done|]; destruct (os_Open file); [done|]].
  all: by destruct (newCloud fuel Getenv version n) as [[] ?].
Qed.

Lemma doInitializer_unusable cfg n :
  usable cfg = false → ∃ msg, doInitializer registered cfg n = (Ok (Exits 255 msg), n).
Proof.
  destruct cfg as [name file]. unfold usable. simpl. intros Hu.
  unfold doInitializer, InitCloudProvider, GetCloudProvider, registered, IsExternal. simpl.
  destruct (str_eqb name "") eqn:E1; [by eexists|]. destruct (str_eqb name externalCloudProvider) eqn:E2; [by eexists|].
  unfold attempt, on_err, mbind, M_bind, mret, M_ret. destruct (str_eqb name ProviderName) eqn:E3; simpl in Hu.
  - apply orb_false_iff in Hu as [-> Hf]. simpl. destruct (os_Open file); [|done]. by eexists.
  - reflect_eqb. rewrite lookup_singleton_ne by done. simpl.
    destruct (negb (str_eqb file "")); [destruct (os_Open file)|]; by eexists.
Qed.

(** C32. How the controller manager starts: the controllers run only with the cloud
    that [newCloud] makes from the environment, which is well formed, and the
    process then ends with their status.  Otherwise nothing runs: the status of
    arguments that end the process, such as a question for the version; 1 if the
    options or arguments are wrong; 255 if the arguments name another
    provider, none, or an unreadable configuration file, before any request is
    sent, or if [newCloud] fails. *)
Theorem controller_manager_starts n :
  let run := controller_manager fuel Getenv version in
  match configured with
  | Ok (Exits code msg) => run n = (Ok (code, Some msg), n)
  | Ok (Returns cfg) =>
      if usable cfg then
        match newCloud fuel Getenv version n with
        | (Ok c, n1) => wellformed c ∧ run n = (r ← app_Run c; mret (exit_of r)) n1
        | (Err e, n1) => ∃ msg, run n = (Ok (255, Some msg), n1)
        | (Panic, n1) => run n = (Panic, n1)
        | (NoFuel, n1) => run n = (NoFuel, n1)
        end
      else ∃ msg, run n = (Ok (255, Some msg), n)
  | Err e => ∃ msg, run n = (Ok (1, Some msg), n)
  | Panic => run n = (Panic, n)
  | NoFuel => run n = (NoFuel, n)
  end.
Proof.
  simpl. unfold controller_manager. rewrite init_registers. unfold main, configured, Execute.
  destruct NewCloudControllerManagerOptions as [opts| | |]; simpl; [|by eexists|done..].
  destruct (complete_config _) as [[cfg|code msg]| | |]; simpl; [|done|by eexists|done..].
  unfold mbind, M_bind. destruct (usable cfg) eqn:Hu.
  - rewrite (doInitializer_usable cfg n Hu).
    destruct (newCloud fuel Getenv version n) as [[c|e| |] n1] eqn:Ec; [|by eexists|done..].
    split; [by eapply newCloud_wellformed|done].
  - destruct (doInitializer_unusable cfg n Hu) as [msg ->]. by eexists.
Qed.
End Properties.
