(* ===== verification/Agreement.v ===== *)
(** * The admission server and the controller

    Two programs run from one environment: the controller builds the requests
    that create and update load balancers, the admission server builds the
    requests that are validated before.  Here the two are composed: what the
    controller will send has been validated. *)

From stdpp Require Import base gmap strings list.
From Stdlib Require Import ZArith Lia.
From S2P Require Import Prelude GoStd Types Annotations Nodes Api Rules Requests LoadBalancers Region Admission Resources FwRules FwController Cloud.
#[local] Open Scope Z_scope.

(** A request as it is sent for validation: without backends and marked as
    validation only; the network stack may differ, since the admission server
    knows no nodes. *)
Definition as_validation (stack : string) (r : LoadBalancerRequest.t) : LoadBalancerRequest.t :=
  LoadBalancerRequest.mk r.(LoadBalancerRequest.Name) r.(LoadBalancerRequest.Algorithm)
    r.(LoadBalancerRequest.Region) r.(LoadBalancerRequest.SizeSlug) r.(LoadBalancerRequest.SizeUnit)
    r.(LoadBalancerRequest.Type_) r.(LoadBalancerRequest.ForwardingRules)
    r.(LoadBalancerRequest.HealthCheck) r.(LoadBalancerRequest.StickySessions)
    [] r.(LoadBalancerRequest.Tags)
    r.(LoadBalancerRequest.RedirectHttpToHttps) r.(LoadBalancerRequest.EnableProxyProtocol)
    r.(LoadBalancerRequest.EnableBackendKeepalive) r.(LoadBalancerRequest.VPCUUID)
    r.(LoadBalancerRequest.VPCSubnetUUID) r.(LoadBalancerRequest.DisableLetsEncryptDNSRecords)
    true r.(LoadBalancerRequest.HTTPIdleTimeoutSeconds) r.(LoadBalancerRequest.Firewall)
    r.(LoadBalancerRequest.Network) stack r.(LoadBalancerRequest.IP).

(** The stack validated for a request with stack [stk]: the same one, except
    that the default for REGIONAL_NETWORK EXTERNAL is IPV4 without nodes. *)
Definition validated_stack (s : Service.t) (r : LoadBalancerRequest.t) : string :=
  if str_eqb (svc_val s annDONetworkStack) ""
     && str_eqb r.(LoadBalancerRequest.Type_) LoadBalancerTypeRegionalNetwork
     && negb (str_eqb r.(LoadBalancerRequest.Network) LoadBalancerNetworkTypeInternal)
  then LoadBalancerNetworkStackIPv4 else r.(LoadBalancerRequest.NetworkStack).

(** The handler of the admission server that fits a controller. *)
Definition handler_for (l : loadBalancers.t) : LBServiceAdmissionHandler.t :=
  LBServiceAdmissionHandler.mk l.(loadBalancers.region) l.(loadBalancers.clusterID)
    l.(loadBalancers.clusterVPCID) l.(loadBalancers.defaultLBType).

(* ================================================================== *)
(** * Facts *)

(** A stack that is accepted with nodes is accepted without; the explicit
    choice and the defaults that do not depend on nodes are kept. *)
Lemma getNetworkStack_without_nodes s ty net ns stk :
  getNetworkStack s ty net (Some ns) = Ok stk →
  getNetworkStack s ty net None
  = Ok (if str_eqb (svc_val s annDONetworkStack) "" && str_eqb ty LoadBalancerTypeRegionalNetwork
           && negb (str_eqb net LoadBalancerNetworkTypeInternal)
        then LoadBalancerNetworkStackIPv4 else stk).
Proof.
  destruct (str_eqb (svc_val s annDONetworkStack) "") eqn:Ea.
  - apply str_eqb_true in Ea. intros H. pose proof (getNetworkStack_Ok _ _ _ _ _ H) as (_ & _ & Hr & _).
    rewrite getNetworkStack_default in H by done. rewrite getNetworkStack_default by done.
    apply Ok_inj in H as <-. unfold default_stack.
    by destruct (str_eqb net _), (str_eqb ty _).
  - unfold getNetworkStack. rewrite Ea. destruct ns as [[|] ??????]; [done|]. simpl.
    intros H. repeat case_match; by simplify_eq.
Qed.

Section Agreement.
Context {R : Type}.
Context `{!GodoPaging, !GodoLoadBalancers R, !GodoCertificates R, !GodoDroplets R, !Kube R, !IPNets}.
Variable fuel : nat.

(** Building without nodes succeeds where building with nodes does, with the
    same calls and the same request up to the stack. *)
Lemma build_without_nodes s d ns (n n' : net R) req :
  buildLoadBalancerRequestWithNodeState s d (Some ns) n = (Ok req, n') →
  ∃ base, buildLoadBalancerRequestWithNodeState s d None n = (Ok base, n')
    ∧ as_validation (validated_stack s req) req = as_validation base.(LoadBalancerRequest.NetworkStack) base
    ∧ base.(LoadBalancerRequest.DropletIDs) = [] ∧ base.(LoadBalancerRequest.Tags) = [].
Proof.
  unfold buildLoadBalancerRequestWithNodeState. intros Hb. inv_ok.
  destruct (negb _ && _) eqn:Esz; inv_ok.
  match goal with Hs : getNetworkStack _ _ _ _ = _ |- _ => apply getNetworkStack_without_nodes in Hs end.
  eexists. split.
  { unfold mbind, M_bind, pure in *.
    repeat match goal with
    | Hr : ?m = Ok _ |- context [?m] => rewrite Hr
    | Hr : ?m ?st = (Ok _, _) |- context [?m ?st] => rewrite Hr
    | Hr : negb _ && _ = false |- _ => rewrite Hr
    end. reflexivity. }
  split_and!; reflexivity.
Qed.

Lemma buildLoadBalancerRequest_base l s nodes ids (n n' : net R) req pending :
  buildLoadBalancerRequest fuel l s nodes ids n = (Ok (req, pending), n') →
  ∃ ns base n1, buildLoadBalancerRequestWithNodeState s l.(loadBalancers.defaultLBType) (Some ns) n = (Ok base, n1)
    ∧ req = LoadBalancerRequest.set_backends req.(LoadBalancerRequest.DropletIDs)
              (if negb (str_eqb l.(loadBalancers.clusterID) "")
               then [buildK8sTag l.(loadBalancers.clusterID)] else [])
              l.(loadBalancers.region) l.(loadBalancers.clusterVPCID) base.
Proof.
  unfold buildLoadBalancerRequest. intros Hb. inv_ok.
  destruct (_ && _ && _ && _); inv_ok.
  destruct (filterByReadiness _ ids) as [admitted pend]. destruct (_ && _); inv_ok.
  destruct a1 as [base|e]; inv_ok. simplify_eq.
  match goal with Ha : attempt _ _ = _ |- _ => apply attempt_inl_inv in Ha end.
  do 3 eexists. by split.
Qed.

(** What the controller would send has a counterpart for validation. *)
Lemma handler_request_counterpart l s nodes ids (n n' : net R) req pending :
  buildLoadBalancerRequest fuel l s nodes ids n = (Ok (req, pending), n') →
  ∃ n1, handler_request _ (handler_for l) s n = (Ok (as_validation (validated_stack s req) req), n1).
Proof.
  intros (ns & base & n1 & Hb & ->)%buildLoadBalancerRequest_base.
  apply build_without_nodes in Hb as (base' & Hv & Heq & Hd & Ht).
  exists n1. unfold handler_request, buildLoadBalancerRequest_admission, on_err, mbind, M_bind. simpl.
  rewrite Hv. simpl. unfold mret, M_ret. do 2 f_equal.
  destruct base, base'. unfold as_validation, validated_stack, set_validation in *. simpl in *.
  injection Heq. intros. subst. done.
Qed.

(** The review of the creation of a Service of type LoadBalancer. *)
Definition creation_of `{!Decoder} (s : Service.t) (review : AdmissionRequest.t) : Prop :=
  Decode review.(AdmissionRequest.Object) = inl s ∧ s.(Service.Type_) = ServiceTypeLoadBalancer
  ∧ s.(Service.DeletionTimestamp) = None ∧ review.(AdmissionRequest.OldObject) = None.

Lemma handle_creation `{!Decoder} (nets oldNets : IPNets) h s review (n nb : net R) req :
  creation_of s review → handler_request nets h s n = (Ok req, nb) →
  let '(rp, r') := LoadBalancers_Create req (remote nb) in
  handle nets oldNets h review n = (Ok (mapGodoRespToAdmissionResp rp), Net r' (trace nb ++ [EvLBCreate req])).
Proof.
  intros (Hd & Ht & Hdel & Hold) Hr. unfold handle. rewrite Hd, Ht, Hdel, Hold. simpl.
  unfold attempt, mbind, M_bind. rewrite Hr. unfold validateCreate, call, mbind, M_bind.
  by destruct (LoadBalancers_Create req (remote nb)).
Qed.
End Agreement.

(* ================================================================== *)
(** * Properties *)

