(* ===== verification/Syncer.v ===== *)
(** * The ticker that drives the tags syncer

    [resources.go]: [tickerSyncer.Sync], which calls a function at once, waits
    for an initial delay and then calls it on every tick until it is stopped,
    and [ResourcesController.Run], which starts it for [syncTags].  The channels
    of a [select] are flags: a ticker's channel holds one tick and drops more,
    the channel of [time.After] holds one value, a closed channel stays ready;
    when several are ready, any may be taken. *)

From stdpp Require Import base strings list relations.
From Stdlib Require Import ZArith Lia.
From S2P Require Import Prelude GoStd Types Annotations Requests Cloud.
#[local] Open Scope Z_scope.

Definition minute : Z := 60 * second.
Definition controllerSyncTagsPeriod : Z := 15 * minute.
Definition syncTagsTimeout : Z := 1 * minute.

(** Where the goroutine is: before the first call, at the first [select], in the
    loop, returned, or crashed by a panic of the function. *)
Inductive place := Calling | Delaying | Looping | Returned | Crashed.

#[export] Instance place_eq_dec : EqDecision place.
Proof. solve_decision. Defined.

Module Ticker.
Record t := mk {
  at_ : place;
  tick : bool;        (** a tick in [ticker.C] *)
  elapsed : bool;     (** the initial delay is over *)
  stopped : bool;     (** [stopCh] is closed *)
  calls : nat;        (** calls of the function so far *)
  logged : list error;
}.
End Ticker.

Section Sync.
(** The outcome of the [i]-th call of the function. *)
Variable fn : nat → result unit.

(** A call of the function: an error is logged only. *)
Definition call_fn (next : place) (s : Ticker.t) : Ticker.t :=
  let i := s.(Ticker.calls) in
  match fn i with
  | Ok _ => Ticker.mk next s.(Ticker.tick) s.(Ticker.elapsed) s.(Ticker.stopped) (S i) s.(Ticker.logged)
  | Err e => Ticker.mk next s.(Ticker.tick) s.(Ticker.elapsed) s.(Ticker.stopped) (S i) (s.(Ticker.logged) ++ [e])
  | _ => Ticker.mk Crashed s.(Ticker.tick) s.(Ticker.elapsed) s.(Ticker.stopped) (S i) s.(Ticker.logged)
  end.

Definition goto (p : place) (s : Ticker.t) : Ticker.t :=
  Ticker.mk p s.(Ticker.tick) s.(Ticker.elapsed) s.(Ticker.stopped) s.(Ticker.calls) s.(Ticker.logged).
Definition take_tick (s : Ticker.t) : Ticker.t :=
  Ticker.mk s.(Ticker.at_) false s.(Ticker.elapsed) s.(Ticker.stopped) s.(Ticker.calls) s.(Ticker.logged).

(** The branches of [Sync] that can be taken next. *)
Definition Sync (s : Ticker.t) : list Ticker.t :=
  match s.(Ticker.at_) with
  | Calling => [call_fn Delaying s]
  | Delaying =>
      (if s.(Ticker.elapsed) then [goto Looping s] else [])
      ++ (if s.(Ticker.stopped) then [goto Returned s] else [])
  | Looping =>
      (if s.(Ticker.tick) then [call_fn Looping (take_tick s)] else [])
      ++ (if s.(Ticker.stopped) then [goto Returned s] else [])
  | Returned | Crashed => []
  end.

(** [Sync] is entered with a fresh ticker. *)
Definition started (stopped : bool) : Ticker.t := Ticker.mk Calling false false stopped 0 [].

(** Runs with the number of ticks that fired; the ticker fires only while it is
    running. *)
Inductive runs (s0 : Ticker.t) : nat → Ticker.t → Prop :=
| runs_start : runs s0 0 s0
| runs_sync k s s' : runs s0 k s → s' ∈ Sync s → runs s0 k s'
| runs_tick k s : runs s0 k s →
    runs s0 (S k) (Ticker.mk s.(Ticker.at_) true s.(Ticker.elapsed) s.(Ticker.stopped) s.(Ticker.calls) s.(Ticker.logged))
| runs_elapse k s : runs s0 k s →
    runs s0 k (Ticker.mk s.(Ticker.at_) s.(Ticker.tick) true s.(Ticker.stopped) s.(Ticker.calls) s.(Ticker.logged))
| runs_stop k s : runs s0 k s →
    runs s0 k (Ticker.mk s.(Ticker.at_) s.(Ticker.tick) s.(Ticker.elapsed) true s.(Ticker.calls) s.(Ticker.logged)).
End Sync.

(** [ResourcesController.Run] starts the tags syncer if there is a cluster ID;
    [stopped] tells whether the stop channel is closed already. *)
Definition Run (r : resources.t) (stopped : bool) : option Ticker.t :=
  if str_eqb r.(resources.clusterID) "" then None else Some (started stopped).

(* ================================================================== *)
(** * Facts *)

(** Calls that the ticks so far allow; what the places tell. *)
Definition paced (k : nat) (s : Ticker.t) : Prop :=
  (s.(Ticker.calls) + (if s.(Ticker.tick) then 1 else 0) ≤ k + (if decide (s.(Ticker.at_) = Calling) then 0 else 1))%nat
  ∧ (length s.(Ticker.logged) ≤ s.(Ticker.calls))%nat
  ∧ (s.(Ticker.at_) = Returned → s.(Ticker.stopped) = true)
  ∧ (s.(Ticker.at_) = Calling ↔ s.(Ticker.calls) = O)
  ∧ (s.(Ticker.at_) = Looping → s.(Ticker.elapsed) = true).

Lemma paced_sync fn k s s' : paced k s → s' ∈ Sync fn s → paced k s'.
Proof.
  destruct s as [p t e st c lg]. unfold paced, Sync, call_fn, goto, take_tick. simpl.
  intros (H1 & H2 & H3 & H4 & H5) Hin. destruct p, t, e, st, (fn c); simpl in *;
    rewrite ?elem_of_cons, ?elem_of_nil in Hin;
    repeat match goal with
    | H : _ ∨ _ |- _ => destruct H
    | H : False |- _ => destruct H
    end; subst; simpl; rewrite ?length_app; simpl; intuition (try lia; try done).
Qed.

Lemma paced_runs fn st k s : runs fn (started st) k s → paced k s.
Proof.
  induction 1 as [|k s s' _ IH Hs|k s _ IH|k s _ IH|k s _ IH].
  - unfold paced. simpl. intuition (try lia; try done).
  - by eapply paced_sync.
  - destruct s as [p [] e st' c lg], IH as (?&?&?&?&?); unfold paced in *; simpl in *; intuition (try lia).
  - destruct s, IH as (?&?&?&?&?). unfold paced in *. simpl in *. intuition.
  - destruct s, IH as (?&?&?&?&?). unfold paced in *. simpl in *. intuition.
Qed.

(** The steps left once no tick comes any more. *)
Definition left_ (s : Ticker.t) : nat :=
  match s.(Ticker.at_) with
  | Calling => 4
  | Delaying => 3
  | Looping => 1
  | Returned | Crashed => 0
  end + (if s.(Ticker.tick) then 1 else 0).

Lemma left_decreases fn s s' : s' ∈ Sync fn s → (left_ s' < left_ s)%nat.
Proof.
  destruct s as [p t e st c lg]. unfold left_, Sync, call_fn, goto, take_tick. simpl.
  intros Hin. destruct p, t, e, st, (fn c); simpl in *;
    rewrite ?elem_of_cons, ?elem_of_nil in Hin; naive_solver lia.
Qed.

Lemma sync_progress fn s :
  s.(Ticker.stopped) = true → s.(Ticker.at_) ≠ Returned → s.(Ticker.at_) ≠ Crashed → Sync fn s ≠ [].
Proof. destruct s as [p t e st c lg]. simpl. intros -> ? ?. destruct p, t, e; done. Qed.

Lemma sync_keeps_stopped fn s s' : s' ∈ Sync fn s → s'.(Ticker.stopped) = s.(Ticker.stopped).
Proof.
  destruct s as [p t e st c lg]. unfold Sync, call_fn, goto, take_tick. simpl.
  destruct p, t, e, st, (fn c); simpl; rewrite ?elem_of_cons, ?elem_of_nil; naive_solver.
Qed.

(* ================================================================== *)
(** * Properties *)

(** The goroutine has ended. *)
Definition ended (s : Ticker.t) : Prop := s.(Ticker.at_) = Returned ∨ s.(Ticker.at_) = Crashed.

(** [n] steps of the goroutine alone. *)
Inductive own_steps (fn : nat → result unit) : nat → Ticker.t → Ticker.t → Prop :=
| own_refl s : own_steps fn 0 s s
| own_step n s s1 s' : s1 ∈ Sync fn s → own_steps fn n s1 s' → own_steps fn (S n) s s'.

(** C40. The pace of the tags syncer: it is started exactly for a cluster with an
    ID; it calls its function at once, and after that at most once per tick,
    whatever the function returns; it only returns when it is stopped.  Once it
    is stopped, it makes at most five more steps of its own, and when it can make
    none it has ended. *)
Theorem sync_paced fn (r : resources.t) st s0 k s :
  Run r st = Some s0 → runs fn s0 k s →
  r.(resources.clusterID) ≠ ""
  ∧ (s.(Ticker.calls) ≤ 1 + k)%nat ∧ (s.(Ticker.at_) ≠ Calling → 1 ≤ s.(Ticker.calls))%nat
  ∧ (s.(Ticker.at_) = Returned → s.(Ticker.stopped) = true)
  ∧ (s.(Ticker.stopped) = true → ∀ n s', own_steps fn n s s' → (n ≤ 5)%nat ∧ (Sync fn s' = [] → ended s')).
Proof.
  unfold Run. destruct (str_eqb _ _) eqn:E; reflect_eqb; [done|]. intros [= <-] Hr.
  apply paced_runs in Hr as (H1 & _ & H3 & H4 & _). split_and!; [done| | |done|].
  - destruct (Ticker.tick s); case_decide; lia.
  - intros Hc. destruct (Ticker.calls s); [|lia]. by destruct Hc; apply H4.
  - intros Hst n s' Ho. assert (n + left_ s' ≤ left_ s ∧ Ticker.stopped s' = true)%nat as [Hn Hst'].
    { clear -Ho Hst. induction Ho as [s|n s s1 s' Hs Ho IH]; [done|].
      pose proof (left_decreases _ _ _ Hs). pose proof (sync_keeps_stopped _ _ _ Hs) as Hk.
      destruct IH; [congruence|]. split; [lia|done]. }
    split.
    + unfold left_ in Hn. destruct (Ticker.at_ s), (Ticker.tick s); lia.
    + intros Hnil. unfold ended. destruct (Ticker.at_ s') eqn:Ea; auto;
        by destruct (sync_progress fn s' Hst'); rewrite ?Ea.
Qed.
