(* ===== verification/WorkQueue.v ===== *)
(** * The work queue

    The rate-limited work queue of client-go
    ([vendor/k8s.io/client-go/util/workqueue]) that drives the firewall
    controller: the deduplicating queue ([queue.go]), the delaying queue around
    it ([delaying_queue.go]; its channel is not bounded here) and the
    exponential back-off ([default_rate_limiters.go]).  Each method holds a mutex
    and is one step; times and durations are nanoseconds. *)

From S2P Require Import Prelude GoStd FwRules FwController.
From stdpp Require Import base gmap strings list.
From Stdlib Require Import ZArith Lia.
#[local] Open Scope Z_scope.

(* ------------------------------------------------------------------ *)
(** ** The queue *)

(** [Typed]: the order of work, the items that need processing and the items
    that are being processed. *)
Module Typed.
Record t := mk {
  queue : list string;
  dirty : gset string;
  processing : gset string;
  shuttingDown : bool;
}.
Definition new : t := mk [] ∅ ∅ false.
End Typed.

Definition Add (item : string) (q : Typed.t) : Typed.t :=
  let '(Typed.mk queue dirty processing shuttingDown) := q in
  if shuttingDown then q
  else if bool_decide (item ∈ dirty) then q
  else
    let dirty := {[item]} ∪ dirty in
    if bool_decide (item ∈ processing) then Typed.mk queue dirty processing shuttingDown
    else Typed.mk (queue ++ [item]) dirty processing shuttingDown.

(** What [Get] does once the lock is taken: it waits, reports the shutdown, or
    hands out the first item. *)
Inductive get_outcome :=
| Waits
| Shutdown
| Item (item : string) (q : Typed.t).

Definition GetItem (q : Typed.t) : get_outcome :=
  match q.(Typed.queue) with
  | [] => if q.(Typed.shuttingDown) then Shutdown else Waits
  | item :: queue =>
      Item item (Typed.mk queue (q.(Typed.dirty) ∖ {[item]}) ({[item]} ∪ q.(Typed.processing))
                   q.(Typed.shuttingDown))
  end.

Definition Done (item : string) (q : Typed.t) : Typed.t :=
  let processing := q.(Typed.processing) ∖ {[item]} in
  if bool_decide (item ∈ q.(Typed.dirty))
  then Typed.mk (q.(Typed.queue) ++ [item]) q.(Typed.dirty) processing q.(Typed.shuttingDown)
  else Typed.mk q.(Typed.queue) q.(Typed.dirty) processing q.(Typed.shuttingDown).

Definition ShutDown (q : Typed.t) : Typed.t :=
  Typed.mk q.(Typed.queue) q.(Typed.dirty) q.(Typed.processing) true.

(* ------------------------------------------------------------------ *)
(** ** Back-off *)

Definition minRetryDelay : Z := 1 * 1000000000.
Definition maxRetryDelay : Z := 5 * 60 * 1000000000.

(** [time.Duration(x)] of a float. *)
Definition int64 (z : Z) : Z := (z + 2 ^ 63) mod 2 ^ 64 - 2 ^ 63.

(** [TypedItemExponentialFailureRateLimiter]; a missing entry counts as 0. *)
Definition NumRequeues (failures : gmap string Z) (item : string) : Z := default 0 (failures !! item).

(** The delay after [exp] failures.  Go multiplies floats: the minimal delay
    has 21 significant bits and the other factor is a power of two, so that the
    product is exact until it is infinite; [math.MaxInt64] as a float is
    [2 ^ 63]. *)
Definition backoff_delay (baseDelay maxDelay exp : Z) : Z :=
  let backoff := baseDelay * 2 ^ exp in
  if 2 ^ 63 <? backoff then maxDelay
  else
    let calculated := int64 backoff in
    if maxDelay <? calculated then maxDelay else calculated.

Definition When (item : string) (failures : gmap string Z) : Z * gmap string Z :=
  let exp := NumRequeues failures item in
  (backoff_delay minRetryDelay maxRetryDelay exp, <[item := exp + 1]> failures).

Definition ForgetItem (item : string) (failures : gmap string Z) : gmap string Z := delete item failures.

(* ------------------------------------------------------------------ *)
(** ** The delaying and rate-limiting queue *)

(** [delayingType] with its rate limiter: the queue, the entries sent to the
    waiting loop, the entries the loop waits for (by item, with the time they are
    ready at), the failures of the rate limiter and the clock. *)
Module Delaying.
Record t := mk {
  typed : Typed.t;
  channel : list (string * Z);
  waiting : gmap string Z;
  failures : gmap string Z;
  clock : Z;
}.
Definition new (now : Z) : t := mk Typed.new [] ∅ ∅ now.
Definition set_typed (q : Typed.t) (d : t) : t :=
  mk q d.(channel) d.(waiting) d.(failures) d.(clock).
Definition set_failures (f : gmap string Z) (d : t) : t :=
  mk d.(typed) d.(channel) d.(waiting) f d.(clock).
End Delaying.

Definition AddAfter (item : string) (duration : Z) (d : Delaying.t) : Delaying.t :=
  if d.(Delaying.typed).(Typed.shuttingDown) then d
  else if duration <=? 0 then Delaying.set_typed (Add item d.(Delaying.typed)) d
  else Delaying.mk d.(Delaying.typed) (d.(Delaying.channel) ++ [(item, d.(Delaying.clock) + duration)])
         d.(Delaying.waiting) d.(Delaying.failures) d.(Delaying.clock).

Definition AddRateLimited (item : string) (d : Delaying.t) : Delaying.t :=
  let '(delay, failures) := When item d.(Delaying.failures) in
  AddAfter item delay (Delaying.set_failures failures d).

(** [insert]: a known entry is moved only if it becomes ready sooner. *)
Definition insert_waiting (waiting : gmap string Z) (item : string) (readyAt : Z) : gmap string Z :=
  match waiting !! item with
  | Some existing => if readyAt <? existing then <[item := readyAt]> waiting else waiting
  | None => <[item := readyAt]> waiting
  end.

(** The waiting loop receives the next entry of the channel. *)
Definition receive (d : Delaying.t) : Delaying.t :=
  match d.(Delaying.channel) with
  | [] => d
  | (item, readyAt) :: channel =>
      if d.(Delaying.clock) <? readyAt
      then Delaying.mk d.(Delaying.typed) channel (insert_waiting d.(Delaying.waiting) item readyAt)
             d.(Delaying.failures) d.(Delaying.clock)
      else Delaying.mk (Add item d.(Delaying.typed)) channel d.(Delaying.waiting)
             d.(Delaying.failures) d.(Delaying.clock)
  end.

(** The waiting loop adds an entry that is ready. *)
Definition add_ready (item : string) (d : Delaying.t) : Delaying.t :=
  match d.(Delaying.waiting) !! item with
  | Some readyAt =>
      if d.(Delaying.clock) <? readyAt then d
      else Delaying.mk (Add item d.(Delaying.typed)) d.(Delaying.channel)
             (delete item d.(Delaying.waiting)) d.(Delaying.failures) d.(Delaying.clock)
  | None => d
  end.

Definition time_passes (duration : Z) (d : Delaying.t) : Delaying.t :=
  Delaying.mk d.(Delaying.typed) d.(Delaying.channel) d.(Delaying.waiting) d.(Delaying.failures)
    (d.(Delaying.clock) + duration).

(** The operations that the controller logs, on the queue. *)
Definition run_queue_op (op : queue_op) (d : Delaying.t) : Delaying.t :=
  match op with
  | QAdd key => Delaying.set_typed (Add key d.(Delaying.typed)) d
  | QAddRateLimited key => AddRateLimited key d
  | QForget key => Delaying.set_failures (ForgetItem key d.(Delaying.failures)) d
  | QDone key => Delaying.set_typed (Done key d.(Delaying.typed)) d
  end.

(* ================================================================== *)
(** * Facts *)

(** The representation invariant of [Typed]: the queue lists, once each, the
    items that need processing and are not being processed. *)
Definition queue_wf (q : Typed.t) : Prop :=
  NoDup q.(Typed.queue)
  ∧ ∀ x, x ∈ q.(Typed.queue) ↔ x ∈ q.(Typed.dirty) ∧ x ∉ q.(Typed.processing).

Lemma new_wf : queue_wf Typed.new.
Proof. split; simpl; [constructor|set_solver]. Qed.

Lemma Add_wf x q : queue_wf q → queue_wf (Add x q).
Proof.
  destruct q as [queue dirty processing sd]. intros [Hnd Hq]. simpl in *.
  destruct sd; [done|]. case_bool_decide as Hd; [done|]. case_bool_decide as Hp; simpl.
  - split; [done|]. intros y. simpl. rewrite Hq. set_solver.
  - split; simpl.
    + apply NoDup_app. split_and!; [done| |apply NoDup_singleton]. set_solver.
    + intros y. set_solver.
Qed.

Lemma GetItem_wf q x q' : queue_wf q → GetItem q = Item x q' →
  queue_wf q' ∧ x ∈ q.(Typed.dirty) ∧ x ∉ q.(Typed.processing).
Proof.
  unfold GetItem. intros [Hnd Hq]. destruct (Typed.queue q) as [|y l] eqn:E.
  { by destruct (Typed.shuttingDown q). }
  intros [= -> <-]. apply NoDup_cons in Hnd as [Hx Hnd]. specialize (Hq x) as Hqx.
  split; [|apply Hqx; set_solver]. split; simpl; [done|]. intros z. specialize (Hq z). set_solver.
Qed.

Lemma GetItem_none q : queue_wf q → (∀ x q', GetItem q ≠ Item x q') → q.(Typed.dirty) ⊆ q.(Typed.processing).
Proof.
  intros [_ Hq] Hg x Hx. destruct (Typed.queue q) as [|y l] eqn:E.
  - destruct (decide (x ∈ Typed.processing q)) as [|Hn]; [done|]. specialize (Hq x). set_solver.
  - exfalso. eapply Hg. unfold GetItem. by rewrite E.
Qed.

Lemma Done_wf x q : queue_wf q → x ∈ q.(Typed.processing) → queue_wf (Done x q).
Proof.
  destruct q as [queue dirty processing sd]. intros [Hnd Hq] Hx. unfold Done. simpl in *.
  case_bool_decide as Hd; split; simpl.
  - apply NoDup_app. split_and!; [done| |apply NoDup_singleton]. set_solver.
  - intros y. destruct (decide (y = x)) as [->|]; set_solver.
  - done.
  - intros y. destruct (decide (y = x)) as [->|]; set_solver.
Qed.

Lemma ShutDown_wf q : queue_wf q → queue_wf (ShutDown q).
Proof. done. Qed.

Lemma Add_dirty x q : q.(Typed.shuttingDown) = false → (Add x q).(Typed.dirty) = {[x]} ∪ q.(Typed.dirty).
Proof.
  destruct q as [queue dirty processing sd]. simpl. intros ->. repeat case_bool_decide; set_solver.
Qed.

Lemma Add_rest x q :
  (Add x q).(Typed.processing) = q.(Typed.processing) ∧ (Add x q).(Typed.shuttingDown) = q.(Typed.shuttingDown)
  ∧ q.(Typed.dirty) ⊆ (Add x q).(Typed.dirty).
Proof. destruct q as [queue dirty processing []]; simpl; repeat case_bool_decide; set_solver. Qed.

#[export] Hint Resolve new_wf Add_wf Done_wf ShutDown_wf : go.

(** ** Back-off *)

Lemma int64_id z : - 2 ^ 63 ≤ z < 2 ^ 63 → int64 z = z.
Proof. unfold int64. intros H. rewrite Z.mod_small; lia. Qed.

(** With the controller's delays the float overflow never matters: the delay is
    the exact minimum. *)
Lemma backoff_exact exp : 0 ≤ exp →
  backoff_delay minRetryDelay maxRetryDelay exp = Z.min (minRetryDelay * 2 ^ exp) maxRetryDelay.
Proof.
  intros He. unfold backoff_delay. pose proof (Z.pow_pos_nonneg 2 exp ltac:(lia) He) as Hp.
  unfold minRetryDelay, maxRetryDelay in *. destruct (2 ^ 63 <? _) eqn:E; [lia|].
  assert (Hne : 1 * 1000000000 * 2 ^ exp ≠ 2 ^ 63).
  { destruct (Z.le_gt_cases exp 33) as [Hle|Hgt].
    - pose proof (Z.pow_le_mono_r 2 exp 33 ltac:(lia) Hle). lia.
    - pose proof (Z.pow_le_mono_r 2 34 exp ltac:(lia) ltac:(lia)). lia. }
  rewrite int64_id by lia.
  match goal with |- (if ?b then _ else _) = _ => destruct b eqn:E2 end; lia.
Qed.

(** ** The abstract queue *)

(** What a work queue promises: a set of items to process and a set of items in
    the hands of workers. *)
Record aqueue := AQueue { pending : gset string; busy : gset string; closed : bool }.

(** What is done to a queue. *)
Inductive qaction :=
| ActAdd (x : string)
| ActGet (x : string)
| ActDone (x : string)
| ActShutDown.

(** Every action has one effect: an addition makes the item pending, also while
    a worker holds it, until the queue is closed; a get moves a pending item that
    nobody holds into a worker's hands. *)
Inductive astep : aqueue → qaction → aqueue → Prop :=
| a_add x P B : astep (AQueue P B false) (ActAdd x) (AQueue ({[x]} ∪ P) B false)
| a_ignored x P B : astep (AQueue P B true) (ActAdd x) (AQueue P B true)
| a_get x P B c : x ∈ P → x ∉ B → astep (AQueue P B c) (ActGet x) (AQueue (P ∖ {[x]}) ({[x]} ∪ B) c)
| a_done x P B c : x ∈ B → astep (AQueue P B c) (ActDone x) (AQueue P (B ∖ {[x]}) c)
| a_close P B c : astep (AQueue P B c) ActShutDown (AQueue P B true).

Definition abstract (q : Typed.t) : aqueue := AQueue q.(Typed.dirty) q.(Typed.processing) q.(Typed.shuttingDown).

(** The use of the queue: an item is marked done only by who got it. *)
Inductive qstep : Typed.t → qaction → Typed.t → Prop :=
| q_add x q : qstep q (ActAdd x) (Add x q)
| q_get x q q' : GetItem q = Item x q' → qstep q (ActGet x) q'
| q_done x q : x ∈ q.(Typed.processing) → qstep q (ActDone x) (Done x q)
| q_shutdown q : qstep q ActShutDown (ShutDown q).

(** A sequence of actions. *)
Inductive performs {S} (step : S → qaction → S → Prop) : S → list qaction → S → Prop :=
| performs_nil s : performs step s [] s
| performs_cons s1 a s2 tr s3 : step s1 a s2 → performs step s2 tr s3 → performs step s1 (a :: tr) s3.

Lemma qstep_wf q a q' : queue_wf q → qstep q a q' → queue_wf q'.
Proof. intros Hwf Hs. destruct Hs as [| |x p Hx|p]; [auto with go|by eapply GetItem_wf|auto with go..]. Qed.

Lemma qstep_refines q a q' : queue_wf q → qstep q a q' → astep (abstract q) a (abstract q').
Proof.
  intros Hwf Hs. destruct Hs as [x p|x p p' Hg|x p Hx|p]; unfold abstract.
  - destruct (Add_rest x p) as (-> & -> & _). destruct (Typed.shuttingDown p) eqn:E.
    + destruct p. simpl in *. subst. constructor.
    + rewrite (Add_dirty x p E). constructor.
  - destruct (GetItem_wf p x p' Hwf Hg) as (_ & Hd & Hp). unfold GetItem in Hg.
    destruct (Typed.queue p); [by destruct (Typed.shuttingDown p)|]. simplify_eq/=. by constructor.
  - unfold Done. case_bool_decide; by constructor.
  - constructor.
Qed.

Lemma performs_refines q0 tr q :
  performs qstep q0 tr q → queue_wf q0 → performs astep (abstract q0) tr (abstract q) ∧ queue_wf q.
Proof.
  induction 1 as [q|q1 a q2 tr q3 Hs _ IH]; intros Hwf; [by split; [constructor|]|].
  destruct IH as [Ha Hwf3]; [by eapply qstep_wf|]. split; [|done].
  eapply performs_cons; [by apply qstep_refines|done].
Qed.

(** The effect of an action on the abstract queue is determined. *)
Lemma astep_deterministic a0 act a1 a2 : astep a0 act a1 → astep a0 act a2 → a1 = a2.
Proof. by destruct 1; inversion 1. Qed.

(* ================================================================== *)
(** * Properties *)

(** C26. The work queue implements its contract: whatever is done to it, step by
    step the same actions lead the abstract queue to the sets of pending and of
    busy items that it stands for, where an addition makes its item pending even
    while a worker holds it.  It lists every pending item that no worker holds
    exactly once; it hands out only such items, so that no two workers ever hold
    the same one; and it makes workers wait, or tells them to stop, only when
    every pending item is in a worker's hands. *)
Theorem work_queue_refines tr q :
  performs qstep Typed.new tr q →
  performs astep (AQueue ∅ ∅ false) tr (abstract q)
  ∧ queue_wf q
  ∧ match GetItem q with
    | Item x q' => x ∈ pending (abstract q) ∖ busy (abstract q)
                   ∧ abstract q' = AQueue (pending (abstract q) ∖ {[x]}) ({[x]} ∪ busy (abstract q)) (closed (abstract q))
    | _ => pending (abstract q) ⊆ busy (abstract q)
    end.
Proof.
  intros Hr. destruct (performs_refines _ _ _ Hr new_wf) as [Ha Hwf]. split_and!; [done..|].
  destruct (GetItem q) as [| |x q'] eqn:Eg.
  1,2: apply GetItem_none; [done|congruence].
  - destruct (GetItem_wf q x q' Hwf Eg) as (_ & Hd & Hp). split; [simpl; set_solver|].
    unfold GetItem in Eg. destruct (Typed.queue q); [by destruct (Typed.shuttingDown q)|].
    by simplify_eq/=.
Qed.

(** C27. The retry delay of a worker item is between one second and five minutes,
    doubles with every failure, is the maximum after nine failures in a row, and
    never overflows, however often the item failed; a success resets it to one
    second. *)
Theorem retry_delay_bounds failures item :
  0 ≤ NumRequeues failures item →
  let '(delay, failures') := When item failures in
  minRetryDelay ≤ delay ≤ maxRetryDelay
  ∧ delay = Z.min (minRetryDelay * 2 ^ NumRequeues failures item) maxRetryDelay
  ∧ (delay = maxRetryDelay ↔ 9 ≤ NumRequeues failures item)
  ∧ NumRequeues failures' item = NumRequeues failures item + 1
  ∧ (∀ other, other ≠ item → NumRequeues failures' other = NumRequeues failures other)
  ∧ (When item (ForgetItem item failures)).1 = minRetryDelay.
Proof.
  intros He. unfold When. rewrite backoff_exact by done.
  set (n := NumRequeues failures item) in *. pose proof (Z.pow_pos_nonneg 2 n ltac:(lia) He) as Hp.
  split_and!.
  1,2,3: unfold minRetryDelay, maxRetryDelay in *; lia.
  - unfold minRetryDelay, maxRetryDelay in *. split.
    + intros Hm. destruct (Z.le_gt_cases n 8) as [Hle|]; [|lia].
      pose proof (Z.pow_le_mono_r 2 n 8 ltac:(lia) Hle). lia.
    + intros Hle. pose proof (Z.pow_le_mono_r 2 9 n ltac:(lia) Hle). lia.
  - unfold NumRequeues. by rewrite lookup_insert_eq.
  - intros other Hne. unfold NumRequeues. by rewrite lookup_insert_ne.
  - unfold NumRequeues, ForgetItem. by rewrite lookup_delete_eq.
Qed.
