(* ===== verification/FwSystem.v ===== *)
(** * The firewall controller as a concurrent system

    [firewall_controller.go]: [NewFirewallController], [Run] and [runWorker] put
    three activities around the shared cache and the work queue: the informer's
    event handlers, the worker that takes items from the queue and reconciles,
    and the periodic sync.  Here each activity is a sequence of steps that other
    activities interleave with.  A step makes at most one access to the cache or
    to the queue; the API calls between two such accesses are one step with the
    one before them, and so is what a goroutine computes on its own.

    The Services change under the controller's feet: the lister answers the
    current ones, and every change is followed, some time later, by an event. *)

From stdpp Require Import base gmap strings list.
From Stdlib Require Import ZArith Lia.
From S2P Require Import Prelude GoStd Types Annotations Nodes Api Rules FwRules FwController WorkQueue.
#[local] Open Scope Z_scope.

(** Where the worker ([runWorker], [processNextItem]) stands. *)
Inductive worker :=
| WIdle
| WGot (key : string)                                        (** [queue.Get] answered *)
| WRead (key : string) (fr : FirewallRequest.t)              (** the request is computed *)
| WMissed (key : string) (fr : FirewallRequest.t)            (** not cached: about to call [Get] *)
| WFetched (key : string) (fr : FirewallRequest.t) (fw : option Firewall.t)
                                                             (** [Get] is about to cache [fw] *)
| WSetting (key : string) (fr : FirewallRequest.t) (fwID : string)
                                                             (** about to call [Set] *)
| WApplied (key : string) (fw : option Firewall.t)           (** [Set] is about to cache [fw] *)
| WEnd (key : string) (outcome : bool + error)               (** reconciled: skipped or not *)
| WRelease (key : string)                                    (** the deferred [queue.Done] *)
| WStopped
| WCrashed.

(** Where the periodic sync ([Run], [syncResource]) stands. *)
Inductive syncer :=
| SIdle
| SFetched (fw : option Firewall.t)                          (** [Get] is about to cache [fw] *)
| SCached                                                    (** about to add to the queue *)
| SCrashed.

Record sys (R : Type) := Sys {
  s_fw : fwst R;
  s_queue : Delaying.t;
  s_services : list Service.t;
  s_events : nat;  (** changes whose event has not been handled *)
  s_worker : worker;
  s_sync : syncer;
}.
Arguments Sys {R} _ _ _ _ _ _.
Arguments s_fw {R} _.
Arguments s_queue {R} _.
Arguments s_services {R} _.
Arguments s_events {R} _.
Arguments s_worker {R} _.
Arguments s_sync {R} _.

Section System.
Context {R : Type} `{!GodoPaging, !GodoFirewalls R}.
Variable fuel : nat.
Variable fm : firewallManager.t.

Definition with_fw (fw : fwst R) (w : worker) (s : sys R) : sys R :=
  Sys fw s.(s_queue) s.(s_services) s.(s_events) w s.(s_sync).
Definition with_worker (w : worker) (s : sys R) : sys R := with_fw s.(s_fw) w s.
Definition with_sync (fw : fwst R) (y : syncer) (s : sys R) : sys R :=
  Sys fw s.(s_queue) s.(s_services) s.(s_events) s.(s_worker) y.

(** A queue operation, on the queue and in the log. *)
Definition queue_step (op : queue_op) (s : sys R) : sys R :=
  Sys (enqueue op s.(s_fw)) (run_queue_op op s.(s_queue)) s.(s_services) s.(s_events)
      s.(s_worker) s.(s_sync).

(** The comparison of [ensureReconciledFirewall], once the firewall is known. *)
Definition compared (key : string) (fr : FirewallRequest.t) (fw : option Firewall.t) : worker :=
  if firewallRequestEqual fw (Some fr) then WEnd key (inl true)
  else WSetting key fr (match fw with None => "" | Some fw => fw.(Firewall.ID) end).

Definition reconcile_metric (ctxErr : bool) (outcome : bool + error) : metric :=
  match outcome with
  | inl skipped => reconcilesTotal (if skipped : bool then "skipped" else "reconciled") ""
  | inr _ => reconcilesTotal "failed" (if ctxErr then "timeout" else "generic")
  end.

(** The next step of the worker; [None] when it waits, or is no longer running.
    A panic ends the process. *)
Definition worker_step (order : list portProtocol.t → list portProtocol.t) (ctxErr : bool) (s : sys R)
    : option (sys R) :=
  match s.(s_worker) with
  | WIdle =>
      match GetItem s.(s_queue).(Delaying.typed) with
      | Waits => None
      | Shutdown => Some (with_worker WStopped s)
      | Item key q =>
          Some (Sys s.(s_fw) (Delaying.set_typed q s.(s_queue)) s.(s_services) s.(s_events)
                    (WGot key) s.(s_sync))
      end
  | WGot key =>
      match createReconciledFirewallRequest order fm s.(s_services) with
      | Ok fr => Some (with_worker (WRead key fr) s)
      | Err e => Some (with_worker (WEnd key (inr (Errorf "failed to create reconciled firewall request: %v" [AErr e]))) s)
      | Panic => Some (with_fw (observe (reconcilesTotal "reconciled" "") s.(s_fw)) WCrashed s)
      | NoFuel => None
      end
  | WRead key fr =>
      let '(fw, isSet) := getCachedFirewall (fw_cache s.(s_fw)) in
      Some (with_worker (if isSet : bool then compared key fr fw else WMissed key fr) s)
  | WMissed key fr =>
      match get_firewall fuel fm s.(s_fw) with
      | (Ok fw, st) => Some (with_fw st (WFetched key fr fw) s)
      | (Err e, st) =>
          Some (with_fw st (WEnd key (inr (Errorf "failed to get firewall (preferred from cache): %v" [AErr e]))) s)
      | (Panic, st) => Some (with_fw st WCrashed s)
      | (NoFuel, _) => None
      end
  | WFetched key fr fw =>
      Some (with_fw (set_cache (updateCache fw (fw_cache s.(s_fw))) s.(s_fw)) (compared key fr fw) s)
  | WSetting key fr fwID =>
      match set_firewall fwID fr s.(s_fw) with
      | (Ok fw, st) => Some (with_fw st (WApplied key fw) s)
      | (Err e, st) => Some (with_fw st (WEnd key (inr (Errorf "failed to set firewall: %v" [AErr e]))) s)
      | (Panic, st) => Some (with_fw st WCrashed s)
      | (NoFuel, _) => None
      end
  | WApplied key fw =>
      Some (with_fw (set_cache (updateCache fw (fw_cache s.(s_fw))) s.(s_fw)) (WEnd key (inl false)) s)
  | WEnd key outcome =>
      let s := with_fw (observe (reconcile_metric ctxErr outcome) s.(s_fw)) (WRelease key) s in
      Some (queue_step (match outcome with inl _ => QForget key | inr _ => QAddRateLimited key end) s)
  | WRelease key => Some (queue_step (QDone key) (with_worker WIdle s))
  | WStopped | WCrashed => None
  end.

(** The next step of the sync. *)
Definition sync_step (ctxErr : bool) (s : sys R) : option (sys R) :=
  match s.(s_sync) with
  | SIdle =>
      match get_firewall fuel fm s.(s_fw) with
      | (Ok fw, st) => Some (with_sync st (SFetched fw) s)
      | (Err _, st) =>
          Some (with_sync (observe (resourceSyncsTotal (if ctxErr then "canceled" else "failed")) st) SIdle s)
      | (Panic, st) => Some (with_sync st SCrashed s)
      | (NoFuel, _) => None
      end
  | SFetched fw =>
      Some (with_sync (set_cache (updateCache fw (fw_cache s.(s_fw))) s.(s_fw)) SCached s)
  | SCached =>
      let s := queue_step (QAdd queueKey) s in
      Some (with_sync (observe (resourceSyncsTotal "updated") s.(s_fw)) SIdle s)
  | SCrashed => None
  end.

(** An event handler of [NewFirewallController]. *)
Definition handler_step (s : sys R) : option (sys R) :=
  match s.(s_events) with
  | O => None
  | S n =>
      let s := queue_step (QAdd queueKey) s in
      Some (Sys s.(s_fw) s.(s_queue) s.(s_services) n s.(s_worker) s.(s_sync))
  end.

(** The controller's own steps, and those of the queue's waiting loop. *)
Inductive internal : sys R → sys R → Prop :=
| i_worker order ctxErr s s' :
    (∀ l, order l ≡ₚ l) → worker_step order ctxErr s = Some s' → internal s s'
| i_sync_goes_on ctxErr s s' :
    s.(s_sync) ≠ SIdle → sync_step ctxErr s = Some s' → internal s s'
| i_handler s s' : handler_step s = Some s' → internal s s'
| i_receive s :
    s.(s_queue).(Delaying.channel) ≠ [] →
    internal s (Sys s.(s_fw) (receive s.(s_queue)) s.(s_services) s.(s_events) s.(s_worker) s.(s_sync))
| i_ready item readyAt s :
    s.(s_queue).(Delaying.waiting) !! item = Some readyAt → readyAt ≤ s.(s_queue).(Delaying.clock) →
    internal s (Sys s.(s_fw) (add_ready item s.(s_queue)) s.(s_services) s.(s_events) s.(s_worker) s.(s_sync)).

(** What happens around the controller: time passes, Services change, a sync
    begins, the lister fails, others change the remote side, [Run] returns and
    shuts the queue down. *)
Inductive external : sys R → sys R → Prop :=
| e_time duration s :
    0 ≤ duration →
    external s (Sys s.(s_fw) (time_passes duration s.(s_queue)) s.(s_services) s.(s_events) s.(s_worker) s.(s_sync))
| e_services services s :
    external s (Sys s.(s_fw) s.(s_queue) services (S s.(s_events)) s.(s_worker) s.(s_sync))
| e_sync ctxErr s s' : s.(s_sync) = SIdle → sync_step ctxErr s = Some s' → external s s'
| e_lister key e s :
    s.(s_worker) = WGot key →
    external s (with_worker (WEnd key (inr (Errorf "failed to list services: %v" [AErr e]))) s)
| e_remote r s :
    external s (with_fw (FwState r (fw_calls s.(s_fw)) (fw_cache s.(s_fw)) (fw_metrics s.(s_fw))
                           (fw_queue s.(s_fw))) s.(s_worker) s)
| e_shutdown s :
    external s (Sys s.(s_fw) (Delaying.set_typed (ShutDown s.(s_queue).(Delaying.typed)) s.(s_queue))
                    s.(s_services) s.(s_events) s.(s_worker) s.(s_sync)).

Definition step (s s' : sys R) : Prop := internal s s' ∨ external s s'.

(** The controller starts with an empty cache and queue; the informer announces
    every Service there is. *)
Definition initial (r : R) (now : Z) (services : list Service.t) : sys R :=
  Sys (FwState r [] (firewallCache.mk None false) [] []) (Delaying.new now) services
      (length services) WIdle SIdle.
End System.

(* ================================================================== *)
(** * Facts *)

(** ** What the queue remembers *)

(** Some item waits for the worker, now or later. *)
Definition queued (d : Delaying.t) : Prop :=
  d.(Delaying.typed).(Typed.dirty) ≠ ∅ ∨ d.(Delaying.channel) ≠ [] ∨ d.(Delaying.waiting) ≠ ∅.

Definition shut (d : Delaying.t) : Prop := d.(Delaying.typed).(Typed.shuttingDown) = true.

(** An operation forgets nothing, unless the queue is shut down. *)
Definition remembers (d d' : Delaying.t) : Prop :=
  (shut d → shut d') ∧ (queued d → queued d' ∨ shut d').

Lemma Add_queued item d :
  shut d ∨ queued (Delaying.set_typed (Add item d.(Delaying.typed)) d).
Proof.
  unfold shut, queued. destruct (Typed.shuttingDown (Delaying.typed d)) eqn:E; [by left|].
  right. left. simpl. rewrite Add_dirty by done. set_solver.
Qed.

Lemma Add_remembers item d : remembers d (Delaying.set_typed (Add item d.(Delaying.typed)) d).
Proof.
  destruct (Add_rest item (Delaying.typed d)) as (_ & Hs & Hd). split.
  - unfold shut. simpl. congruence.
  - intros [Hq|Hq]; left; [left|by right]. simpl. set_solver.
Qed.

Lemma Done_remembers item d : remembers d (Delaying.set_typed (Done item d.(Delaying.typed)) d).
Proof.
  unfold remembers, shut, queued, Done. simpl. case_bool_decide; simpl; tauto.
Qed.

Lemma AddAfter_remembers item duration d :
  remembers d (AddAfter item duration d) ∧ (queued (AddAfter item duration d) ∨ shut (AddAfter item duration d)).
Proof.
  unfold AddAfter. destruct (Typed.shuttingDown (Delaying.typed d)) eqn:E.
  { split; [split; auto|by right]. }
  destruct (duration <=? 0).
  - split; [apply Add_remembers|]. destruct (Add_queued item d) as [Hs|]; [|by left].
    unfold shut in Hs. congruence.
  - assert (queued (Delaying.mk (Delaying.typed d) (Delaying.channel d ++ [(item, Delaying.clock d + duration)])
      (Delaying.waiting d) (Delaying.failures d) (Delaying.clock d))).
    { right. left. simpl. by destruct (Delaying.channel d). }
    split; [split; auto|by left].
Qed.

Lemma run_queue_op_remembers op d : remembers d (run_queue_op op d).
Proof.
  destruct op; simpl; [apply Add_remembers| |split; auto|apply Done_remembers].
  unfold AddRateLimited. destruct (When key (Delaying.failures d)) as [delay f].
  destruct (AddAfter_remembers key delay (Delaying.set_failures f d)) as [[H1 H2] _]. split; auto.
Qed.

Lemma AddRateLimited_queued key d : queued (AddRateLimited key d) ∨ shut (AddRateLimited key d).
Proof. unfold AddRateLimited. destruct (When key (Delaying.failures d)). apply AddAfter_remembers. Qed.

Lemma insert_waiting_nonempty w item t : insert_waiting w item t ≠ ∅.
Proof.
  unfold insert_waiting. destruct (w !! item) eqn:E; [case_match|]; try apply insert_non_empty.
  intros ->. done.
Qed.

Lemma receive_remembers d : remembers d (receive d) ∧ (d.(Delaying.channel) ≠ [] → queued (receive d) ∨ shut d).
Proof.
  unfold receive. destruct (Delaying.channel d) as [|[item t] ch] eqn:E; [split; [split; auto|done]|].
  destruct (_ <? t).
  - split; [split; [auto|intros _; left]|intros _; left]; right; right; apply insert_waiting_nonempty.
  - destruct (Add_rest item (Delaying.typed d)) as (_ & Hs & Hd).
    assert (Hq : shut d ∨ Typed.dirty (Add item (Delaying.typed d)) ≠ ∅).
    { unfold shut. destruct (Typed.shuttingDown (Delaying.typed d)) eqn:Es; [by left|right].
      rewrite Add_dirty by done. set_solver. }
    unfold remembers, shut, queued in *. simpl. rewrite Hs. tauto.
Qed.

Lemma add_ready_remembers item d : remembers d (add_ready item d).
Proof.
  unfold add_ready. destruct (Delaying.waiting d !! item); [|split; auto]. case_match; [split; auto|].
  destruct (Add_rest item (Delaying.typed d)) as (_ & Hs & Hd).
  unfold remembers, shut, queued. simpl. rewrite Hs. split; [done|].
  destruct (Typed.shuttingDown (Delaying.typed d)) eqn:Es; [tauto|]. left. left.
  rewrite Add_dirty by done. set_solver.
Qed.

(** The same for the representation of the queue: [op] keeps it well-formed and
    the items in processing. *)
Definition keeps_items (d d' : Delaying.t) : Prop :=
  queue_wf d.(Delaying.typed) →
  queue_wf d'.(Delaying.typed)
  ∧ d'.(Delaying.typed).(Typed.processing) = d.(Delaying.typed).(Typed.processing).

Lemma keeps_Add item (d d' : Delaying.t) :
  d'.(Delaying.typed) = Add item d.(Delaying.typed) → keeps_items d d'.
Proof. unfold keeps_items. intros -> Hwf. split; [by apply Add_wf|apply Add_rest]. Qed.

Lemma keeps_same (d d' : Delaying.t) : d'.(Delaying.typed) = d.(Delaying.typed) → keeps_items d d'.
Proof. unfold keeps_items. by intros -> Hwf. Qed.

Lemma AddRateLimited_keeps key d : keeps_items d (AddRateLimited key d).
Proof.
  unfold AddRateLimited. destruct (When key (Delaying.failures d)) as [delay f]. unfold AddAfter.
  case_match; [by apply keeps_same|]. case_match; [by eapply keeps_Add|by apply keeps_same].
Qed.

Lemma receive_keeps d : keeps_items d (receive d).
Proof.
  unfold receive. destruct (Delaying.channel d) as [|[item t] ch]; [by apply keeps_same|].
  case_match; [by apply keeps_same|by eapply keeps_Add].
Qed.

Lemma add_ready_keeps item d : keeps_items d (add_ready item d).
Proof.
  unfold add_ready. destruct (Delaying.waiting d !! item); [|by apply keeps_same].
  case_match; [by apply keeps_same|by eapply keeps_Add].
Qed.

Section Invariant.
Context {R : Type} `{!GodoPaging, !GodoFirewalls R, !FirewallLaws R}.
Variable fuel : nat.
Variable fm : firewallManager.t.

(** The request that the Services call for, in some map order. *)
Definition request_for (services : list Service.t) (fr : FirewallRequest.t) : Prop :=
  ∃ order, (∀ l, order l ≡ₚ l) ∧ createReconciledFirewallRequest order fm services = Ok fr.

(** The cache holds what the Services call for. *)
Definition settled (services : list Service.t) (c : firewallCache.t) : Prop :=
  c.(firewallCache.isSet) = true
  ∧ ∃ fr, request_for services fr ∧ firewallRequestEqual c.(firewallCache.firewall) (Some fr) = true.

(** Nothing is left to do, or the sync is about to ask for it, or nothing was
    ever asked for. *)
Definition resting (services : list Service.t) (c : firewallCache.t) (y : syncer) : Prop :=
  settled services c ∨ y = SCached ∨ (c.(firewallCache.isSet) = false ∧ services = []).

(** What must hold when no notification is on its way. *)
Definition obligation (services : list Service.t) (c : firewallCache.t) (y : syncer) (w : worker) : Prop :=
  match w with
  | WIdle | WRelease _ | WEnd _ (inl _) => resting services c y
  | WRead _ fr | WMissed _ fr | WFetched _ fr _ | WSetting _ fr _ => request_for services fr
  | WApplied _ fw => ∃ fr, request_for services fr ∧ firewallRequestEqual fw (Some fr) = true
  | _ => True
  end.

(** The items in the hands of the worker. *)
Definition holding (w : worker) : gset string :=
  match w with
  | WGot key | WRead key _ | WMissed key _ | WFetched key _ _ | WSetting key _ _ | WApplied key _ | WEnd key _
  | WRelease key => {[key]}
  | _ => ∅
  end.

Definition notified (s : sys R) : Prop :=
  shut s.(s_queue) ∨ (0 < s.(s_events))%nat ∨ queued s.(s_queue).

Definition alive (s : sys R) : Prop :=
  notified s ∨ obligation s.(s_services) (fw_cache s.(s_fw)) s.(s_sync) s.(s_worker).

Definition queue_inv (s : sys R) : Prop :=
  let q := s.(s_queue).(Delaying.typed) in
  queue_wf q ∧ (s.(s_worker) ≠ WCrashed → q.(Typed.processing) = holding s.(s_worker))
  ∧ (s.(s_worker) = WStopped → shut s.(s_queue)).

Definition system_inv (s : sys R) : Prop := queue_inv s ∧ alive s.

(** A step that keeps the queue's memory has only the obligation to look after. *)
Lemma alive_step (s s' : sys R) :
  remembers s.(s_queue) s'.(s_queue) → s'.(s_events) = s.(s_events) →
  (obligation s.(s_services) (fw_cache s.(s_fw)) s.(s_sync) s.(s_worker) → alive s') →
  alive s → alive s'.
Proof.
  unfold alive, notified. intros [Hs Hq] He Ho [[H1|[H1|H1]]|H1]; rewrite ?He in *; try tauto.
Qed.

Lemma same_queue_remembers d : remembers d d.
Proof. split; auto. Qed.

Lemma queue_inv_step (s s' : sys R) :
  keeps_items s.(s_queue) s'.(s_queue) → (shut s.(s_queue) → shut s'.(s_queue)) →
  (s'.(s_worker) ≠ WCrashed → s.(s_worker) ≠ WCrashed ∧ holding s'.(s_worker) = holding s.(s_worker)) →
  (s'.(s_worker) = WStopped → s.(s_worker) = WStopped) →
  queue_inv s → queue_inv s'.
Proof.
  intros Hk Hsh Hh Hst (Hwf & Hp & Hs). destruct (Hk Hwf) as [Hwf' Hp']. split_and!; [done| |].
  - intros Hc'. destruct (Hh Hc') as [Hc ->]. rewrite Hp'. auto.
  - auto.
Qed.

(** A step of the worker that leaves the queue alone. *)
Lemma worker_local_inv (s : sys R) st w :
  s.(s_worker) ≠ WCrashed → (w ≠ WCrashed → holding w = holding s.(s_worker)) → w ≠ WStopped →
  (obligation s.(s_services) (fw_cache s.(s_fw)) s.(s_sync) s.(s_worker) →
   obligation s.(s_services) (fw_cache st) s.(s_sync) w) →
  system_inv s → system_inv (with_fw st w s).
Proof.
  intros Hc Hh Hst Ho [Hq Ha]. split.
  - revert Hq. apply queue_inv_step; simpl; auto; [by apply keeps_same|done].
  - revert Ha. apply alive_step; [apply same_queue_remembers|done|]. intros H1. right. simpl. auto.
Qed.

Lemma get_firewall_cache (st : fwst R) : fw_cache (get_firewall fuel fm st).2 = fw_cache st.
Proof. pose proof (same_local_get_firewall fuel fm st) as Hl. unfold same_local, same in Hl. congruence. Qed.

Lemma set_firewall_cache id fr (st : fwst R) : fw_cache (set_firewall id fr st).2 = fw_cache st.
Proof. pose proof (same_local_set_firewall id fr st) as Hl. unfold same_local, same in Hl. congruence. Qed.

(** Comparing a firewall that the cache holds. *)
Lemma compared_obligation services c y key fr fw :
  request_for services fr → c.(firewallCache.isSet) = true →
  firewallsEqual c.(firewallCache.firewall) fw = true →
  obligation services c y (compared key fr fw).
Proof.
  intros Hfr Hset Heq. unfold compared. destruct (firewallRequestEqual fw (Some fr)) eqn:E; simpl; [|done].
  left. split; [done|]. exists fr. split; [done|]. by eapply firewallRequestEqual_trans.
Qed.

Lemma compared_holding key fr fw : holding (compared key fr fw) = {[key]} ∧ compared key fr fw ≠ WStopped
  ∧ compared key fr fw ≠ WCrashed.
Proof. unfold compared. by case_match. Qed.

(** Taking an item from the queue. *)
Lemma worker_get_inv key q (s : sys R) :
  s.(s_worker) = WIdle → GetItem s.(s_queue).(Delaying.typed) = Item key q → system_inv s →
  system_inv (Sys s.(s_fw) (Delaying.set_typed q s.(s_queue)) s.(s_services) s.(s_events) (WGot key) s.(s_sync)).
Proof.
  intros Hw Hg [(Hwf & Hp & _) _]. split; [|by right].
  destruct (GetItem_wf _ _ _ Hwf Hg) as (Hwf' & _ & _). split_and!; [done| |done]. intros _. simpl.
  rewrite Hw in Hp. unfold GetItem in Hg.
  destruct (Typed.queue (Delaying.typed (s_queue s))); [by destruct (Typed.shuttingDown _)|].
  simplify_eq/=. rewrite Hp by done. set_solver.
Qed.

(** The end of an item. *)
Lemma worker_end_inv key outcome ctxErr (s : sys R) :
  s.(s_worker) = WEnd key outcome → system_inv s →
  system_inv (queue_step (match outcome with inl _ => QForget key | inr _ => QAddRateLimited key end)
    (with_fw (observe (reconcile_metric ctxErr outcome) s.(s_fw)) (WRelease key) s)).
Proof.
  intros Hw [Hq Ha]. destruct outcome as [b|e].
  - split.
    + revert Hq. apply queue_inv_step; simpl; rewrite ?Hw; auto; [by apply keeps_same|done].
    + revert Ha. apply alive_step; [by split; auto|done|]. rewrite Hw. intros H1. right. exact H1.
  - split.
    + revert Hq. apply queue_inv_step; simpl; rewrite ?Hw; auto; [apply AddRateLimited_keeps| |done].
      apply (run_queue_op_remembers (QAddRateLimited key)).
    + left. unfold notified. simpl. destruct (AddRateLimited_queued key (s_queue s)); tauto.
Qed.

Lemma worker_release_inv key (s : sys R) :
  s.(s_worker) = WRelease key → system_inv s →
  system_inv (queue_step (QDone key) (with_worker WIdle s)).
Proof.
  intros Hw [(Hwf & Hp & _) Ha]. rewrite Hw in Hp. specialize (Hp ltac:(done)). split.
  - split_and!; [| |done]; simpl.
    + apply Done_wf; [done|]. rewrite Hp. simpl. set_solver.
    + intros _. unfold Done. simpl in Hp. case_bool_decide; simpl; rewrite Hp; set_solver.
  - revert Ha. apply alive_step; [apply (run_queue_op_remembers (QDone key))|done|].
    rewrite Hw. intros H1. right. exact H1.
Qed.

Lemma worker_step_inv order ctxErr (s s' : sys R) :
  (∀ l, order l ≡ₚ l) → worker_step fuel fm order ctxErr s = Some s' → system_inv s → system_inv s'.
Proof.
  intros Ho Hst Hi. unfold worker_step in Hst.
  destruct (s_worker s) as [|key|key fr|key fr|key fr fw|key fr id|key fw|key outcome|key| |] eqn:Hw; try done.
  - destruct (GetItem _) as [| |key q] eqn:Eg; simplify_eq/=; [|by apply worker_get_inv].
    assert (Hshut : shut (s_queue s)).
    { unfold GetItem in Eg. destruct (Typed.queue _); [|done]. unfold shut. by destruct (Typed.shuttingDown _). }
    destruct Hi as [(Hwf & Hp & _) _]. rewrite Hw in Hp. split; [|by left; left]. split_and!; [done|auto|done].
  - destruct (createReconciledFirewallRequest order fm (s_services s)) as [fr|e| |] eqn:E;
      simplify_eq/=; apply worker_local_inv; rewrite ?Hw; try done.
    intros _. simpl. by exists order.
  - simplify_eq/=. destruct (firewallCache.isSet (fw_cache (s_fw s))) eqn:Eset; [|by apply worker_local_inv; rewrite ?Hw].
    destruct (compared_holding key fr (firewallCache.firewall (fw_cache (s_fw s)))) as (Hh & Hs & Hc).
    apply worker_local_inv; rewrite ?Hw; try done. intros Hfr. apply compared_obligation; [done..|].
    apply (Equivalence_Reflexive (R := same_firewall)).
  - pose proof (get_firewall_cache (s_fw s)) as Hg.
    destruct (get_firewall fuel fm (s_fw s)) as [[fw|e| |] st]; simplify_eq/=;
      apply worker_local_inv; rewrite ?Hw; done.
  - simplify_eq/=. destruct (compared_holding key fr fw) as (Hh & Hs & Hc).
    apply worker_local_inv; rewrite ?Hw; try done. intros Hfr.
    apply compared_obligation; [done|apply updateCache_set|apply updateCache_equal].
  - pose proof (set_firewall_run id fr (s_fw s)) as Hrun.
    destruct (set_firewall id fr (s_fw s)) as [[fw|e| |] st]; simplify_eq/=;
      apply worker_local_inv; rewrite ?Hw; try done.
    intros Hfr. exists fr. split; [done|]. apply Hrun.
  - simplify_eq/=. apply worker_local_inv; rewrite ?Hw; try done. intros (fr & Hfr & Heq). left.
    split; [apply updateCache_set|]. exists fr. split; [done|].
    eapply firewallRequestEqual_trans; [apply updateCache_equal|done].
  - simplify_eq/=. by apply (worker_end_inv key).
  - simplify_eq/=. by apply worker_release_inv.
Qed.

(** Steps of others leave the worker where it is. *)
Lemma other_step_inv (s s' : sys R) :
  s'.(s_worker) = s.(s_worker) → keeps_items s.(s_queue) s'.(s_queue) →
  (shut s.(s_queue) → shut s'.(s_queue)) → (alive s → alive s') →
  system_inv s → system_inv s'.
Proof.
  intros Hw Hk Hs Ha [Hq Hal]. split; [|auto]. revert Hq.
  apply queue_inv_step; [done|done|by rewrite Hw|by rewrite Hw].
Qed.

(** A queue operation that adds an item puts a notification on its way. *)
Lemma queue_add_notified (s : sys R) : notified (queue_step (QAdd queueKey) s).
Proof.
  unfold notified. simpl. destruct (Add_queued queueKey (s_queue s)) as [Hs|Hq]; [left|right; right]; [|done].
  by apply (Add_remembers queueKey).
Qed.

(** The sync may replace the cached firewall by what it fetched: it then asks
    for a reconciliation. *)
Lemma sync_obligation services c c' y y' w :
  c' = c ∧ y ≠ SCached ∨ y' = SCached →
  obligation services c y w → obligation services c' y' w.
Proof.
  unfold obligation, resting. destruct w as [| | | | | | |key [b|e]|key| |]; try done; intros [[-> Hy]| ->]; tauto.
Qed.

Lemma sync_step_inv ctxErr (s s' : sys R) :
  sync_step fuel fm ctxErr s = Some s' → system_inv s → system_inv s'.
Proof.
  unfold sync_step. intros Hst. destruct (s_sync s) as [|fw| |] eqn:Hy; simplify_eq/=.
  - pose proof (get_firewall_cache (s_fw s)) as Hg.
    destruct (get_firewall fuel fm (s_fw s)) as [[fw|e| |] st]; simplify_eq/=;
      (apply other_step_inv; [done|by apply keeps_same|done|]; apply alive_step; simpl;
        [apply same_queue_remembers|done|]; intros H1; right; simpl; rewrite Hg; revert H1;
        apply sync_obligation; left; by rewrite Hy).
  - apply other_step_inv; [done|by apply keeps_same|done|]. apply alive_step; simpl;
      [apply same_queue_remembers|done|]. intros H1. right. simpl. revert H1. apply sync_obligation. by right.
  - apply other_step_inv; [done|by eapply keeps_Add| |].
    + apply (Add_remembers queueKey).
    + intros _. left. apply (queue_add_notified s).
Qed.

Lemma handler_step_inv (s s' : sys R) : handler_step s = Some s' → system_inv s → system_inv s'.
Proof.
  unfold handler_step. destruct (s_events s) as [|n]; [done|]. intros Hst. simplify_eq/=.
  apply other_step_inv; [done|by eapply keeps_Add|apply (Add_remembers queueKey)|].
  intros _. left. destruct (queue_add_notified s) as [Hs|[He|Hq]]; [by left| |by right; right].
  simpl in *. destruct (Add_queued queueKey (s_queue s)) as [Hs|Hq]; [left|right; right; done].
  by apply (Add_remembers queueKey).
Qed.

Lemma internal_inv (s s' : sys R) : internal fuel fm s s' → system_inv s → system_inv s'.
Proof.
  intros [order ctxErr p p' Ho Hst|ctxErr p p' _ Hst|p p' Hst|p Hne|item t p Ht Hle].
  - by eapply worker_step_inv.
  - by eapply sync_step_inv.
  - by apply handler_step_inv.
  - destruct (receive_remembers (s_queue p)) as [Hr _].
    apply other_step_inv; [done|apply receive_keeps|apply Hr|]. apply alive_step; [done..|]. by right.
  - pose proof (add_ready_remembers item (s_queue p)) as Hr.
    apply other_step_inv; [done|apply add_ready_keeps|apply Hr|]. apply alive_step; [done..|]. by right.
Qed.

Lemma external_inv (s s' : sys R) : external fuel fm s s' → system_inv s → system_inv s'.
Proof.
  intros [duration p Hd|services p|ctxErr p p' _ Hst|key e p Hw|r p|p].
  - apply other_step_inv; [done|by apply keeps_same|done|]. apply alive_step;
      [split; [done|by intros Hq; left]|done|]. by right.
  - apply other_step_inv; [done|by apply keeps_same|done|]. intros _. left. right. left. simpl. lia.
  - by eapply sync_step_inv.
  - apply worker_local_inv; by rewrite ?Hw.
  - apply other_step_inv; [done|by apply keeps_same|done|]. apply alive_step; [by split; auto|done|]. by right.
  - apply other_step_inv; [done| |done|].
    + intros Hwf. split; [by apply ShutDown_wf|done].
    + intros _. left. by left.
Qed.

Lemma initial_inv r now services : system_inv (initial (R := R) r now services).
Proof.
  split; [split_and!; simpl; [apply new_wf|done|done]|]. destruct services as [|svc services].
  - right. right. right. done.
  - left. right. left. simpl. lia.
Qed.

(** The controller does not change the Services. *)
Lemma internal_services (s s' : sys R) : internal fuel fm s s' → s'.(s_services) = s.(s_services).
Proof.
  intros [order ctxErr p p' _ Hst|ctxErr p p' _ Hst|p p' Hst|p _|item t p _ _]; [| | |done..].
  - unfold worker_step in Hst. repeat case_match; by simplify_eq/=.
  - unfold sync_step in Hst. repeat case_match; by simplify_eq/=.
  - unfold handler_step in Hst. repeat case_match; by simplify_eq/=.
Qed.

Definition reachable (s : sys R) : Prop :=
  ∃ r now services, rtc (step fuel fm) (initial r now services) s.

Lemma reachable_inv s : reachable s → system_inv s.
Proof.
  intros (r & now & services & Hr). pose proof (initial_inv r now services) as Hi.
  induction Hr as [|s1 s2 s3 [Hs|Hs] _ IH]; [done|apply IH; by eapply internal_inv|].
  apply IH. by eapply external_inv.
Qed.
End Invariant.

(* ------------------------------------------------------------------ *)
(** ** Progress *)

Section Progress.
Context {R : Type} `{!GodoPaging, !GodoFirewalls R, !FirewallLaws R}.
Variable fuel : nat.
Variable fm : firewallManager.t.

(** The API answers. *)
Definition api_up : Prop :=
  (∀ st : fwst R, ∃ fw st', get_firewall fuel fm st = (Ok fw, st'))
  ∧ (∀ id fr (st : fwst R), ∃ fw st', set_firewall id fr st = (Ok fw, st')).

(** The controller runs, and the Services have a firewall request. *)
Definition operational (s : sys R) : Prop :=
  s.(s_queue).(Delaying.typed).(Typed.shuttingDown) = false ∧ s.(s_worker) ≠ WCrashed ∧ s.(s_sync) ≠ SCrashed
  ∧ ∃ fr, request_for fm s.(s_services) fr.

Definition worker_rank (w : worker) : nat :=
  match w with
  | WStopped | WCrashed => 0
  | WIdle => 1
  | WRelease _ => 2
  | WEnd _ (inl _) => 3
  | WApplied _ _ => 4
  | WSetting _ _ _ => 5
  | WFetched _ _ _ => 6
  | WMissed _ _ => 7
  | WRead _ _ => 8
  | WGot _ => 9
  | WEnd _ (inr _) => 40
  end.

Definition sync_rank (y : syncer) : nat :=
  match y with SFetched _ => 12 | SCached => 11 | _ => 0 end.

Definition queue_rank (d : Delaying.t) : nat :=
  10 * size d.(Delaying.typed).(Typed.dirty) + 20 * size d.(Delaying.waiting) + 30 * length d.(Delaying.channel).

(** The internal steps that are left, at most. *)
Definition work_left (s : sys R) : nat :=
  worker_rank s.(s_worker) + sync_rank s.(s_sync) + 20 * s.(s_events) + queue_rank s.(s_queue).

Lemma Add_size item q : (size (Add item q).(Typed.dirty) ≤ S (size q.(Typed.dirty)))%nat.
Proof.
  destruct q as [queue dirty processing []]; simpl; [lia|]. case_bool_decide; simpl; [lia|].
  assert (size ({[item]} ∪ dirty) ≤ S (size dirty))%nat.
  { rewrite size_union_alt, size_singleton. pose proof (subseteq_size (dirty ∖ {[item]}) dirty). set_solver by lia. }
  by case_bool_decide.
Qed.

Lemma insert_waiting_size w item t : (size (insert_waiting w item t) ≤ S (size w))%nat.
Proof.
  unfold insert_waiting. destruct (w !! item) eqn:E.
  - case_match; [|lia]. rewrite map_size_insert, E. simpl. lia.
  - rewrite map_size_insert, E. simpl. lia.
Qed.

Lemma Add_rank item d : (queue_rank (Delaying.set_typed (Add item d.(Delaying.typed)) d) ≤ 10 + queue_rank d)%nat.
Proof. unfold queue_rank. simpl. pose proof (Add_size item (Delaying.typed d)). lia. Qed.

Lemma AddRateLimited_rank key d : (queue_rank (AddRateLimited key d) ≤ 30 + queue_rank d)%nat.
Proof.
  unfold AddRateLimited. destruct (When key (Delaying.failures d)) as [delay f]. unfold AddAfter.
  case_match; [unfold queue_rank; simpl; lia|]. case_match.
  - pose proof (Add_rank key (Delaying.set_failures f d)). unfold queue_rank in *. simpl in *. lia.
  - unfold queue_rank. simpl. rewrite length_app. simpl. lia.
Qed.

Lemma receive_rank d : d.(Delaying.channel) ≠ [] → (queue_rank (receive d) < queue_rank d)%nat.
Proof.
  unfold receive, queue_rank. destruct (Delaying.channel d) as [|[item t] ch]; [done|]. intros _.
  case_match; simpl.
  - pose proof (insert_waiting_size (Delaying.waiting d) item t). lia.
  - pose proof (Add_size item (Delaying.typed d)). lia.
Qed.

Lemma add_ready_rank item t d :
  d.(Delaying.waiting) !! item = Some t → t ≤ d.(Delaying.clock) → (queue_rank (add_ready item d) < queue_rank d)%nat.
Proof.
  unfold add_ready, queue_rank. intros Ht Hle. rewrite Ht. destruct (_ <? t) eqn:E; [lia|]. simpl.
  pose proof (Add_size item (Delaying.typed d)). rewrite map_size_delete, Ht. simpl.
  assert (size (Delaying.waiting d) ≠ 0%nat) by (rewrite map_size_ne_0_lookup; by eexists _, _). lia.
Qed.

Lemma get_rank key q d :
  queue_wf d.(Delaying.typed) → GetItem d.(Delaying.typed) = Item key q →
  (queue_rank (Delaying.set_typed q d) + 10 ≤ queue_rank d)%nat.
Proof.
  intros Hwf Hg. destruct (GetItem_wf _ _ _ Hwf Hg) as (_ & Hd & _). unfold GetItem in Hg.
  destruct (Typed.queue (Delaying.typed d)); [by destruct (Typed.shuttingDown _)|]. simplify_eq/=.
  unfold queue_rank. simpl. rewrite size_difference by set_solver. rewrite size_singleton.
  pose proof (size_non_empty_iff (Typed.dirty (Delaying.typed d))). 
  assert (size (Typed.dirty (Delaying.typed d)) ≠ 0%nat) by set_solver. lia.
Qed.

Lemma request_any_order order services fr :
  request_for fm services fr → ∃ fr', createReconciledFirewallRequest order fm services = Ok fr'.
Proof. intros (order' & _ & Hc). by eapply createReconciled_any_order. Qed.

Lemma compared_rank key fr fw : (3 ≤ worker_rank (compared key fr fw) ≤ 5)%nat.
Proof. unfold compared. case_match; simpl; lia. Qed.

(** The queue operations do not shut the queue down. *)
Lemma run_queue_op_open op d :
  d.(Delaying.typed).(Typed.shuttingDown) = false →
  (run_queue_op op d).(Delaying.typed).(Typed.shuttingDown) = false.
Proof.
  assert (Hadd : ∀ k q, Typed.shuttingDown q = false → Typed.shuttingDown (Add k q) = false).
  { intros k q. by destruct (Add_rest k q) as (_ & -> & _). }
  intros Hs. destruct op; simpl; [auto| |done|].
  - unfold AddRateLimited. destruct (When key (Delaying.failures d)). unfold AddAfter. simpl. rewrite Hs.
    case_match; simpl; auto.
  - unfold Done. by case_bool_decide.
Qed.

(** A step of the worker, when nothing fails. *)
Lemma worker_step_progress order ctxErr (s s' : sys R) :
  api_up → queue_inv s → operational s → worker_step fuel fm order ctxErr s = Some s' →
  operational s' ∧ (work_left s' < work_left s)%nat.
Proof.
  intros [Hget Hset] (Hwf & _) (Hs & Hc & Hy & fr0 & Hfr) Hst.
  assert (Hop : ∀ st w q, w ≠ WCrashed → Typed.shuttingDown (Delaying.typed q) = false →
    operational (Sys st q (s_services s) (s_events s) w (s_sync s))).
  { intros st w q Hw Hq. split_and!; [done..|]. by exists fr0. }
  unfold worker_step in Hst. unfold work_left.
  destruct (s_worker s) as [|key|key fr|key fr|key fr fw|key fr id|key fw|key outcome|key| |] eqn:Hw; try done.
  - destruct (GetItem _) as [| |key q] eqn:Eg; simplify_eq/=.
    + unfold GetItem in Eg. rewrite Hs in Eg. by destruct (Typed.queue _).
    + pose proof (get_rank key q (s_queue s) Hwf Eg). split; [|simpl; lia]. apply Hop; [done|].
      unfold GetItem in Eg. destruct (Typed.queue _); [by destruct (Typed.shuttingDown _)|]. by simplify_eq/=.
  - destruct (request_any_order order _ _ Hfr) as [fr' Hc']. rewrite Hc' in Hst. simplify_eq/=.
    split; [by apply Hop|lia].
  - simplify_eq/=. destruct (firewallCache.isSet _); simpl; [|split; [by apply Hop|lia]].
    pose proof (compared_rank key fr (firewallCache.firewall (fw_cache (s_fw s)))).
    split; [apply Hop; [apply compared_holding|done]|lia].
  - destruct (Hget (s_fw s)) as (fw & st & E). rewrite E in Hst. simplify_eq/=. split; [by apply Hop|lia].
  - simplify_eq/=. pose proof (compared_rank key fr fw).
    split; [apply Hop; [apply compared_holding|done]|lia].
  - destruct (Hset id fr (s_fw s)) as (fw & st & E). rewrite E in Hst. simplify_eq/=. split; [by apply Hop|lia].
  - simplify_eq/=. split; [by apply Hop|lia].
  - simplify_eq/=. split; [apply Hop; [done|by apply run_queue_op_open]|]. destruct outcome; simpl.
    + unfold queue_rank. simpl. lia.
    + pose proof (AddRateLimited_rank key (s_queue s)). lia.
  - simplify_eq/=. split; [apply Hop; [done|by apply (run_queue_op_open (QDone key))]|].
    unfold queue_rank, Done. simpl. case_bool_decide; simpl; lia.
Qed.

Lemma internal_progress (s s' : sys R) :
  api_up → queue_inv s → operational s → internal fuel fm s s' →
  operational s' ∧ (work_left s' < work_left s)%nat.
Proof.
  intros Hup Hq Hop Hst. destruct Hst as [order ctxErr p p' _ Hst|ctxErr p p' Hne Hst|p p' Hst|p Hne|item t p Ht Hle].
  - by eapply worker_step_progress.
  - destruct Hop as (Hs & Hc & Hy & Hfr). unfold sync_step in Hst. unfold work_left, operational.
    destruct (s_sync p) eqn:Ey; simplify_eq/=; [split; [by split_and!|lia]|].
    split; [split_and!; [by apply (run_queue_op_open (QAdd queueKey))|done..]|].
    pose proof (Add_rank queueKey (s_queue p)). lia.
  - destruct Hop as (Hs & Hc & Hy & Hfr). unfold handler_step in Hst. unfold work_left, operational.
    destruct (s_events p); [done|]. simplify_eq/=.
    split; [split_and!; [by apply (run_queue_op_open (QAdd queueKey))|done..]|].
    pose proof (Add_rank queueKey (s_queue p)). lia.
  - destruct Hop as (Hs & Hc & Hy & Hfr). pose proof (receive_rank _ Hne). unfold work_left, operational. simpl.
    split; [split_and!; [|done..]|lia]. unfold receive.
    destruct (Delaying.channel _) as [|[item t] ch]; [done|]. case_match; [done|]. simpl.
    by destruct (Add_rest item (Delaying.typed (s_queue p))) as (_ & -> & _).
  - destruct Hop as (Hs & Hc & Hy & Hfr). pose proof (add_ready_rank _ _ _ Ht Hle). unfold work_left, operational. simpl.
    split; [split_and!; [|done..]|lia]. unfold add_ready. rewrite Ht. case_match; [done|]. simpl.
    by destruct (Add_rest item (Delaying.typed (s_queue p))) as (_ & -> & _).
Qed.
End Progress.

(* ------------------------------------------------------------------ *)
(** ** Quiescence *)

Section Quiescence.
Context {R : Type} `{!GodoPaging, !GodoFirewalls R, !FirewallLaws R}.
Variable fuel : nat.
Variable fm : firewallManager.t.

(** Every activity waits for something to happen. *)
Definition quiescent (s : sys R) : Prop :=
  s.(s_events) = 0%nat ∧ s.(s_queue).(Delaying.channel) = [] ∧ s.(s_queue).(Delaying.waiting) = ∅
  ∧ GetItem s.(s_queue).(Delaying.typed) = Waits ∧ s.(s_worker) = WIdle ∧ s.(s_sync) = SIdle.

(** The cache holds what the Services call for; or there never was a Service nor
    a sync. *)
Definition up_to_date (s : sys R) : Prop :=
  settled fm s.(s_services) (fw_cache s.(s_fw))
  ∨ ((fw_cache s.(s_fw)).(firewallCache.isSet) = false ∧ s.(s_services) = []).

Lemma quiescent_up_to_date s : system_inv fm s → quiescent s → up_to_date s.
Proof.
  intros [(Hwf & Hp & _) Ha] (He & Hch & Hwt & Hg & Hw & Hy).
  assert (Hd : Typed.dirty (Delaying.typed (s_queue s)) ⊆ ∅).
  { assert (Hpe : Typed.processing (Delaying.typed (s_queue s)) = ∅) by (rewrite Hw in Hp; by apply Hp).
    rewrite <- Hpe. apply GetItem_none; [done|]. congruence. }
  destruct Ha as [[Hs|[Hev|[Hq|[Hq|Hq]]]]|Ho].
  - unfold shut in Hs. unfold GetItem in Hg. rewrite Hs in Hg. by destruct (Typed.queue _).
  - lia.
  - set_solver.
  - done.
  - done.
  - rewrite Hw, Hy in Ho. destruct Ho as [Ho|[Ho|Ho]]; [by left|done|by right].
Qed.

(** The state after [duration]. *)
Definition after (duration : Z) (s : sys R) : sys R :=
  Sys s.(s_fw) (time_passes duration s.(s_queue)) s.(s_services) s.(s_events) s.(s_worker) s.(s_sync).

(** A worker without a next step waits for the queue. *)
Lemma worker_waits (s : sys R) :
  api_up (R := R) fuel fm → queue_inv s → operational fm s → worker_step fuel fm id false s = None →
  GetItem s.(s_queue).(Delaying.typed) = Waits ∧ s.(s_worker) = WIdle.
Proof.
  intros [Hget Hset] (_ & _ & Hstop) (Hs & Hc & Hy & fr0 & Hfr) Hworker. unfold worker_step in Hworker.
  destruct (s_worker s) eqn:Ew; try done.
  - by destruct (GetItem _).
  - destruct (request_any_order fm id _ _ Hfr) as [fr' E]. by rewrite E in Hworker.
  - destruct (Hget (s_fw s)) as (? & ? & E). by rewrite E in Hworker.
  - destruct (Hset fwID fr (s_fw s)) as (? & ? & E). by rewrite E in Hworker.
  - specialize (Hstop eq_refl). unfold shut in Hstop. congruence.
Qed.

(** Only a quiescent controller has nothing to do, however long one waits. *)
Lemma stuck_quiescent (s : sys R) :
  api_up (R := R) fuel fm → queue_inv s → operational fm s →
  (∀ duration s', 0 ≤ duration → ¬ internal fuel fm (after duration s) s') → quiescent s.
Proof.
  intros Hup Hq Hop Hstuck.
  assert (Hstuck0 : ∀ s', ¬ internal fuel fm s s').
  { intros s' Hst. specialize (Hstuck 0 s' ltac:(lia)). apply Hstuck. unfold after, time_passes.
    rewrite Z.add_0_r. by destruct s as [? [] ????]. }
  destruct (worker_waits s Hup Hq Hop) as [Hg Hw].
  { destruct (worker_step fuel fm id false s) as [s'|] eqn:E; [|done].
    destruct (Hstuck0 s'). by eapply (i_worker _ _ id). }
  split_and!; [| | |done|done|].
  - destruct (s_events s) eqn:E; [done|]. edestruct Hstuck0. apply i_handler. unfold handler_step. by rewrite E.
  - destruct (Delaying.channel (s_queue s)) eqn:E; [done|]. edestruct Hstuck0. apply i_receive. by rewrite E.
  - destruct (decide (Delaying.waiting (s_queue s) = ∅)) as [|Hne]; [done|].
    apply map_choose in Hne as (item & t & Ht).
    edestruct (Hstuck (Z.max 0 (t - Delaying.clock (s_queue s)))); [lia|]. eapply i_ready; [done|]. simpl. lia.
  - destruct Hop as (_ & _ & Hy & _).
    destruct (s_sync s) eqn:Ey; try done; edestruct Hstuck0; eapply (i_sync_goes_on _ _ false);
      rewrite ?Ey; try done; unfold sync_step; by rewrite Ey.
Qed.
End Quiescence.

(* ------------------------------------------------------------------ *)
(** ** Steps and whole calls *)

Section BigSteps.
Context {R : Type} `{!GodoPaging, !GodoFirewalls R}.
Variable fuel : nat.
Variable fm : firewallManager.t.

Definition worker_moves order ctxErr (s s' : sys R) : Prop := worker_step fuel fm order ctxErr s = Some s'.
Definition sync_moves ctxErr (s s' : sys R) : Prop := sync_step fuel fm ctxErr s = Some s'.

(** The queue after the operations that were logged. *)
Definition replay (ops : list queue_op) (d : Delaying.t) : Delaying.t := foldl (λ d op, run_queue_op op d) d ops.

(** The state when the item is done, from the state of the reconciliation. *)
Definition item_done (key : string) (ctxErr : bool) (outcome : bool + error) (st : fwst R) (s : sys R) : sys R :=
  let op := match outcome with inl _ => QForget key | inr _ => QAddRateLimited key end in
  Sys (enqueue (QDone key) (enqueue op (observe (reconcile_metric ctxErr outcome) st)))
      (replay [op; QDone key] s.(s_queue)) s.(s_services) s.(s_events) WIdle s.(s_sync).

(** What the worker did before does not matter. *)
Lemma with_fw_twice (st st' : fwst R) w w' (s : sys R) : with_fw st w (with_fw st' w' s) = with_fw st w s.
Proof. done. Qed.

Lemma end_moves order ctxErr key outcome (st : fwst R) (s : sys R) :
  rtc (worker_moves order ctxErr) (with_fw st (WEnd key outcome) s) (item_done key ctxErr outcome st s).
Proof.
  eapply rtc_l; [unfold worker_moves; simpl; reflexivity|].
  eapply rtc_l; [unfold worker_moves; simpl; reflexivity|]. by destruct outcome.
Qed.

(** From [s0] the worker's steps end the item with the outcome of [run]. *)
Definition leads order ctxErr key (s s0 : sys R) (run : result bool * fwst R) : Prop :=
  match run with
  | (Ok skipped, st) => rtc (worker_moves order ctxErr) s0 (item_done key ctxErr (inl skipped) st s)
  | (Err e, st) => rtc (worker_moves order ctxErr) s0 (item_done key ctxErr (inr e) st s)
  | _ => True
  end.

Lemma leads_step order ctxErr key (s s0 s1 : sys R) run :
  worker_moves order ctxErr s0 s1 → leads order ctxErr key s s1 run → leads order ctxErr key s s0 run.
Proof. intros Hm. destruct run as [[] ]; simpl; try done; by eapply rtc_l. Qed.

(** [ensureReconciledFirewall] from the comparison on. *)
Definition compare_rest (fr : FirewallRequest.t) (fw : option Firewall.t) : M (fwst R) bool :=
  if firewallRequestEqual fw (Some fr) then mret true
  else
    let fwID := match fw with None => "" | Some fw => fw.(Firewall.ID) end in
    on_err (λ e, Errorf "failed to set firewall: %v" [AErr e]) (Set_ fwID fr);; mret false.

Lemma compared_moves order ctxErr key fr fw (st : fwst R) (s : sys R) :
  leads order ctxErr key s (with_fw st (compared key fr fw) s) (compare_rest fr fw st).
Proof.
  unfold compared, compare_rest. destruct (firewallRequestEqual fw (Some fr)); [apply end_moves|]. cbv zeta.
  set (fwID := match fw with None => "" | Some fw => Firewall.ID fw end).
  unfold on_err, mbind, M_bind, Set_. destruct (set_firewall fwID fr st) as [[fw'|e| |] st'] eqn:E; simpl; try done.
  - eapply rtc_l; [unfold worker_moves, worker_step; simpl; rewrite E; reflexivity|].
    eapply rtc_l; [unfold worker_moves; simpl; reflexivity|]. rewrite !with_fw_twice. simpl. apply end_moves.
  - eapply rtc_l; [unfold worker_moves, worker_step; simpl; rewrite E; reflexivity|].
    rewrite with_fw_twice. apply end_moves.
Qed.

Lemma reconcile_moves order ctxErr key (s : sys R) :
  s.(s_worker) = WGot key →
  leads order ctxErr key s s (ensureReconciledFirewall fuel order fm (inl s.(s_services)) s.(s_fw)).
Proof.
  intros Hw. unfold ensureReconciledFirewall. simpl. unfold on_err at 1, pure at 1, mbind, M_bind. simpl.
  destruct (createReconciledFirewallRequest order fm (s_services s)) as [fr|e| |] eqn:Ec; simpl; try done.
  2:{ eapply rtc_l; [unfold worker_moves, worker_step; rewrite Hw, Ec; reflexivity|]. apply end_moves. }
  apply (leads_step _ _ _ _ _ (with_worker (WRead key fr) s)).
  { unfold worker_moves, worker_step. by rewrite Hw, Ec. }
  unfold GetPreferFromCache, getCachedFirewall, on_err at 1.
  destruct (firewallCache.isSet (fw_cache (s_fw s))) eqn:Eset; simpl.
  - eapply leads_step; [unfold worker_moves, worker_step; simpl; rewrite Eset; reflexivity|].
    exact (compared_moves _ _ _ _ _ _ s).
  - eapply leads_step; [unfold worker_moves, worker_step; simpl; rewrite Eset; reflexivity|].
    unfold Get. destruct (get_firewall fuel fm (s_fw s)) as [[fw|e| |] st] eqn:Eg; simpl; try done.
    + eapply leads_step; [unfold worker_moves, worker_step; simpl; rewrite Eg; reflexivity|].
      eapply leads_step; [unfold worker_moves; simpl; reflexivity|]. exact (compared_moves _ _ _ _ _ _ s).
    + eapply rtc_l; [unfold worker_moves, worker_step; simpl; rewrite Eg; reflexivity|].
      apply (end_moves _ _ _ _ _ s).
Qed.
End BigSteps.

(* ================================================================== *)
(** * Properties *)

Section Properties.
Context {R : Type} `{!GodoPaging, !GodoFirewalls R}.
Variable fuel : nat.
Variable fm : firewallManager.t.

(** C9. No change is lost: whatever the interleaving of event handlers, worker,
    sync, queue, clock and others who change the Services or the remote side,
    and whatever fails, once everything has come to rest the cached firewall is
    the one that the current Services call for (unless there never was a
    Service nor a sync).  Until then the queue holds each pending item once and
    the worker's item, and only that, is being processed. *)
Theorem no_change_lost `{!FirewallLaws R} s :
  reachable (R := R) fuel fm s →
  queue_wf s.(s_queue).(Delaying.typed)
  ∧ (s.(s_worker) ≠ WCrashed → s.(s_queue).(Delaying.typed).(Typed.processing) = holding s.(s_worker))
  ∧ (quiescent s → up_to_date fm s).
Proof.
  intros Hr. apply reachable_inv in Hr as Hi; [|done..]. destruct Hi as [(Hwf & Hp & Hst) Ha].
  split_and!; [done..|]. apply quiescent_up_to_date. split; [|done]. by split_and!.
Qed.

(** C10. Changes settle: while the API answers, every call of [Get] and [Set]
    succeeding, a controller that runs (its queue not shut down, nothing crashed)
    and whose Services yield a firewall request (no malformed type or network
    annotation) comes to rest after a bounded number of its
    own steps, in whatever order they are taken, and where it has nothing more
    to do, however long one waits, the cached firewall is the one that the
    Services call for. *)
Theorem changes_settle `{!FirewallLaws R} s :
  reachable (R := R) fuel fm s → operational fm s → api_up (R := R) fuel fm →
  ∀ n s', nsteps (internal fuel fm) n s s' →
    (n ≤ work_left s)%nat
    ∧ s'.(s_services) = s.(s_services)
    ∧ ((∀ duration s'', 0 ≤ duration → ¬ internal fuel fm (after duration s') s'') →
       quiescent s' ∧ up_to_date fm s').
Proof.
  intros Hr Hop Hup. apply reachable_inv in Hr; [|done..]. revert Hr Hop.
  assert (Hmain : ∀ n s', nsteps (internal fuel fm) n s s' → system_inv fm s → operational fm s →
    system_inv fm s' ∧ operational fm s' ∧ (n + work_left s' ≤ work_left s)%nat ∧ s_services s' = s_services s).
  { intros n s' Hn. induction Hn as [s1|n s1 s2 s3 Hs _ IH]; intros Hi Hop; [split_and!; [done..|lia|done]|].
    destruct (internal_progress fuel fm s1 s2 Hup (proj1 Hi) Hop Hs) as [Hop2 Hlt].
    destruct (IH (internal_inv fuel fm _ _ Hs Hi) Hop2) as (Hi3 & Hop3 & Hle & Hsv).
    split_and!; [done|done|lia|]. rewrite Hsv. by eapply internal_services. }
  intros Hi Hop n s' Hn. destruct (Hmain n s' Hn Hi Hop) as (Hi' & Hop' & Hle & Hsv).
  split_and!; [lia|done|]. intros Hstuck.
  assert (Hq : quiescent s') by (eapply stuck_quiescent; [done|apply Hi'|done|done]).
  split; [done|]. by apply quiescent_up_to_date.
Qed.

(** The steps of the worker are [processNextItem], and those of the sync are
    [syncResource]: without interference they end in the state that the whole
    call computes, with the logged operations done on the queue. *)
Theorem steps_refine_calls order ctxErr key (s : sys R) :
  (s.(s_worker) = WGot key →
   match processNextItem fuel order ctxErr fm (inl s.(s_services)) key false s.(s_fw) with
   | (Ok _, st) => ∃ ops, fw_queue st = fw_queue s.(s_fw) ++ ops
       ∧ rtc (worker_moves fuel fm order ctxErr) s
           (Sys st (replay ops s.(s_queue)) s.(s_services) s.(s_events) WIdle s.(s_sync))
   | _ => True
   end)
  ∧ (s.(s_sync) = SIdle →
     match syncResource fuel ctxErr fm s.(s_fw) with
     | (Ok _, st) | (Err _, st) => ∃ ops, fw_queue st = fw_queue s.(s_fw) ++ ops
         ∧ rtc (sync_moves fuel fm ctxErr) s
             (Sys st (replay ops s.(s_queue)) s.(s_services) s.(s_events) s.(s_worker) SIdle)
     | _ => True
     end).
Proof.
  split.
  - intros Hw. pose proof (reconcile_moves fuel fm order ctxErr key s Hw) as Hm.
    pose proof (ensureReconciled_queue fuel order fm (inl (s_services s)) (s_fw s)) as Hq.
    unfold processNextItem, ensureReconciledFirewallInstrumented.
    destruct (ensureReconciledFirewall fuel order fm (inl (s_services s)) (s_fw s)) as [[skipped|e| |] st];
      simpl in *; try done;
      (eexists; split; [by rewrite Hq, <- app_assoc|]; exact Hm).
  - intros Hy. pose proof (same_local_get_firewall fuel fm (s_fw s)) as Hl. unfold same_local, same in Hl.
    unfold syncResource, Get. destruct (get_firewall fuel fm (s_fw s)) as [[fw|e| |] st] eqn:Eg; simpl in *; try done.
    + exists [QAdd queueKey]. split; [simpl; congruence|].
      eapply rtc_l; [unfold sync_moves, sync_step; rewrite Hy, Eg; reflexivity|].
      eapply rtc_l; [unfold sync_moves; simpl; reflexivity|].
      eapply rtc_l; [unfold sync_moves; simpl; reflexivity|]. apply rtc_refl.
    + exists []. rewrite app_nil_r. split; [congruence|].
      eapply rtc_l; [unfold sync_moves, sync_step; rewrite Hy, Eg; reflexivity|]. apply rtc_refl.
Qed.
End Properties.
