(* ===== verification/Reach.v ===== *)
(** * Load balancers and the firewall together

    The load-balancer code decides where a REGIONAL_NETWORK EXTERNAL load
    balancer sends traffic and health checks; such a load balancer passes
    packets through, so that the nodes receive them at these ports.  The firewall
    controller decides, from the same Services, which ports of the nodes are
    open.  Here the two are composed: the one opens what the other uses. *)

From stdpp Require Import base gmap strings list.
From Stdlib Require Import ZArith Lia.
From S2P Require Import Prelude GoStd Types Annotations Nodes Api Rules Requests LoadBalancers Region Admission Resources FwRules FwController Metrics Cloud Agreement WorkQueue FwSystem.
#[local] Open Scope Z_scope.

(** The firewall has a rule that counts as [r]. *)
Definition has_rule (fw : Firewall.t) (r : FwRule.t) : Prop :=
  ∃ r', r' ∈ fw.(Firewall.InboundRules) ∧ same_rule r' r.

(** What a node must accept for a forwarding rule: the target port, from
    everywhere, since the source address passes through. *)
Definition traffic_rule (f : ForwardingRule.t) : FwRule.t :=
  FwRule.mk f.(ForwardingRule.TargetProtocol) (strconv.Itoa f.(ForwardingRule.TargetPort)) (Some everywhere) "".

(** What it must accept for a health check: the port, from the load balancer if
    the Service names it already. *)
Definition check_rule (s : Service.t) (hc : HealthCheck.t) : FwRule.t :=
  let id := getLoadBalancerID s in
  FwRule.mk "tcp" (strconv.Itoa hc.(HealthCheck.Port))
    (Some (if str_eqb id "" then everywhere else Endpoints.mk [] [] [] [id] [])) "".

(* ================================================================== *)
(** * Facts *)

(** What the two request fields of a network load balancer come from. *)
Section Fields.
Context {R : Type}.
Context `{!GodoPaging, !GodoLoadBalancers R, !GodoCertificates R, !GodoDroplets R, !Kube R, !IPNets}.

Lemma network_request_fields fuel l s nodes ids (n n' : net R) req pending :
  buildLoadBalancerRequest fuel l s nodes ids n = (Ok (req, pending), n') →
  req.(LoadBalancerRequest.Type_) = LoadBalancerTypeRegionalNetwork →
  getType s l.(loadBalancers.defaultLBType) = Ok LoadBalancerTypeRegionalNetwork
  ∧ getNetwork s = Ok req.(LoadBalancerRequest.Network)
  ∧ buildRegionalNetworkForwardingRule s.(Service.Ports) = Ok req.(LoadBalancerRequest.ForwardingRules)
  ∧ buildHealthCheck s = Ok req.(LoadBalancerRequest.HealthCheck).
Proof.
  intros (ns & base & n1 & Hb & ->)%buildLoadBalancerRequest_base. simpl. intros Hty.
  unfold buildLoadBalancerRequestWithNodeState in Hb. inv_ok.
  destruct (negb _ && _); inv_ok. simpl in *. subst.
  match goal with Hf : (if _ then _ else _) _ = _ |- _ => simpl in Hf end. inv_ok. by split_and!.
Qed.
End Fields.

(** A forwarding rule stems from a port, with the protocol the firewall uses. *)
Lemma network_rule_port ports rules f :
  buildRegionalNetworkForwardingRule ports = Ok rules → f ∈ rules →
  ∃ p, p ∈ ports ∧ fw_protocol p = Some f.(ForwardingRule.TargetProtocol)
       ∧ f.(ForwardingRule.TargetPort) = p.(ServicePort.Port).
Proof.
  rewrite regional_network_rules_eq. destruct (list_find _ ports) as [[]|] eqn:E; [done|].
  intros [= <-] (p & -> & Hp)%list_elem_of_fmap. exists p. split; [done|]. simpl. split; [|done].
  apply list_find_None in E. rewrite Forall_forall in E. specialize (E p Hp).
  unfold network_protocol, fw_protocol.
  destruct (str_eqb _ ProtocolTCP) eqn:E1; [done|]. destruct (str_eqb _ ProtocolUDP) eqn:E2; [done|].
  reflect_eqb. set_solver.
Qed.

(** The health check without override goes to the port the firewall opens. *)
Lemma default_check_port s hc :
  buildHealthCheck s = Ok hc → svc_get s annDOOverrideHealthCheck = None →
  hc.(HealthCheck.Port) = (healthCheckPathAndPort s).2.
Proof.
  unfold buildHealthCheck. intros Hb Ho. rewrite Ho in Hb.
  destruct (healthCheckPathAndPort s) as [path port]. inv_ok. done.
Qed.

(** What a Service opens for its load balancer. *)
Lemma opens_traffic fm s rules f :
  s.(Service.Type_) = ServiceTypeLoadBalancer →
  getType s fm.(firewallManager.defaultLBType) = Ok LoadBalancerTypeRegionalNetwork →
  getNetwork s = Ok LoadBalancerNetworkTypeExternal →
  buildRegionalNetworkForwardingRule s.(Service.Ports) = Ok rules → f ∈ rules →
  opens fm s (traffic_rule f).
Proof.
  intros Hlb Hty Hnet Hr Hf. destruct (network_rule_port _ _ _ Hr Hf) as (p & Hp & Hproto & Hport).
  right. split_and!; [done..|]. right. exists p, (ForwardingRule.TargetProtocol f). split_and!; [done..|].
  unfold traffic_rule. by rewrite Hport.
Qed.

Lemma opens_check fm s hc :
  s.(Service.Type_) = ServiceTypeLoadBalancer →
  getType s fm.(firewallManager.defaultLBType) = Ok LoadBalancerTypeRegionalNetwork →
  getNetwork s = Ok LoadBalancerNetworkTypeExternal →
  buildHealthCheck s = Ok hc → svc_get s annDOOverrideHealthCheck = None →
  opens fm s (check_rule s hc).
Proof.
  intros Hlb Hty Hnet Hb Ho. right. split_and!; [done..|]. left.
  unfold check_rule, port_rule, health_key, getLoadBalancerID. simpl.
  rewrite (default_check_port s hc) by done. by destruct (str_eqb (svc_val s annDOLoadBalancerID) "").
Qed.

(** A firewall that compares equal to the request has all its rules. *)
Lemma equal_has_rule fw fr r :
  firewallRequestEqual fw (Some fr) = true → r ∈ fr.(FirewallRequest.InboundRules) →
  ∃ fw', fw = Some fw' ∧ has_rule fw' r.
Proof.
  destruct fw as [fw'|]; [|done]. unfold firewallRequestEqual. simpl.
  rewrite !andb_true_iff, !rulesEqual_Forall2. intros [[[_ Hi] _] _] Hr. exists fw'. split; [done|].
  rewrite <- (sort_by_perm printInboundRule) in Hr.
  apply list_elem_of_lookup in Hr as [i Hi2]. simpl in Hi.
  destruct (Forall2_lookup_r _ _ _ _ _ Hi Hi2) as (r' & Hr' & He). exists r'. split; [|by apply same_rule_iff].
  rewrite <- (sort_by_perm printInboundRule). by eapply list_elem_of_lookup_2.
Qed.

(** Where the cache is settled, every rule a Service opens is there. *)
Lemma settled_opens fm services c s r :
  settled fm services c → s ∈ services → opens fm s r →
  ∃ fw, c.(firewallCache.firewall) = Some fw ∧ has_rule fw r.
Proof.
  intros (_ & fr & (order & Ho & Hfr) & Heq) Hs Hr. eapply equal_has_rule; [done|].
  eapply createReconciled_rules; [done..|]. by exists s.
Qed.

(** The two controllers of one cloud have the same default type. *)
Lemma managers_default_type {R} `{!GodoPaging, !GodoRegions R, !Metadata R, !Floats, !GodoClient}
    fuel Getenv version (n n' : net R) c fm :
  newCloud fuel Getenv version n = (Ok c, n') → fm ∈ managers (Initialize c) →
  fm.(firewallManager.defaultLBType) = c.(cloud.loadbalancers).(loadBalancers.defaultLBType).
Proof.
  intros (region & addr & -> & _)%newCloud_Ok. unfold managers, Initialize. simpl.
  destruct (str_eqb _ ""); simpl; rewrite ?elem_of_cons, ?elem_of_nil; naive_solver.
Qed.

(* ================================================================== *)
(** * Properties *)

(** C11. The firewall lets in what the load balancers forward: take the controllers
    of one cloud, any interleaving of the firewall controller after which it has
    come to rest, and a Service of type LoadBalancer for which the load-balancer
    controller builds a REGIONAL_NETWORK EXTERNAL request, whatever nodes and
    answers it has.  Then a firewall is cached and has, for every forwarding
    rule, a rule that opens its target port and protocol to everywhere, and, unless the
    health check is overridden, one that opens the health-check port to the load
    balancer, or to everywhere while the Service does not name it yet. *)
Theorem forwarded_traffic_admitted
    {R0} `{!GodoPaging, !GodoRegions R0, !Metadata R0, !Floats, !GodoClient}
    {R} `{!GodoLoadBalancers R, !GodoCertificates R, !GodoDroplets R, !Kube R, !IPNets}
    {R2} `{!GodoFirewalls R2, !FirewallLaws R2}
    fuel Getenv version (n0 n0' : net R0) c fm (sy : sys R2) s nodes ids (n n' : net R) req pending :
  newCloud fuel Getenv version n0 = (Ok c, n0') → fm ∈ managers (Initialize c) →
  reachable fuel fm sy → quiescent sy →
  s ∈ sy.(s_services) → s.(Service.Type_) = ServiceTypeLoadBalancer →
  buildLoadBalancerRequest fuel c.(cloud.loadbalancers) s nodes ids n = (Ok (req, pending), n') →
  req.(LoadBalancerRequest.Type_) = LoadBalancerTypeRegionalNetwork →
  req.(LoadBalancerRequest.Network) = LoadBalancerNetworkTypeExternal →
  ∃ fw, (fw_cache sy.(s_fw)).(firewallCache.firewall) = Some fw
    ∧ (∀ f, f ∈ req.(LoadBalancerRequest.ForwardingRules) → has_rule fw (traffic_rule f))
    ∧ (svc_get s annDOOverrideHealthCheck = None →
       has_rule fw (check_rule s req.(LoadBalancerRequest.HealthCheck))).
Proof.
  intros Hc Hfm Hr Hq Hs Hlb Hb Hty Hnet. pose proof (managers_default_type _ _ _ _ _ _ _ Hc Hfm) as Hd.
  destruct (network_request_fields _ _ _ _ _ _ _ _ _ Hb Hty) as (Gty & Gnet & Grules & Ghc).
  rewrite <- Hd in Gty. rewrite Hnet in Gnet.
  apply reachable_inv in Hr. apply (quiescent_up_to_date fm) in Hq; [|done].
  destruct Hq as [Hset|[_ Hno]]; [|rewrite Hno in Hs; by apply not_elem_of_nil in Hs].
  assert (Hall : ∀ r, opens fm s r → ∃ fw, firewallCache.firewall (fw_cache (s_fw sy)) = Some fw ∧ has_rule fw r).
  { intros r Hop. by eapply settled_opens. }
  destruct Hset as (_ & fr & _ & Heq).
  destruct (firewallCache.firewall (fw_cache (s_fw sy))) as [fw|]; [|done].
  exists fw. split_and!; [done| |].
  - intros f Hf. destruct (Hall (traffic_rule f)) as (fw' & [= <-] & ?); [|done]. by eapply opens_traffic.
  - intros Hov. destruct (Hall (check_rule s (LoadBalancerRequest.HealthCheck req))) as (fw' & [= <-] & ?); [|done].
    by apply opens_check.
Qed.
