(* ===== verification/Witnesses.v ===== *)
(** * Concrete runs

    The hypotheses of the properties hold on concrete inputs: each lemma here
    applies one property to a run of the code against the API in memory. *)

From S2P Require Import Prelude GoStd Types Annotations Nodes Api Rules Requests LoadBalancers LBFacts LBProps ApiLaws Memory LBSpec Termination.
From stdpp Require Import base gmap strings list.
From Stdlib Require Import ZArith Lia.
#[local] Open Scope Z_scope.

Definition lower : string → string := λ s, s.

Definition ctrl : loadBalancers.t :=
  loadBalancers.mk "nyc3" "5f4d" "vpc-1" LoadBalancerTypeRegionalNetwork.

(** A load balancer of somebody else, and one of the Service. *)
Definition other_lb : LoadBalancer.t :=
  LoadBalancer.mk "lb-other" "other" "203.0.113.77" "" LoadBalancerTypeRegional lbStatusActive [] [99].
Definition own_lb : LoadBalancer.t :=
  LoadBalancer.mk "lb-own" "a0a1b2c3d00001111222233334444555" "203.0.113.78" ""
    LoadBalancerTypeRegionalNetwork lbStatusActive [] [11].

Definition empty_cloud : Memory.t := Memory.mk {["lb-other" := other_lb]} [] ∅ 0.
Definition busy_cloud : Memory.t :=
  Memory.mk {["lb-other" := other_lb; "lb-own" := own_lb]} [] ∅ 0.

Definition start (r : Memory.t) (s : Service.t) : lbst Memory.t := LBState (Net r []) s.
Definition st_empty := start empty_cloud (ex_service []).
Definition st_busy := start busy_cloud (ex_service []).

Definition ensured_empty := EnsureLoadBalancer lower 10 ctrl [ex_dual; ex_v4] st_empty.
Definition ensured_busy := EnsureLoadBalancer lower 10 ctrl [ex_dual; ex_v4] st_busy.
Definition updated_busy := UpdateLoadBalancer 10 ctrl [ex_dual; ex_v4] st_busy.
Definition deleted_busy := EnsureLoadBalancerDeleted 10 st_busy.

(** A listing that fails is an error of the call, not a missing load balancer:
    nothing is created, nothing is taken for deleted. *)
Definition down_cloud : Memory.t := Memory.set_outages 1 busy_cloud.

Example failed_listing_creates_nothing :
  trace (lb_net (EnsureLoadBalancer lower 10 ctrl [ex_dual; ex_v4] (start down_cloud (ex_service []))).2) = [EvLBList 1]
  ∧ (EnsureLoadBalancerDeleted 10 (start down_cloud (ex_service []))).1
    = Err (ErrorResponse (Some 503) "request failed").
Proof. split; vm_compute; reflexivity. Qed.

(** A run whose outcome is [Ok a], as an equation. *)
Ltac run := vm_compute; reflexivity.

Lemma disowned_services_inert_witness :
  EnsureLoadBalancer lower 10 ctrl [ex_v4] (start busy_cloud (ex_service [(annDODisownLB, "true")]))
  = (Ok [], start busy_cloud (ex_service [(annDODisownLB, "true")])).
Proof.
  refine (proj1 (proj1 (disowned_services_inert lower 10 ctrl [ex_v4]
    (start busy_cloud (ex_service [(annDODisownLB, "true")]))) _)). run.
Defined.

Lemma lookup_decides_create_or_update_witness :
  let '(found, n1) := retrieveLoadBalancer 10 (lb_svc st_busy) (lb_net st_busy) in
  match found with
  | Ok (Some lb) => ∃ evs, trace (lb_net ensured_busy.2) = trace n1 ++ evs ∧ Forall update_event evs
  | _ => False
  end.
Proof.
  pose proof (lookup_decides_create_or_update lower 10 ctrl [ex_dual; ex_v4] st_busy []
    ltac:(run) ltac:(run)) as Hp.
  assert (Hf : (retrieveLoadBalancer 10 (lb_svc st_busy) (lb_net st_busy)).1 = Ok (Some own_lb)) by run.
  destruct (retrieveLoadBalancer 10 (lb_svc st_busy) (lb_net st_busy)) as [found n1].
  simpl in Hf. subst found. exact Hp.
Defined.

Lemma deferred_patch_witness :
  with_patcher (annotate annDOType "REGIONAL") st_busy
  = (Ok (), (with_patcher (annotate annDOType "REGIONAL") st_busy).2).
Proof.
  pose proof (deferred_patch (annotate annDOType "REGIONAL") st_busy) as Hp. simpl in Hp.
  destruct Hp as [_ Hp].
  rewrite Hp; [reflexivity | discriminate | discriminate].
Defined.

(** A node without an address, alone and beside one that is acceptable. *)
Definition addressless : Node.t := ex_node "n3" "digitalocean://13" [] true.
Definition found_busy := retrieveAndAnnotateLoadBalancer 10 st_busy.
Definition written_busy := updateLoadBalancer 10 ctrl own_lb [ex_v4; addressless] found_busy.2.


Lemma ensure_establishes_witness :
  ∃ id lb, established [ex_dual; ex_v4] st_empty ensured_empty.2 id lb
    ∧ lb.(LoadBalancer.Status) = lbStatusActive.
Proof.
  destruct (ensure_establishes 10 lower ctrl [ex_dual; ex_v4] st_empty
    [Ingress.mk "203.0.113.10" ""] ensured_empty.2) as (id & lb & He & Ha & _); [run| |..].
  - repeat constructor; discriminate.
  - vm_compute. lia.
  - run.
  - exists id, lb. split; assumption.
Defined.

Lemma foreign_load_balancers_kept_witness :
  v_lbs (lview ensured_busy.2) !! "lb-other" = Some other_lb.
Proof.
  refine (proj1 (foreign_load_balancers_kept 10 lower ctrl [ex_dual; ex_v4] st_busy "lb-other" other_lb
    _ _ _)).
  - vm_compute. lia.
  - run.
  - intros (lb & Hlb & Hc). assert (lb = other_lb) as ->.
    { vm_compute in Hlb. by injection Hlb as <-. }
    apply (bool_decide_eq_true_2 _) in Hc. vm_compute in Hc. discriminate Hc.
Defined.

Lemma update_establishes_witness :
  ∃ id lb, established [ex_dual; ex_v4] st_busy updated_busy.2 id lb.
Proof.
  destruct (update_establishes 10 ctrl [ex_dual; ex_v4] st_busy updated_busy.2)
    as (id & lb & He & _); [run| |..].
  - repeat constructor; discriminate.
  - vm_compute. lia.
  - run.
  - exists id, lb. exact He.
Defined.

Lemma delete_establishes_witness : lb_svc deleted_busy.2 = lb_svc st_busy.
Proof.
  refine (proj1 (delete_establishes 10 st_busy deleted_busy.2 _ _ _)); [run | vm_compute; lia | run].
Defined.

Lemma load_balancer_methods_terminate_witness :
  (EnsureLoadBalancer lower 2 ctrl [ex_dual] st_busy).1 ≠ NoFuel.
Proof.
  refine (proj1 (proj2 (load_balancer_methods_terminate lower 2 ctrl [ex_dual] st_busy _))).
  split; vm_compute; lia.
Defined.

Lemma allLoadBalancerList_complete_witness :
  allLoadBalancerList 2 (Net busy_cloud [])
  = (Ok (Memory.lb_list busy_cloud), Net busy_cloud [EvLBList 1; EvLBList 2]).
Proof.
  etransitivity; [apply (allLoadBalancerList_complete (Memory.pages (Memory.lb_list busy_cloud)))|].
  - by apply Memory_served.
  - vm_compute. discriminate.
  - vm_compute. lia.
  - run.
Defined.

(** ** Requests and their parts *)

Definition tls_service : Service.t :=
  ex_service [(annDOCertificateID, "cert-1"); (annDOTLSPorts, "80")].
Definition n_empty : net Memory.t := Net empty_cloud [].

Definition tls_rules := buildForwardingRules tls_service n_empty.
Definition tls_rule : ForwardingRule.t := ForwardingRule.mk "https" 80 "http" 30080 "cert-1" false.

Lemma forwarding_rules_per_port_witness :
  ∃ dflt http https http2 cert, annotated_protocol tls_service dflt
    ∧ Forall (λ p, speaks dflt http https http2 (cert ≠ "" ∨ getTLSPassThrough tls_service = true) p "https")
        tls_service.(Service.Ports).
Proof.
  destruct (forwarding_rules_per_port tls_service n_empty [tls_rule] tls_rules.2 ltac:(run))
    as (dflt & http & https & http2 & cert & st1 & prules & h3 & Hd & _ & _ & _ & _ & _ & Hr & HF & _).
  exists dflt, http, https, http2, cert. split; [exact Hd|].
  destruct prules as [|r [|r' rest]]; [| |by inversion HF as [|???? _ HF']; inversion HF'].
  - inversion HF.
  - injection Hr as <- _. inversion HF as [|p r ports rs (_ & _ & Hp) _ E1 E2]; subst.
    constructor; [exact Hp|constructor].
Defined.

Lemma forwarding_rules_tls_safe_witness : Forall (λ r, tls_ok r ∨ http3_ok tls_service r) [tls_rule].
Proof.
  apply (forwarding_rules_tls_safe tls_service n_empty [tls_rule] tls_rules.2). run.
Defined.

Definition hc_service : Service.t := ex_service [(annDOOverrideHealthCheck, ""); (annDOHealthCheckPort, "80")].

Lemma health_check_target_witness :
  ∃ p, p ∈ hc_service.(Service.Ports) ∧ p.(ServicePort.Protocol) ≠ ProtocolUDP
       ∧ 30080 = p.(ServicePort.NodePort).
Proof.
  exact (proj2 (health_check_target hc_service (HealthCheck.mk "tcp" 30080 "" 3 5 3 5 None) ltac:(run))).
Defined.

Definition ranges_service : Service.t :=
  Service.mk "web" "default" "uid" None None ServiceTypeLoadBalancer []
    ["10.0.0.0/8"; " 192.168.0.0/16"; "10.0.0.0/8"] "Cluster" 0 [].
Definition ranges_firewall : LBFirewall.t :=
  LBFirewall.mk ["cidr:192.168.0.0/16"; "cidr:10.0.0.0/8"] [].

Lemma firewall_allow_rules_witness : NoDup ranges_firewall.(LBFirewall.Allow).
Proof.
  refine (proj1 (proj2 (firewall_allow_rules ranges_service ranges_firewall _ _))).
  - intros l. symmetry. apply Permutation_rev.
  - run.
Defined.

Definition built := buildLoadBalancerRequest 10 ctrl (ex_service []) [ex_dual; ex_v4] ∅ n_empty.
Definition built_req : LoadBalancerRequest.t :=
  match built.1 with Ok (req, _) => req | _ => LoadBalancerRequest.set_IP "" (LoadBalancerRequest.mk
    "" "" "" "" 0 "" [] (HealthCheck.mk "" 0 "" 0 0 0 0 None) (StickySessions.mk "" "" 0) [] []
    false false false "" "" false false None (LBFirewall.mk [] []) "" "" "") end.

Lemma request_lists_backends_witness : built_req.(LoadBalancerRequest.DropletIDs) ≠ [].
Proof.
  refine (proj1 (proj2 (request_lists_backends 10 ctrl (ex_service []) [ex_dual; ex_v4] ∅ n_empty
    built_req [] built.2 _ _))); [run|]. repeat constructor; discriminate.
Defined.

Lemma request_settings_witness : valid_default built_req.(LoadBalancerRequest.Type_).
Proof.
  refine (proj1 (request_settings 10 ctrl (ex_service []) [ex_dual; ex_v4] ∅ n_empty
    built_req [] built.2 _)). run.
Defined.

Definition ex_private : Node.t :=
  ex_node "n4" "digitalocean://14" [NodeAddress.mk NodeInternalIP "10.0.0.4"] true.

Lemma no_eligible_backends_reported_witness :
  ∃ e n', buildLoadBalancerRequest 10 ctrl (ex_service []) [ex_private] ∅ n_empty = (Err e, n')
          ∧ errors_Is e ErrNoEligibleBackends = true.
Proof.
  destruct (no_eligible_backends_reported 10 ctrl (ex_service []) [ex_private] ∅ empty_cloud [])
    as (e & r' & He & His & _); [run|run| | |].
  - repeat constructor.
  - repeat constructor.
  - exists e. eexists. split; [exact He|exact His].
Defined.

Definition ex_booting : Node.t :=
  ex_node "n5" "digitalocean://15" [NodeAddress.mk NodeExternalIP "203.0.113.9"] false.

Lemma none_serving_retries_witness :
  ∃ e, buildLoadBalancerRequest 10 ctrl (ex_service []) [ex_booting] ∅ n_empty = (Err e, n_empty)
       ∧ errors_As_RetryError e = Some (15 * second).
Proof.
  apply (none_serving_retries 10 ctrl (ex_service []) [ex_booting] ∅ n_empty
    LoadBalancerTypeRegionalNetwork LoadBalancerNetworkTypeExternal); [run|run| |run].
  vm_compute. discriminate.
Defined.
