(* ===== verification/FwWitnesses.v ===== *)
(** * Concrete runs of the firewall controller

    A firewall service in memory that keeps the promises of [FirewallLaws], and
    the firewall properties applied to runs against it. *)

From S2P Require Import Prelude GoStd Types Annotations Nodes Api Rules Requests LoadBalancers ApiLaws Memory FwRules FwController.
From stdpp Require Import base gmap strings list.
From Stdlib Require Import ZArith Lia Sorted.
#[local] Open Scope Z_scope.

(** The firewalls in the order of their creation; a firewall's identifier is the
    URL-like name of its creation number. *)
Record fw_cloud := FwCloud { firewalls : list Firewall.t; created : nat }.

Definition realize (id : string) (fr : FirewallRequest.t) : Firewall.t :=
  Firewall.mk id fr.(FirewallRequest.Name) fr.(FirewallRequest.InboundRules)
    fr.(FirewallRequest.OutboundRules) fr.(FirewallRequest.Tags).

Definition has_ID (id : string) (fw : Firewall.t) : Prop := fw.(Firewall.ID) = id.
#[local] Instance has_ID_dec id fw : Decision (has_ID id fw).
Proof. unfold has_ID. apply _. Defined.

#[export] Instance Memory_firewalls : GodoFirewalls fw_cloud := {|
  Firewalls_Get id r :=
    (match list_find (has_ID id) r.(firewalls) with
     | Some (_, fw) => Memory.answer 200 (Some fw)
     | None => Memory.failure 404 None
     end, r);
  Firewalls_List page r := (Memory.paged (Memory.pages r.(firewalls)) page, r);
  Firewalls_Create fr r :=
    let fw := realize (Memory.url (S r.(created))) fr in
    (Memory.answer 202 (Some fw), FwCloud (r.(firewalls) ++ [fw]) (S r.(created)));
  Firewalls_Update id fr r :=
    match list_find (has_ID id) r.(firewalls) with
    | Some (i, _) =>
        (Memory.answer 200 (Some (realize id fr)),
         FwCloud (<[i := realize id fr]> r.(firewalls)) r.(created))
    | None => (Memory.failure 404 None, r)
    end;
|}.

Lemma realize_equal id fr : firewallRequestEqual (Some (realize id fr)) (Some fr) = true.
Proof. apply (Equivalence_Reflexive (R := same_firewall)). Qed.

#[export] Instance Memory_firewall_laws : FirewallLaws fw_cloud.
Proof.
  constructor.
  - intros req r _. apply realize_equal.
  - intros id req r. simpl. destruct (list_find (has_ID id) (firewalls r)) as [[i fw]|]; [|done].
    intros _. apply realize_equal.
Qed.

(* ------------------------------------------------------------------ *)
(** ** Runs *)

Definition fw_manager : firewallManager.t :=
  firewallManager.mk "k8s-workers" ["k8s:worker"] LoadBalancerTypeRegionalNetwork.

Definition nodeport_service : Service.t :=
  Service.mk "ssh" "default" "uid-1" None None ServiceTypeNodePort
    [ServicePort.mk "ssh" ProtocolTCP 22 30022] [] "Cluster" 0 [].
Definition lb_service : Service.t := ex_service [(annDOLoadBalancerID, "lb-own")].
Definition fw_services : list Service.t := [nodeport_service; lb_service].

Definition forwards (l : list portProtocol.t) : list portProtocol.t := l.
Definition backwards (l : list portProtocol.t) : list portProtocol.t := rev l.

Lemma forwards_perm l : forwards l ≡ₚ l.
Proof. done. Qed.
Lemma backwards_perm l : backwards l ≡ₚ l.
Proof. symmetry. apply Permutation_rev. Qed.

Definition request_of (order : list portProtocol.t → list portProtocol.t) : FirewallRequest.t :=
  match createReconciledFirewallRequest order fw_manager fw_services with
  | Ok req => req
  | _ => FirewallRequest.mk "" [] [] []
  end.

Definition fw_other : Firewall.t := Firewall.mk "fw-other" "other" [] [] [].
Definition fw_start : fwst fw_cloud :=
  FwState (FwCloud [fw_other] 0) [] (firewallCache.mk None false) [] [].

Definition reconciled := ensureReconciledFirewall 2 forwards fw_manager (inl fw_services) fw_start.

Lemma reconciled_rules_witness :
  Sorted rule_le (request_of backwards).(FirewallRequest.InboundRules)
  ∧ length (request_of backwards).(FirewallRequest.InboundRules) = 3%nat.
Proof.
  pose proof (reconciled_rules backwards fw_manager fw_services backwards_perm) as Hr.
  assert (E : createReconciledFirewallRequest backwards fw_manager fw_services
              = Ok (request_of backwards)) by (vm_compute; reflexivity).
  rewrite E in Hr. split; [exact (proj1 (proj2 Hr)) | vm_compute; reflexivity].
Defined.

Lemma reconciled_request_order_insensitive_witness :
  firewallRequestEqual (Some (realize "p" (request_of forwards))) (Some (request_of backwards)) = true.
Proof.
  apply (reconciled_request_order_insensitive forwards backwards fw_manager fw_services
    (request_of forwards) (request_of backwards) "p" forwards_perm backwards_perm);
    vm_compute; reflexivity.
Defined.

Lemma firewall_comparison_sound_witness :
  same_parts (realize "p" (request_of forwards)) (realize "q" (request_of backwards)).
Proof.
  refine (proj1 (firewall_comparison_sound (realize "p" (request_of forwards))
    (realize "q" (request_of backwards))) _). vm_compute. reflexivity.
Defined.

(** A cached firewall that is gone is created again. *)
Definition fw_gone : fwst fw_cloud :=
  FwState (FwCloud [fw_other] 7) [] (firewallCache.mk (Some (realize "gone" (request_of forwards))) true) [] [].

Lemma set_updates_or_recreates_witness :
  fw_calls (FwController.Set_ "gone" (request_of forwards) fw_gone).2
  = [EvFwUpdate "gone" (request_of forwards); EvFwCreate (request_of forwards)].
Proof.
  pose proof (set_updates_or_recreates "gone" (request_of forwards) fw_gone) as Hs.
  destruct (FwController.Set_ "gone" (request_of forwards) fw_gone) as [r s']. destruct Hs as [Hc _].
  etransitivity; [exact Hc|]. vm_compute. reflexivity.
Defined.

Lemma reconcile_settles_witness :
  reconciled.1 = Ok false
  ∧ ensureReconciledFirewall 2 backwards fw_manager (inl fw_services) reconciled.2 = (Ok true, reconciled.2).
Proof.
  split; [vm_compute; reflexivity|].
  refine (reconcile_settles 2 forwards backwards fw_manager fw_services fw_start reconciled.2 false
    forwards_perm backwards_perm _). vm_compute. reflexivity.
Defined.

Lemma firewall_search_complete_witness :
  ∃ rp s', filterFirewallList 2 (λ fw, str_eqb fw.(Firewall.Name) "other") fw_start = (Ok rp, s')
           ∧ rval rp = Some fw_other.
Proof.
  destruct (firewall_search_complete 2 (λ fw, str_eqb fw.(Firewall.Name) "other")
    (Memory.pages [fw_other]) (fw_remote fw_start) fw_start) as (rp & s' & Hf & _ & _ & Hv).
  - apply paged_serves.
  - discriminate.
  - vm_compute. lia.
  - reflexivity.
  - exists rp, s'. split; [exact Hf|]. rewrite Hv. reflexivity.
Defined.
