(* ===== verification/OpsWitnesses.v ===== *)
(** * Concrete runs of instances, tagging and region look-up

    Small services in memory that keep the promises the properties rely on, and
    the properties applied to runs against them. *)

From S2P Require Import Prelude GoStd Types Annotations Nodes Api Rules Requests LoadBalancers ApiLaws Memory Instances Resources Region.
From stdpp Require Import base gmap strings list.
From Stdlib Require Import ZArith Lia.
#[local] Open Scope Z_scope.

(** ** Instances *)

(** One droplet, served whatever name is asked for. *)
Definition ex_droplet : Droplet.t :=
  Droplet.mk 42 "worker-1" "active" "s-2vcpu-4gb" (Some "nyc3")
    (Some (Networks.mk [NetworkAddr.mk "10.0.0.42" "private"; NetworkAddr.mk "203.0.113.42" "public"] [])).

#[export] Instance Single_droplet : GodoDropletLookup unit := {|
  Droplets_Get id r :=
    (if id =? 42 then Memory.answer 200 (Some ex_droplet) else Memory.failure 404 None, r);
  Droplets_ListByName name page r := (Memory.paged [[ex_droplet]] page, r);
|}.

#[export] Instance Single_droplet_laws : DropletLaws unit.
Proof.
  refine {| named _ _ := [[ex_droplet]] |}.
  - intros name r. apply paged_serves.
  - done.
  - intros name r d Hd. assert (d = ex_droplet) as -> by set_solver.
    split; [unfold is_int64, min_int64, max_int64; simpl; lia|]. by eexists.
Defined.

Definition new_node : Node.t := ex_node "worker-1" "" [] false.
Definition new_node_metadata : InstanceMetadata.t :=
  InstanceMetadata.mk "digitalocean://42" "s-2vcpu-4gb" "nyc3"
    [NodeAddress.mk NodeHostName "worker-1"; NodeAddress.mk NodeInternalIP "10.0.0.42";
     NodeAddress.mk NodeExternalIP "203.0.113.42"].

Lemma metadata_survives_provider_id_witness :
  (InstanceMetadata 1 (set_ProviderID "digitalocean://42" new_node) (Net tt [EvDropletListByName "worker-1" 1])).1
  = Ok new_node_metadata.
Proof.
  destruct (metadata_survives_provider_id 1 new_node (Net tt [])
    (Net tt [EvDropletListByName "worker-1" 1]) new_node_metadata) as (d & _ & _ & _ & Hmd & _).
  - reflexivity.
  - apply le_n.
  - vm_compute. reflexivity.
  - exact Hmd.
Defined.

(** ** Tagging *)

(** Load balancers as in [Memory], with the set of tags and what they tag. *)
Record tag_cloud := TagCloud { t_mem : Memory.t; t_tags : list string; t_tagged : list (string * string) }.

#[export] Instance Tag_lbs : GodoLoadBalancers tag_cloud := {|
  LoadBalancers_Get id r :=
    let '(rp, m) := LoadBalancers_Get id r.(t_mem) in (rp, TagCloud m r.(t_tags) r.(t_tagged));
  LoadBalancers_List page r := (Memory.paged (Memory.pages (Memory.lb_list r.(t_mem))) page, r);
  LoadBalancers_Create req r :=
    let '(rp, m) := LoadBalancers_Create req r.(t_mem) in (rp, TagCloud m r.(t_tags) r.(t_tagged));
  LoadBalancers_Update id req r :=
    let '(rp, m) := LoadBalancers_Update id req r.(t_mem) in (rp, TagCloud m r.(t_tags) r.(t_tagged));
  LoadBalancers_Delete id r :=
    let '(rp, m) := LoadBalancers_Delete id r.(t_mem) in (rp, TagCloud m r.(t_tags) r.(t_tagged));
|}.

#[export] Instance Tag_tags : GodoTags tag_cloud := {|
  Tags_Create tag r := (Memory.answer 201 tt, TagCloud r.(t_mem) (tag :: r.(t_tags)) r.(t_tagged));
  Tags_TagResources tag ids r :=
    if bool_decide (tag ∈ r.(t_tags))
    then (Memory.answer 204 tt,
          TagCloud r.(t_mem) r.(t_tags) (((λ id, (tag, id)) <$> ids) ++ r.(t_tagged)))
    else (Memory.failure 404 tt, r);
|}.

#[export] Instance Tag_laws : TagLaws tag_cloud.
Proof.
  refine {| tagged r tag id := (tag, id) ∈ r.(t_tagged) |}.
  intros tag ids r. simpl. case_bool_decide; simpl; [|done]. intros _ id Hid.
  apply elem_of_app. left. apply list_elem_of_fmap. by exists id.
Defined.

Definition tag_service : Service.t := ex_service [].
Definition tag_start : net tag_cloud :=
  Net (TagCloud (Memory.mk {["lb-own" := LoadBalancer.mk "lb-own" "a0a1b2c3d00001111222233334444555"
                                             "203.0.113.78" "" "REGIONAL" "active" [] []]} [] ∅ 0) [] []) [].
Definition tag_run := syncTags 1 "5f4d" (inl [tag_service]) tag_start.

Lemma sync_tags_establishes_witness :
  ("k8s:5f4d", "lb-own") ∈ t_tagged (remote tag_run.2).
Proof.
  pose proof (sync_tags_establishes 1 "5f4d" [tag_service]
    (Memory.pages (Memory.lb_list (t_mem (remote tag_start)))) tag_start) as Hs.
  assert (E : tag_run.1 = Ok tt) by (vm_compute; reflexivity).
  unfold tag_run in E |- *. cbv zeta in Hs.
  destruct (syncTags 1 "5f4d" (inl [tag_service]) tag_start) as [r n']. simpl in E. subst r.
  refine (proj2 (Hs _ _ _) tag_service _ _ _).
  - apply paged_serves.
  - vm_compute. discriminate.
  - vm_compute. lia.
  - constructor.
  - reflexivity.
  - vm_compute. discriminate.
Defined.

(** ** The region *)

#[export] Instance Two_regions : GodoRegions unit := {|
  Regions_List page r := (Memory.paged [[Region.mk "nyc3"]; [Region.mk "fra1"]] page, r);
|}.
#[export] Instance No_metadata : Metadata unit := {|
  HTTP_Get _ r := (inr (ErrOther "connection refused"), r);
|}.

Lemma configured_region_checked_witness :
  dropletRegion 2 "fra1" (Net tt []) = (Ok "fra1", Net tt [EvRegionList 1; EvRegionList 2]).
Proof.
  etransitivity; [apply (configured_region_checked 2 "fra1" [[Region.mk "nyc3"]; [Region.mk "fra1"]])|].
  - discriminate.
  - apply paged_serves.
  - discriminate.
  - apply le_n.
  - vm_compute. reflexivity.
Defined.
