(* ===== verification/SysWitnesses.v ===== *)
(** * Concrete runs of the firewall controller as a system

    A firewall service with room for one firewall that always answers, and the
    properties of the work queue and of the concurrent controller applied to
    runs against it. *)

From stdpp Require Import base gmap strings list.
From Stdlib Require Import ZArith Lia.
From S2P Require Import Prelude GoStd Types Annotations Nodes Api Rules Requests LoadBalancers ApiLaws Memory FwRules FwController WorkQueue FwSystem FwWitnesses.
#[local] Open Scope Z_scope.

(** ** The queue *)

(** An item is added, taken, added again while it is processed, and done. *)
Definition q1 : Typed.t := Add "service" Typed.new.
Definition q2 : Typed.t := match GetItem q1 with Item _ q => q | _ => q1 end.
Definition q3 : Typed.t := Done "service" (Add "service" q2).

Definition reuse : list qaction := [ActAdd "service"; ActGet "service"; ActAdd "service"; ActDone "service"].

(** The item that was added while a worker held it is pending, and offered. *)
Lemma work_queue_refines_witness :
  performs astep (AQueue ∅ ∅ false) reuse (AQueue {["service"]} ∅ false) ∧ q3.(Typed.queue) = ["service"].
Proof.
  split; [|vm_compute; reflexivity].
  assert (Ea : abstract q3 = AQueue {["service"]} ∅ false) by (vm_compute; reflexivity). rewrite <- Ea.
  refine (proj1 (work_queue_refines reuse q3 _)).
  eapply performs_cons; [apply (q_add "service")|].
  eapply performs_cons; [apply (q_get "service" q1 q2); vm_compute; reflexivity|].
  eapply performs_cons; [apply (q_add "service")|].
  eapply performs_cons; [apply (q_done "service")|apply performs_nil].
  apply (bool_decide_unpack _). vm_compute. exact I.
Defined.

Lemma retry_delay_bounds_witness :
  (When "service" {["service" := 2000]}).1 = maxRetryDelay.
Proof.
  pose proof (retry_delay_bounds {["service" := 2000]} "service") as Hb.
  assert (Hn : NumRequeues {["service" := 2000]} "service" = 2000) by (vm_compute; reflexivity).
  destruct (When "service" {["service" := 2000]}) as [d f].
  refine (proj2 (proj1 (proj2 (proj2 (Hb _)))) _); rewrite Hn; lia.
Defined.

(** ** The system *)

Record slot := Slot { slot_firewall : option Firewall.t }.

#[export] Instance Slot_firewalls : GodoFirewalls slot := {|
  Firewalls_Get id r :=
    (match slot_firewall r with
     | Some fw => if str_eqb fw.(Firewall.ID) id then Memory.answer 200 (Some fw) else Memory.failure 404 None
     | None => Memory.failure 404 None
     end, r);
  Firewalls_List page r := (Memory.answer 200 (option_list (slot_firewall r)), r);
  Firewalls_Create fr r := (Memory.answer 202 (Some (realize "fw-1" fr)), Slot (Some (realize "fw-1" fr)));
  Firewalls_Update id fr r := (Memory.answer 200 (Some (realize id fr)), Slot (Some (realize id fr)));
|}.

#[export] Instance Slot_laws : FirewallLaws slot.
Proof. constructor; intros; apply realize_equal. Qed.

Lemma slot_up : api_up (R := slot) 1 fw_manager.
Proof.
  split.
  - intros [[fw'] calls [[fw|] isSet] metrics queue]; destruct fw' as [fw'|];
      unfold get_firewall, get_by_cached_id, mbind, M_bind; simpl;
      [destruct (str_eqb (Firewall.ID fw') (Firewall.ID fw)); simpl; [by eauto|]| | |];
      unfold executeInstrumentedFirewallOperationGetByList, executeInstrumentedFirewallOperation,
        filterFirewallList; simpl; unfold mbind, M_bind; simpl; try (by eauto);
      destruct (decide _); simpl; by eauto.
  - intros id fr [r calls c metrics queue]. unfold set_firewall, create_step, mbind, M_bind.
    destruct (str_eqb id ""); by (do 2 eexists).
Qed.

(** One Service, from its event to the release of the item. *)
Definition sys0 : sys slot := initial (Slot None) 0 [nodeport_service].
Definition next (s : sys slot) : sys slot := default s (worker_step 1 fw_manager id false s).
Definition sys1 : sys slot := default sys0 (handler_step sys0).
Definition sys10 : sys slot := Nat.iter 9 next sys1.

Lemma next_step s : is_Some (worker_step 1 fw_manager id false s) → step 1 fw_manager s (next s).
Proof.
  intros [s' Hs]. left. apply (i_worker _ _ id false); [done|]. unfold next. by rewrite Hs.
Qed.

Lemma sys10_reachable : reachable 1 fw_manager sys10.
Proof.
  exists (Slot None), 0, [nodeport_service]. eapply rtc_l; [left; apply i_handler; reflexivity|].
  change (rtc (step 1 fw_manager) sys1 (next (next (next (next (next (next (next (next (next sys1)))))))))).
  do 9 (eapply rtc_l; [apply next_step; vm_compute; eexists; reflexivity|]). apply rtc_refl.
Qed.

Lemma no_change_lost_witness : up_to_date fw_manager sys10.
Proof.
  refine (proj2 (proj2 (no_change_lost 1 fw_manager sys10 sys10_reachable)) _).
  vm_compute. repeat split; reflexivity.
Defined.

Lemma changes_settle_witness :
  (1 ≤ work_left sys0)%nat ∧ sys1.(s_services) = [nodeport_service].
Proof.
  destruct (changes_settle 1 fw_manager sys0) with (n := 1%nat) (s' := sys1) as (Hn & Hs & _).
  - exists (Slot None), 0, [nodeport_service]. apply rtc_refl.
  - split; [vm_compute; reflexivity|]. split; [discriminate|]. split; [discriminate|].
    exists (default (FirewallRequest.mk "" [] [] [])
      (match createReconciledFirewallRequest id fw_manager [nodeport_service] with Ok r => Some r | _ => None end)).
    exists id. split; [done|]. vm_compute. reflexivity.
  - apply slot_up.
  - eapply nsteps_l; [|apply nsteps_O]. apply i_handler. reflexivity.
  - split; [exact Hn|exact Hs].
Defined.
