(* ===== verification/CloudWitnesses.v ===== *)
(** * Concrete runs of set-up, admission and the life of a Service

    An environment, the services in memory, and the properties of set-up, of the
    ticker and of the life of a Service applied to runs against them. *)

From stdpp Require Import base gmap strings list relations.
From Stdlib Require Import ZArith Lia.
From S2P Require Import Prelude GoStd Types Annotations Nodes Api Rules Requests LoadBalancers LBFacts ApiLaws Memory LBSpec LBLifecycle NoPanic Region Admission Resources FwRules FwController Metrics Cloud Agreement Syncer Witnesses.
#[local] Open Scope Z_scope.

(** ** Set-up *)

Definition environment_of (addr : string) : string → string := λ name,
  if str_eqb name doAccessTokenEnv then "token"
  else if str_eqb name regionEnv then "fra1"
  else if str_eqb name doClusterIDEnv then "5f4d"
  else if str_eqb name publicAccessFirewallNameEnv then "public-access"
  else if str_eqb name publicAccessFirewallTagsEnv then "k8s,worker"
  else if str_eqb name metricsAddrEnv then addr
  else "".
Definition env := environment_of "localhost:9000".

#[export] Instance Cloud_regions : GodoRegions Memory.t := {|
  Regions_List page r := (Memory.paged [[Region.mk "nyc3"]; [Region.mk "fra1"]] page, r);
|}.
#[export] Instance Cloud_metadata : Metadata Memory.t := {|
  HTTP_Get _ r := (inr (ErrOther "connection refused"), r);
|}.
#[export] Instance Cloud_floats : Floats := {| float64 := unit; ParseFloat _ := inl tt |}.
#[export] Instance Cloud_client : GodoClient := {| godo_New _ _ := None |}.

Definition net0 : net Memory.t := Net empty_cloud [].
Definition booted := newCloud 10 env "" net0.
Definition ex_cloud : cloud.t :=
  let fw := publicAccessFirewall.mk "public-access" ["k8s"; "worker"] in
  let res := resources.mk "5f4d" "" fw in
  cloud.mk (instances.mk "fra1" res)
    (loadBalancers.mk "fra1" "5f4d" "" LoadBalancerTypeRegionalNetwork) (newMetrics "localhost:9000")
    LoadBalancerTypeRegionalNetwork res None.
Definition ex_handler : LBServiceAdmissionHandler.t :=
  LBServiceAdmissionHandler.mk "fra1" "5f4d" "" LoadBalancerTypeRegionalNetwork.
Definition served := startAdmissionServer 10 env net0.

#[export] Instance Memory_errors : ErrorResponses Memory.t.
Proof. constructor. intros id r msg. simpl. by destruct (Memory.certs r !! id). Defined.


(** An IPv6 address in brackets is accepted, but is no address afterwards. *)
Lemma metrics_address_roundtrip_witness :
  metrics_addr (environment_of "[::1]:9000") = Ok "::1:9000"
  ∧ ∃ e, SplitHostPort "::1:9000" = Err e.
Proof.
  split; [vm_compute; reflexivity|].
  destruct (metrics_address_roundtrip (environment_of "[::1]:9000") "::1:9000") as (h & p & Hs & _ & Ha).
  - discriminate.
  - vm_compute. reflexivity.
  - vm_compute in Hs. injection Hs as <- <-. vm_compute in Ha. eexists. exact Ha.
Defined.

(** ** Admission *)

Definition ex_nodes : list Node.t := [ex_dual; ex_v4].
Definition no_droplets : gset Z := ∅.
Definition ex_built :=
  buildLoadBalancerRequest 10 (cloud.loadbalancers ex_cloud) (ex_service []) ex_nodes no_droplets net0.

(** Objects that are decoded to one Service. *)
#[local] Instance One_object : Decoder := {| Decode _ := inl (ex_service []) |}.
Definition ex_review : AdmissionRequest.t := AdmissionRequest.mk "service" None.


(** ** The ticker *)

Definition ticked : Ticker.t := Ticker.mk Delaying true false true 1 [].

Lemma sync_paced_witness : (Ticker.calls ticked ≤ 1 + 1)%nat.
Proof.
  apply (sync_paced (λ _, Ok tt) (cloud.resources_ ex_cloud) false (started false) 1 ticked); [reflexivity|].
  apply (runs_stop _ _ _ (Ticker.mk Delaying true false false 1 [])).
  apply (runs_tick _ _ _ (Ticker.mk Delaying false false false 1 [])).
  eapply runs_sync; [apply runs_start|]. vm_compute. left.
Defined.

(** ** The life of a Service *)

(** A call whose patch is lost, and the next one. *)
Definition life1 : lbst Memory.t := LBState (lb_net ensured_empty.2) (lb_svc st_empty).
Definition life2 : lbst Memory.t := after_call lower 10 ctrl (Ensure [ex_dual; ex_v4]) life1.

Lemma one_load_balancer_per_service_witness : at_most_one (belongs (lb_svc life2) (v_lbs (lview life2))).
Proof.
  apply (one_load_balancer_per_service lower 10 ctrl) with (st := st_empty).
  - assert (∀ id, ¬ named (lb_svc st_empty) (v_lbs (lview st_empty)) id) as Hno.
    { intros id (lb & Hlb & Hc). change (Memory.lb_map empty_cloud !! id = Some lb) in Hlb.
      rewrite lb_map_lookup in Hlb. destruct (Memory.lbs empty_cloud !! id) as [lb0|] eqn:E; [|discriminate Hlb].
      change (({["lb-other" := other_lb]} : gmap string LoadBalancer.t) !! id = Some lb0) in E.
      apply lookup_singleton_Some in E as [<- <-]. injection Hlb as <-.
      apply (bool_decide_eq_true_2 _) in Hc. vm_compute in Hc. discriminate Hc. }
    split; [intros id1 id2 H1; destruct (Hno _ H1)|]. intros Hne. destruct Hne. reflexivity.
  - apply (rtc_l _ _ life1); [apply (call_lost lower 10 ctrl (Ensure [ex_dual; ex_v4])); vm_compute; lia|].
    apply rtc_once. apply (call_stored lower 10 ctrl). vm_compute. lia.
Defined.

(** Why the invariant asks that the annotated load balancer exists: it was
    deleted, a new one is created, the patch that would annotate the Service with
    it is lost, and the next call looks the old identifier up again and creates
    a second one of the same name. *)
Definition st_dangling : lbst Memory.t := start empty_cloud (ex_service [(annDOLoadBalancerID, "lb-gone")]).
Definition leak1 : lbst Memory.t :=
  LBState (lb_net (after_call lower 10 ctrl (Ensure [ex_dual; ex_v4]) st_dangling)) (lb_svc st_dangling).
Definition leak2 : lbst Memory.t := after_call lower 10 ctrl (Ensure [ex_dual; ex_v4]) leak1.

Lemma dangling_identifier_duplicates :
  rtc (life_step lower 10 ctrl) st_dangling leak2
  ∧ length (filter (λ lb, lb.(LoadBalancer.Name) ∈ candidates (lb_svc leak2))
              (Memory.lb_list (remote (lb_net leak2)))) = 2%nat.
Proof.
  split; [|vm_compute; reflexivity].
  apply (rtc_l _ _ leak1); [apply (call_lost lower 10 ctrl (Ensure [ex_dual; ex_v4])); vm_compute; lia|].
  apply rtc_once. apply (call_stored lower 10 ctrl). vm_compute. lia.
Qed.
