(* ===== verification/ClusterWitnesses.v ===== *)
(** * Concrete runs of components together

    Load balancers and firewall of one cloud, and a cluster whose Services come
    and go, and calls that overlap: the properties of [Reach], [LBCluster] and
    [LBOverlap] applied to runs against the services in memory. *)

From stdpp Require Import base gmap strings list relations.
From Stdlib Require Import ZArith Lia.
From S2P Require Import Prelude GoStd Types Annotations Nodes Api Rules Requests LoadBalancers LBFacts ApiLaws Memory LBSpec LBLifecycle LBCluster LBOverlap Region Admission Resources FwRules FwController Metrics Cloud Agreement WorkQueue FwSystem Reach Witnesses FwWitnesses SysWitnesses CloudWitnesses.
#[local] Open Scope Z_scope.

(** ** Forwarded traffic *)

Definition ex_fm : firewallManager.t :=
  firewallManager.mk "public-access" ["k8s"; "worker"] LoadBalancerTypeRegionalNetwork.

(** The firewall controller of the cloud, from the event of a Service to the
    release of its item. *)
Definition reach0 (s : Service.t) : sys slot := initial (Slot None) 0 [s].
Definition reach_next (y : sys slot) : sys slot := default y (worker_step 10 ex_fm id false y).
Definition reach1 (s : Service.t) : sys slot := default (reach0 s) (handler_step (reach0 s)).
Definition reach10 (s : Service.t) : sys slot := Nat.iter 9 reach_next (reach1 s).

Lemma reach_next_step y : is_Some (worker_step 10 ex_fm id false y) → step 10 ex_fm y (reach_next y).
Proof.
  intros [y' Hs]. left. apply (i_worker _ _ id false); [done|]. unfold reach_next. by rewrite Hs.
Qed.

Ltac solve_reach :=
  eapply rtc_l; [left; apply i_handler; reflexivity|];
  unfold reach10, Nat.iter, nat_rect;
  do 9 (eapply rtc_l; [apply reach_next_step; vm_compute; eexists; reflexivity|]); apply rtc_refl.

Lemma reach10_reachable : reachable 10 ex_fm (reach10 (ex_service [])).
Proof. exists (Slot None), 0, [ex_service []]. solve_reach. Qed.

Definition cached (y : sys slot) : Firewall.t :=
  default (Firewall.mk "" "" [] [] []) (firewallCache.firewall (fw_cache (s_fw y))).

Definition built_for (s : Service.t) :=
  buildLoadBalancerRequest 10 (cloud.loadbalancers ex_cloud) s ex_nodes no_droplets net0.

(** TCP port 80 and the health check of kube-proxy. *)
Lemma forwarded_traffic_admitted_witness :
  ∃ req pending n', built_for (ex_service []) = (Ok (req, pending), n')
    ∧ length req.(LoadBalancerRequest.ForwardingRules) = 1%nat
    ∧ (∀ f, f ∈ req.(LoadBalancerRequest.ForwardingRules) →
         has_rule (cached (reach10 (ex_service []))) (traffic_rule f))
    ∧ has_rule (cached (reach10 (ex_service []))) (FwRule.mk "tcp" "10256" (Some everywhere) "").
Proof.
  destruct (built_for (ex_service [])) as [[[req pending]| | |] n'] eqn:E;
    [|vm_compute in E; discriminate E..].
  exists req, pending, n'. split; [reflexivity|].
  destruct (forwarded_traffic_admitted 10 env "" net0 booted.2 ex_cloud ex_fm (reach10 (ex_service []))
    (ex_service []) ex_nodes no_droplets net0 n' req pending) as (fw & Hfw & Ht & Hc);
    [vm_compute; reflexivity|left|exact reach10_reachable|vm_compute; repeat split; reflexivity|left|reflexivity
    |exact E|vm_compute in E; injection E as <- _ _; reflexivity..|].
  unfold cached. rewrite Hfw. vm_compute in E. injection E as <- _ _.
  split; [reflexivity|]. split; [exact Ht|]. exact (Hc eq_refl).
Defined.

(** With the health check overridden, the load balancer probes the node port of
    the Service, which the firewall does not open. *)
Definition overriding : Service.t := ex_service [(annDOOverrideHealthCheck, "")].

Lemma overridden_check_not_opened :
  reachable 10 ex_fm (reach10 overriding) ∧ quiescent (reach10 overriding)
  ∧ (∃ req pending n', built_for overriding = (Ok (req, pending), n')
       ∧ req.(LoadBalancerRequest.HealthCheck).(HealthCheck.Port) = 30080)
  ∧ FwRule.PortRange <$> Firewall.InboundRules (cached (reach10 overriding)) = ["10256"; "80"].
Proof.
  split; [exists (Slot None), 0, [overriding]; solve_reach|].
  split; [vm_compute; repeat split; reflexivity|]. split; [|vm_compute; reflexivity].
  do 3 eexists. split; [vm_compute; reflexivity|]. reflexivity.
Qed.

(** ** A cluster *)

(** A Service is created; its first sync creates a load balancer but the patch is
    lost; the second finds it; the Service is marked and cleaned up. *)
Definition nodes2 : list Node.t := [ex_dual; ex_v4].
Definition cl0 : cluster := Cluster net0 ∅ (λ id, id = "lb-other").
Definition cl1 : cluster := Cluster net0 {["web" := (ex_service [], Live)]} (c_foreign cl0).
Definition sync2 : lbst Memory.t := after_call lower 10 ctrl (Ensure nodes2) (LBState net0 (ex_service [])).
Definition cl2 : cluster := Cluster (lb_net sync2) (c_svcs cl1) (c_foreign cl1).
Definition sync3 : lbst Memory.t := after_call lower 10 ctrl (Ensure nodes2) (LBState (c_net cl2) (ex_service [])).
Definition cl3 : cluster := Cluster (lb_net sync3) (<["web" := (lb_svc sync3, Live)]> (c_svcs cl2)) (c_foreign cl2).
Definition cl4 : cluster := Cluster (c_net cl3) (<["web" := (lb_svc sync3, Deleting)]> (c_svcs cl3)) (c_foreign cl3).
Definition cleaned5 := EnsureLoadBalancerDeleted 10 (LBState (c_net cl4) (lb_svc sync3)).
Definition cl5 : cluster :=
  Cluster (lb_net cleaned5.2) (delete "web" (c_svcs cl4)) (λ id, c_foreign cl4 id ∨ released (lb_svc sync3) (clbs cl4) id).

Lemma other_only id lb : Memory.lb_map empty_cloud !! id = Some lb → id = "lb-other" ∧ lb = other_lb.
Proof.
  intros Hlb. rewrite lb_map_lookup in Hlb. destruct (Memory.lbs empty_cloud !! id) as [lb0|] eqn:E; [|discriminate Hlb].
  change (({["lb-other" := other_lb]} : gmap string LoadBalancer.t) !! id = Some lb0) in E.
  apply lookup_singleton_Some in E as [<- <-]. injection Hlb as <-. split; reflexivity.
Qed.

Lemma ex_service_single : single (ex_service []) (clbs cl0).
Proof.
  assert (∀ id, ¬ named (ex_service []) (clbs cl0) id) as Hno.
  { intros id (lb & [-> ->]%other_only & Hc). apply (bool_decide_eq_true_2 _) in Hc. vm_compute in Hc. discriminate Hc. }
  split; [intros id1 id2 H1; destruct (Hno _ H1)|]. intros Hne. destruct Hne. reflexivity.
Qed.

(** No load balancer has the identifier that the only Service carries. *)
Lemma fresh_ids_web c s p lbs' :
  c_svcs c = {["web" := (s, p)]} → lbs' !! getLoadBalancerID s = None → fresh_ids c lbs'.
Proof.
  intros Hc Hn k s' p' Hk. rewrite Hc in Hk. apply lookup_singleton_Some in Hk as [_ [= <- _]].
  rewrite Hn. intros []. discriminate.
Qed.

Lemma cluster_accounted_witness :
  c_svcs cl5 = ∅ ∧ length (elements (dom (clbs cl3))) = 2%nat
  ∧ ∀ id, is_Some (clbs cl5 !! id) → c_foreign cl5 id.
Proof.
  split; [vm_compute; reflexivity|]. split; [vm_compute; reflexivity|].
  destruct (cluster_accounted lower 10 ctrl cl0 cl5) as (_ & _ & Ho).
  - split; [reflexivity|]. intros id [lb [-> _]%other_only]. reflexivity.
  - eapply rtc_l; [apply (svc_created lower 10 ctrl cl0 "web" (ex_service []))|].
    { reflexivity. } { exact ex_service_single. } { intros k' s' p Hk. discriminate Hk. }
    eapply rtc_l; [apply (svc_synced_lost lower 10 ctrl cl1 "web" (ex_service []) (Ensure nodes2))|].
    { reflexivity. } { vm_compute. lia. } { eapply fresh_ids_web; vm_compute; reflexivity. }
    eapply rtc_l; [apply (svc_synced lower 10 ctrl cl2 "web" (ex_service []) (Ensure nodes2))|].
    { reflexivity. } { vm_compute. lia. } { eapply fresh_ids_web; vm_compute; reflexivity. }
    eapply rtc_l; [apply (svc_marked lower 10 ctrl cl3 "web" (lb_svc sync3))|].
    { reflexivity. }
    eapply rtc_l; [apply (svc_cleanup_done lower 10 ctrl cl4 "web" (lb_svc sync3) cleaned5.2)|].
    { reflexivity. } { vm_compute. lia. } { vm_compute. reflexivity. }
    apply rtc_refl.
  - intros id Hex. destruct (Ho id Hex) as [Hf|(k & s & p & Hk & _)]; [exact Hf|].
    vm_compute in Hk. discriminate Hk.
Defined.

(** ** Overlapping calls *)

(** EnsureLoadBalancer finds none; an update that begins then finds none either;
    the load balancer is created and the patch lost; an update and a second
    EnsureLoadBalancer both find it, and end in the other order. *)
Definition ens (o : overlap) := begin_ensure 10 ctrl nodes2 (LBState (o_net o) (o_svc o)).
Definition upd (o : overlap) := begin_update 10 nodes2 (LBState (o_net o) (o_svc o)).
Definition after_ens (o : overlap) : overlap := Overlap (lb_net (ens o).2) (o_svc o) (ens o).1 (o_others o).
Definition after_upd (o : overlap) : overlap :=
  Overlap (lb_net (upd o).2) (o_svc o) (o_ensure o) (option_list (upd o).1 ++ o_others o).
Definition end_ens (stored : bool) (o : overlap) : overlap :=
  match o_ensure o with
  | Some t => let st := finish lower 10 ctrl t (o_net o) in
              Overlap (lb_net st) (patched stored t st (o_svc o)) None (o_others o)
  | None => o
  end.
Definition end_upd (stored : bool) (o : overlap) : overlap :=
  match o_others o with
  | t :: l2 => let st := finish lower 10 ctrl t (o_net o) in
               Overlap (lb_net st) (patched stored t st (o_svc o)) (o_ensure o) l2
  | [] => o
  end.

Definition ov0 : overlap := Overlap net0 (ex_service []) None [].
Definition ov1 := after_ens ov0.
Definition ov2 := after_upd ov1.
Definition ov3 := end_ens false ov2.
Definition ov4 := after_upd ov3.
Definition ov5 := after_ens ov4.
Definition ov6 := end_ens true ov5.
Definition ov7 := end_upd true ov6.

Lemma after_ens_step o :
  o_ensure o = None → enough_fuel 10 (o_net o) → overlap_step lower 10 ctrl o (after_ens o).
Proof. intros. by apply (ensure_begins lower 10 ctrl o nodes2); [| |apply surjective_pairing]. Qed.
Lemma after_upd_step o : enough_fuel 10 (o_net o) → overlap_step lower 10 ctrl o (after_upd o).
Proof. intros. by apply (update_begins lower 10 ctrl o nodes2); [|apply surjective_pairing]. Qed.
Lemma end_ens_step stored o : is_Some (o_ensure o) → overlap_step lower 10 ctrl o (end_ens stored o).
Proof. intros [t Ht]. unfold end_ens. rewrite Ht. by apply ensure_ends. Qed.
Lemma end_upd_step stored o : o_others o ≠ [] → overlap_step lower 10 ctrl o (end_upd stored o).
Proof.
  unfold end_upd. destruct (o_others o) as [|t l2] eqn:E; [done|]. intros _.
  by apply (other_ends lower 10 ctrl o [] t l2).
Qed.

Lemma overlapping_calls_keep_one_witness :
  length (o_others ov4) = 1%nat ∧ is_Some (o_ensure ov5)
  ∧ getLoadBalancerID (o_svc ov7) ≠ "" ∧ at_most_one (belongs (o_svc ov7) (olbs ov7)).
Proof.
  split; [vm_compute; reflexivity|]. split; [vm_compute; eexists; reflexivity|].
  split; [vm_compute; discriminate|].
  apply (overlapping_calls_keep_one lower 10 ctrl ov0 ov7); [exact ex_service_single|reflexivity|reflexivity|].
  apply (rtc_l _ _ ov1); [apply after_ens_step; [reflexivity|vm_compute; lia]|].
  apply (rtc_l _ _ ov2); [apply after_upd_step; vm_compute; lia|].
  apply (rtc_l _ _ ov3); [apply end_ens_step; vm_compute; eexists; reflexivity|].
  apply (rtc_l _ _ ov4); [apply after_upd_step; vm_compute; lia|].
  apply (rtc_l _ _ ov5); [apply after_ens_step; [vm_compute; reflexivity|vm_compute; lia]|].
  apply (rtc_l _ _ ov6); [apply end_ens_step; vm_compute; eexists; reflexivity|].
  apply (rtc_l _ _ ov7); [apply end_upd_step; vm_compute; discriminate|]. apply rtc_refl.
Defined.
