(* ===== verification/WorkerWitnesses.v ===== *)
(** * A concrete run of overlapping workers

    Two Services of one cluster whose calls overlap, one of them deleted while an
    update is on its way, against the services in memory. *)

From stdpp Require Import base gmap strings list relations.
From Stdlib Require Import ZArith Lia.
From S2P Require Import Prelude GoStd Types Annotations Nodes Api Rules Requests LoadBalancers LBFacts ApiLaws Memory LBSpec LBLifecycle LBCluster LBOverlap LBWorkers Region Admission Resources FwRules FwController Metrics Cloud Agreement Witnesses CloudWitnesses ClusterWitnesses.
#[local] Open Scope Z_scope.

Definition web : Service.t := ex_service [].
Definition api : Service.t :=
  Service.mk "api" web.(Service.Namespace) "b2c3" web.(Service.Annotations) web.(Service.DeletionTimestamp)
    web.(Service.Type_) web.(Service.Ports) web.(Service.LoadBalancerSourceRanges)
    web.(Service.ExternalTrafficPolicy) web.(Service.HealthCheckNodePort) web.(Service.Status).

Abbreviation mworkers := (workers (R := Memory.t)).

Definition svc_of (w : mworkers) (k : string) : Service.t := (default (web, Live) (w_svcs w !! k)).1.
Definition st_of (w : mworkers) (k : string) : lbst Memory.t := LBState (w_net w) (svc_of w k).

(** The steps as functions. *)
Definition do_create (k : string) (s : Service.t) (w : mworkers) : mworkers :=
  Workers (w_net w) (<[k := (s, Live)]> (w_svcs w)) (w_foreign w) (w_jobs w) (w_others w).
Definition do_mark (k : string) (w : mworkers) : mworkers :=
  Workers (w_net w) (<[k := (svc_of w k, Deleting)]> (w_svcs w)) (w_foreign w) (w_jobs w) (w_others w).
Definition do_ensure (k : string) (w : mworkers) : mworkers :=
  let '(t, st1) := begin_ensure 10 ctrl nodes2 (st_of w k) in
  Workers (lb_net st1) (w_svcs w) (w_foreign w) (partial_alter (λ _, Syncing <$> t) k (w_jobs w)) (w_others w).
Definition do_update (k : string) (w : mworkers) : mworkers :=
  let '(t, st1) := begin_update 10 nodes2 (st_of w k) in
  Workers (lb_net st1) (w_svcs w) (w_foreign w) (w_jobs w) ((pair k <$> option_list t) ++ w_others w).
Definition do_delete (k : string) (w : mworkers) : mworkers :=
  match begin_delete 10 (st_of w k) with
  | (inr id, st1) => Workers (lb_net st1) (w_svcs w) (w_foreign w) (<[k := Removing id]> (w_jobs w)) (w_others w)
  | _ => w
  end.
Definition end_job (stored : bool) (k : string) (w : mworkers) : mworkers :=
  match w_jobs w !! k with
  | Some (Syncing t) =>
      let st := finish lower 10 ctrl t (w_net w) in
      Workers (lb_net st) (patch_stored stored t st k (w_svcs w)) (w_foreign w) (delete k (w_jobs w)) (w_others w)
  | _ => w
  end.
Definition end_other (stored : bool) (w : mworkers) : mworkers :=
  match w_others w with
  | (k, t) :: others =>
      let st := finish lower 10 ctrl t (w_net w) in
      Workers (lb_net st) (patch_stored stored t st k (w_svcs w)) (w_foreign w) (w_jobs w) others
  | [] => w
  end.
Definition end_removal (k : string) (w : mworkers) : mworkers :=
  match w_jobs w !! k with
  | Some (Removing id) =>
      Workers (finish_delete id (w_net w)).2 (delete k (w_svcs w)) (w_foreign w) (delete k (w_jobs w)) (w_others w)
  | _ => w
  end.

(** Both are created and begin to be synced; both create a load balancer, one
    patch is lost; an update of the second begins, the Service is marked and its
    load balancer deleted; the update ends after that. *)
Definition wk0 : mworkers := Workers net0 ∅ (λ id, id = "lb-other") ∅ [].
Definition wk1 := do_create "web" web wk0.
Definition wk2 := do_create "api" api wk1.
Definition wk3 := do_ensure "web" wk2.
Definition wk4 := do_ensure "api" wk3.
Definition wk5 := end_job true "web" wk4.
Definition wk6 := end_job false "api" wk5.
Definition wk7 := do_update "api" wk6.
Definition wk8 := do_mark "api" wk7.
Definition wk9 := do_delete "api" wk8.
Definition wk10 := end_removal "api" wk9.
Definition wk11 := end_other true wk10.

(** ** The steps are steps *)

Definition phase_of (w : mworkers) (k : string) : option phase := snd <$> w_svcs w !! k.
Definition idle (w : mworkers) (k : string) : bool := match w_jobs w !! k with None => true | Some _ => false end.

Lemma phase_of_svc w k p : phase_of w k = Some p → w_svcs w !! k = Some (svc_of w k, p).
Proof. unfold phase_of, svc_of. by destruct (w_svcs w !! k) as [[]|]; intros [= <-]. Qed.

Lemma idle_job w k : idle w k = true → w_jobs w !! k = None.
Proof. unfold idle. by destruct (w_jobs w !! k). Qed.

Lemma do_mark_step k w : phase_of w k = Some Live → workers_step lower 10 ctrl w (do_mark k w).
Proof. intros Hp. by apply w_marked, phase_of_svc. Qed.

Lemma do_ensure_step k w :
  phase_of w k = Some Live → idle w k = true → enough_fuel 10 (w_net w) →
  workers_step lower 10 ctrl w (do_ensure k w).
Proof.
  intros Hk%phase_of_svc Hj%idle_job Hf. unfold do_ensure. destruct (begin_ensure _ _ _ _) as [t st1] eqn:E.
  by eapply w_ensure_begins.
Qed.

Lemma do_update_step k p w :
  phase_of w k = Some p → enough_fuel 10 (w_net w) → workers_step lower 10 ctrl w (do_update k w).
Proof.
  intros Hk%phase_of_svc Hf. unfold do_update. destruct (begin_update _ _ _) as [t st1] eqn:E.
  by eapply w_update_begins.
Qed.

Lemma do_delete_step k w :
  phase_of w k = Some Deleting → idle w k = true → enough_fuel 10 (w_net w) →
  match (begin_delete 10 (st_of w k)).1 with inr _ => true | inl _ => false end = true →
  workers_step lower 10 ctrl w (do_delete k w).
Proof.
  intros Hk%phase_of_svc Hj%idle_job Hf Hr. unfold do_delete.
  destruct (begin_delete _ _) as [[|id] st1] eqn:E; [done|]. by eapply w_delete_begins.
Qed.

(** No identifier is issued twice, as a computation. *)
Definition reused (lbs lbs' : gmap string LoadBalancer.t) (id : string) : bool :=
  bool_decide (is_Some (lbs' !! id)) && negb (bool_decide (is_Some (lbs !! id))).
Definition call_reused (lbs lbs' : gmap string LoadBalancer.t) (c : call_in_flight) : bool :=
  match holds c with Some id => reused lbs lbs' id | None => false end.
Definition checked (w : mworkers) (lbs' : gmap string LoadBalancer.t) : bool :=
  let lbs := wlbs w in
  forallb (λ x, negb (reused lbs lbs' (getLoadBalancerID x.2.1))) (map_to_list (w_svcs w))
  && forallb (λ x, negb (call_reused lbs lbs' x.2)) (map_to_list (w_jobs w))
  && forallb (λ x, negb (call_reused lbs lbs' (Syncing x.2))) (w_others w).

Lemma reused_false lbs lbs' id : negb (reused lbs lbs' id) = true → is_Some (lbs' !! id) → is_Some (lbs !! id).
Proof.
  unfold reused. intros Hr Hex. rewrite bool_decide_true in Hr by done. simpl in Hr.
  rewrite negb_involutive in Hr. by apply bool_decide_eq_true in Hr.
Qed.

Lemma checked_never_reissued w lbs' : checked w lbs' = true → never_reissued w lbs'.
Proof.
  unfold checked. rewrite !andb_true_iff, !forallb_forall. intros [[H1 H2] H3]. split.
  - intros k s p Hk. apply elem_of_map_to_list, list_elem_of_In in Hk. exact (reused_false _ _ _ (H1 _ Hk)).
  - intros k c id Hin Hh. assert (negb (call_reused (wlbs w) lbs' c) = true) as Hc.
    { destruct Hin as [Hj|(t & -> & Hin)].
      - apply elem_of_map_to_list, list_elem_of_In in Hj. exact (H2 _ Hj).
      - apply list_elem_of_In in Hin. exact (H3 _ Hin). }
    unfold call_reused in Hc. rewrite Hh in Hc. by apply reused_false.
Qed.

Lemma end_job_step stored k w :
  match w_jobs w !! k with Some (Syncing _) => true | _ => false end = true →
  checked w (wlbs (end_job stored k w)) = true → workers_step lower 10 ctrl w (end_job stored k w).
Proof.
  unfold end_job. destruct (w_jobs w !! k) as [[t|]|] eqn:Hj; [|done..]. intros _ Hc.
  apply w_job_ends; [done|]. by apply checked_never_reissued.
Qed.

Lemma end_other_step stored w :
  match w_others w with [] => false | _ => true end = true → workers_step lower 10 ctrl w (end_other stored w).
Proof.
  unfold end_other. destruct (w_others w) as [|[k t] others] eqn:E; [done|]. intros _.
  by apply (w_other_ends lower 10 ctrl w [] k t others).
Qed.

Lemma end_removal_step k w :
  phase_of w k = Some Deleting →
  match w_jobs w !! k with
  | Some (Removing id) => match (finish_delete id (w_net w)).1 with Ok _ => true | _ => false end
  | _ => false
  end = true → workers_step lower 10 ctrl w (end_removal k w).
Proof.
  unfold end_removal. intros Hk%phase_of_svc Hr. destruct (w_jobs w !! k) as [[|id]|] eqn:Hj; [done| |done].
  destruct (finish_delete id (w_net w)) as [[[]| | |] n'] eqn:E; [|done..]. by eapply w_removed.
Qed.

(** A Service that nothing is named after yet. *)
Lemma new_service s :
  other_lb.(LoadBalancer.Name) ∉ candidates s → getLoadBalancerID s = "" →
  single s (Memory.lb_map empty_cloud) ∧ ∀ id, ¬ belongs s (Memory.lb_map empty_cloud) id.
Proof.
  intros Hn Hid. assert (∀ id, ¬ named s (Memory.lb_map empty_cloud) id) as Hno.
  { intros id (lb & [-> ->]%other_only & Hc). done. }
  split; [split; [intros id1 id2 H1; by destruct (Hno id1)|done]|].
  intros id [H1|(Hne & -> & _)]; [by apply (Hno id)|done].
Qed.

Lemma do_create_step k s (w : mworkers) :
  wlbs w = Memory.lb_map empty_cloud → w_jobs w = ∅ → w_others w = [] → w_svcs w !! k = None →
  other_lb.(LoadBalancer.Name) ∉ candidates s → getLoadBalancerID s = "" →
  (∀ k' s' p, w_svcs w !! k' = Some (s', p) → apart s s') → workers_step lower 10 ctrl w (do_create k s w).
Proof.
  intros Hl Hj Ho Hk Hn Hid Hap. destruct (new_service s Hn Hid) as [Hs Hno].
  assert (∀ k' c, ¬ in_flight w k' c) as Hnone.
  { intros k' c [H1|(t & _ & H1)]; [by rewrite Hj in H1|]. rewrite Ho in H1. by apply not_elem_of_nil in H1. }
  apply w_created; rewrite ?Hl; [done|done|by intros c|..].
  - intros k' s' p Hk'. split; [by eapply Hap|]. intros id Hb. by destruct (Hno id).
  - intros k' c id Hin. by destruct (Hnone k' c).
Qed.

Lemma workers_accounted_witness :
  length (w_others wk10) = 1%nat ∧ w_svcs wk10 !! "api" = None
  ∧ ∀ id, is_Some (wlbs wk11 !! id) → id = "lb-other" ∨ belongs (svc_of wk11 "web") (wlbs wk11) id.
Proof.
  split; [vm_compute; reflexivity|]. split; [vm_compute; reflexivity|].
  destruct (workers_accounted lower 10 ctrl wk0 wk11) as (_ & _ & Hor).
  - split; [|split; reflexivity]. split; [reflexivity|]. intros id [lb [-> _]%other_only]. reflexivity.
  - apply (rtc_l _ _ wk1).
    { apply do_create_step; try reflexivity; [|discriminate].
      apply (bool_decide_eq_true_1 _). vm_compute. reflexivity. }
    apply (rtc_l _ _ wk2).
    { apply do_create_step; try reflexivity.
      - apply (bool_decide_eq_true_1 _). vm_compute. reflexivity.
      - intros k' s' p Hk'.
        change ((<["web" := (web, Live)]> ∅ : gmap string (Service.t * phase)) !! k' = Some (s', p)) in Hk'.
        apply lookup_insert_Some in Hk' as [[_ [= <- _]]|[_ Hk']]; [|discriminate Hk'].
        intros n Hn Hn'. apply list_elem_of_In in Hn, Hn'. vm_compute in Hn, Hn'.
        destruct Hn as [<-|[]]. destruct Hn' as [[=]|[]]. }
    apply (rtc_l _ _ wk3); [apply (do_ensure_step "web" wk2); [vm_compute; reflexivity..|vm_compute; lia]|].
    apply (rtc_l _ _ wk4); [apply (do_ensure_step "api" wk3); [vm_compute; reflexivity..|vm_compute; lia]|].
    apply (rtc_l _ _ wk5); [apply (end_job_step true "web" wk4); vm_compute; reflexivity|].
    apply (rtc_l _ _ wk6); [apply (end_job_step false "api" wk5); vm_compute; reflexivity|].
    apply (rtc_l _ _ wk7); [apply (do_update_step "api" Live wk6); [vm_compute; reflexivity|vm_compute; lia]|].
    apply (rtc_l _ _ wk8); [apply (do_mark_step "api" wk7); vm_compute; reflexivity|].
    apply (rtc_l _ _ wk9); [apply (do_delete_step "api" wk8); [vm_compute; reflexivity..|vm_compute; lia|vm_compute; reflexivity]|].
    apply (rtc_l _ _ wk10); [apply (end_removal_step "api" wk9); vm_compute; reflexivity|].
    apply (rtc_l _ _ wk11); [apply (end_other_step true wk10); vm_compute; reflexivity|]. apply rtc_refl.
  - intros id Hex. destruct (Hor id Hex) as [Hf|(k & s & p & Hk & Hb)]; [by left|right].
    assert (k = "web") as ->.
    { assert (dom (w_svcs wk11) = ({["web"]} : gset string)) as Hd by (vm_compute; reflexivity).
      assert (k ∈ ({["web"]} : gset string)) as ?%elem_of_singleton; [|done].
      rewrite <- Hd. apply elem_of_dom. rewrite Hk. by eexists. }
    unfold svc_of. by rewrite Hk.
Defined.
